(** * llmcord: the message handler of the chat bot, embedded in Rocq

    This development embeds [src/llmcord.py] (the [on_message] handler, its
    plug-in dispatch loops, the context build, the streaming renderer and
    the cache sweep) as executable Rocq definitions, and states the
    properties of the specification against them.

    Conventions of the embedding.
    - A Python [str] is a Rocq [string], one [ascii] per character, for
      the characters below U+0100; [len] is [String.length].
    - A Python [int] is a [Z].
    - The dictionary [msg_nodes] is a [gmap Z MsgNode].
    - The handler is a function of an explicit state (the module globals,
      the state private to the plug-ins, and the sequence of calls made to
      the outside world) with three ways to stop: a normal return, an
      exception that leaves the handler, and a suspension on an
      [asyncio.Lock] held by another task.
    - Discord, the model endpoint, HTTP and the clock are read through a
      record of oracles, [World]. *)

From Stdlib Require Import ZArith String Ascii List Lia Bool DecimalString.
From stdpp Require Import gmap strings list fin_maps sorting.
Import ListNotations.
Open Scope string_scope.
Open Scope Z_scope.

Set Default Proof Using "Type".

(** ** Python built-ins used by the handler *)

Module Py.

Definition len (s : string) : Z := Z.of_nat (String.length s).

(** [s.startswith(p)] *)
Definition startswith (s p : string) : bool := String.prefix p s.

(** [sub in s] on strings *)
Definition contains (sub s : string) : bool :=
  match String.index 0 sub s with Some _ => true | None => false end.

(** [s[:n]]: a negative bound counts from the end. *)
Definition slice_to (n : Z) (s : string) : string :=
  if 0 <=? n then String.substring 0 (Z.to_nat n) s
  else String.substring 0 (Z.to_nat (len s + n)) s.

(** [s[n:]] for a bound [n >= 0]. *)
Fixpoint slice_from (n : nat) (s : string) : string :=
  match n, s with
  | O, _ => s
  | S n', EmptyString => EmptyString
  | S n', String _ s' => slice_from n' s'
  end.

(** [l[:n]] on lists. *)
Definition take {A} (n : Z) (l : list A) : list A :=
  if 0 <=? n then firstn (Z.to_nat n) l
  else firstn (Z.to_nat (Z.of_nat (List.length l) + n)) l.

Definition newline : string := String (ascii_of_nat 10) EmptyString.

(** [sep.join(parts)] *)
Fixpoint join (sep : string) (parts : list string) : string :=
  match parts with
  | [] => EmptyString
  | [p] => p
  | p :: ps => p +:+ sep +:+ join sep ps
  end.

(** ["".join(parts)] *)
Definition concat (parts : list string) : string := join EmptyString parts.

(** [c.isspace()], which [split] and [strip] go by: the blanks of ASCII
    (9 to 13, 28 to 32), U+0085 and U+00A0. *)
Definition is_space (c : ascii) : bool :=
  let n := nat_of_ascii c in
  ((9 <=? n) && (n <=? 13) || (28 <=? n) && (n <=? 32) || (n =? 133) || (n =? 160))%nat.

(** [c.lower()]: the letters A to Z, and the capitals of Latin-1, U+00C0
    to U+00DE without the sign U+00D7. *)
Definition lower_char (c : ascii) : ascii :=
  let n := nat_of_ascii c in
  if ((65 <=? n) && (n <=? 90) || (192 <=? n) && (n <=? 222) && negb (n =? 215))%nat
  then ascii_of_nat (n + 32) else c.

(** [s.lower()] *)
Fixpoint lower (s : string) : string :=
  match s with
  | EmptyString => EmptyString
  | String c s' => String (lower_char c) (lower s')
  end.

(** [s.split()]: the maximal runs of non-blank characters. [word] is the
    run being read, most recent character first. *)
Fixpoint split_aux (s : string) (word : list ascii) : list string :=
  let flush tl :=
    match word with
    | [] => tl
    | _ => string_of_list_ascii (List.rev word) :: tl
    end in
  match s with
  | EmptyString => flush []
  | String c s' =>
      if is_space c then flush (split_aux s' []) else split_aux s' (c :: word)
  end.

Definition split (s : string) : list string := split_aux s [].

Fixpoint lstrip (s : string) : string :=
  match s with
  | String c s' => if is_space c then lstrip s' else s
  | EmptyString => EmptyString
  end.

Definition reverse (s : string) : string :=
  string_of_list_ascii (List.rev (list_ascii_of_string s)).

(** [s.strip()] *)
Definition strip (s : string) : string := reverse (lstrip (reverse (lstrip s))).

(** [str(n)] for an integer. *)
Definition str (n : Z) : string := NilZero.string_of_int (Z.to_int n).

(** [s.split(sep, 1)[1]] for a one-character separator: what follows its
    first occurrence. *)
Fixpoint after_first (sep : ascii) (s : string) : option string :=
  match s with
  | EmptyString => None
  | String c s' => if Ascii.eqb c sep then Some s' else after_first sep s'
  end.

End Py.

(** ** Data of the Discord and OpenAI libraries *)

Record User := {
  user_id : Z;
  user_name : string;
  (** [Some roles] when the author is a [discord.Member] *)
  roles : option (list Z);
}.

Inductive ChannelType :=
| text_channel | public_thread | private_thread | private_channel
| voice_channel | other_channel.

Record Channel := {
  channel_id : Z;
  channel_type : ChannelType;
}.

Record Attachment := {
  filename : string;
  content_type : option string;
  size : Z;
  url : string;
}.

Record Embed := { description : option string }.

Record Message := {
  msg_id : Z;
  author : User;
  msg_content : string;
  (** [reference.message_id], when the message is a reply *)
  reference : option Z;
  attachments : list Attachment;
  embeds : list Embed;
  mentions : list Z;
  channel : Channel;
  (** microseconds since the epoch *)
  created_at : Z;
}.

(** One part of a multi-part content. *)
Inductive Part :=
| TextPart (text : string)
| ImagePart (image_url : string).

Inductive Content :=
| Text (s : string)
| Parts (ps : list Part).

Inductive Role := system | user | assistant.

(** The dictionary sent to the model for one message:
    [{"content": ..., "role": ..., "name": ...}]. *)
Record Turn := {
  content : Content;
  role : Role;
  name : option string;
}.

(** Truth value of [data["content"]]. *)
Definition content_truthy (c : Content) : bool :=
  match c with
  | Text s => negb (String.eqb s "")
  | Parts ps => match ps with [] => false | _ => true end
  end.

(** The text carried by a content. *)
Definition content_text (c : Content) : string :=
  match c with
  | Text s => s
  | Parts (TextPart t :: _) => t
  | Parts _ => ""
  end.

(** One chunk of the streamed completion. *)
Record Chunk := {
  delta_content : option string;
  finish_reason : option string;
}.

(** A streamed completion: the chunks it yields and, when it fails, the
    message of the exception raised after the last of them. A [create]
    call that fails at once is a stream with no chunk and a failure. *)
Record Stream := {
  chunks : list Chunk;
  failure : option string;
}.

(** Values a plug-in hands back. *)
Inductive PyVal :=
| PyNone
| PyBool (b : bool)
| PyStr (s : string).

Definition truthy (v : PyVal) : bool :=
  match v with
  | PyNone => false
  | PyBool b => b
  | PyStr s => negb (String.eqb s "")
  end.

(** [f"{v}"] *)
Definition fmt (v : PyVal) : string :=
  match v with
  | PyNone => "None"
  | PyBool true => "True"
  | PyBool false => "False"
  | PyStr s => s
  end.

(** A dictionary with string keys, in insertion order. *)
Definition PyDict := list (string * PyVal).

Fixpoint dict_get (k : string) (d : PyDict) : option PyVal :=
  match d with
  | [] => None
  | (k', v) :: d' => if String.eqb k k' then Some v else dict_get k d'
  end.

Inductive Exn :=
| Exception (msg : string)
| NotFound
| HTTPException
| IndexError
| KeyError
| RuntimeError.

Inductive FetchResult :=
| Fetched (m : Message)
| FetchNotFound
| FetchHTTPException.

(** ** Configuration ([config.json]) and the constants derived from it *)

Record Config := {
  (** [llm_settings["model"]], written [provider/model] *)
  llm_model : string;
  system_prompt : string;
  allowed_channel_ids : list string;
  allowed_role_ids : list Z;
  max_text : Z;
  max_images : Z;
  max_messages : Z;
  use_plain_responses : bool;
}.

Definition OTHER_BOT_IDS : list string :=
  ["1385978035861459047"; "1294381286294818816"].

(** The second character stands for U+26AA, the white circle. *)
Definition STREAMING_INDICATOR : string := " o".
Definition EDIT_DELAY_SECONDS : Z := 1.
Definition MAX_MESSAGE_NODES : Z := 100.
Definition SPEAK_EVERY_TURNS : Z := 50.

Inductive FileType := image_type | text_type.
Definition ALLOWED_FILE_TYPES : list FileType := [image_type; text_type].
Definition file_type_name (t : FileType) : string :=
  match t with image_type => "image" | text_type => "text" end.

Definition ALLOWED_CHANNEL_TYPES : list ChannelType :=
  [text_channel; public_thread; private_thread; private_channel].

Definition channel_type_eqb (a b : ChannelType) : bool :=
  match a, b with
  | text_channel, text_channel | public_thread, public_thread
  | private_thread, private_thread | private_channel, private_channel
  | voice_channel, voice_channel | other_channel, other_channel => true
  | _, _ => false
  end.

Inductive Color := dark_green | orange.
Definition EMBED_COLOR_COMPLETE : Color := dark_green.
Definition EMBED_COLOR_INCOMPLETE : Color := orange.

(** The warnings shown to the user, a set over the three texts the
    handler can add. *)
Record Warnings := {
  warn_max_text : bool;
  warn_max_images : bool;
  warn_unsupported : bool;
}.

Definition no_warnings : Warnings :=
  {| warn_max_text := false; warn_max_images := false; warn_unsupported := false |}.

(** A [discord.Embed]: its description, colour and the names of its fields. *)
Record EmbedOut := {
  embed_description : string;
  embed_color : Color;
  embed_fields : Warnings;
}.

(** What is sent to, or edited in, a channel. *)
Inductive Payload :=
| Plain (s : string)
| Rich (e : EmbedOut).

(** Calls made to the outside world, in the order they are made. *)
Inductive Event :=
| EvHook (point hook : string)
| EvLogError (msg : string)
| EvSend (channel : Z) (p : Payload) (new_id : Z)
| EvEdit (message : Z) (p : Payload)
| EvFetch (message : Z)
| EvHistory (before : Z) (limit : Z)
| EvHttpGet (url : string)
| EvTyping (channel : Z)
| EvCompletion (messages : list Turn)
| EvSleep (seconds : Z)
| EvCreateTask (task : string).

(** ** The cache of message nodes *)

Record MsgNode := {
  data : option Turn;
  next_msg : option Message;
  too_much_text : bool;
  too_many_images : bool;
  has_bad_attachments : bool;
  fetch_next_failed : bool;
  (** [lock.locked()] *)
  lock : bool;
}.

(** [MsgNode()] *)
Definition new_node : MsgNode :=
  {| data := None; next_msg := None; too_much_text := false;
     too_many_images := false; has_bad_attachments := false;
     fetch_next_failed := false; lock := false |}.

Definition set_data (d : option Turn) (n : MsgNode) : MsgNode :=
  {| data := d; next_msg := next_msg n; too_much_text := too_much_text n;
     too_many_images := too_many_images n;
     has_bad_attachments := has_bad_attachments n;
     fetch_next_failed := fetch_next_failed n; lock := lock n |}.

Definition set_too_much_text (b : bool) (n : MsgNode) : MsgNode :=
  {| data := data n; next_msg := next_msg n; too_much_text := b;
     too_many_images := too_many_images n;
     has_bad_attachments := has_bad_attachments n;
     fetch_next_failed := fetch_next_failed n; lock := lock n |}.

Definition set_too_many_images (b : bool) (n : MsgNode) : MsgNode :=
  {| data := data n; next_msg := next_msg n; too_much_text := too_much_text n;
     too_many_images := b;
     has_bad_attachments := has_bad_attachments n;
     fetch_next_failed := fetch_next_failed n; lock := lock n |}.

Definition set_has_bad_attachments (b : bool) (n : MsgNode) : MsgNode :=
  {| data := data n; next_msg := next_msg n; too_much_text := too_much_text n;
     too_many_images := too_many_images n;
     has_bad_attachments := b;
     fetch_next_failed := fetch_next_failed n; lock := lock n |}.

Definition set_lock (b : bool) (n : MsgNode) : MsgNode :=
  {| data := data n; next_msg := next_msg n; too_much_text := too_much_text n;
     too_many_images := too_many_images n;
     has_bad_attachments := has_bad_attachments n;
     fetch_next_failed := fetch_next_failed n; lock := b |}.

Record ConverseState := {
  active : bool;
  exchanges_left : Z;
  converse_channel_id : option Z;
}.

(** ** The outside world *)

(** Every answer the handler gets from outside its own code. [clock] and
    [edit_done] are indexed by the number of readings made so far,
    [sent_id] by the number of messages the bot has sent. Times are in
    microseconds. Discord accepts every [send] and [edit]; an HTTP [GET]
    answers. *)
Record World := {
  (** [discord_client.user] *)
  bot_user : User;
  (** [reference.cached_message] *)
  cached_message : Z -> option Message;
  (** [channel.fetch_message(id)] *)
  fetch_message : Z -> FetchResult;
  (** the messages of the channel before the given one, newest first *)
  channel_history : Message -> list Message;
  (** [requests.get(url).text] *)
  http_text : string -> string;
  (** [base64.b64encode(requests.get(url).content).decode('utf-8')] *)
  http_base64 : string -> string;
  (** [openai_client.chat.completions.create(messages=..., stream=True)] *)
  completions_create : list Turn -> Stream;
  (** [dt.now().timestamp()] *)
  clock : nat -> Z;
  (** [edit_task.done()] *)
  edit_done : nat -> bool;
  (** the identifier Discord gives the next message sent *)
  sent_id : nat -> Z;
  (** [dt.now().strftime('%B %d %Y')] *)
  today : string;
  (** [re.search(rf'\b{word}\b', text, re.IGNORECASE)] finds a match *)
  re_search_word : string -> string -> bool;
  (** [int(s)], [None] for a [ValueError] *)
  py_int : string -> option Z;
}.

(** ** Plug-ins *)

(** How a call into a plug-in ends. *)
Inductive Outcome (R : Type) :=
| Returns (r : R)
| Raises (e : Exn).
Arguments Returns {R} r.
Arguments Raises {R} e.

(** A registered callable. [P] is the state private to the plug-ins (their
    files, their counters, what they did to Discord on their own): a call
    reads and changes it and the handler never looks inside. *)
Record Hook (P A R : Type) := {
  hook_name : string;
  hook_run : A -> P -> P * Outcome R;
}.
Arguments hook_name {P A R} _.
Arguments hook_run {P A R} _ _ _.

(** A [before_llm_call] callable receives the list [messages] itself and
    may change it in place before it returns or raises: the second
    component is the list as the call leaves it. *)
Record BeforeHook (P : Type) := {
  before_name : string;
  before_run :
    list Turn -> Message -> P -> P * list Turn * Outcome (option (list Turn));
}.
Arguments before_name {P} _.
Arguments before_run {P} _ _ _ _.

(** [plugin_hooks], as [load_plugins] leaves it, and [loaded_plugins]
    (the name of each plug-in with the dictionary its [setup] returned). *)
Record PluginHooks (P : Type) := {
  on_bot_ready : list (Hook P User unit);
  on_message_received : list (Hook P Message PyVal);
  process_attachment :
    list (Hook P (Attachment * bool * option Message) (option PyDict));
  before_llm_call : list (BeforeHook P);
  after_llm_response : list (Hook P (Message * string) unit);
  custom_commands : gmap string (Hook P (Message * string) unit);
  loaded_plugins : list (string * PyDict);
}.
Arguments on_bot_ready {P} _.
Arguments on_message_received {P} _.
Arguments process_attachment {P} _.
Arguments before_llm_call {P} _.
Arguments after_llm_response {P} _.
Arguments custom_commands {P} _.
Arguments loaded_plugins {P} _.

(** ** State and the handler monad *)

Record State (P : Type) := {
  msg_nodes : gmap Z MsgNode;
  last_task_time : option Z;
  converse_state : ConverseState;
  MESSAGE_COUNT : Z;
  (** the state private to the plug-ins *)
  plugin_state : P;
  (** how many times the clock and the edit task have been read *)
  readings : nat;
  (** how many messages the bot has sent *)
  sent : nat;
  (** the calls made to the outside world, most recent first *)
  trace : list Event;
}.
Arguments msg_nodes {P} _.
Arguments last_task_time {P} _.
Arguments converse_state {P} _.
Arguments MESSAGE_COUNT {P} _.
Arguments plugin_state {P} _.
Arguments readings {P} _.
Arguments sent {P} _.
Arguments trace {P} _.

(** How a run of the handler, or of a part of it, stops. [Wait id]: the
    task is suspended on the lock of node [id], held by another task.
    [OutOfFuel]: the bound put on a [while] loop was reached. *)
Inductive Res (A : Type) :=
| Ok (a : A)
| Raise (e : Exn)
| Wait (id : Z)
| OutOfFuel.
Arguments Ok {A} a.
Arguments Raise {A} e.
Arguments Wait {A} id.
Arguments OutOfFuel {A}.

Definition M (P A : Type) : Type := State P -> Res A * State P.

Definition ret {P A} (a : A) : M P A := fun st => (Ok a, st).

Definition bind {P A B} (c : M P A) (k : A -> M P B) : M P B :=
  fun st =>
    match c st with
    | (Ok a, st') => k a st'
    | (Raise e, st') => (Raise e, st')
    | (Wait id, st') => (Wait id, st')
    | (OutOfFuel, st') => (OutOfFuel, st')
    end.

Declare Scope handler_scope.
Delimit Scope handler_scope with handler.
Bind Scope handler_scope with M.

Notation "x <- c1 ;; c2" := (bind c1 (fun x => c2))
  (at level 100, c1 at next level, right associativity) : handler_scope.
Notation "'do' c1 ;; c2" := (bind c1 (fun _ => c2))
  (at level 100, c1 at next level, right associativity) : handler_scope.

Open Scope handler_scope.

Definition raise {P A} (e : Exn) : M P A := fun st => (Raise e, st).
Definition wait {P A} (id : Z) : M P A := fun st => (Wait id, st).
Definition out_of_fuel {P A} : M P A := fun st => (OutOfFuel, st).
Definition get_state {P} : M P (State P) := fun st => (Ok st, st).
Definition modify {P} (f : State P -> State P) : M P unit := fun st => (Ok tt, f st).

(** [try: body  except Exception as e: handler(e)] *)
Definition try_except {P A} (body : M P A) (handler : Exn -> M P A) : M P A :=
  fun st =>
    match body st with
    | (Raise e, st') => handler e st'
    | r => r
    end.

(** [try: body  except (discord.NotFound, discord.HTTPException): handler] *)
Definition try_except_discord {P A} (body : M P A) (handler : M P A) : M P A :=
  fun st =>
    match body st with
    | (Raise NotFound, st') => handler st'
    | (Raise HTTPException, st') => handler st'
    | r => r
    end.

Definition with_msg_nodes {P} (f : gmap Z MsgNode -> gmap Z MsgNode) (st : State P) : State P :=
  {| msg_nodes := f (msg_nodes st); last_task_time := last_task_time st;
     converse_state := converse_state st; MESSAGE_COUNT := MESSAGE_COUNT st;
     plugin_state := plugin_state st; readings := readings st;
     sent := sent st; trace := trace st |}.

Definition with_last_task_time {P} (t : option Z) (st : State P) : State P :=
  {| msg_nodes := msg_nodes st; last_task_time := t;
     converse_state := converse_state st; MESSAGE_COUNT := MESSAGE_COUNT st;
     plugin_state := plugin_state st; readings := readings st;
     sent := sent st; trace := trace st |}.

Definition with_converse_state {P} (c : ConverseState) (st : State P) : State P :=
  {| msg_nodes := msg_nodes st; last_task_time := last_task_time st;
     converse_state := c; MESSAGE_COUNT := MESSAGE_COUNT st;
     plugin_state := plugin_state st; readings := readings st;
     sent := sent st; trace := trace st |}.

Definition with_MESSAGE_COUNT {P} (n : Z) (st : State P) : State P :=
  {| msg_nodes := msg_nodes st; last_task_time := last_task_time st;
     converse_state := converse_state st; MESSAGE_COUNT := n;
     plugin_state := plugin_state st; readings := readings st;
     sent := sent st; trace := trace st |}.

Definition with_plugin_state {P} (p : P) (st : State P) : State P :=
  {| msg_nodes := msg_nodes st; last_task_time := last_task_time st;
     converse_state := converse_state st; MESSAGE_COUNT := MESSAGE_COUNT st;
     plugin_state := p; readings := readings st;
     sent := sent st; trace := trace st |}.

Definition with_readings {P} (n : nat) (st : State P) : State P :=
  {| msg_nodes := msg_nodes st; last_task_time := last_task_time st;
     converse_state := converse_state st; MESSAGE_COUNT := MESSAGE_COUNT st;
     plugin_state := plugin_state st; readings := n;
     sent := sent st; trace := trace st |}.

Definition with_sent {P} (n : nat) (st : State P) : State P :=
  {| msg_nodes := msg_nodes st; last_task_time := last_task_time st;
     converse_state := converse_state st; MESSAGE_COUNT := MESSAGE_COUNT st;
     plugin_state := plugin_state st; readings := readings st;
     sent := n; trace := trace st |}.

Definition with_trace {P} (t : list Event) (st : State P) : State P :=
  {| msg_nodes := msg_nodes st; last_task_time := last_task_time st;
     converse_state := converse_state st; MESSAGE_COUNT := MESSAGE_COUNT st;
     plugin_state := plugin_state st; readings := readings st;
     sent := sent st; trace := t |}.

Definition emit {P} (ev : Event) : M P unit :=
  modify (fun st => with_trace (ev :: trace st) st).

(** [logging.error(text)] *)
Definition log_error {P} (text : string) : M P unit := emit (EvLogError text).

Definition exn_text (e : Exn) : string :=
  match e with
  | Exception msg => msg
  | NotFound => "NotFound"
  | HTTPException => "HTTPException"
  | IndexError => "list index out of range"
  | KeyError => "KeyError"
  | RuntimeError => "Lock is not acquired."
  end.

(** [await hook(args)]: the call is recorded, the plug-ins' state moves,
    and an exception of the callable is raised at the call. *)
Definition call {P A R} (point : string) (h : Hook P A R) (a : A) : M P R :=
  fun st =>
    let '(p', out) := hook_run h a (plugin_state st) in
    let st' := with_trace (EvHook point (hook_name h) :: trace st) (with_plugin_state p' st) in
    match out with
    | Returns r => (Ok r, st')
    | Raises e => (Raise e, st')
    end.

(** ** The handler *)

Section Handler.

Context {P : Type}.
Variable cfg : Config.
Variable w : World.
Variable plugin_hooks : PluginHooks P.

Definition ALLOWED_CHANNEL_IDS : list string := allowed_channel_ids cfg.
Definition ALLOWED_ROLE_IDS : list Z := allowed_role_ids cfg.
Definition MAX_TEXT : Z := max_text cfg.
Definition MAX_IMAGES : Z := max_images cfg.
Definition MAX_MESSAGES : Z := max_messages cfg.
Definition USE_PLAIN_RESPONSES : bool := use_plain_responses cfg.

Definition MAX_MESSAGE_LENGTH : Z :=
  if USE_PLAIN_RESPONSES then 3000 else 4096 - Py.len STREAMING_INDICATOR.

(** [provider, model = llm_settings["model"].split("/", 1)] *)
Definition model : string :=
  match Py.after_first "/"%char (llm_model cfg) with
  | Some m => m
  | None => llm_model cfg
  end.

Definition LLM_ACCEPTS_IMAGES : bool :=
  existsb (fun x => Py.contains x model)
    ["gpt-4o"; "claude-3"; "gemini"; "pixtral"; "llava"; "vision"; "llama3.2-vision"].

Definition LLM_ACCEPTS_NAMES : bool := Py.contains "openai/" (llm_model cfg).

Definition string_in (s : string) (l : list string) : bool :=
  existsb (String.eqb s) l.

Definition Z_in (n : Z) (l : list Z) : bool := existsb (Z.eqb n) l.

(** [a == b] on users *)
Definition same_user (a b : User) : bool := user_id a =? user_id b.

Definition nonempty (s : string) : bool := negb (String.eqb s "").

(** *** Primitives on the cache, the clock and the channel *)

(** [msg_nodes.setdefault(id, MsgNode())] *)
Definition setdefault (id : Z) : M P MsgNode :=
  fun st =>
    match msg_nodes st !! id with
    | Some n => (Ok n, st)
    | None => (Ok new_node, with_msg_nodes (insert id new_node) st)
    end.

(** A node object is reached through its key: within one run of the
    handler the entry made or found by [setdefault] is the object the
    local variable holds. *)
Definition read_node (id : Z) : M P MsgNode :=
  fun st => (Ok (default new_node (msg_nodes st !! id)), st).

Definition update_node (id : Z) (f : MsgNode -> MsgNode) : M P unit :=
  modify (with_msg_nodes (alter f id)).

(** [msg_nodes[id] = MsgNode(); await msg_nodes[id].lock.acquire()] *)
Definition new_locked_node (id : Z) : M P unit :=
  modify (with_msg_nodes (insert id (set_lock true new_node))).

(** [async with node.lock: body]. When another task holds the lock the
    handler is suspended there. The lock is released when the body ends,
    also by an exception. *)
Definition with_lock {A} (id : Z) (body : M P A) : M P A :=
  fun st =>
    if lock (default new_node (msg_nodes st !! id)) then (Wait id, st)
    else
      match body (with_msg_nodes (alter (set_lock true) id) st) with
      | (Ok a, st') => (Ok a, with_msg_nodes (alter (set_lock false) id) st')
      | (Raise e, st') => (Raise e, with_msg_nodes (alter (set_lock false) id) st')
      | r => r
      end.

(** [dt.now().timestamp()] *)
Definition now : M P Z :=
  fun st => (Ok (clock w (readings st)), with_readings (S (readings st)) st).

(** [edit_task.done()] *)
Definition task_done : M P bool :=
  fun st => (Ok (edit_done w (readings st)), with_readings (S (readings st)) st).

(** [await channel.send(...)]: the identifier of the message created *)
Definition send (ch : Channel) (p : Payload) : M P Z :=
  fun st =>
    let id := sent_id w (sent st) in
    (Ok id, with_trace (EvSend (channel_id ch) p id :: trace st)
              (with_sent (S (sent st)) st)).

(** [reference.cached_message or await channel.fetch_message(id)] *)
Definition resolve (ref_id : Z) : M P Message :=
  match cached_message w ref_id with
  | Some m => ret m
  | None =>
      do emit (EvFetch ref_id) ;;
      match fetch_message w ref_id with
      | Fetched m => ret m
      | FetchNotFound => raise NotFound
      | FetchHTTPException => raise HTTPException
      end
  end.

Definition get_system_prompt : Turn :=
  let system_prompt_extras :=
    (["Today's date: " +:+ today w +:+ "."]
     ++ (if LLM_ACCEPTS_NAMES
         then ["User's names are their Discord IDs and should be typed as '<@ID>'."]
         else [])
     ++ ["You are in a group chat. Respond to the latest message while considering relevant conversation context."])%list in
  {| content := Text (Py.join Py.newline (system_prompt cfg :: system_prompt_extras));
     role := system; name := None |}.

(** *** Extension point [on_bot_ready] ([on_ready], lines 152-156) *)

Fixpoint ready_hooks (hooks : list (Hook P User unit)) : M P unit :=
  match hooks with
  | [] => ret tt
  | hook :: rest =>
      do try_except
           (call "on_bot_ready" hook (bot_user w))
           (fun e => log_error ("Error in on_bot_ready hook: " +:+ exn_text e)) ;;
      ready_hooks rest
  end.

Definition on_ready : M P unit :=
  do ready_hooks (on_bot_ready plugin_hooks) ;;
  emit (EvCreateTask "birthday_checker").

(** *** Extension point [on_message_received] (lines 201-209)

    The value returned is [stop_processing]. *)

Definition is_False (v : PyVal) : bool :=
  match v with PyBool false => true | _ => false end.

Fixpoint received_hooks (hooks : list (Hook P Message PyVal)) (new_msg : Message)
  : M P bool :=
  match hooks with
  | [] => ret false
  | hook :: rest =>
      stop <- try_except
                (result <- call "on_message_received" hook new_msg ;;
                 ret (is_False result))
                (fun e =>
                   do log_error ("Error in on_message_received hook: " +:+ exn_text e) ;;
                   ret false) ;;
      if stop : bool then ret true            (* stop_processing = True; break *)
      else received_hooks rest new_msg
  end.

(** *** Turning a message into a turn: the parts shared by the three copies *)

(** [text_parts] and [image_parts]; an image part is kept as the URL of
    its [{"type": "image_url", "image_url": {"url": ...}}]. *)
Record Gathered := {
  text_parts : list string;
  image_parts : list string;
}.

Definition add_text (s : string) (g : Gathered) : Gathered :=
  {| text_parts := (text_parts g ++ [s])%list; image_parts := image_parts g |}.

Definition add_image (p : string) (g : Gathered) : Gathered :=
  {| text_parts := text_parts g; image_parts := (image_parts g ++ [p])%list |}.

(** [good_attachments[type]] *)
Definition good_attachments (t : FileType) (atts : list Attachment) : list Attachment :=
  List.filter
    (fun att =>
       match content_type att with
       | Some ct =>
           nonempty ct && Py.contains (file_type_name t) ct && (size att <=? 10000000)
       | None => false
       end)
    atts.

(** [f"{att.content_type}"] *)
Definition fmt_content_type (att : Attachment) : string :=
  match content_type att with Some ct => ct | None => "None" end.

Definition image_url_part (att : Attachment) (base64 : string) : string :=
  "data:" +:+ fmt_content_type att +:+ ";base64," +:+ base64.

(** [if result:] on what a [process_attachment] callable returned *)
Definition claimed (result : option PyDict) : option PyDict :=
  match result with
  | Some ((_ :: _) as d) => Some d
  | _ => None
  end.

(** What is done with a claimed attachment (lines 315-318, 373-376,
    430-436). *)
Definition take_result (att : Attachment) (result : PyDict) (g : Gathered) : Gathered :=
  let g1 :=
    match dict_get "caption" result with
    | Some caption =>
        if truthy caption
        then add_text ("[Image description: " +:+ fmt caption +:+ "]") g
        else g
    | None => g
    end in
  match dict_get "image_data" result with
  | Some image_data =>
      if LLM_ACCEPTS_IMAGES then add_image (image_url_part att (fmt image_data)) g1
      else g1
  | None => g1
  end.

(** The image fetched and encoded by the handler itself. *)
Definition default_image (att : Attachment) (g : Gathered) : M P Gathered :=
  do emit (EvHttpGet (url att)) ;;
  ret (add_image (image_url_part att (http_base64 w (url att))) g).

(** Extension point [process_attachment], as the reply walk (lines
    310-322) and the current message (lines 422-440) run it: the value
    returned is [(processed, parts)]. *)
Fixpoint attachment_hooks
  (hooks : list (Hook P (Attachment * bool * option Message) (option PyDict)))
  (att : Attachment) (message : option Message) (g : Gathered)
  : M P (bool * Gathered) :=
  match hooks with
  | [] => ret (false, g)
  | hook :: rest =>
      taken <- try_except
                 (result <- call "process_attachment" hook (att, LLM_ACCEPTS_IMAGES, message) ;;
                  match claimed result with
                  | Some d => ret (Some (take_result att d g))
                  | None => ret None
                  end)
                 (fun e =>
                    do log_error ("Error in process_attachment hook: " +:+ exn_text e) ;;
                    ret None) ;;
      match taken with
      | Some g' => ret (true, g')             (* processed = True; break *)
      | None => attachment_hooks rest att message g
      end
  end.

(** One image attachment (lines 309-326, 421-445). *)
Definition image_attachment (message : Message) (att : Attachment) (g : Gathered)
  : M P Gathered :=
  r <- attachment_hooks (process_attachment plugin_hooks) att (Some message) g ;;
  let '(processed, g') := r in
  if negb processed && LLM_ACCEPTS_IMAGES then default_image att g' else ret g'.

(** The same extension point as the scan of the channel runs it (lines
    368-384): the callable gets no [message], and the handler's own
    encoding sits inside the loop over the callables, after the [try]. *)
Fixpoint attachment_hooks_history
  (hooks : list (Hook P (Attachment * bool * option Message) (option PyDict)))
  (att : Attachment) (g : Gathered) : M P Gathered :=
  match hooks with
  | [] => ret g
  | hook :: rest =>
      taken <- try_except
                 (result <- call "process_attachment" hook (att, LLM_ACCEPTS_IMAGES, None) ;;
                  match claimed result with
                  | Some d => ret (Some (take_result att d g))
                  | None => ret None
                  end)
                 (fun e =>
                    do log_error ("Error in process_attachment hook: " +:+ exn_text e) ;;
                    ret None) ;;
      match taken with
      | Some g' => ret g'                     (* processed = True; break *)
      | None =>
          g' <- (if LLM_ACCEPTS_IMAGES then default_image att g else ret g) ;;
          attachment_hooks_history rest att g'
      end
  end.

(** [for att in ...: body] threading the parts gathered *)
Fixpoint for_each {A} (body : A -> Gathered -> M P Gathered) (l : list A) (g : Gathered)
  : M P Gathered :=
  match l with
  | [] => ret g
  | x :: rest => g' <- body x g ;; for_each body rest g'
  end.

(** [[embed.description for embed in embeds if embed.description]] *)
Definition embed_descriptions (es : list Embed) : list string :=
  flat_map
    (fun e => match description e with
              | Some d => if nonempty d then [d] else []
              | None => []
              end)
    es.

(** [[requests.get(att.url).text for att in good if att.size <= 10_000_000]] *)
Fixpoint attachment_texts (atts : list Attachment) : M P (list string) :=
  match atts with
  | [] => ret []
  | att :: rest =>
      if size att <=? 10000000 then
        do emit (EvHttpGet (url att)) ;;
        texts <- attachment_texts rest ;;
        ret (http_text w (url att) :: texts)
      else attachment_texts rest
  end.

(** The content of the turn (lines 335-338, 393-396, 455-458). *)
Definition make_content (text : string) (images : list string) : Content :=
  match images with
  | [] => Text text
  | _ => Parts ((if nonempty text then [TextPart text] else []) ++ map ImagePart images)%list
  end.

Definition initial_parts (body : string) : Gathered :=
  {| text_parts := if nonempty body then [body] else []; image_parts := [] |}.

Definition author_turn (m : Message) (c : Content) : Turn :=
  {| content := c;
     role := if same_user (author m) (bot_user w) then assistant else user;
     name := if LLM_ACCEPTS_NAMES then Some (Py.str (user_id (author m))) else None |}.

(** Embeds, text attachments, the join and the cut at [MAX_TEXT] (lines
    328-333, 386-391, 447-452): the text and whether it was cut. *)
Definition finish_text (m : Message) (g : Gathered) : M P (string * bool) :=
  let with_embeds := (text_parts g ++ embed_descriptions (embeds m))%list in
  texts <- attachment_texts (good_attachments text_type (attachments m)) ;;
  let text := Py.join Py.newline (with_embeds ++ texts)%list in
  if Py.len text >? MAX_TEXT
  then ret (Py.slice_to MAX_TEXT text, true)
  else ret (text, false).

(** *** The reply walk (lines 295-349) *)

(** The body of [async with ref_node.lock] (lines 302-343). *)
Definition fill_reference_node (ref_msg : Message) : M P unit :=
  ref_node <- read_node (msg_id ref_msg) ;;
  match data ref_node with
  | Some _ => ret tt
  | None =>
      g <- for_each (image_attachment ref_msg)
             (Py.take MAX_IMAGES (good_attachments image_type (attachments ref_msg)))
             (initial_parts (msg_content ref_msg)) ;;
      r <- finish_text ref_msg g ;;
      let '(text, cut) := r in
      do (if cut : bool then update_node (msg_id ref_msg) (set_too_much_text true)
          else ret tt) ;;
      update_node (msg_id ref_msg)
        (set_data (Some (author_turn ref_msg (make_content text (image_parts g)))))
  end.

(** [if node.data["content"]: conversation_history.append(node.data)] *)
Definition append_turn (id : Z) (conversation_history : list Turn) : M P (list Turn) :=
  node <- read_node id ;;
  match data node with
  | Some d =>
      ret (if content_truthy (content d) then (conversation_history ++ [d])%list
           else conversation_history)
  | None => raise KeyError
  end.

(** [while current_msg.reference: ...]. [fuel] bounds the number of
    links followed; the loop itself has no bound. *)
Fixpoint reply_walk (fuel : nat) (current_msg : Message) (conversation_history : list Turn)
  : M P (list Turn) :=
  match reference current_msg with
  | None => ret conversation_history
  | Some ref_id =>
      match fuel with
      | O => out_of_fuel
      | S fuel' =>
          step <- try_except_discord
                    (ref_msg <- resolve ref_id ;;
                     do setdefault (msg_id ref_msg) ;;
                     do with_lock (msg_id ref_msg) (fill_reference_node ref_msg) ;;
                     history' <- append_turn (msg_id ref_msg) conversation_history ;;
                     ret (Some (ref_msg, history')))
                    (ret None) ;;
          match step with
          | Some (ref_msg, history') => reply_walk fuel' ref_msg history'
          | None => ret conversation_history          (* break *)
          end
      end
  end.

(** *** The scan of the channel (lines 351-404) *)

(** The body of [async with prev_node.lock] (lines 360-401). *)
Definition fill_history_node (prev_msg : Message) : M P unit :=
  prev_node <- read_node (msg_id prev_msg) ;;
  match data prev_node with
  | Some _ => ret tt
  | None =>
      g <- for_each (attachment_hooks_history (process_attachment plugin_hooks))
             (Py.take MAX_IMAGES (good_attachments image_type (attachments prev_msg)))
             (initial_parts (msg_content prev_msg)) ;;
      r <- finish_text prev_msg g ;;
      let '(text, cut) := r in
      do (if cut : bool then update_node (msg_id prev_msg) (set_too_much_text true)
          else ret tt) ;;
      update_node (msg_id prev_msg)
        (set_data (Some (author_turn prev_msg (make_content text (image_parts g)))))
  end.

(** Seconds of the recency window, in microseconds. *)
Definition recency_window : Z := 300 * 1000000.

(** [async for prev_msg in history: ...] over the messages the call to
    [history] yields. *)
Fixpoint history_scan (msgs : list Message) (new_msg : Message)
  (conversation_history : list Turn) : M P (list Turn) :=
  match msgs with
  | [] => ret conversation_history
  | prev_msg :: rest =>
      if same_user (author prev_msg) (bot_user w)
         && negb (nonempty (msg_content prev_msg))
         && match embeds prev_msg with [] => true | _ => false end
      then history_scan rest new_msg conversation_history       (* continue *)
      else
        let time_diff := created_at new_msg - created_at prev_msg in
        if time_diff >? recency_window then ret conversation_history   (* break *)
        else
          do setdefault (msg_id prev_msg) ;;
          do with_lock (msg_id prev_msg) (fill_history_node prev_msg) ;;
          history' <- append_turn (msg_id prev_msg) conversation_history ;;
          history_scan rest new_msg history'
  end.

(** [new_msg.channel.history(before=new_msg, limit=MAX_MESSAGES)] *)
Definition history (new_msg : Message) : M P (list Message) :=
  do emit (EvHistory (msg_id new_msg) MAX_MESSAGES) ;;
  ret (firstn (Z.to_nat MAX_MESSAGES) (channel_history w new_msg)).

(** *** The current message (lines 406-472) *)

(** The body of [async with curr_node.lock]: the warnings added. *)
Definition fill_current_node (new_msg : Message) (effective_content user_id : string)
  : M P Warnings :=
  curr_node <- read_node (msg_id new_msg) ;;
  match data curr_node with
  | Some _ => ret no_warnings
  | None =>
      let good_image := good_attachments image_type (attachments new_msg) in
      let good_text := good_attachments text_type (attachments new_msg) in
      g <- for_each (image_attachment new_msg) (Py.take MAX_IMAGES good_image)
             (initial_parts effective_content) ;;
      r <- finish_text new_msg g ;;
      let '(text, cut) := r in
      do (if cut : bool then update_node (msg_id new_msg) (set_too_much_text true)
          else ret tt) ;;
      do update_node (msg_id new_msg)
           (set_data (Some {| content := make_content text (image_parts g);
                              role := user;
                              name := if LLM_ACCEPTS_NAMES then Some user_id else None |})) ;;
      let many := Z.of_nat (List.length good_image) >? MAX_IMAGES in
      let bad := (List.length good_image + List.length good_text
                  <? List.length (attachments new_msg))%nat in
      do update_node (msg_id new_msg) (set_too_many_images many) ;;
      do update_node (msg_id new_msg) (set_has_bad_attachments bad) ;;
      ret {| warn_max_text := cut; warn_max_images := many; warn_unsupported := bad |}
  end.

(** *** The context build (lines 292-474): the list [messages] and the
    warnings. *)
Definition build_context (fuel : nat) (new_msg : Message) (ignore_history : bool)
  (effective_content user_id : string) : M P (list Turn * Warnings) :=
  conversation_history <-
    (if negb ignore_history && match reference new_msg with Some _ => true | None => false end
     then h <- reply_walk fuel new_msg [] ;; ret (rev h)
     else if negb ignore_history
     then msgs <- history new_msg ;;
          h <- history_scan msgs new_msg [] ;; ret (rev h)
     else ret []) ;;
  do setdefault (msg_id new_msg) ;;
  user_warnings <- with_lock (msg_id new_msg)
                     (fill_current_node new_msg effective_content user_id) ;;
  conversation_history' <- append_turn (msg_id new_msg) conversation_history ;;
  ret (Py.take (MAX_MESSAGES + 1) (get_system_prompt :: conversation_history'),
       user_warnings).

(** *** Extension point [before_llm_call] (lines 476-480) *)

(** [messages = await hook(messages, new_msg) or messages], inside its
    [try]. *)
Definition before_hook (hook : BeforeHook P) (messages : list Turn) (new_msg : Message)
  : M P (list Turn) :=
  fun st =>
    let '(p', in_place, out) := before_run hook messages new_msg (plugin_state st) in
    let st' := with_trace (EvHook "before_llm_call" (before_name hook) :: trace st)
                 (with_plugin_state p' st) in
    match out with
    | Returns (Some ((_ :: _) as replacement)) => (Ok replacement, st')
    | Returns _ => (Ok in_place, st')
    | Raises e =>
        (Ok in_place,
         with_trace (EvLogError ("Error in before_llm_call hook: " +:+ exn_text e) :: trace st') st')
    end.

Fixpoint before_hooks (hooks : list (BeforeHook P)) (messages : list Turn) (new_msg : Message)
  : M P (list Turn) :=
  match hooks with
  | [] => ret messages
  | hook :: rest =>
      messages' <- before_hook hook messages new_msg ;;
      before_hooks rest messages' new_msg
  end.

(** *** The streaming renderer (lines 484-559) *)

(** The local variables of the renderer. [edit_task] tells whether an
    edit task has been created. [embed] is read only after the first
    chunk has assigned it. *)
Record Rendering := {
  response_msgs : list Z;
  response_contents : list string;
  edit_task : bool;
  embed : EmbedOut;
}.

Definition no_response : Rendering :=
  {| response_msgs := []; response_contents := []; edit_task := false;
     embed := {| embed_description := STREAMING_INDICATOR;
                 embed_color := EMBED_COLOR_INCOMPLETE;
                 embed_fields := no_warnings |} |}.

(** [l[-1] += s] *)
Fixpoint append_to_last (s : string) (l : list string) : list string :=
  match l with
  | [] => []
  | [x] => [x +:+ s]
  | x :: l' => x :: append_to_last s l'
  end.

(** The placeholder message and its node, lock held (lines 497-511 for
    the first segment, with the warnings; 515-525 for the next ones). *)
Definition placeholder (new_msg : Message) (fields : Warnings) (r : Rendering)
  : M P Rendering :=
  if negb USE_PLAIN_RESPONSES then
    let e := {| embed_description := STREAMING_INDICATOR;
                embed_color := EMBED_COLOR_INCOMPLETE;
                embed_fields := fields |} in
    response_msg <- send (channel new_msg) (Rich e) ;;
    do new_locked_node response_msg ;;
    ret {| response_msgs := (response_msgs r ++ [response_msg])%list;
           response_contents := response_contents r;
           edit_task := edit_task r; embed := e |}
  else
    response_msg <- send (channel new_msg) (Plain STREAMING_INDICATOR) ;;
    do new_locked_node response_msg ;;
    ret {| response_msgs := (response_msgs r ++ [response_msg])%list;
           response_contents := response_contents r;
           edit_task := edit_task r; embed := embed r |}.

Definition with_contents (l : list string) (r : Rendering) : Rendering :=
  {| response_msgs := response_msgs r; response_contents := l;
     edit_task := edit_task r; embed := embed r |}.

(** Lines 495-511. *)
Definition first_segment (new_msg : Message) (user_warnings : Warnings) (r : Rendering)
  : M P Rendering :=
  r' <- placeholder new_msg user_warnings (with_contents [""] r) ;;
  t <- now ;;
  do modify (with_last_task_time (Some t)) ;;
  ret r'.

(** Lines 513-525. *)
Definition next_segment (new_msg : Message) (r : Rendering) : M P Rendering :=
  placeholder new_msg no_warnings
    (with_contents (response_contents r ++ [""])%list r).

(** [should_update] (lines 530, 541), read left to right. *)
Definition should_update (finish : option string) (r : Rendering) : M P bool :=
  match finish with
  | Some _ => ret true
  | None =>
      free <- (if edit_task r then task_done else ret true) ;;
      if free : bool then
        t <- now ;;
        st <- get_state ;;
        (* [last_task_time] was set by the first chunk *)
        ret (EDIT_DELAY_SECONDS * 1000000 <=? t - default 0 (last_task_time st))
      else ret false
  end.

(** [not finish_reason] *)
Definition unfinished (finish : option string) : bool :=
  match finish with
  | Some s => negb (nonempty s)
  | None => true
  end.

(** Lines 532-539 and 543-549. The wait for the previous edit task
    changes nothing here. *)
Definition push_update (finish : option string) (r : Rendering) : M P Rendering :=
  let shown := List.last (response_contents r) ""
               +:+ (if unfinished finish then STREAMING_INDICATOR else "") in
  let target := List.last (response_msgs r) 0 in
  if negb USE_PLAIN_RESPONSES then
    let e := {| embed_description := shown;
                embed_color := match finish with
                               | Some reason =>
                                   if String.eqb reason "stop"
                                   then EMBED_COLOR_COMPLETE else EMBED_COLOR_INCOMPLETE
                               | None => EMBED_COLOR_INCOMPLETE
                               end;
                embed_fields := embed_fields (embed r) |} in
    do emit (EvEdit target (Rich e)) ;;
    t <- now ;;
    do modify (with_last_task_time (Some t)) ;;
    ret {| response_msgs := response_msgs r; response_contents := response_contents r;
           edit_task := true; embed := e |}
  else
    do emit (EvEdit target (Plain shown)) ;;
    t <- now ;;
    do modify (with_last_task_time (Some t)) ;;
    ret {| response_msgs := response_msgs r; response_contents := response_contents r;
           edit_task := true; embed := embed r |}.

(** The body of [async for curr_chunk in ...] (lines 492-549). *)
Definition render_chunk (new_msg : Message) (user_warnings : Warnings)
  (curr_chunk : Chunk) (r : Rendering) : M P Rendering :=
  let curr_content := default "" (delta_content curr_chunk) in
  let finish := finish_reason curr_chunk in
  r1 <- match response_contents r with
        | [] => first_segment new_msg user_warnings r
        | _ => ret r
        end ;;
  r2 <- (if Py.len (List.last (response_contents r1) "" +:+ curr_content) >? MAX_MESSAGE_LENGTH
         then next_segment new_msg r1 else ret r1) ;;
  let r3 := with_contents (append_to_last curr_content (response_contents r2)) r2 in
  update <- should_update finish r3 ;;
  if update : bool then push_update finish r3 else ret r3.

Fixpoint render_chunks (new_msg : Message) (user_warnings : Warnings)
  (cs : list Chunk) (r : Rendering) : M P Rendering :=
  match cs with
  | [] => ret r
  | c :: rest =>
      r' <- render_chunk new_msg user_warnings c r ;;
      render_chunks new_msg user_warnings rest r'
  end.

(** Lines 551-556. *)
Fixpoint plain_messages (new_msg : Message) (contents : list string) (r : Rendering)
  : M P Rendering :=
  match contents with
  | [] => ret r
  | c :: rest =>
      response_msg <- send (channel new_msg) (Plain c) ;;
      do new_locked_node response_msg ;;
      plain_messages new_msg rest
        {| response_msgs := (response_msgs r ++ [response_msg])%list;
           response_contents := response_contents r;
           edit_task := edit_task r; embed := embed r |}
  end.

Definition failure_notice : string :=
  "Oh dear, something went wrong! Try again later, sweetie.".

(** The [try] block and its handler (lines 489-559). *)
Definition generate (new_msg : Message) (user_warnings : Warnings) (messages : list Turn)
  : M P Rendering :=
  do emit (EvTyping (channel_id (channel new_msg))) ;;
  do emit (EvCompletion messages) ;;
  let stream := completions_create w messages in
  r <- render_chunks new_msg user_warnings (chunks stream) no_response ;;
  match failure stream with
  | Some e =>
      do log_error ("Error while generating response: " +:+ e) ;;
      do send (channel new_msg) (Plain failure_notice) ;;
      ret r
  | None =>
      if USE_PLAIN_RESPONSES && match response_msgs r with [] => true | _ => false end
      then plain_messages new_msg (response_contents r) r
      else ret r
  end.

(** *** Extension point [after_llm_response] (lines 563-567) *)

Fixpoint after_hooks (hooks : list (Hook P (Message * string) unit))
  (new_msg : Message) (full_response : string) : M P unit :=
  match hooks with
  | [] => ret tt
  | hook :: rest =>
      do try_except
           (call "after_llm_response" hook (new_msg, full_response))
           (fun e => log_error ("Error in after_llm_response hook: " +:+ exn_text e)) ;;
      after_hooks rest new_msg full_response
  end.

(** *** Writing the response nodes (lines 569-575) *)

Definition response_data (full_response : string) : Turn :=
  {| content := Text full_response; role := assistant;
     name := if LLM_ACCEPTS_NAMES then Some (Py.str (user_id (bot_user w))) else None |}.

(** [msg_nodes[msg.id].data = data; msg_nodes[msg.id].lock.release()] *)
Fixpoint finish_nodes (msgs : list Z) (d : Turn) : M P unit :=
  match msgs with
  | [] => ret tt
  | id :: rest =>
      st <- get_state ;;
      match msg_nodes st !! id with
      | None => raise KeyError
      | Some node =>
          do update_node id (set_data (Some d)) ;;
          do (if lock node then update_node id (set_lock false) else raise RuntimeError) ;;
          finish_nodes rest d
      end
  end.

(** The renderer from the call to the model to the release of the
    response nodes (lines 484-575): the value returned is
    [full_response]. *)
Definition render (new_msg : Message) (user_warnings : Warnings) (messages : list Turn)
  : M P string :=
  r <- generate new_msg user_warnings messages ;;
  let full_response := Py.concat (response_contents r) in
  do after_hooks (after_llm_response plugin_hooks) new_msg full_response ;;
  do finish_nodes (response_msgs r) (response_data full_response) ;;
  ret full_response.

(** *** The sweep of the cache (lines 577-580) *)

(** [del msg_nodes[msg_id]] *)
Definition del_node (msg_id : Z) : M P unit :=
  fun st =>
    match msg_nodes st !! msg_id with
    | Some _ => (Ok tt, with_msg_nodes (delete msg_id) st)
    | None => (Raise KeyError, st)
    end.

Fixpoint evict_loop (victims : list Z) : M P unit :=
  match victims with
  | [] => ret tt
  | msg_id :: rest =>
      do setdefault msg_id ;;
      do with_lock msg_id (del_node msg_id) ;;
      evict_loop rest
  end.

(** [sorted(msg_nodes.keys())] *)
Definition sorted_keys (m : gmap Z MsgNode) : list Z :=
  merge_sort Z.le (elements (dom m)).

Definition evict : M P unit :=
  st <- get_state ;;
  let num_nodes := Z.of_nat (base.size (msg_nodes st)) in
  if num_nodes >? MAX_MESSAGE_NODES
  then evict_loop (Py.take (num_nodes - MAX_MESSAGE_NODES) (sorted_keys (msg_nodes st)))
  else ret tt.

(** *** [handle_bot_conversation] (lines 162-189) *)

(** [response_content += chunk.choices[0].delta.content or ""], over the
    whole stream *)
Definition collect (cs : list Chunk) : string :=
  Py.concat (map (fun c => default "" (delta_content c)) cs).

(** [while converse_state["exchanges_left"] > 0 and converse_state["active"]].
    [n] is the number of exchanges asked for: each turn of the loop that
    does not leave it takes one off [exchanges_left]. *)
Fixpoint conversation_loop (n : nat) (ch : Channel) (last_message : Z) : M P unit :=
  st <- get_state ;;
  if (exchanges_left (converse_state st) >? 0) && active (converse_state st) then
    match n with
    | O => out_of_fuel
    | S n' =>
        let conversation_history :=
          match msg_nodes st !! last_message with
          | Some curr_node => match data curr_node with Some d => [d] | None => [] end
          | None => []
          end in
        let messages := get_system_prompt :: conversation_history in
        do emit (EvTyping (channel_id ch)) ;;
        do emit (EvCompletion messages) ;;
        let stream := completions_create w messages in
        match failure stream with
        | Some e =>
            do log_error ("Error in bot conversation: " +:+ e) ;;
            do send ch (Plain "Oops, something broke during our chat!") ;;
            ret tt                                                 (* break *)
        | None =>
            let response_content := collect (chunks stream) in
            response_msg <- send ch (Plain response_content) ;;
            do modify (with_msg_nodes
                         (insert response_msg (set_data (Some (response_data response_content)) new_node))) ;;
            do modify (fun st' =>
                         with_converse_state
                           {| active := active (converse_state st');
                              exchanges_left := exchanges_left (converse_state st') - 1;
                              converse_channel_id := converse_channel_id (converse_state st') |}
                           st') ;;
            do emit (EvSleep 1) ;;
            conversation_loop n' ch response_msg
        end
    end
  else ret tt.

Definition handle_bot_conversation (ch : Channel) (exchanges : Z) (initial_message : Message)
  : M P unit :=
  do modify (with_converse_state
               {| active := true; exchanges_left := exchanges;
                  converse_channel_id := Some (channel_id ch) |}) ;;
  do conversation_loop (Z.to_nat exchanges) ch (msg_id initial_message) ;;
  modify (with_converse_state
            {| active := false; exchanges_left := 0; converse_channel_id := None |}).

(** *** Commands (lines 217-256) *)

(** [info.get(key, fallback)] inside an f-string *)
Definition info_get (key fallback : string) (info : PyDict) : string :=
  match dict_get key info with Some v => fmt v | None => fallback end.

(** The text of [!plugins]; the bullet U+2022 is written [*]. *)
Definition plugins_response : string :=
  match loaded_plugins plugin_hooks with
  | [] => "No plugins loaded, honey."
  | l =>
      fold_left
        (fun response entry =>
           response +:+ "* **" +:+ fst entry +:+ "** v" +:+ info_get "version" "1.0" (snd entry)
           +:+ ": " +:+ info_get "description" "No description" (snd entry) +:+ Py.newline)
        l ("**Loaded Plugins:**" +:+ Py.newline)
  end.

Definition converse_command (new_msg : Message) : M P unit :=
  match List.tl (Py.split (msg_content new_msg)) with
  | [arg] =>
      match py_int w arg with
      | Some exchanges =>
          if (1 <=? exchanges) && (exchanges <=? 10) then
            do send (channel new_msg)
                 (Plain ("Starting conversation between bots for " +:+ Py.str exchanges
                         +:+ " exchanges!")) ;;
            handle_bot_conversation (channel new_msg) exchanges new_msg
          else
            do send (channel new_msg) (Plain "Please specify a number between 1 and 10, dear.") ;;
            ret tt
      | None =>
          do send (channel new_msg) (Plain "Please provide a valid number, sweetie!") ;;
          ret tt
      end
  | _ =>
      do send (channel new_msg) (Plain "Usage: !converse <number>, honey!") ;;
      ret tt
  end.

(** The branch [if new_msg.content.startswith("!")]. *)
Definition bang_command (new_msg : Message) : M P unit :=
  match Py.split (Py.slice_from 1 (msg_content new_msg)) with
  | [] => raise IndexError
  | word :: _ =>
      let command := Py.lower word in
      let user_id := Py.str (user_id (author new_msg)) in
      match custom_commands plugin_hooks !! command with
      | Some handler =>
          try_except
            (call "custom_commands" handler (new_msg, user_id))
            (fun e =>
               do log_error ("Error in custom command " +:+ command +:+ ": " +:+ exn_text e) ;;
               do send (channel new_msg)
                    (Plain "Oops, something went wrong with that command, sweetie!") ;;
               ret tt)
      | None =>
          if String.eqb command "plugins" then
            do send (channel new_msg) (Plain plugins_response) ;;
            ret tt
          else if String.eqb command "converse" then converse_command new_msg
          else ret tt
      end
  end.

(** *** The reply to a message (lines 258-580) *)

Definition respond (fuel : nat) (new_msg : Message) : M P unit :=
  let bot_mentioned := Z_in (user_id (bot_user w)) (mentions new_msg) in
  let name_trigger := re_search_word w (user_name (bot_user w)) (msg_content new_msg) in
  let mom_trigger := re_search_word w "mom" (msg_content new_msg) in
  is_reply_to_bot <-
    match reference new_msg with
    | Some ref_id =>
        try_except_discord
          (referenced_msg <- resolve ref_id ;;
           ret (same_user (author referenced_msg) (bot_user w)))
          (do log_error "Error fetching referenced message" ;; ret false)
    | None => ret false
    end ;;
  let is_new_command := Py.startswith (msg_content new_msg) "!new" in
  st <- get_state ;;
  let is_from_other_bot :=
    string_in (Py.str (user_id (author new_msg))) OTHER_BOT_IDS
    && negb (user_id (author new_msg) =? user_id (bot_user w))
    && active (converse_state st)
    && match converse_channel_id (converse_state st) with
       | Some c => c =? channel_id (channel new_msg)
       | None => false
       end in
  let random_response := MESSAGE_COUNT st mod SPEAK_EVERY_TURNS =? 0 in
  if negb (bot_mentioned || name_trigger || mom_trigger || is_reply_to_bot
           || is_new_command || is_from_other_bot || random_response)
  then ret tt
  else if match ALLOWED_CHANNEL_IDS with [] => false | _ => true end
          && negb (string_in (Py.str (channel_id (channel new_msg))) ALLOWED_CHANNEL_IDS)
  then ret tt
  else if match ALLOWED_ROLE_IDS, roles (author new_msg) with
          | _ :: _, Some rs => negb (existsb (fun r => Z_in r ALLOWED_ROLE_IDS) rs)
          | _, _ => false
          end
  then ret tt
  else if negb (existsb (channel_type_eqb (channel_type (channel new_msg))) ALLOWED_CHANNEL_TYPES)
  then ret tt
  else
    let ignore_history := is_new_command in
    let effective_content :=
      if is_new_command
      then if Py.len (msg_content new_msg) >? Py.len "!new "
           then Py.strip (Py.slice_from 5 (msg_content new_msg)) else ""
      else msg_content new_msg in
    let user_id := Py.str (user_id (author new_msg)) in
    ctx <- build_context fuel new_msg ignore_history effective_content user_id ;;
    let '(messages, user_warnings) := ctx in
    messages' <- before_hooks (before_llm_call plugin_hooks) messages new_msg ;;
    do render new_msg user_warnings messages' ;;
    evict.

(** *** [on_message] (lines 191-580) *)

Definition on_message (fuel : nat) (new_msg : Message) : M P unit :=
  if user_id (author new_msg) =? user_id (bot_user w) then ret tt
  else
    do modify (fun st => with_MESSAGE_COUNT (MESSAGE_COUNT st + 1) st) ;;
    stop_processing <- received_hooks (on_message_received plugin_hooks) new_msg ;;
    if stop_processing : bool then ret tt
    else if Py.startswith (msg_content new_msg) "//" then ret tt
    else if Py.startswith (msg_content new_msg) "!" then bang_command new_msg
    else respond fuel new_msg.

End Handler.

(** ** Loading the plug-ins ([load_plugins], lines 96-137) *)

(** [load_plugins] runs once, from [main], before the client starts. It
    is embedded as a function of the listing of [mods/]: each file comes
    with the way its execution ended in this run and, when it defined a
    module, with the attributes the loader looks for. The typing the code
    relies on is assumed: [setup()] returns a dictionary and
    [module.commands] is a dictionary. *)

(** The attributes of an executed plug-in module. *)
Record PluginModule (P : Type) := {
  (** [hasattr(module, "setup")], and how [module.setup()] ends *)
  setup : option (Outcome PyDict);
  (** [module.commands.items()], when the module has [commands] *)
  commands : option (list (string * Hook P (Message * string) unit));
  mod_on_bot_ready : option (Hook P User unit);
  mod_on_message_received : option (Hook P Message PyVal);
  mod_process_attachment :
    option (Hook P (Attachment * bool * option Message) (option PyDict));
  mod_before_llm_call : option (BeforeHook P);
  mod_after_llm_response : option (Hook P (Message * string) unit);
}.
Arguments setup {P} _.
Arguments commands {P} _.
Arguments mod_on_bot_ready {P} _.
Arguments mod_on_message_received {P} _.
Arguments mod_process_attachment {P} _.
Arguments mod_before_llm_call {P} _.
Arguments mod_after_llm_response {P} _.

(** A file of [mods/] that matches [*.py]. *)
Record ModFile (P : Type) := {
  (** [mod_file.name] *)
  file_name : string;
  (** [mod_file.stem] *)
  file_stem : string;
  (** how [spec.loader.exec_module(module)] ends *)
  exec_module : Outcome (PluginModule P);
}.
Arguments file_name {P} _.
Arguments file_stem {P} _.
Arguments exec_module {P} _.

(** The log lines that tell the fate of a file: the [info] lines
    "Skipping plugin with underscore" and "Loaded plugin", the [warning]
    "missing setup() function", the [error] "Failed to load plugin". *)
Inductive LoaderLog :=
| LogSkipping (name : string)
| LogLoaded (module_name : string) (description : string)
| LogMissingSetup (module_name : string)
| LogFailed (name : string) (e : string).

(** [d[k] = v] on a dictionary kept in insertion order *)
Fixpoint dict_set {A} (k : string) (v : A) (d : list (string * A)) : list (string * A) :=
  match d with
  | [] => [(k, v)]
  | (k', v') :: d' => if String.eqb k k' then (k, v) :: d' else (k', v') :: dict_set k v d'
  end.

Section Loader.
Context {P : Type}.

(** [plugin_hooks] and [loaded_plugins] when the module is imported
    (lines 73-81) *)
Definition no_plugins : PluginHooks P :=
  {| on_bot_ready := []; on_message_received := []; process_attachment := [];
     before_llm_call := []; after_llm_response := []; custom_commands := ∅;
     loaded_plugins := [] |}.

(** [plugin_hooks[hook_name].append(getattr(module, hook_name))] under
    [hasattr(module, hook_name)] *)
Definition append_hook {H} (registered : list H) (attribute : option H) : list H :=
  match attribute with
  | Some hook => registered ++ [hook]
  | None => registered
  end.

(** [for cmd_name, cmd_func in module.commands.items():
       plugin_hooks["custom_commands"][cmd_name] = cmd_func] *)
Fixpoint register_commands (items : list (string * Hook P (Message * string) unit))
    (registered : gmap string (Hook P (Message * string) unit))
  : gmap string (Hook P (Message * string) unit) :=
  match items with
  | [] => registered
  | (cmd_name, cmd_func) :: rest => register_commands rest (<[cmd_name := cmd_func]> registered)
  end.

(** Lines 118-130: the entry of [loaded_plugins], then the loop over the
    keys of [plugin_hooks]. *)
Definition register (module_name : string) (plugin_info : PyDict) (module : PluginModule P)
    (reg : PluginHooks P) : PluginHooks P :=
  {| on_bot_ready := append_hook (on_bot_ready reg) (mod_on_bot_ready module);
     on_message_received :=
       append_hook (on_message_received reg) (mod_on_message_received module);
     process_attachment :=
       append_hook (process_attachment reg) (mod_process_attachment module);
     before_llm_call := append_hook (before_llm_call reg) (mod_before_llm_call module);
     after_llm_response :=
       append_hook (after_llm_response reg) (mod_after_llm_response module);
     custom_commands :=
       match commands module with
       | Some items => register_commands items (custom_commands reg)
       | None => custom_commands reg
       end;
     loaded_plugins := dict_set module_name plugin_info (loaded_plugins reg) |}.

(** [plugin_info.get('description', 'No description')] *)
Definition description_of (plugin_info : PyDict) : string :=
  match dict_get "description" plugin_info with
  | Some v => fmt v
  | None => "No description"
  end.

(** One turn of the loop over [mods_path.glob("*.py")] (lines 104-136). *)
Definition load_file (reg : PluginHooks P) (mod_file : ModFile P)
  : PluginHooks P * LoaderLog :=
  if Py.startswith (file_name mod_file) "_" then (reg, LogSkipping (file_name mod_file))
  else
    match exec_module mod_file with
    | Raises e => (reg, LogFailed (file_name mod_file) (exn_text e))
    | Returns module =>
        match setup module with
        | Some (Returns plugin_info) =>
            (register (file_stem mod_file) plugin_info module reg,
             LogLoaded (file_stem mod_file) (description_of plugin_info))
        | Some (Raises e) => (reg, LogFailed (file_name mod_file) (exn_text e))
        | None => (reg, LogMissingSetup (file_stem mod_file))
        end
    end.

Fixpoint load_files (reg : PluginHooks P) (files : list (ModFile P))
  : PluginHooks P * list LoaderLog :=
  match files with
  | [] => (reg, [])
  | mod_file :: rest =>
      let '(reg', line) := load_file reg mod_file in
      let '(reg'', lines) := load_files reg' rest in
      (reg'', line :: lines)
  end.

(** [mods]: the listing of [mods/], [None] when the folder does not
    exist (it is created and nothing is loaded). *)
Definition load_plugins (mods : option (list (ModFile P))) : PluginHooks P * list LoaderLog :=
  match mods with
  | None => (no_plugins, [])
  | Some files => load_files no_plugins files
  end.

End Loader.

(** ** The birthday task ([birthday_checker], lines 582-598) *)

(** What the task reads from outside. *)
Record Almanac := {
  (** [dt.strptime(s, "%Y-%m-%d").strftime("%m-%d")], [None] for a
      [ValueError] *)
  month_day : string -> option string;
  (** [int(s)], [None] for a [ValueError] *)
  int_of : string -> option Z;
  (** the exception [discord_client.fetch_user(id)] raises, if any *)
  fetch_user : Z -> option Exn;
  (** the exception [user.send(...)] raises, if any *)
  user_send : Z -> option Exn;
}.

(** The calls the task makes, in the order it makes them. *)
Inductive BirthdayEvent :=
| BdFetchUser (id : Z)
| BdSend (id : Z) (text : string)
| BdWarning (text : string)
| BdSleep.

Definition BIRTHDAY_GREETING : string := "Happy Birthday, sweetie! Have a wonderful day!".

Section Birthday.
Variable almanac : Almanac.
(** [user_data], as [json.load] gave it: a dictionary of dictionaries *)
Variable user_data : list (string * PyDict).

(** [except (discord.NotFound, discord.HTTPException)] *)
Definition caught (e : Exn) : bool :=
  match e with
  | NotFound | HTTPException => true
  | _ => false
  end.

Definition could_not_send (user_id : string) : BirthdayEvent :=
  BdWarning ("Could not send birthday message to user " +:+ user_id).

(** Lines 591-595: the [try] block and its handler. The second component
    is the exception that leaves the block, if any. *)
Definition greet (user_id : string) : list BirthdayEvent * option Exn :=
  match int_of almanac user_id with
  | None => ([], Some (Exception "invalid literal for int()"))
  | Some id =>
      match fetch_user almanac id with
      | Some e =>
          if caught e then ([BdFetchUser id; could_not_send user_id], None)
          else ([BdFetchUser id], Some e)
      | None =>
          match user_send almanac id with
          | Some e =>
              if caught e
              then ([BdFetchUser id; BdSend id BIRTHDAY_GREETING; could_not_send user_id], None)
              else ([BdFetchUser id; BdSend id BIRTHDAY_GREETING], Some e)
          | None => ([BdFetchUser id; BdSend id BIRTHDAY_GREETING], None)
          end
      end
  end.

(** [dt.strptime(data["birthday"], "%Y-%m-%d").strftime("%m-%d")] *)
Definition birthday_of (v : PyVal) : Exn + string :=
  match v with
  | PyStr s =>
      match month_day almanac s with
      | Some md => inr md
      | None => inl (Exception "time data does not match format '%Y-%m-%d'")
      end
  | _ => inl (Exception "strptime() argument 1 must be str")
  end.

(** The loop over [user_data.items()] (lines 587-595). *)
Fixpoint birthday_pass (today : string) (items : list (string * PyDict))
  : list BirthdayEvent * option Exn :=
  match items with
  | [] => ([], None)
  | (user_id, data) :: rest =>
      match dict_get "birthday" data with
      | None => birthday_pass today rest
      | Some v =>
          match birthday_of v with
          | inl e => ([], Some e)
          | inr birthday =>
              if String.eqb birthday today then
                match greet user_id with
                | (evs, Some e) => (evs, Some e)
                | (evs, None) =>
                    let '(evs', r) := birthday_pass today rest in ((evs ++ evs')%list, r)
                end
              else birthday_pass today rest
          end
      end
  end.

(** The [while True] loop, for the wake-ups listed: [days] gives
    [now.strftime("%m-%d")] at each one. The second component is the
    exception that ended the task, [None] while it sleeps. *)
Fixpoint birthday_checker (days : list string) : list BirthdayEvent * option Exn :=
  match days with
  | [] => ([], None)
  | today :: later =>
      match birthday_pass today user_data with
      | (evs, Some e) => (evs, Some e)
      | (evs, None) =>
          let '(evs', r) := birthday_checker later in ((evs ++ BdSleep :: evs')%list, r)
      end
  end.

End Birthday.

(** ** Vocabulary of the statements *)

Section Vocabulary.

Context {P : Type}.

(** The state after a call that leaves the plug-ins in [p']. *)
Definition called (point hook : string) (p' : P) (st : State P) : State P :=
  with_trace (EvHook point hook :: trace st) (with_plugin_state p' st).

(** The state after [logging.error(text)]. *)
Definition logged (text : string) (st : State P) : State P :=
  with_trace (EvLogError text :: trace st) st.

Definition is_log (ev : Event) : bool :=
  match ev with EvLogError _ => true | _ => false end.

(** A state with the lines of the log taken out of its trace. *)
Definition erase_log (st : State P) : State P :=
  with_trace (List.filter (fun ev => negb (is_log ev)) (trace st)) st.

(** Two runs that differ by the log only. *)
Definition same_but_log {A} (r1 r2 : Res A * State P) : Prop :=
  fst r1 = fst r2 /\ erase_log (snd r1) = erase_log (snd r2).

(** The callable that does what [h] does and returns [none] where [h]
    raises. *)
Definition quiet {A R} (none : R) (h : Hook P A R) : Hook P A R :=
  {| hook_name := hook_name h;
     hook_run := fun a p =>
       match hook_run h a p with
       | (p', Raises _) => (p', Returns none)
       | r => r
       end |}.

Definition quiet_before (h : BeforeHook P) : BeforeHook P :=
  {| before_name := before_name h;
     before_run := fun messages m p =>
       match before_run h messages m p with
       | (p', in_place, Raises _) => (p', in_place, Returns None)
       | r => r
       end |}.

(** The callables of [hooks], called in turn on [args] from the plug-in
    state [p], when none of them claims what it is offered (none returns
    a non-empty result; a callable that raises claims nothing): the
    plug-in state they leave. [None] when one of them claims. *)
Fixpoint pass_unclaimed {A} (hooks : list (Hook P A (option PyDict))) (args : A) (p : P)
  : option P :=
  match hooks with
  | [] => Some p
  | h :: rest =>
      match hook_run h args p with
      | (p', Returns result) =>
          match claimed result with
          | Some _ => None
          | None => pass_unclaimed rest args p'
          end
      | (p', Raises _) => pass_unclaimed rest args p'
      end
  end.

(** The names of the callables of an extension point called in a trace,
    first call first. *)
Definition calls_of (point : string) (t : list Event) : list string :=
  flat_map
    (fun ev => match ev with
               | EvHook pt h => if String.eqb pt point then [h] else []
               | _ => []
               end)
    (rev t).

(** Between [st] and [st'] only the trace and the plug-ins' state moved. *)
Definition outside_only (st st' : State P) : Prop :=
  msg_nodes st' = msg_nodes st
  /\ last_task_time st' = last_task_time st
  /\ converse_state st' = converse_state st
  /\ MESSAGE_COUNT st' = MESSAGE_COUNT st
  /\ readings st' = readings st
  /\ sent st' = sent st.

End Vocabulary.

(** The text of a message as lines 328-330, 386-388 and 447-449 assemble
    it from the parts [g] gathered before: the parts, the descriptions of
    the embeds, the text attachments, joined by new lines. *)
Definition assembled_text (w : World) (m : Message) (g : Gathered) : string :=
  Py.join Py.newline
    (text_parts g ++ embed_descriptions (embeds m)
     ++ map (fun att => http_text w (url att))
          (List.filter (fun att => size att <=? 10000000)
             (good_attachments text_type (attachments m))))%list.

(** The node a message gets when its turn is computed: the turn, and the
    flag when the text was cut. *)
Definition filled (cut : bool) (d : Turn) (node : MsgNode) : MsgNode :=
  set_data (Some d) (if cut then set_too_much_text true node else node).

(** What the three copies of the computation share, once the parts [g]
    are gathered: the text, cut when it is longer than [MAX_TEXT], and
    whether it was cut. *)
Definition cut_text (cfg : Config) (w : World) (m : Message) (g : Gathered) : string * bool :=
  if Py.len (assembled_text w m g) >? MAX_TEXT cfg
  then (Py.slice_to (MAX_TEXT cfg) (assembled_text w m g), true)
  else (assembled_text w m g, false).

(** The two other flags of the current message (lines 464-465). *)
Definition too_many (cfg : Config) (m : Message) : bool :=
  Z.of_nat (List.length (good_attachments image_type (attachments m))) >? MAX_IMAGES cfg.

Definition unsupported (m : Message) : bool :=
  (List.length (good_attachments image_type (attachments m))
   + List.length (good_attachments text_type (attachments m))
   <? List.length (attachments m))%nat.

(** The segments after one more token (lines 495-496, 513-514 and 527),
    for a limit on the length of a segment. *)
Definition feed (limit : Z) (segments : list string) (token : string) : list string :=
  let opened := match segments with [] => [""] | _ => segments end in
  let split := if Py.len (List.last opened "" +:+ token) >? limit
               then (opened ++ [""])%list else opened in
  append_to_last token split.

(** The tokens of a list of chunks. *)
Definition tokens (cs : list Chunk) : list string :=
  map (fun c => default "" (delta_content c)) cs.

(** The identifiers Discord gives to [k] messages sent in a row, the
    first of them being the [from]-th message the bot sends. *)
Definition ids_sent (w : World) (from k : nat) : list Z :=
  map (sent_id w) (seq from k).

(** The cache once a fresh node, lock held, has been put in for each of
    [ids] in turn. *)
Definition with_locked_nodes (ids : list Z) (m : gmap Z MsgNode) : gmap Z MsgNode :=
  fold_left (fun m id => <[id := set_lock true new_node]> m) ids m.

(** The text a message shows. *)
Definition shown (p : Payload) : string :=
  match p with
  | Plain s => s
  | Rich e => embed_description e
  end.

(** The identifiers of the messages a list of events sends. *)
Definition messages_sent (evs : list Event) : list Z :=
  flat_map (fun ev => match ev with EvSend _ _ id => [id] | _ => [] end) evs.

(** What goes out keeps the tokens whole. [msgs] are the messages of the
    answer and [groups] the tokens of their segments, in the same order:
    a message is sent showing the streaming indicator alone (or is the
    notice of a failure), and an edit of the [i]-th message shows the
    first tokens of the [i]-th segment, followed by the streaming
    indicator or by nothing. *)
Definition whole_tokens (msgs : list Z) (groups : list (list string)) (ev : Event) : Prop :=
  match ev with
  | EvSend _ p _ => shown p = STREAMING_INDICATOR \/ p = Plain failure_notice
  | EvEdit target p =>
      exists (i : nat) (group : list string) (k : nat),
        msgs !! i = Some target /\ groups !! i = Some group
        /\ (shown p = Py.concat (firstn k group) +:+ STREAMING_INDICATOR
            \/ shown p = Py.concat (firstn k group))
  | _ => True
  end.

(** The renderer after the tokens [toks], started in [st0] with nothing
    rendered yet: the segments are runs of whole tokens, each has its
    message, sent in turn, and what went out keeps the tokens whole. *)
Definition renders_tokens {P : Type} (w : World) (st0 : State P) (toks : list string)
  (r : Rendering) (st : State P) : Prop :=
  exists (groups : list (list string)) (evs : list Event),
    List.concat groups = toks
    /\ response_contents r = map Py.concat groups
    /\ response_msgs r = ids_sent w (sent st0) (List.length groups)
    /\ sent st = (sent st0 + List.length groups)%nat
    /\ trace st = (rev evs ++ trace st0)%list
    /\ messages_sent evs = response_msgs r
    /\ Forall (whole_tokens (response_msgs r) groups) evs.

(** What a placeholder message carries. *)
Definition is_placeholder (p : Payload) : Prop :=
  match p with
  | Rich _ => True
  | Plain s => s = STREAMING_INDICATOR
  end.

(** An event of the streaming itself: a placeholder sent, or an edit. *)
Definition streamed_event (ev : Event) : Prop :=
  match ev with
  | EvSend _ p _ => is_placeholder p
  | EvEdit _ _ => True
  | _ => False
  end.

(** An event of the fan-out on [after_llm_response]. *)
Definition after_event (ev : Event) : Prop :=
  match ev with
  | EvHook point _ => point = "after_llm_response"
  | EvLogError _ => True
  | _ => False
  end.

(** What the streaming of some chunks does: [k] placeholders are sent,
    each with a fresh locked node and a new segment, and edits are
    pushed; nothing else moves but the clock and [last_task_time]. *)
Definition streams {P : Type} (w : World) (st : State P) (r : Rendering)
  (st' : State P) (r' : Rendering) : Prop :=
  exists k evs,
    response_msgs r' = (response_msgs r ++ ids_sent w (sent st) k)%list
    /\ sent st' = (sent st + k)%nat
    /\ List.length (response_contents r') = (List.length (response_contents r) + k)%nat
    /\ msg_nodes st' = with_locked_nodes (ids_sent w (sent st) k) (msg_nodes st)
    /\ plugin_state st' = plugin_state st
    /\ MESSAGE_COUNT st' = MESSAGE_COUNT st
    /\ converse_state st' = converse_state st
    /\ trace st' = (evs ++ trace st)%list
    /\ Forall streamed_event evs.

(** The failure notice sent to the channel. *)
Definition is_notice (ev : Event) : bool :=
  match ev with
  | EvSend _ (Plain s) _ => String.eqb s failure_notice
  | _ => false
  end.

(** What the handler does when the stream fails (lines 558-559), most
    recent first; [n] is the number of messages sent before. *)
Definition closing (w : World) (new_msg : Message) (stream : Stream) (n : nat) : list Event :=
  match failure stream with
  | Some e =>
      [EvSend (channel_id (channel new_msg)) (Plain failure_notice) (sent_id w n);
       EvLogError ("Error while generating response: " +:+ e)]
  | None => []
  end.

(** A cache whose identifiers are those of the increasing list [ids]. *)
Definition holds_ids (m : gmap Z MsgNode) (ids : list Z) : Prop :=
  StronglySorted Z.lt ids /\ forall k, In k ids <-> is_Some (m !! k).

(** The cache with the nodes of [victims] deleted, in that order. *)
Definition drop_nodes (victims : list Z) (m : gmap Z MsgNode) : gmap Z MsgNode :=
  fold_left (fun m k => delete k m) victims m.

(** No lock of the nodes of [ids] is held in [m]. *)
Definition all_free (m : gmap Z MsgNode) (ids : list Z) : Prop :=
  forall k node, In k ids -> m !! k = Some node -> lock node = false.

(** ** Vocabulary of the context build *)

(** The lock of the node of [id] is not held (a message with no node yet
    gets a fresh one). *)
Definition free (m : gmap Z MsgNode) (id : Z) : Prop :=
  lock (default new_node (m !! id)) = false.

(** The turn the cache holds for a message. *)
Definition turn_in (m : gmap Z MsgNode) (id : Z) : option Turn :=
  match m !! id with
  | Some node => data node
  | None => None
  end.

(** The turns the cache holds for the messages of a list, in the order
    of the list, without those whose content is empty. *)
Definition nonempty_turns (m : gmap Z MsgNode) (msgs : list Message) : list Turn :=
  flat_map
    (fun c => match turn_in m (msg_id c) with
              | Some d => if content_truthy (content d) then [d] else []
              | None => []
              end)
    msgs.

(** A turn the cache holds stays as it is. *)
Definition keeps (m m' : gmap Z MsgNode) : Prop :=
  forall k d, turn_in m k = Some d -> turn_in m' k = Some d.

(** [reference.cached_message or await channel.fetch_message(id)], when
    it gives a message. *)
Definition resolved (w : World) (ref_id : Z) : option Message :=
  match cached_message w ref_id with
  | Some m => Some m
  | None =>
      match fetch_message w ref_id with
      | Fetched m => Some m
      | _ => None
      end
  end.

(** [reply_chain w m chain]: following the reply links from [m] gives
    the messages of [chain], nearest first, and ends after the last of
    them, on a message that is no reply or on a link that cannot be
    resolved. *)
Inductive reply_chain (w : World) : Message -> list Message -> Prop :=
| chain_ends m :
    reference m = None -> reply_chain w m []
| chain_breaks m ref_id :
    reference m = Some ref_id -> resolved w ref_id = None -> reply_chain w m []
| chain_link m ref_id ref_msg rest :
    reference m = Some ref_id -> resolved w ref_id = Some ref_msg ->
    reply_chain w ref_msg rest -> reply_chain w m (ref_msg :: rest).

(** What a computation that fills the node of [id] does to a state where
    that node exists: it ends normally, leaves the node with a turn (the
    one it had, if it had one) and its lock as it was, and touches no
    other node. *)
Definition fills {P A : Type} (fill : M P A) (id : Z) : Prop :=
  forall st node,
    msg_nodes st !! id = Some node ->
    exists a st' node',
      fill st = (Ok a, st')
      /\ msg_nodes st' = <[id := node']> (msg_nodes st)
      /\ lock node' = lock node
      /\ (exists d, data node' = Some d)
      /\ (forall d, data node = Some d -> node' = node).

(** The messages the scan of the channel goes through: it passes over
    the bot's own messages that have neither text nor embed, and stops at
    the first of the others that is older than the recency window. *)
Definition passed_over (w : World) (prev_msg : Message) : bool :=
  same_user (author prev_msg) (bot_user w)
  && negb (nonempty (msg_content prev_msg))
  && match embeds prev_msg with [] => true | _ => false end.

Definition recent (new_msg prev_msg : Message) : bool :=
  negb (created_at new_msg - created_at prev_msg >? recency_window).

Fixpoint take_while {A} (f : A -> bool) (l : list A) : list A :=
  match l with
  | [] => []
  | x :: rest => if f x then x :: take_while f rest else []
  end.

Definition scanned (cfg : Config) (w : World) (new_msg : Message) : list Message :=
  take_while (recent new_msg)
    (List.filter (fun m => negb (passed_over w m))
       (firstn (Z.to_nat (MAX_MESSAGES cfg)) (channel_history w new_msg))).

(** The identifiers fetched in a trace, first fetch first. *)
Definition fetched (t : list Event) : list Z :=
  flat_map (fun ev => match ev with EvFetch id => [id] | _ => [] end) (rev t).

(** The list [messages] the context build makes from the turns the cache
    holds: the system prompt, then the non-empty turns of the earlier
    messages, oldest first ([earlier] is given nearest first), then the
    turn of the current message, the whole cut after [MAX_MESSAGES + 1]
    entries. *)
Definition context_of (cfg : Config) (w : World) (m : gmap Z MsgNode)
  (earlier : list Message) (new_msg : Message) : list Turn :=
  Py.take (MAX_MESSAGES cfg + 1)
    (get_system_prompt cfg w :: nonempty_turns m (rev earlier ++ [new_msg])).

(** The scan of the channel as the specification words it: it stops at
    the first message from another author than the start message, at the
    first message older than the window, or after [MAX_MESSAGES]. *)
Definition scanned_as_stated (cfg : Config) (w : World) (new_msg : Message) : list Message :=
  take_while
    (fun m => same_user (author m) (author new_msg) && recent new_msg m)
    (firstn (Z.to_nat (MAX_MESSAGES cfg)) (channel_history w new_msg)).

(** ** Vocabulary of the further properties *)

(** A string made of blank characters only. *)
Fixpoint blank (s : string) : bool :=
  match s with
  | EmptyString => true
  | String c s' => Py.is_space c && blank s'
  end.

(** What the handler may do before it decides to leave a message alone:
    a call of [on_message_received], a line of the log, the fetch of the
    message replied to. *)
Definition gate_event (ev : Event) : Prop :=
  match ev with
  | EvHook point _ => point = "on_message_received"
  | EvLogError _ => True
  | EvFetch _ => True
  | _ => False
  end.

(** What the handler does with a message that starts with [!new]: the
    fan-out, a registered command, the log, and the apology sent when a
    registered command raises. *)
Definition command_event (ev : Event) : Prop :=
  match ev with
  | EvHook point _ => point = "on_message_received" \/ point = "custom_commands"
  | EvLogError _ => True
  | EvSend _ (Plain s) _ => s = "Oops, something went wrong with that command, sweetie!"
  | _ => False
  end.

(** The replies of a conversation between bots of [n] exchanges: each
    call to the model gets the system prompt and the turn of the message
    sent last ([last] holds it, when the cache has one). *)
Fixpoint exchanges_of (cfg : Config) (w : World) (n : nat) (last : list Turn) : list string :=
  match n with
  | O => []
  | S n' =>
      let reply := collect (chunks (completions_create w (get_system_prompt cfg w :: last))) in
      reply :: exchanges_of cfg w n' [response_data cfg w reply]
  end.

(** What these exchanges do to the outside world, first call first;
    [from] is the number of messages the bot sent before. *)
Fixpoint exchange_events (cfg : Config) (w : World) (ch : Channel) (n : nat)
  (last : list Turn) (from : nat) : list Event :=
  match n with
  | O => []
  | S n' =>
      let messages := get_system_prompt cfg w :: last in
      let reply := collect (chunks (completions_create w messages)) in
      [EvTyping (channel_id ch); EvCompletion messages;
       EvSend (channel_id ch) (Plain reply) (sent_id w from); EvSleep 1]
      ++ exchange_events cfg w ch n' [response_data cfg w reply] (S from)
  end.

(** The turn the cache holds for the message a conversation starts from,
    as [handle_bot_conversation] reads it. *)
Definition last_turn (m : gmap Z MsgNode) (id : Z) : list Turn :=
  match m !! id with
  | Some curr_node => match data curr_node with Some d => [d] | None => [] end
  | None => []
  end.

Definition idle : ConverseState :=
  {| active := false; exchanges_left := 0; converse_channel_id := None |}.

(** Whether the message answers a message of the bot, as lines 261-268
    find it: a reference that cannot be resolved counts for none. *)
Definition replies_to_bot (w : World) (m : Message) : bool :=
  match reference m with
  | Some ref_id =>
      match resolved w ref_id with
      | Some referenced_msg => user_id (author referenced_msg) =? user_id (bot_user w)
      | None => false
      end
  | None => false
  end.

(** The message created last by a list of events (first event first);
    [newest] is the one created last before them. *)
Fixpoint newest_after (newest : option Z) (evs : list Event) : option Z :=
  match evs with
  | [] => newest
  | EvSend _ _ id :: rest => newest_after (Some id) rest
  | _ :: rest => newest_after newest rest
  end.

(** Every edit of a list of events (first event first) goes to the
    message created last before it. *)
Fixpoint edits_newest (newest : option Z) (evs : list Event) : Prop :=
  match evs with
  | [] => True
  | EvSend _ _ id :: rest => edits_newest (Some id) rest
  | EvEdit target _ :: rest => newest = Some target /\ edits_newest newest rest
  | _ :: rest => edits_newest newest rest
  end.

(** The last of the messages of the answer, when there is one. *)
Definition last_msg (r : Rendering) : option Z :=
  List.last (map Some (response_msgs r)) None.

(** Between [st], [r] and [st'], [r']: events were added, whose edits
    all go to the message of the answer created last. *)
Definition edits_track {P : Type} (st : State P) (r : Rendering)
  (st' : State P) (r' : Rendering) : Prop :=
  exists evs,
    trace st' = (rev evs ++ trace st)%list
    /\ edits_newest (last_msg r) evs
    /\ last_msg r' = newest_after (last_msg r) evs.

(** A message that shows the streaming indicator at its end. *)
Definition marked (p : Payload) : Prop :=
  exists s, shown p = s +:+ STREAMING_INDICATOR.

(** An event of a chunk that does not close the stream: what is sent or
    edited bears the indicator. *)
Definition keeps_mark (ev : Event) : Prop :=
  match ev with
  | EvSend _ p _ => marked p
  | EvEdit _ p => marked p
  | _ => True
  end.

(** An event that leaves the indicator on every message but [last]: a
    message sent bears it (the notice of a failure apart), and so does
    an edit of another message than [last]. *)
Definition leaves_mark (last : Z) (ev : Event) : Prop :=
  match ev with
  | EvSend _ p _ => marked p \/ p = Plain failure_notice
  | EvEdit target p => marked p \/ target = last
  | _ => True
  end.

(** The images a content carries. *)
Definition images_of (c : Content) : list string :=
  match c with
  | Text _ => []
  | Parts ps => flat_map (fun p => match p with ImagePart u => [u] | TextPart _ => [] end) ps
  end.

(** A callable of [process_attachment] that claims nothing, whatever it
    is given: it returns nothing, or an empty dictionary, or raises. *)
Definition claims_nothing {P : Type}
  (h : Hook P (Attachment * bool * option Message) (option PyDict)) : Prop :=
  forall a p,
    match hook_run h a p with
    | (_, Returns result) => claimed result = None
    | (_, Raises _) => True
    end.

(** The cache holds the turn of the message [id], and the lock of its
    node is not held. *)
Definition warm (m : gmap Z MsgNode) (id : Z) : Prop :=
  exists node d, m !! id = Some node /\ data node = Some d /\ lock node = false.

(** A read of Discord: the fetch of a message, or of the messages of a
    channel. *)
Definition is_read (ev : Event) : Prop :=
  match ev with
  | EvFetch _ => True
  | EvHistory _ _ => True
  | _ => False
  end.

(** [adds ok c]: whatever the state [c] starts from and however it ends,
    [c] only adds to the trace, and what it adds are events of [ok]. *)
Definition adds {P A : Type} (ok : Event -> Prop) (c : M P A) : Prop :=
  forall st, exists evs, trace (snd (c st)) = (evs ++ trace st)%list /\ Forall ok evs.

(** What the context build may do to the outside world: call the
    callables of [process_attachment], write to the log, read Discord,
    download an attachment. *)
Definition context_event (ev : Event) : Prop :=
  match ev with
  | EvHook point _ => point = "process_attachment"
  | EvLogError _ => True
  | EvFetch _ => True
  | EvHistory _ _ => True
  | EvHttpGet _ => True
  | _ => False
  end.

(** No lock of the cache is held. *)
Definition unlocked (m : gmap Z MsgNode) : Prop :=
  forall k node, m !! k = Some node -> lock node = false.

(** The lists of messages the model was called with, first call first. *)
Definition completions (t : list Event) : list (list Turn) :=
  flat_map (fun ev => match ev with EvCompletion messages => [messages] | _ => [] end) (rev t).

Definition not_completion (ev : Event) : Prop :=
  match ev with
  | EvCompletion _ => False
  | _ => True
  end.

(** An attachment the handler reads: it has a content type that names an
    image or a text, and is no larger than 10 MB. *)
Definition supported (att : Attachment) : Prop :=
  exists ct,
    content_type att = Some ct
    /\ (Py.contains "image" ct = true \/ Py.contains "text" ct = true)
    /\ size att <= 10000000.

(** An event that downloads nothing but a supported attachment of [m]. *)
Definition downloads_from (m : Message) (ev : Event) : Prop :=
  match ev with
  | EvHttpGet u => exists att, In att (attachments m) /\ url att = u /\ supported att
  | EvSend _ _ _ => False
  | EvEdit _ _ => False
  | EvCompletion _ => False
  | _ => True
  end.

(** Any event at all. *)
Definition any_event (ev : Event) : Prop := True.

(** ** Vocabulary for the loader and the birthday task *)

(** The module a file of [mods/] contributes: none for a file whose name
    starts with an underscore, whose execution raises, that has no
    [setup], or whose [setup] raises. *)
Definition loaded_module {P} (mod_file : ModFile P) : option (PluginModule P) :=
  if Py.startswith (file_name mod_file) "_" then None
  else
    match exec_module mod_file with
    | Returns module =>
        match setup module with
        | Some (Returns _) => Some module
        | _ => None
        end
    | Raises _ => None
    end.

(** The callables the listing contributes to one hook point, in the
    order of the listing. *)
Definition hooks_of {P H} (attribute : PluginModule P -> option H) (files : list (ModFile P))
  : list H :=
  omap (fun mod_file => loaded_module mod_file ≫= attribute) files.

(** The commands the listing contributes, in the order they are
    registered. *)
Definition commands_of {P} (files : list (ModFile P))
  : list (string * Hook P (Message * string) unit) :=
  flat_map (fun mod_file =>
              match loaded_module mod_file ≫= commands with
              | Some items => items
              | None => []
              end) files.

(** The record gives a birthday that parses, on the given day of the
    year. *)
Definition born_on (almanac : Almanac) (data : PyDict) (md : string) : Prop :=
  exists s, dict_get "birthday" data = Some (PyStr s) /\ month_day almanac s = Some md.

(** A record the task can treat: it has no birthday, or a birthday that
    parses, a key that reads as a number, and Discord answers the task's
    calls for this user with nothing worse than the errors it catches. *)
Definition treatable (almanac : Almanac) (item : string * PyDict) : Prop :=
  match dict_get "birthday" (snd item) with
  | None => True
  | Some v =>
      (exists md, birthday_of almanac v = inr md)
      /\ exists id, int_of almanac (fst item) = Some id
           /\ (forall e, fetch_user almanac id = Some e -> caught e = true)
           /\ (forall e, user_send almanac id = Some e -> caught e = true)
  end.

Definition is_sleep (ev : BirthdayEvent) : bool :=
  match ev with
  | BdSleep => true
  | _ => false
  end.

(** How many times the task went to sleep until the next day. *)
Definition sleeps (evs : list BirthdayEvent) : nat := length (List.filter is_sleep evs).

(** An event of the fan-out on [on_message_received]: the call of one of
    its callables, or a line of the log. *)
Definition fan_out_event (ev : Event) : Prop :=
  match ev with
  | EvHook point _ => point = "on_message_received"
  | EvLogError _ => True
  | _ => False
  end.

(** ** Concrete scenarios

    The plug-ins of the scenarios keep, as their private state, the list
    of the names of the callables that ran. *)

Module Demo.

Definition mom : User := {| user_id := 1; user_name := "mom"; roles := None |}.
Definition alice : User := {| user_id := 2; user_name := "alice"; roles := None |}.
Definition bob : User := {| user_id := 3; user_name := "bob"; roles := None |}.

Definition lobby : Channel := {| channel_id := 7; channel_type := text_channel |}.

(** A message with no attachment and no embed; [at_second] is its time
    of creation in seconds. *)
Definition message (id : Z) (from : User) (body : string) (reply_to : option Z)
  (at_second : Z) : Message :=
  {| msg_id := id; author := from; msg_content := body; reference := reply_to;
     attachments := []; embeds := []; mentions := []; channel := lobby;
     created_at := at_second * 1000000 |}.

Definition cfg (plain : bool) (llm : string) (text images messages : Z) : Config :=
  {| llm_model := llm; system_prompt := "You are mom.";
     allowed_channel_ids := []; allowed_role_ids := [];
     max_text := text; max_images := images; max_messages := messages;
     use_plain_responses := plain |}.

Definition chunk (s : string) : Chunk :=
  {| delta_content := Some s; finish_reason := None |}.

Definition last_chunk (s : string) : Chunk :=
  {| delta_content := Some s; finish_reason := Some "stop" |}.

(** A world whose channel holds [log] (most recent first), whose model
    answers with [answer], with a clock that advances two seconds at
    each reading. *)
Definition world (log : list Message) (answer : Stream) : World :=
  {| bot_user := mom;
     cached_message := fun _ => None;
     fetch_message := fun id =>
       match List.find (fun m => msg_id m =? id) log with
       | Some m => Fetched m
       | None => FetchNotFound
       end;
     channel_history := fun new_msg =>
       List.filter (fun m => msg_id m <? msg_id new_msg) log;
     http_text := fun u => "text of " +:+ u;
     http_base64 := fun u => "base64 of " +:+ u;
     completions_create := fun _ => answer;
     clock := fun n => Z.of_nat n * 2000000;
     edit_done := fun _ => true;
     sent_id := fun n => 1000 + Z.of_nat n;
     today := "November 04 2026";
     re_search_word := fun word s => Py.contains (Py.lower word) (Py.lower s);
     py_int := fun _ => None |}.

(** [n] times the character [c]. *)
Fixpoint run_of (c : ascii) (n : nat) : string :=
  match n with
  | O => ""
  | S n' => String c (run_of c n')
  end.

Definition hi_there : Stream :=
  {| chunks := [chunk "Hi"; chunk " there"; last_chunk "!"]; failure := None |}.

Definition idle : ConverseState :=
  {| active := false; exchanges_left := 0; converse_channel_id := None |}.

Definition start (nodes : gmap Z MsgNode) : State (list string) :=
  {| msg_nodes := nodes; last_task_time := None; converse_state := idle;
     MESSAGE_COUNT := 0; plugin_state := []; readings := 0; sent := 0; trace := [] |}.

(** Callables that note their name and then return [result], or raise. *)
Definition returning {A R} (name : string) (result : R) : Hook (list string) A R :=
  {| hook_name := name;
     hook_run := fun _ p => ((p ++ [name])%list, Returns result) |}.

Definition raising {A R} (name : string) : Hook (list string) A R :=
  {| hook_name := name;
     hook_run := fun _ p => ((p ++ [name])%list, Raises (Exception "boom")) |}.

(** A [before_llm_call] callable that rewrites the system prompt in place
    and then raises. *)
Definition spoiling : BeforeHook (list string) :=
  {| before_name := "spoiling";
     before_run := fun messages _ p =>
       ((p ++ ["spoiling"])%list,
        match messages with
        | first :: others =>
            {| content := Text "changed"; role := role first; name := name first |} :: others
        | [] => []
        end,
        Raises (Exception "boom")) |}.

Definition appending (name : string) (t : Turn) : BeforeHook (list string) :=
  {| before_name := name;
     before_run := fun messages _ p =>
       ((p ++ [name])%list, messages, Returns (Some (messages ++ [t])%list)) |}.

Definition no_hooks : PluginHooks (list string) :=
  {| on_bot_ready := []; on_message_received := []; process_attachment := [];
     before_llm_call := []; after_llm_response := []; custom_commands := ∅;
     loaded_plugins := [] |}.

Definition with_received (hooks : list (Hook (list string) Message PyVal))
  : PluginHooks (list string) :=
  {| on_bot_ready := []; on_message_received := hooks; process_attachment := [];
     before_llm_call := []; after_llm_response := []; custom_commands := ∅;
     loaded_plugins := [] |}.

Definition with_attachment
  (hooks : list (Hook (list string) (Attachment * bool * option Message) (option PyDict)))
  : PluginHooks (list string) :=
  {| on_bot_ready := []; on_message_received := []; process_attachment := hooks;
     before_llm_call := []; after_llm_response := []; custom_commands := ∅;
     loaded_plugins := [] |}.

Definition picture : Attachment :=
  {| filename := "car.png"; content_type := Some "image/png"; size := 2048;
     url := "https://cdn.example/car.png" |}.

(** The same message with a picture attached. *)
Definition with_picture (m : Message) : Message :=
  {| msg_id := msg_id m; author := author m; msg_content := msg_content m;
     reference := reference m; attachments := [picture]; embeds := embeds m;
     mentions := mentions m; channel := channel m; created_at := created_at m |}.

(** A thread of replies: a text, and before it three pictures sent
    without a word. *)
Definition thread : list Message :=
  [message 13 alice "three" (Some 12) 30;
   with_picture (message 12 alice "" (Some 11) 20);
   with_picture (message 11 alice "" (Some 10) 10);
   with_picture (message 10 alice "" None 5)].

(** A thread of three replies, each with its text. *)
Definition replies : list Message :=
  [message 13 alice "three" (Some 12) 30;
   message 12 alice "two" (Some 11) 20;
   message 11 alice "one" None 10].

(** A channel where bob spoke after alice. *)
Definition chatter : list Message :=
  [message 19 bob "hi all" None 90;
   message 18 alice "earlier" None 80].

(** The cache after [msg_nodes[k] = MsgNode()] for each [k] of [ids] in
    turn, the lock of the node taken when [held k]. *)
Definition cache_of (ids : list Z) (held : Z -> bool) (m : gmap Z MsgNode)
  : gmap Z MsgNode :=
  fold_left (fun m k => <[k := set_lock (held k) new_node]> m) ids m.

(** The identifiers [from], [from + 1], ... ([n] of them). *)
Definition ids_from (from n : nat) : list Z := map Z.of_nat (seq from n).

End Demo.

(** ** Further scenarios *)

Module Cases.

(** The plug-ins with one command registered. *)
Definition with_command (name : string) (h : Hook (list string) (Message * string) unit)
  : PluginHooks (list string) :=
  {| on_bot_ready := []; on_message_received := []; process_attachment := [];
     before_llm_call := []; after_llm_response := [];
     custom_commands := {[ name := h ]}; loaded_plugins := [] |}.

(** The world of [Demo.world] with a reading of decimal numbers of one
    digit for [int]. *)
Definition counting (log : list Message) (answer : Stream) : World :=
  let base := Demo.world log answer in
  {| bot_user := bot_user base; cached_message := cached_message base;
     fetch_message := fetch_message base; channel_history := channel_history base;
     http_text := http_text base; http_base64 := http_base64 base;
     completions_create := completions_create base; clock := clock base;
     edit_done := edit_done base; sent_id := sent_id base; today := today base;
     re_search_word := re_search_word base;
     py_int := fun s =>
       match s with
       | String c EmptyString =>
           let n := nat_of_ascii c in
           if ((48 <=? n) && (n <=? 57))%nat then Some (Z.of_nat (n - 48)) else None
       | _ => None
       end |}.

(** A configuration that lets the bot answer in channel 8 only. *)
Definition elsewhere_only : Config :=
  {| llm_model := "local/llama3"; system_prompt := "You are mom.";
     allowed_channel_ids := ["8"]; allowed_role_ids := [];
     max_text := 100; max_images := 1; max_messages := 10;
     use_plain_responses := true |}.

(** The world of [Demo.world] with a clock that stands still: no edit is
    due before the stream ends. *)
Definition frozen (log : list Message) (answer : Stream) : World :=
  let base := Demo.world log answer in
  {| bot_user := bot_user base; cached_message := cached_message base;
     fetch_message := fetch_message base; channel_history := channel_history base;
     http_text := http_text base; http_base64 := http_base64 base;
     completions_create := completions_create base; clock := fun _ => 0;
     edit_done := edit_done base; sent_id := sent_id base; today := today base;
     re_search_word := re_search_word base; py_int := py_int base |}.

(** An answer of 3001 characters in two tokens. *)
Definition long_answer : Stream :=
  {| chunks := [Demo.chunk (Demo.run_of "a" 2999); Demo.last_chunk "bb"];
     failure := None |}.

(** The same message with [n] pictures attached. *)
Definition with_pictures (n : nat) (m : Message) : Message :=
  {| msg_id := msg_id m; author := author m; msg_content := msg_content m;
     reference := reference m; attachments := repeat Demo.picture n; embeds := embeds m;
     mentions := mentions m; channel := channel m; created_at := created_at m |}.

(** The node of a message of a user whose turn is known. *)
Definition said (body : string) : MsgNode :=
  set_data (Some {| content := Text body; role := user; name := None |}) new_node.

(** A cache that holds the turns of the thread [Demo.replies] and of a
    reply to it. *)
Definition warm_cache : gmap Z MsgNode :=
  {[ 11 := said "one"; 12 := said "two"; 13 := said "three"; 14 := said "mom hello" ]}.

End Cases.

(** ** Scenarios for the loader and the birthday task *)

Module Mods.

Definition command (name : string) : Hook (list string) (Message * string) unit :=
  {| hook_name := name; hook_run := fun _ p => (name :: p, Returns tt) |}.

Definition listener (name : string) : Hook (list string) Message PyVal :=
  {| hook_name := name; hook_run := fun _ p => (name :: p, Returns PyNone) |}.

Definition plugin (name : string) (cmds : list string) : PluginModule (list string) :=
  {| setup := Some (Returns [("description", PyStr name)]);
     commands := Some (map (fun c => (c, command (name +:+ "." +:+ c))) cmds);
     mod_on_bot_ready := None;
     mod_on_message_received := Some (listener name);
     mod_process_attachment := None; mod_before_llm_call := None;
     mod_after_llm_response := None |}.

Definition file (name : string) (out : Outcome (PluginModule (list string)))
  : ModFile (list string) :=
  {| file_name := name +:+ ".py"; file_stem := name; exec_module := out |}.

(** A folder with two plug-ins that both define [!hug], a hidden file,
    a file that does not import and a module without [setup]. *)
Definition folder : list (ModFile (list string)) :=
  [ file "memory" (Returns (plugin "memory" ["hug"; "recall"]));
    file "_draft" (Returns (plugin "_draft" ["hug"]));
    file "broken" (Raises (Exception "invalid syntax"));
    file "vision" (Returns (plugin "vision" ["see"; "hug"]));
    file "notes" (Returns
      {| setup := None; commands := Some [("hug", command "notes.hug")];
         mod_on_bot_ready := None; mod_on_message_received := Some (listener "notes");
         mod_process_attachment := None; mod_before_llm_call := None;
         mod_after_llm_response := None |}) ].

End Mods.

Module Birthdays.

(** Dates are read as [YYYY-MM-DD] by their length only; keys of one
    digit are numbers; user 2 cannot be found. *)
Definition almanac : Almanac :=
  {| month_day := fun s =>
       if (String.length s =? 10)%nat then Some (substring 5 5 s) else None;
     int_of := fun s =>
       match s with
       | String c EmptyString =>
           let n := nat_of_ascii c in
           if ((48 <=? n) && (n <=? 57))%nat then Some (Z.of_nat (n - 48)) else None
       | _ => None
       end;
     fetch_user := fun id => if id =? 2 then Some NotFound else None;
     user_send := fun _ => None |}.

Definition family : list (string * PyDict) :=
  [ ("1", [("birthday", PyStr "2001-03-14")]);
    ("2", [("birthday", PyStr "1999-03-14")]);
    ("3", [("nickname", PyStr "kiddo")]);
    ("5", [("birthday", PyStr "1987-11-02")]) ].

(** A record whose birthday is not a date. *)
Definition mistyped : string * PyDict := ("4", [("birthday", PyStr "march 14")]).

End Birthdays.

(** ** The dispatch loops *)

Section Dispatch.

Context {P : Type}.
Variable cfg : Config.
Variable w : World.

Lemma call_returns {A R} point (h : Hook P A R) a st p' r :
  hook_run h a (plugin_state st) = (p', Returns r) ->
  call point h a st = (Ok r, called point (hook_name h) p' st).
Proof. intros H. unfold call. rewrite H. reflexivity. Qed.

Lemma call_raises {A R} point (h : Hook P A R) a st p' e :
  hook_run h a (plugin_state st) = (p', Raises e) ->
  call point h a st = (Raise e, called point (hook_name h) p' st).
Proof. intros H. unfold call. rewrite H. reflexivity. Qed.

(** A call ends in one of two ways. *)
Lemma call_cases {A R} point (h : Hook P A R) a st :
  exists p', (exists r, hook_run h a (plugin_state st) = (p', Returns r)
                        /\ call point h a st = (Ok r, called point (hook_name h) p' st))
             \/ (exists e, hook_run h a (plugin_state st) = (p', Raises e)
                        /\ call point h a st = (Raise e, called point (hook_name h) p' st)).
Proof.
  destruct (hook_run h a (plugin_state st)) as [p' [r|e]] eqn:E; exists p'.
  - left. exists r. split; [reflexivity|]. by apply call_returns.
  - right. exists e. split; [reflexivity|]. by apply call_raises.
Qed.

(** *** No loop lets an exception of a callable out *)

Lemma ready_hooks_ok hooks (st : State P) :
  exists st', ready_hooks w hooks st = (Ok tt, st').
Proof.
  revert st. induction hooks as [|h rest IH]; intros st; simpl.
  - by eexists.
  - unfold bind, try_except.
    destruct (call_cases "on_bot_ready" h (bot_user w) st) as [p' [[[] [_ ->]]|[e [_ ->]]]];
      simpl; apply IH.
Qed.

Lemma received_hooks_ok hooks m (st : State P) :
  exists stop st', received_hooks hooks m st = (Ok stop, st').
Proof.
  revert st. induction hooks as [|h rest IH]; intros st; simpl.
  - by do 2 eexists.
  - unfold bind, try_except.
    destruct (call_cases "on_message_received" h m st) as [p' [[r [_ ->]]|[e [_ ->]]]]; simpl.
    + destruct (is_False r); [by do 2 eexists | apply IH].
    + apply IH.
Qed.

Lemma attachment_hooks_ok hooks att message g (st : State P) :
  exists r st', attachment_hooks cfg hooks att message g st = (Ok r, st').
Proof.
  revert st. induction hooks as [|h rest IH]; intros st; simpl.
  - by do 2 eexists.
  - unfold bind, try_except.
    destruct (call_cases "process_attachment" h (att, LLM_ACCEPTS_IMAGES cfg, message) st)
      as [p' [[r [_ ->]]|[e [_ ->]]]]; simpl.
    + destruct (claimed r); simpl; [by do 2 eexists | apply IH].
    + apply IH.
Qed.

Lemma default_image_ok att g (st : State P) :
  exists st', default_image w att g st
              = (Ok (add_image (image_url_part att (http_base64 w (url att))) g), st').
Proof. by eexists. Qed.

Lemma attachment_hooks_history_ok hooks att g (st : State P) :
  exists g' st', attachment_hooks_history cfg w hooks att g st = (Ok g', st').
Proof.
  revert g st. induction hooks as [|h rest IH]; intros g st; simpl.
  - by do 2 eexists.
  - unfold bind, try_except.
    destruct (call_cases "process_attachment" h (att, LLM_ACCEPTS_IMAGES cfg, None) st)
      as [p' [[r [_ ->]]|[e [_ ->]]]]; simpl.
    + destruct (claimed r); simpl; [by do 2 eexists |].
      destruct (LLM_ACCEPTS_IMAGES cfg); simpl; apply IH.
    + destruct (LLM_ACCEPTS_IMAGES cfg); simpl; apply IH.
Qed.

Lemma before_hook_ok h messages m (st : State P) :
  exists messages' st', before_hook h messages m st = (Ok messages', st').
Proof.
  unfold before_hook.
  destruct (before_run h messages m (plugin_state st)) as [[p' in_place] [[[|]|]|e]];
    by do 2 eexists.
Qed.

Lemma before_hooks_ok hooks messages m (st : State P) :
  exists messages' st', before_hooks hooks messages m st = (Ok messages', st').
Proof.
  revert messages st. induction hooks as [|h rest IH]; intros messages st; simpl.
  - by do 2 eexists.
  - unfold bind. destruct (before_hook_ok h messages m st) as (ms & st' & ->). apply IH.
Qed.

Lemma after_hooks_ok hooks m full (st : State P) :
  exists st', after_hooks hooks m full st = (Ok tt, st').
Proof.
  revert st. induction hooks as [|h rest IH]; intros st; simpl.
  - by eexists.
  - unfold bind, try_except.
    destruct (call_cases "after_llm_response" h (m, full) st) as [p' [[[] [_ ->]]|[e [_ ->]]]];
      simpl; apply IH.
Qed.

End Dispatch.

(** *** A callable that raises counts as one that returned nothing *)

Section Quiet.

Context {P : Type}.
Variable cfg : Config.
Variable w : World.

Lemma erase_log_plugin_state (st1 st2 : State P) :
  erase_log st1 = erase_log st2 -> plugin_state st1 = plugin_state st2.
Proof. destruct st1, st2. unfold erase_log, with_trace. simpl. congruence. Qed.

Lemma erase_log_called point hook p' (st1 st2 : State P) :
  erase_log st1 = erase_log st2 ->
  erase_log (called point hook p' st1) = erase_log (called point hook p' st2).
Proof.
  destruct st1, st2. unfold erase_log, called, with_trace, with_plugin_state. simpl.
  intros H. injection H as -> -> -> -> _ -> -> Ht. by rewrite Ht.
Qed.

Lemma erase_log_logged text (st : State P) : erase_log (logged text st) = erase_log st.
Proof. by destruct st. Qed.

Lemma same_but_log_refl {A} (r : Res A) (st1 st2 : State P) :
  erase_log st1 = erase_log st2 -> same_but_log (r, st1) (r, st2).
Proof. by split. Qed.

(** One turn of each loop, by the way the call ends. *)

Lemma ready_hooks_step h rest (st : State P) :
  ready_hooks w (h :: rest) st =
  match hook_run h (bot_user w) (plugin_state st) with
  | (p', Returns _) => ready_hooks w rest (called "on_bot_ready" (hook_name h) p' st)
  | (p', Raises e) =>
      ready_hooks w rest
        (logged ("Error in on_bot_ready hook: " +:+ exn_text e)
           (called "on_bot_ready" (hook_name h) p' st))
  end.
Proof.
  simpl. unfold bind, try_except, call.
  by destruct (hook_run h (bot_user w) (plugin_state st)) as [p' [[]|e]].
Qed.

Lemma received_hooks_step h rest m (st : State P) :
  received_hooks (h :: rest) m st =
  match hook_run h m (plugin_state st) with
  | (p', Returns result) =>
      if is_False result
      then (Ok true, called "on_message_received" (hook_name h) p' st)
      else received_hooks rest m (called "on_message_received" (hook_name h) p' st)
  | (p', Raises e) =>
      received_hooks rest m
        (logged ("Error in on_message_received hook: " +:+ exn_text e)
           (called "on_message_received" (hook_name h) p' st))
  end.
Proof.
  simpl. unfold bind, try_except, call.
  destruct (hook_run h m (plugin_state st)) as [p' [r|e]]; simpl; [|done].
  by destruct (is_False r).
Qed.

Lemma attachment_hooks_step h rest att message g (st : State P) :
  attachment_hooks cfg (h :: rest) att message g st =
  match hook_run h (att, LLM_ACCEPTS_IMAGES cfg, message) (plugin_state st) with
  | (p', Returns result) =>
      match claimed result with
      | Some d => (Ok (true, take_result cfg att d g),
                   called "process_attachment" (hook_name h) p' st)
      | None => attachment_hooks cfg rest att message g
                  (called "process_attachment" (hook_name h) p' st)
      end
  | (p', Raises e) =>
      attachment_hooks cfg rest att message g
        (logged ("Error in process_attachment hook: " +:+ exn_text e)
           (called "process_attachment" (hook_name h) p' st))
  end.
Proof.
  simpl. unfold bind, try_except, call.
  destruct (hook_run h (att, LLM_ACCEPTS_IMAGES cfg, message) (plugin_state st))
    as [p' [r|e]]; simpl; [|done].
  by destruct (claimed r).
Qed.

(** The handler's own encoding, where the scan of the channel runs it:
    after each callable that has not claimed the attachment. *)
Lemma attachment_hooks_history_step h rest att g (st : State P) :
  attachment_hooks_history cfg w (h :: rest) att g st =
  match hook_run h (att, LLM_ACCEPTS_IMAGES cfg, None) (plugin_state st) with
  | (p', Returns result) =>
      match claimed result with
      | Some d => (Ok (take_result cfg att d g),
                   called "process_attachment" (hook_name h) p' st)
      | None =>
          (g' <- (if LLM_ACCEPTS_IMAGES cfg then default_image w att g else ret g) ;;
           attachment_hooks_history cfg w rest att g')
            (called "process_attachment" (hook_name h) p' st)
      end
  | (p', Raises e) =>
      (g' <- (if LLM_ACCEPTS_IMAGES cfg then default_image w att g else ret g) ;;
       attachment_hooks_history cfg w rest att g')
        (logged ("Error in process_attachment hook: " +:+ exn_text e)
           (called "process_attachment" (hook_name h) p' st))
  end.
Proof.
  simpl. unfold bind at 1. unfold try_except, bind, call.
  destruct (hook_run h (att, LLM_ACCEPTS_IMAGES cfg, None) (plugin_state st))
    as [p' [r|e]]; simpl; [|done].
  by destruct (claimed r).
Qed.

Lemma before_hooks_step h rest messages m (st : State P) :
  before_hooks (h :: rest) messages m st =
  match before_run h messages m (plugin_state st) with
  | (p', in_place, Returns (Some (t :: ts))) =>
      before_hooks rest (t :: ts) m (called "before_llm_call" (before_name h) p' st)
  | (p', in_place, Returns _) =>
      before_hooks rest in_place m (called "before_llm_call" (before_name h) p' st)
  | (p', in_place, Raises e) =>
      before_hooks rest in_place m
        (logged ("Error in before_llm_call hook: " +:+ exn_text e)
           (called "before_llm_call" (before_name h) p' st))
  end.
Proof.
  simpl. unfold bind, before_hook.
  by destruct (before_run h messages m (plugin_state st)) as [[p' in_place] [[[|]|]|e]].
Qed.

Lemma after_hooks_step h rest m full (st : State P) :
  after_hooks (h :: rest) m full st =
  match hook_run h (m, full) (plugin_state st) with
  | (p', Returns _) => after_hooks rest m full (called "after_llm_response" (hook_name h) p' st)
  | (p', Raises e) =>
      after_hooks rest m full
        (logged ("Error in after_llm_response hook: " +:+ exn_text e)
           (called "after_llm_response" (hook_name h) p' st))
  end.
Proof.
  simpl. unfold bind, try_except, call.
  by destruct (hook_run h (m, full) (plugin_state st)) as [p' [[]|e]].
Qed.

(** The loops with every callable made quiet. *)

Lemma ready_hooks_quiet hooks (st1 st2 : State P) :
  erase_log st1 = erase_log st2 ->
  same_but_log (ready_hooks w hooks st1) (ready_hooks w (map (quiet tt) hooks) st2).
Proof.
  revert st1 st2. induction hooks as [|h rest IH]; intros st1 st2 E.
  - by apply same_but_log_refl.
  - rewrite map_cons, !ready_hooks_step. simpl.
    rewrite <- (erase_log_plugin_state _ _ E).
    destruct (hook_run h (bot_user w) (plugin_state st1)) as [p' [[]|e]]; apply IH.
    + by apply erase_log_called.
    + rewrite erase_log_logged. by apply erase_log_called.
Qed.

Lemma received_hooks_quiet hooks m (st1 st2 : State P) :
  erase_log st1 = erase_log st2 ->
  same_but_log (received_hooks hooks m st1) (received_hooks (map (quiet PyNone) hooks) m st2).
Proof.
  revert st1 st2. induction hooks as [|h rest IH]; intros st1 st2 E.
  - by apply same_but_log_refl.
  - rewrite map_cons, !received_hooks_step. simpl.
    rewrite <- (erase_log_plugin_state _ _ E).
    destruct (hook_run h m (plugin_state st1)) as [p' [r|e]]; simpl.
    + destruct (is_False r).
      * apply same_but_log_refl. by apply erase_log_called.
      * apply IH. by apply erase_log_called.
    + apply IH. rewrite erase_log_logged. by apply erase_log_called.
Qed.

Lemma attachment_hooks_quiet hooks att message g (st1 st2 : State P) :
  erase_log st1 = erase_log st2 ->
  same_but_log (attachment_hooks cfg hooks att message g st1)
               (attachment_hooks cfg (map (quiet None) hooks) att message g st2).
Proof.
  revert st1 st2. induction hooks as [|h rest IH]; intros st1 st2 E.
  - by apply same_but_log_refl.
  - rewrite map_cons, !attachment_hooks_step. simpl.
    rewrite <- (erase_log_plugin_state _ _ E).
    destruct (hook_run h (att, LLM_ACCEPTS_IMAGES cfg, message) (plugin_state st1))
      as [p' [r|e]]; simpl.
    + destruct (claimed r).
      * apply same_but_log_refl. by apply erase_log_called.
      * apply IH. by apply erase_log_called.
    + apply IH. rewrite erase_log_logged. by apply erase_log_called.
Qed.

Lemma erase_log_emit ev (st1 st2 : State P) :
  erase_log st1 = erase_log st2 ->
  erase_log (with_trace (ev :: trace st1) st1) = erase_log (with_trace (ev :: trace st2) st2).
Proof.
  destruct st1, st2. unfold erase_log, with_trace. simpl.
  intros H. injection H as -> -> -> -> -> -> -> Ht. by rewrite Ht.
Qed.

Lemma attachment_hooks_history_quiet hooks att g (st1 st2 : State P) :
  erase_log st1 = erase_log st2 ->
  same_but_log (attachment_hooks_history cfg w hooks att g st1)
               (attachment_hooks_history cfg w (map (quiet None) hooks) att g st2).
Proof.
  revert g st1 st2. induction hooks as [|h rest IH]; intros g st1 st2 E.
  - by apply same_but_log_refl.
  - rewrite map_cons, !attachment_hooks_history_step. simpl.
    rewrite <- (erase_log_plugin_state _ _ E).
    assert (Hnext : forall s1 s2 : State P,
               erase_log s1 = erase_log s2 ->
               same_but_log
                 ((g' <- (if LLM_ACCEPTS_IMAGES cfg then default_image w att g else ret g) ;;
                   attachment_hooks_history cfg w rest att g') s1)
                 ((g' <- (if LLM_ACCEPTS_IMAGES cfg then default_image w att g else ret g) ;;
                   attachment_hooks_history cfg w (map (quiet None) rest) att g') s2)).
    { intros s1 s2 E'. destruct (LLM_ACCEPTS_IMAGES cfg).
      - unfold bind, default_image, emit, modify, ret. simpl. apply IH.
        by apply erase_log_emit.
      - unfold bind, ret. simpl. by apply IH. }
    destruct (hook_run h (att, LLM_ACCEPTS_IMAGES cfg, None) (plugin_state st1))
      as [p' [r|e]]; simpl.
    + destruct (claimed r).
      * apply same_but_log_refl. by apply erase_log_called.
      * apply Hnext. by apply erase_log_called.
    + apply Hnext. rewrite erase_log_logged. by apply erase_log_called.
Qed.

Lemma before_hooks_quiet hooks messages m (st1 st2 : State P) :
  erase_log st1 = erase_log st2 ->
  same_but_log (before_hooks hooks messages m st1)
               (before_hooks (map quiet_before hooks) messages m st2).
Proof.
  revert messages st1 st2. induction hooks as [|h rest IH]; intros messages st1 st2 E.
  - by apply same_but_log_refl.
  - rewrite map_cons, !before_hooks_step. simpl.
    rewrite <- (erase_log_plugin_state _ _ E).
    destruct (before_run h messages m (plugin_state st1)) as [[p' in_place] [[[|]|]|e]];
      simpl; apply IH; rewrite ?erase_log_logged; by apply erase_log_called.
Qed.

Lemma after_hooks_quiet hooks m full (st1 st2 : State P) :
  erase_log st1 = erase_log st2 ->
  same_but_log (after_hooks hooks m full st1) (after_hooks (map (quiet tt) hooks) m full st2).
Proof.
  revert st1 st2. induction hooks as [|h rest IH]; intros st1 st2 E.
  - by apply same_but_log_refl.
  - rewrite map_cons, !after_hooks_step. simpl.
    rewrite <- (erase_log_plugin_state _ _ E).
    destruct (hook_run h (m, full) (plugin_state st1)) as [p' [[]|e]]; apply IH.
    + by apply erase_log_called.
    + rewrite erase_log_logged. by apply erase_log_called.
Qed.

End Quiet.

(** ** The fan-out on [on_message_received] *)

Section Received.

Context {P : Type}.
Variable cfg : Config.
Variable w : World.

Lemma calls_of_hook point h t :
  calls_of point (EvHook point h :: t) = (calls_of point t ++ [h])%list.
Proof.
  unfold calls_of. simpl. rewrite flat_map_app. simpl.
  by rewrite String.eqb_refl, app_nil_r.
Qed.

Lemma calls_of_log point text t :
  calls_of point (EvLogError text :: t) = calls_of point t.
Proof. unfold calls_of. simpl. rewrite flat_map_app. simpl. by rewrite app_nil_r. Qed.

(** A run of the loop over a list that ends without a stop continues
    with whatever is registered next. *)
Lemma received_hooks_app pre post m (st st1 : State P) :
  received_hooks pre m st = (Ok false, st1) ->
  received_hooks (pre ++ post) m st = received_hooks post m st1.
Proof.
  revert st. induction pre as [|h pre IH]; intros st.
  - simpl. unfold ret. by intros [= ->].
  - rewrite <- app_comm_cons, !received_hooks_step.
    destruct (hook_run h m (plugin_state st)) as [p' [r|e]]; [|apply IH].
    destruct (is_False r); [discriminate | apply IH].
Qed.

(** Every callable of a run that ends without a stop was called, in the
    order of registration. *)
Lemma received_hooks_calls_all hooks m (st st1 : State P) :
  received_hooks hooks m st = (Ok false, st1) ->
  calls_of "on_message_received" (trace st1)
  = (calls_of "on_message_received" (trace st) ++ map hook_name hooks)%list.
Proof.
  revert st. induction hooks as [|h rest IH]; intros st.
  - simpl. unfold ret. intros [= ->]. by rewrite app_nil_r.
  - rewrite received_hooks_step.
    destruct (hook_run h m (plugin_state st)) as [p' [r|e]].
    + destruct (is_False r); [discriminate|]. intros H. rewrite (IH _ H).
      unfold called. simpl. by rewrite calls_of_hook, <- app_assoc.
    + intros H. rewrite (IH _ H).
      unfold logged, called. simpl. by rewrite calls_of_log, calls_of_hook, <- app_assoc.
Qed.

(** The loop touches neither the cache nor the channel, and adds to the
    trace only calls of its callables and lines of the log. *)
Lemma received_hooks_effects hooks m (st : State P) :
  exists stop st' evs,
    received_hooks hooks m st = (Ok stop, st')
    /\ msg_nodes st' = msg_nodes st
    /\ sent st' = sent st
    /\ MESSAGE_COUNT st' = MESSAGE_COUNT st
    /\ trace st' = (evs ++ trace st)%list
    /\ Forall fan_out_event evs.
Proof.
  revert st. induction hooks as [|h rest IH]; intros st.
  - exists false, st, []. by repeat split.
  - rewrite received_hooks_step.
    destruct (hook_run h m (plugin_state st)) as [p' [r|e]].
    + destruct (is_False r).
      * exists true, (called "on_message_received" (hook_name h) p' st),
          [EvHook "on_message_received" (hook_name h)].
        repeat split; auto. by repeat constructor.
      * destruct (IH (called "on_message_received" (hook_name h) p' st))
          as (stop & st' & evs & -> & Hn & Hs & Hc & Ht & Hf).
        exists stop, st', (evs ++ [EvHook "on_message_received" (hook_name h)])%list.
        repeat split; auto.
        -- rewrite Ht. simpl. by rewrite <- app_assoc.
        -- apply Forall_app. split; [done | by repeat constructor].
    + destruct (IH (logged ("Error in on_message_received hook: " +:+ exn_text e)
                      (called "on_message_received" (hook_name h) p' st)))
        as (stop & st' & evs & -> & Hn & Hs & Hc & Ht & Hf).
      exists stop, st',
        (evs ++ [EvLogError ("Error in on_message_received hook: " +:+ exn_text e);
                 EvHook "on_message_received" (hook_name h)])%list.
      repeat split; auto.
      * rewrite Ht. simpl. by rewrite <- app_assoc.
      * apply Forall_app. split; [done | by repeat constructor].
Qed.

End Received.

(** C3, as amended. The callables of [on_message_received] are called in
    the order of registration until one of them returns [False]: when no
    callable registered before [h] stopped the dispatch ([pre] ran to its
    end) and [h] returns [False], the dispatch stops there with
    [stop_processing] set, every callable of [pre] has been called, none
    of the callables registered after [h] is called, and the handler
    returns in the state the call of [h] left: nothing else is done with
    the message. *)
Theorem C3_dispatch_stops_at_first_False {P : Type} (cfg : Config) (w : World)
  (hooks : PluginHooks P) (fuel : nat) (m : Message) (st st1 : State P)
  (pre post : list (Hook P Message PyVal)) (h : Hook P Message PyVal) (p' : P) :
  on_message_received hooks = (pre ++ h :: post)%list ->
  user_id (author m) <> user_id (bot_user w) ->
  received_hooks pre m (with_MESSAGE_COUNT (MESSAGE_COUNT st + 1) st) = (Ok false, st1) ->
  hook_run h m (plugin_state st1) = (p', Returns (PyBool false)) ->
  let stopped := called "on_message_received" (hook_name h) p' st1 in
  received_hooks (pre ++ h :: post) m (with_MESSAGE_COUNT (MESSAGE_COUNT st + 1) st)
  = (Ok true, stopped)
  /\ calls_of "on_message_received" (trace stopped)
     = (calls_of "on_message_received" (trace st) ++ map hook_name pre ++ [hook_name h])%list
  /\ on_message cfg w hooks fuel m st = (Ok tt, stopped).
Proof.
  intros Hreg Hauthor Hpre Hh stopped.
  assert (Hrun : received_hooks (pre ++ h :: post) m
                   (with_MESSAGE_COUNT (MESSAGE_COUNT st + 1) st) = (Ok true, stopped)).
  { rewrite (received_hooks_app _ _ _ _ _ Hpre), received_hooks_step, Hh. reflexivity. }
  split; [exact Hrun|]. split.
  - unfold stopped, called. simpl.
    rewrite calls_of_hook, (received_hooks_calls_all _ _ _ _ Hpre). simpl.
    by rewrite <- app_assoc.
  - unfold on_message. apply Z.eqb_neq in Hauthor. rewrite Hauthor.
    unfold bind, modify. rewrite Hreg, Hrun. reflexivity.
Qed.

(** C3, witness: a callable that raises, then one that returns [False],
    then one that is never reached. *)
Lemma C3_dispatch_stops_at_first_False_witness :
  let hooks := Demo.with_received
                 [Demo.raising "faulty"; Demo.returning "stopper" (PyBool false);
                  Demo.returning "greeter" PyNone] in
  let m := Demo.message 20 Demo.alice "hello mom" None 100 in
  exists st',
    on_message (Demo.cfg true "openai/gpt-4o" 100 1 10) (Demo.world [] Demo.hi_there)
      hooks 10 m (Demo.start ∅) = (Ok tt, st')
    /\ calls_of "on_message_received" (trace st') = ["faulty"; "stopper"]
    /\ plugin_state st' = ["faulty"; "stopper"].
Proof.
  intros hooks m.
  pose proof (C3_dispatch_stops_at_first_False
                (Demo.cfg true "openai/gpt-4o" 100 1 10) (Demo.world [] Demo.hi_there)
                hooks 10 m (Demo.start ∅)
                (logged "Error in on_message_received hook: boom"
                   (called "on_message_received" "faulty" ["faulty"]
                      (with_MESSAGE_COUNT 1 (Demo.start ∅))))
                [Demo.raising "faulty"] [Demo.returning "greeter" PyNone]
                (Demo.returning "stopper" (PyBool false)) ["faulty"; "stopper"]
                eq_refl ltac:(vm_compute; discriminate) eq_refl eq_refl) as (_ & Hc & Hm).
  eexists. split; [exact Hm|]. split; reflexivity.
Defined.

(** C3, as stated, fails: with a callable that returns [False] registered
    before another one, the second is registered and never called. *)
Lemma C3_counterexample :
  let hooks := [Demo.returning "stopper" (PyBool false); Demo.returning "greeter" PyNone] in
  let m := Demo.message 20 Demo.alice "hello mom" None 100 in
  let run := received_hooks hooks m (Demo.start ∅) in
  fst run = Ok true
  /\ calls_of "on_message_received" (trace (snd run)) = ["stopper"]
  /\ plugin_state (snd run) = ["stopper"]
  /\ ~ (forall h, In h hooks ->
                  In (hook_name h) (calls_of "on_message_received" (trace (snd run)))).
Proof.
  intros hooks m run. repeat split.
  intros H. specialize (H (Demo.returning "greeter" PyNone) (or_intror (or_introl eq_refl))).
  vm_compute in H. destruct H as [H|[]]. discriminate H.
Qed.

(** C7. At every extension point a callable that raises is logged and
    the dispatch goes on with the callables registered after it, as if
    the callable had returned nothing. [st] is the state in which the
    callable is called. For each of [on_bot_ready], [on_message_received],
    [process_attachment] (as the reply walk and the current message run
    it, and as the scan of the channel runs it), [before_llm_call] and
    [after_llm_response]:
    - the step: when the callable at the head raises [e], the loop is the
      loop over the remaining callables, run from the state the call
      left, with one line added to the log (for [before_llm_call] the
      list [messages] goes on as the callable left it; in the scan of
      the channel the handler first does what it does after a callable
      that returned nothing, its own encoding of the image);
    - the loop ends normally whatever its callables do: no exception of
      a callable leaves it;
    - the run is the run where every callable that raises returns
      nothing instead, up to the lines of the log. *)
Theorem C7_raising_callable_is_logged_and_skipped {P : Type} (cfg : Config) (w : World)
  (st : State P) :
  (* on_bot_ready *)
  ((forall h rest p' e,
       hook_run h (bot_user w) (plugin_state st) = (p', Raises e) ->
       ready_hooks w (h :: rest) st
       = ready_hooks w rest
           (logged ("Error in on_bot_ready hook: " +:+ exn_text e)
              (called "on_bot_ready" (hook_name h) p' st)))
   /\ (forall hooks, exists st', ready_hooks w hooks st = (Ok tt, st'))
   /\ (forall hooks,
          same_but_log (ready_hooks w hooks st) (ready_hooks w (map (quiet tt) hooks) st)))
  (* on_message_received *)
  /\ ((forall h rest m p' e,
          hook_run h m (plugin_state st) = (p', Raises e) ->
          received_hooks (h :: rest) m st
          = received_hooks rest m
              (logged ("Error in on_message_received hook: " +:+ exn_text e)
                 (called "on_message_received" (hook_name h) p' st)))
      /\ (forall hooks m, exists stop st', received_hooks hooks m st = (Ok stop, st'))
      /\ (forall hooks m,
             same_but_log (received_hooks hooks m st)
               (received_hooks (map (quiet PyNone) hooks) m st)))
  (* process_attachment *)
  /\ ((forall h rest att message g p' e,
          hook_run h (att, LLM_ACCEPTS_IMAGES cfg, message) (plugin_state st) = (p', Raises e) ->
          attachment_hooks cfg (h :: rest) att message g st
          = attachment_hooks cfg rest att message g
              (logged ("Error in process_attachment hook: " +:+ exn_text e)
                 (called "process_attachment" (hook_name h) p' st)))
      /\ (forall hooks att message g,
             exists r st', attachment_hooks cfg hooks att message g st = (Ok r, st'))
      /\ (forall hooks att message g,
             same_but_log (attachment_hooks cfg hooks att message g st)
               (attachment_hooks cfg (map (quiet None) hooks) att message g st)))
  (* process_attachment, in the scan of the channel *)
  /\ ((forall h rest att g p' e,
          hook_run h (att, LLM_ACCEPTS_IMAGES cfg, None) (plugin_state st) = (p', Raises e) ->
          attachment_hooks_history cfg w (h :: rest) att g st
          = (g' <- (if LLM_ACCEPTS_IMAGES cfg then default_image w att g else ret g) ;;
             attachment_hooks_history cfg w rest att g')
              (logged ("Error in process_attachment hook: " +:+ exn_text e)
                 (called "process_attachment" (hook_name h) p' st)))
      /\ (forall hooks att g,
             exists g' st', attachment_hooks_history cfg w hooks att g st = (Ok g', st'))
      /\ (forall hooks att g,
             same_but_log (attachment_hooks_history cfg w hooks att g st)
               (attachment_hooks_history cfg w (map (quiet None) hooks) att g st)))
  (* before_llm_call *)
  /\ ((forall h rest messages m p' in_place e,
          before_run h messages m (plugin_state st) = (p', in_place, Raises e) ->
          before_hooks (h :: rest) messages m st
          = before_hooks rest in_place m
              (logged ("Error in before_llm_call hook: " +:+ exn_text e)
                 (called "before_llm_call" (before_name h) p' st)))
      /\ (forall hooks messages m,
             exists messages' st', before_hooks hooks messages m st = (Ok messages', st'))
      /\ (forall hooks messages m,
             same_but_log (before_hooks hooks messages m st)
               (before_hooks (map quiet_before hooks) messages m st)))
  (* after_llm_response *)
  /\ ((forall h rest m full p' e,
          hook_run h (m, full) (plugin_state st) = (p', Raises e) ->
          after_hooks (h :: rest) m full st
          = after_hooks rest m full
              (logged ("Error in after_llm_response hook: " +:+ exn_text e)
                 (called "after_llm_response" (hook_name h) p' st)))
      /\ (forall hooks m full, exists st', after_hooks hooks m full st = (Ok tt, st'))
      /\ (forall hooks m full,
             same_but_log (after_hooks hooks m full st)
               (after_hooks (map (quiet tt) hooks) m full st))).
Proof.
  repeat split.
  - intros h rest p' e H. by rewrite ready_hooks_step, H.
  - intros hooks. apply ready_hooks_ok.
  - by apply ready_hooks_quiet.
  - by apply ready_hooks_quiet.
  - intros h rest m p' e H. by rewrite received_hooks_step, H.
  - intros hooks m. apply received_hooks_ok.
  - by apply received_hooks_quiet.
  - by apply received_hooks_quiet.
  - intros h rest att message g p' e H. by rewrite attachment_hooks_step, H.
  - intros hooks att message g. apply attachment_hooks_ok.
  - by apply attachment_hooks_quiet.
  - by apply attachment_hooks_quiet.
  - intros h rest att g p' e H. by rewrite attachment_hooks_history_step, H.
  - intros hooks att g. apply attachment_hooks_history_ok.
  - by apply attachment_hooks_history_quiet.
  - by apply attachment_hooks_history_quiet.
  - intros h rest messages m p' in_place e H. by rewrite before_hooks_step, H.
  - intros hooks messages m. apply before_hooks_ok.
  - by apply before_hooks_quiet.
  - by apply before_hooks_quiet.
  - intros h rest m full p' e H. by rewrite after_hooks_step, H.
  - intros hooks m full. apply after_hooks_ok.
  - by apply after_hooks_quiet.
  - by apply after_hooks_quiet.
Qed.

(** C7, witness: of three callables of [after_llm_response] the second
    raises, after the first has run; the third runs next, from the state
    the failed call left and with the failure in the log, and the three
    have run in the order of registration. In the scan of the channel,
    with a model that takes images, a callable of [process_attachment]
    that raises is logged, the handler encodes the picture itself, and
    the callable registered next is called and gives its caption. *)
Lemma C7_raising_callable_is_logged_and_skipped_witness :
  let m := Demo.message 20 Demo.alice "hello mom" None 100 in
  let after_A := called "after_llm_response" "A" ["A"] (Demo.start ∅) in
  let cfg := Demo.cfg true "openai/gpt-4o" 100 1 10 in
  let w := Demo.world [] Demo.hi_there in
  let captioner :=
    Demo.returning "captioner" (Some [("caption", PyStr "a red car")]) in
  hook_run (Demo.raising "B" : Hook _ (Message * string) unit) (m, "Hi there!")
    (plugin_state after_A)
  = (["A"; "B"], Raises (Exception "boom"))
  /\ after_hooks [Demo.raising "B"; Demo.returning "C" tt] m "Hi there!" after_A
     = after_hooks [Demo.returning "C" tt] m "Hi there!"
         (logged "Error in after_llm_response hook: boom"
            (called "after_llm_response" "B" ["A"; "B"] after_A))
  /\ (exists st',
         after_hooks [Demo.returning "A" tt; Demo.raising "B"; Demo.returning "C" tt]
           m "Hi there!" (Demo.start ∅) = (Ok tt, st')
         /\ plugin_state st' = ["A"; "B"; "C"]
         /\ rev (trace st')
            = [EvHook "after_llm_response" "A"; EvHook "after_llm_response" "B";
               EvLogError "Error in after_llm_response hook: boom";
               EvHook "after_llm_response" "C"])
  /\ (exists g' st',
         attachment_hooks_history cfg w [Demo.raising "B"; captioner] Demo.picture
           (initial_parts "look") (Demo.start ∅) = (Ok g', st')
         /\ text_parts g' = ["look"; "[Image description: a red car]"]
         /\ List.length (image_parts g') = 1%nat
         /\ plugin_state st' = ["B"; "captioner"]
         /\ rev (trace st')
            = [EvHook "process_attachment" "B";
               EvLogError "Error in process_attachment hook: boom";
               EvHttpGet (url Demo.picture);
               EvHook "process_attachment" "captioner"]).
Proof.
  intros m after_A cfg w captioner.
  destruct (C7_raising_callable_is_logged_and_skipped cfg w after_A)
    as (_ & _ & _ & _ & _ & Hstep & _ & _).
  destruct (C7_raising_callable_is_logged_and_skipped cfg w (Demo.start ∅))
    as (_ & _ & _ & (Hhist & _ & _) & _ & _).
  split; [reflexivity|]. split; [|split].
  - apply (Hstep (Demo.raising "B") [Demo.returning "C" tt] m "Hi there!"
             ["A"; "B"] (Exception "boom")).
    reflexivity.
  - eexists. repeat split.
  - do 2 eexists. split.
    + etransitivity; [|reflexivity].
      exact (Hhist (Demo.raising "B") [captioner] Demo.picture (initial_parts "look")
               ["B"] (Exception "boom") eq_refl).
    + repeat split.
Defined.

(** ** The pipeline on [process_attachment] *)

Section Attachment.

Context {P : Type}.
Variable cfg : Config.

(** A run over a list where no callable claims the attachment leaves the
    parts as they were and continues with whatever is registered next. *)
Lemma attachment_hooks_unclaimed hooks att message g g1 (st st1 : State P) :
  attachment_hooks cfg hooks att message g st = (Ok (false, g1), st1) -> g1 = g.
Proof.
  revert st. induction hooks as [|h rest IH]; intros st.
  - simpl. unfold ret. by intros [= ->].
  - rewrite attachment_hooks_step.
    destruct (hook_run h (att, LLM_ACCEPTS_IMAGES cfg, message) (plugin_state st))
      as [p' [r|e]]; [|apply IH].
    destruct (claimed r); [discriminate | apply IH].
Qed.

Lemma attachment_hooks_app pre post att message g g1 (st st1 : State P) :
  attachment_hooks cfg pre att message g st = (Ok (false, g1), st1) ->
  attachment_hooks cfg (pre ++ post) att message g st
  = attachment_hooks cfg post att message g st1.
Proof.
  revert st. induction pre as [|h pre IH]; intros st.
  - simpl. unfold ret. by intros [= _ ->].
  - rewrite <- app_comm_cons, !attachment_hooks_step.
    destruct (hook_run h (att, LLM_ACCEPTS_IMAGES cfg, message) (plugin_state st))
      as [p' [r|e]]; [|apply IH].
    destruct (claimed r); [discriminate | apply IH].
Qed.

Lemma attachment_hooks_calls_all hooks att message g g1 (st st1 : State P) :
  attachment_hooks cfg hooks att message g st = (Ok (false, g1), st1) ->
  calls_of "process_attachment" (trace st1)
  = (calls_of "process_attachment" (trace st) ++ map hook_name hooks)%list.
Proof.
  revert st. induction hooks as [|h rest IH]; intros st.
  - simpl. unfold ret. intros [= _ ->]. by rewrite app_nil_r.
  - rewrite attachment_hooks_step.
    destruct (hook_run h (att, LLM_ACCEPTS_IMAGES cfg, message) (plugin_state st))
      as [p' [r|e]].
    + destruct (claimed r); [discriminate|]. intros H. rewrite (IH _ H).
      unfold called. simpl. by rewrite calls_of_hook, <- app_assoc.
    + intros H. rewrite (IH _ H).
      unfold logged, called. simpl. by rewrite calls_of_log, calls_of_hook, <- app_assoc.
Qed.

Lemma take_result_caption att d g caption :
  dict_get "caption" d = Some caption -> truthy caption = true ->
  text_parts (take_result cfg att d g)
  = (text_parts g ++ ["[Image description: " +:+ fmt caption +:+ "]"])%list.
Proof.
  intros Hc Ht. unfold take_result. rewrite Hc, Ht.
  destruct (dict_get "image_data" d); [destruct (LLM_ACCEPTS_IMAGES cfg)|]; reflexivity.
Qed.

(** In the scan of the channel a run over callables that claim nothing
    calls each of them, adds no text, and hands over to whatever is
    registered next. *)
Lemma attachment_hooks_history_pass (w : World) pre att g p1 (st : State P) :
  pass_unclaimed pre (att, LLM_ACCEPTS_IMAGES cfg, None) (plugin_state st) = Some p1 ->
  exists g1 st1,
    attachment_hooks_history cfg w pre att g st = (Ok g1, st1)
    /\ plugin_state st1 = p1
    /\ text_parts g1 = text_parts g
    /\ calls_of "process_attachment" (trace st1)
       = (calls_of "process_attachment" (trace st) ++ map hook_name pre)%list
    /\ forall post,
         attachment_hooks_history cfg w (pre ++ post) att g st
         = attachment_hooks_history cfg w post att g1 st1.
Proof.
  revert g st. induction pre as [|h pre IH]; intros g st Hpass.
  - simpl in Hpass. injection Hpass as <-. exists g, st.
    repeat split; try reflexivity. by rewrite app_nil_r.
  - simpl in Hpass.
    assert (Hnext : forall st0 : State P,
               plugin_state st0 = plugin_state st ->
               forall p', pass_unclaimed pre (att, LLM_ACCEPTS_IMAGES cfg, None) p' = Some p1 ->
               forall s : State P,
                 plugin_state s = p' ->
                 calls_of "process_attachment" (trace s)
                 = (calls_of "process_attachment" (trace st) ++ [hook_name h])%list ->
                 exists g1 st1,
                   (g' <- (if LLM_ACCEPTS_IMAGES cfg then default_image w att g else ret g) ;;
                    attachment_hooks_history cfg w pre att g') s = (Ok g1, st1)
                   /\ plugin_state st1 = p1
                   /\ text_parts g1 = text_parts g
                   /\ calls_of "process_attachment" (trace st1)
                      = (calls_of "process_attachment" (trace st) ++ hook_name h
                         :: map hook_name pre)%list
                   /\ forall post,
                        (g' <- (if LLM_ACCEPTS_IMAGES cfg then default_image w att g
                                else ret g) ;;
                         attachment_hooks_history cfg w (pre ++ post) att g') s
                        = attachment_hooks_history cfg w post att g1 st1).
    { intros _ _ p' Hp s Hs Hcalls. destruct (LLM_ACCEPTS_IMAGES cfg) eqn:Hacc.
      - unfold bind, default_image, emit, modify, ret. simpl.
        match goal with
        | |- context [attachment_hooks_history cfg w pre att ?g2 ?s2] =>
            destruct (IH g2 s2) as (g1 & st1 & Hrun & Hp1 & Htext & Hc & Happ);
              [by simpl; rewrite Hs|]
        end.
        exists g1, st1. split; [exact Hrun|]. split; [exact Hp1|].
        split; [by rewrite Htext|]. split; [|exact Happ].
        rewrite Hc. simpl.
        replace (calls_of "process_attachment" (EvHttpGet (url att) :: trace s))
          with (calls_of "process_attachment" (trace s)).
        + by rewrite Hcalls, <- app_assoc.
        + unfold calls_of. simpl. rewrite flat_map_app. simpl. by rewrite app_nil_r.
      - unfold bind, ret. simpl.
        destruct (IH g s) as (g1 & st1 & Hrun & Hp1 & Htext & Hc & Happ);
          [by rewrite Hs|].
        exists g1, st1. split; [exact Hrun|]. split; [exact Hp1|].
        split; [exact Htext|]. split; [|exact Happ].
        by rewrite Hc, Hcalls, <- app_assoc. }
    rewrite attachment_hooks_history_step.
    assert (Happ : forall post,
               attachment_hooks_history cfg w ((h :: pre) ++ post) att g st
               = match hook_run h (att, LLM_ACCEPTS_IMAGES cfg, None) (plugin_state st) with
                 | (p', Returns result) =>
                     match claimed result with
                     | Some d => (Ok (take_result cfg att d g),
                                  called "process_attachment" (hook_name h) p' st)
                     | None =>
                         (g' <- (if LLM_ACCEPTS_IMAGES cfg then default_image w att g
                                 else ret g) ;;
                          attachment_hooks_history cfg w (pre ++ post) att g')
                           (called "process_attachment" (hook_name h) p' st)
                     end
                 | (p', Raises e) =>
                     (g' <- (if LLM_ACCEPTS_IMAGES cfg then default_image w att g
                             else ret g) ;;
                      attachment_hooks_history cfg w (pre ++ post) att g')
                       (logged ("Error in process_attachment hook: " +:+ exn_text e)
                          (called "process_attachment" (hook_name h) p' st))
                 end).
    { intros post. rewrite <- app_comm_cons. apply attachment_hooks_history_step. }
    destruct (hook_run h (att, LLM_ACCEPTS_IMAGES cfg, None) (plugin_state st))
      as [p' [r|e]] eqn:Hh.
    + destruct (claimed r) eqn:Hc; [discriminate|].
      destruct (Hnext st eq_refl p' Hpass (called "process_attachment" (hook_name h) p' st))
        as (g1 & st1 & Hrun & Hp1 & Htext & Hcalls & Hposts).
      * reflexivity.
      * unfold called. simpl. by rewrite calls_of_hook.
      * exists g1, st1. repeat split; try assumption.
        intros post. rewrite Happ. apply Hposts.
    + destruct (Hnext st eq_refl p' Hpass
                  (logged ("Error in process_attachment hook: " +:+ exn_text e)
                     (called "process_attachment" (hook_name h) p' st)))
        as (g1 & st1 & Hrun & Hp1 & Htext & Hcalls & Hposts).
      * reflexivity.
      * unfold logged, called. simpl. by rewrite calls_of_log, calls_of_hook.
      * exists g1, st1. repeat split; try assumption.
        intros post. rewrite Happ. apply Hposts.
Qed.

End Attachment.

(** C9. The dispatch on [process_attachment] stops at the first callable
    that returns a non-empty result, wherever the attachment is offered.
    [h] is registered after the callables [pre] and before the callables
    [post], and returns the non-empty result [d].
    - For the current message and for a message replied to: when the
      callables of [pre] have not claimed the attachment ([pre] ran to
      its end), the attachment is processed, the state is the one the
      call of [h] left, so that no callable of [post] is called,
      whatever [post] holds; the handler does not fetch the image
      itself; and a non-empty caption of [d] is appended to the text
      parts between brackets.
    - For a message the scan of the channel reads: when the callables of
      [pre] claim nothing, the loop ends in the state the call of [h]
      left, the callables called are those of [pre] and [h] and none of
      [post], and a non-empty caption of [d] is appended to the text
      parts between brackets. *)
Theorem C9_first_claim_ends_dispatch {P : Type} (cfg : Config) (w : World)
  (hooks : PluginHooks P) (att : Attachment) (g : Gathered) (st : State P)
  (pre post : list (Hook P (Attachment * bool * option Message) (option PyDict)))
  (h : Hook P (Attachment * bool * option Message) (option PyDict))
  (d : PyDict) :
  process_attachment hooks = (pre ++ h :: post)%list ->
  d <> [] ->
  (forall (new_msg : Message) (g1 : Gathered) (st1 : State P) (p' : P),
      attachment_hooks cfg pre att (Some new_msg) g st = (Ok (false, g1), st1) ->
      hook_run h (att, LLM_ACCEPTS_IMAGES cfg, Some new_msg) (plugin_state st1)
      = (p', Returns (Some d)) ->
      let claimed_state := called "process_attachment" (hook_name h) p' st1 in
      attachment_hooks cfg (pre ++ h :: post) att (Some new_msg) g st
      = (Ok (true, take_result cfg att d g), claimed_state)
      /\ calls_of "process_attachment" (trace claimed_state)
         = (calls_of "process_attachment" (trace st) ++ map hook_name pre
            ++ [hook_name h])%list
      /\ image_attachment cfg w hooks new_msg att g st
         = (Ok (take_result cfg att d g), claimed_state)
      /\ (forall caption,
             dict_get "caption" d = Some caption -> truthy caption = true ->
             text_parts (take_result cfg att d g)
             = (text_parts g ++ ["[Image description: " +:+ fmt caption +:+ "]"])%list))
  /\ (forall (p1 p' : P),
         pass_unclaimed pre (att, LLM_ACCEPTS_IMAGES cfg, None) (plugin_state st) = Some p1 ->
         hook_run h (att, LLM_ACCEPTS_IMAGES cfg, None) p1 = (p', Returns (Some d)) ->
         exists g1 st1,
           attachment_hooks_history cfg w pre att g st = (Ok g1, st1)
           /\ plugin_state st1 = p1
           /\ text_parts g1 = text_parts g
           /\ attachment_hooks_history cfg w (process_attachment hooks) att g st
              = (Ok (take_result cfg att d g1),
                 called "process_attachment" (hook_name h) p' st1)
           /\ calls_of "process_attachment"
                (trace (called "process_attachment" (hook_name h) p' st1))
              = (calls_of "process_attachment" (trace st) ++ map hook_name pre
                 ++ [hook_name h])%list
           /\ (forall caption,
                  dict_get "caption" d = Some caption -> truthy caption = true ->
                  text_parts (take_result cfg att d g1)
                  = (text_parts g ++ ["[Image description: " +:+ fmt caption +:+ "]"])%list)).
Proof.
  intros Hreg Hd. split.
  - intros new_msg g1 st1 p' Hpre Hh claimed_state.
    assert (Hrun : attachment_hooks cfg (pre ++ h :: post) att (Some new_msg) g st
                   = (Ok (true, take_result cfg att d g), claimed_state)).
    { rewrite (attachment_hooks_app _ _ _ _ _ _ _ _ _ Hpre), attachment_hooks_step, Hh.
      destruct d; [done | reflexivity]. }
    repeat split.
    + exact Hrun.
    + unfold claimed_state, called. simpl.
      rewrite calls_of_hook, (attachment_hooks_calls_all _ _ _ _ _ _ _ _ Hpre).
      by rewrite <- app_assoc.
    + unfold image_attachment, bind. rewrite Hreg, Hrun. reflexivity.
    + apply take_result_caption.
  - intros p1 p' Hpass Hh.
    destruct (attachment_hooks_history_pass cfg w pre att g p1 st Hpass)
      as (g1 & st1 & Hrun & Hp1 & Htext & Hcalls & Happ).
    exists g1, st1. split; [exact Hrun|]. split; [exact Hp1|]. split; [exact Htext|].
    split; [|split].
    + rewrite Hreg, Happ, attachment_hooks_history_step, Hp1, Hh.
      destruct d; [done | reflexivity].
    + unfold called. simpl. by rewrite calls_of_hook, Hcalls, <- app_assoc.
    + intros caption Hc Ht. rewrite <- Htext. by apply take_result_caption.
Qed.

(** C9, witness: two callables, the first returns a caption; the second
    is never called, and the caption is in the text between brackets,
    for a picture of the current message and for a picture of a message
    the scan of the channel reads. *)
Lemma C9_first_claim_ends_dispatch_witness :
  let first := Demo.returning "captioner" (Some [("caption", PyStr "a red car")]) in
  let second := Demo.returning "second" (Some [("caption", PyStr "never")]) in
  let hooks := Demo.with_attachment [first; second] in
  let cfg := Demo.cfg true "local/llama3" 100 1 10 in
  let w := Demo.world [] Demo.hi_there in
  let m := Demo.message 20 Demo.alice "mom look" None 100 in
  let run := image_attachment cfg w hooks m Demo.picture
               (initial_parts "mom look") (Demo.start ∅) in
  let scan := attachment_hooks_history cfg w (process_attachment hooks) Demo.picture
                (initial_parts "mom look") (Demo.start ∅) in
  (fst run = Ok {| text_parts := ["mom look"; "[Image description: a red car]"];
                   image_parts := [] |}
   /\ trace (snd run) = [EvHook "process_attachment" "captioner"]
   /\ plugin_state (snd run) = ["captioner"])
  /\ (fst scan = Ok {| text_parts := ["mom look"; "[Image description: a red car]"];
                       image_parts := [] |}
      /\ trace (snd scan) = [EvHook "process_attachment" "captioner"]
      /\ plugin_state (snd scan) = ["captioner"]).
Proof.
  intros first second hooks cfg w m run scan.
  destruct (C9_first_claim_ends_dispatch cfg w hooks Demo.picture
              (initial_parts "mom look") (Demo.start ∅) [] [second] first
              [("caption", PyStr "a red car")] eq_refl ltac:(discriminate))
    as (Hcurrent & Hscan).
  split.
  - destruct (Hcurrent m (initial_parts "mom look") (Demo.start ∅) ["captioner"]
                eq_refl eq_refl) as (_ & _ & Himage & _).
    unfold run. rewrite Himage. repeat split.
  - destruct (Hscan [] ["captioner"] eq_refl eq_refl)
      as (g1 & st1 & Hpre & _ & _ & Hrun & _).
    injection Hpre as <- <-.
    unfold scan. rewrite Hrun. repeat split.
Defined.

(** ** Messages that start with two slashes *)

(** C10. A message whose text starts with [//] is dropped after the
    fan-out on [on_message_received]: the handler returns normally, in the
    state the fan-out left (or, for a message of the bot itself, in the
    state it started from); the cache is the one it started with, nothing
    was sent, and the only calls made are those of the fan-out and of the
    log: no command, no fetch, no model call. *)
Theorem C10_double_slash_is_dropped {P : Type} (cfg : Config) (w : World)
  (hooks : PluginHooks P) (fuel : nat) (new_msg : Message) (st : State P) :
  Py.startswith (msg_content new_msg) "//" = true ->
  exists st' evs,
    on_message cfg w hooks fuel new_msg st = (Ok tt, st')
    /\ (st' = st
        \/ exists stop,
             received_hooks (on_message_received hooks) new_msg
               (with_MESSAGE_COUNT (MESSAGE_COUNT st + 1) st) = (Ok stop, st'))
    /\ msg_nodes st' = msg_nodes st
    /\ sent st' = sent st
    /\ trace st' = (evs ++ trace st)%list
    /\ Forall fan_out_event evs.
Proof.
  intros Hslash. unfold on_message.
  destruct (user_id (author new_msg) =? user_id (bot_user w)).
  - exists st, []. repeat split; auto.
  - unfold bind, modify.
    destruct (received_hooks_effects (on_message_received hooks) new_msg
                (with_MESSAGE_COUNT (MESSAGE_COUNT st + 1) st))
      as (stop & st' & evs & Hrun & Hn & Hs & _ & Ht & Hf).
    rewrite Hrun. exists st', evs.
    split; [by destruct stop; rewrite ?Hslash|].
    split; [right; by exists stop|]. repeat split; auto.
Qed.

(** C10, witness: a comment that names the bot, with a callable
    registered on [on_message_received]. *)
Lemma C10_double_slash_is_dropped_witness :
  let m := Demo.message 20 Demo.alice "// mom, not for you" None 100 in
  let hooks := Demo.with_received [Demo.returning "greeter" PyNone] in
  Py.startswith (msg_content m) "//" = true
  /\ exists st',
       on_message (Demo.cfg true "openai/gpt-4o" 100 1 10) (Demo.world [] Demo.hi_there)
         hooks 10 m (Demo.start ∅) = (Ok tt, st')
       /\ msg_nodes st' = ∅
       /\ trace st' = [EvHook "on_message_received" "greeter"].
Proof.
  intros m hooks. split; [reflexivity|].
  destruct (C10_double_slash_is_dropped (Demo.cfg true "openai/gpt-4o" 100 1 10)
              (Demo.world [] Demo.hi_there) hooks 10 m (Demo.start ∅) eq_refl)
    as (st' & evs & Hrun & _ & Hn & _ & _ & _).
  exists st'. split; [exact Hrun|]. split; [exact Hn|].
  vm_compute in Hrun. by injection Hrun as <-.
Defined.

(** ** Turning a message into a turn *)

Lemma substring_length (n : nat) (s : string) :
  (n <= String.length s)%nat -> String.length (String.substring 0 n s) = n.
Proof.
  revert n. induction s as [|c s IH]; intros [|n] H; simpl in *; try lia; auto.
  rewrite IH; lia.
Qed.

Lemma slice_to_len (n : Z) (s : string) :
  0 <= n -> n <= Py.len s -> Py.len (Py.slice_to n s) = n.
Proof.
  intros H0 H. unfold Py.slice_to, Py.len in *.
  destruct (Z.leb_spec 0 n); [|lia]. rewrite substring_length; lia.
Qed.

Section Normalize.

Context {P : Type}.
Variable cfg : Config.
Variable w : World.
Variable hooks : PluginHooks P.

Lemma outside_only_refl (st : State P) : outside_only st st.
Proof. by repeat split. Qed.

Lemma outside_only_trans (st1 st2 st3 : State P) :
  outside_only st1 st2 -> outside_only st2 st3 -> outside_only st1 st3.
Proof. unfold outside_only. intuition congruence. Qed.

Lemma outside_only_called point h p' (st : State P) :
  outside_only st (called point h p' st).
Proof. by repeat split. Qed.

Lemma outside_only_logged text (st : State P) : outside_only st (logged text st).
Proof. by repeat split. Qed.

Lemma attachment_hooks_outside hs att message g (st : State P) :
  exists r st', attachment_hooks cfg hs att message g st = (Ok r, st')
                /\ outside_only st st'.
Proof.
  revert st. induction hs as [|h rest IH]; intros st.
  - exists (false, g), st. split; [done | apply outside_only_refl].
  - rewrite attachment_hooks_step.
    destruct (hook_run h (att, LLM_ACCEPTS_IMAGES cfg, message) (plugin_state st))
      as [p' [r|e]].
    + destruct (claimed r).
      * do 2 eexists. split; [done | apply outside_only_called].
      * destruct (IH (called "process_attachment" (hook_name h) p' st)) as (r' & st' & -> & Ho).
        do 2 eexists. split; [done|].
        eapply outside_only_trans; [apply outside_only_called | exact Ho].
    + destruct (IH (logged ("Error in process_attachment hook: " +:+ exn_text e)
                      (called "process_attachment" (hook_name h) p' st)))
        as (r' & st' & -> & Ho).
      do 2 eexists. split; [done|].
      eapply outside_only_trans; [apply outside_only_called|].
      eapply outside_only_trans; [apply outside_only_logged | exact Ho].
Qed.

Lemma default_image_outside att g (st : State P) :
  exists g' st', default_image w att g st = (Ok g', st') /\ outside_only st st'.
Proof. do 2 eexists. split; [reflexivity | by repeat split]. Qed.

Lemma image_attachment_outside m att g (st : State P) :
  exists g' st', image_attachment cfg w hooks m att g st = (Ok g', st')
                 /\ outside_only st st'.
Proof.
  unfold image_attachment, bind.
  destruct (attachment_hooks_outside (process_attachment hooks) att (Some m) g st)
    as ([processed g1] & st1 & -> & Ho).
  destruct (negb processed && LLM_ACCEPTS_IMAGES cfg).
  - destruct (default_image_outside att g1 st1) as (g' & st' & -> & Ho').
    do 2 eexists. split; [done | by eapply outside_only_trans].
  - by do 2 eexists.
Qed.

Lemma attachment_hooks_history_outside hs att g (st : State P) :
  exists g' st', attachment_hooks_history cfg w hs att g st = (Ok g', st')
                 /\ outside_only st st'.
Proof.
  revert g st. induction hs as [|h rest IH]; intros g st; simpl.
  - exists g, st. split; [done | apply outside_only_refl].
  - unfold bind, try_except.
    destruct (call_cases "process_attachment" h (att, LLM_ACCEPTS_IMAGES cfg, None) st)
      as [p' [[r [_ ->]]|[e [_ ->]]]]; simpl.
    + destruct (claimed r); simpl.
      * do 2 eexists. split; [done | apply outside_only_called].
      * destruct (LLM_ACCEPTS_IMAGES cfg); simpl.
        -- edestruct IH as (g' & st' & -> & Ho). do 2 eexists. split; [done|].
           eapply outside_only_trans; [|exact Ho]. by repeat split.
        -- edestruct IH as (g' & st' & -> & Ho). do 2 eexists. split; [done|].
           eapply outside_only_trans; [|exact Ho]. by repeat split.
    + destruct (LLM_ACCEPTS_IMAGES cfg); simpl.
      * edestruct IH as (g' & st' & -> & Ho). do 2 eexists. split; [done|].
        eapply outside_only_trans; [|exact Ho]. by repeat split.
      * edestruct IH as (g' & st' & -> & Ho). do 2 eexists. split; [done|].
        eapply outside_only_trans; [|exact Ho]. by repeat split.
Qed.

(** A loop over attachments whose body ends normally and keeps to the
    outside ends normally and keeps to the outside. *)
Lemma for_each_outside {A} (body : A -> Gathered -> M P Gathered) l g (st : State P) :
  (forall x g st, exists g' st', body x g st = (Ok g', st') /\ outside_only st st') ->
  exists g' st', for_each body l g st = (Ok g', st') /\ outside_only st st'.
Proof.
  intros Hbody. revert g st. induction l as [|x l IH]; intros g st; simpl.
  - exists g, st. split; [done | apply outside_only_refl].
  - unfold bind. destruct (Hbody x g st) as (g1 & st1 & -> & Ho1).
    destruct (IH g1 st1) as (g' & st' & -> & Ho). do 2 eexists. split; [done|].
    by eapply outside_only_trans.
Qed.

Lemma attachment_texts_spec atts (st : State P) :
  exists st',
    attachment_texts w atts st
    = (Ok (map (fun att => http_text w (url att))
             (List.filter (fun att => size att <=? 10000000) atts)), st')
    /\ outside_only st st'.
Proof.
  revert st. induction atts as [|att rest IH]; intros st; simpl.
  - exists st. split; [done | apply outside_only_refl].
  - destruct (size att <=? 10000000); simpl.
    + unfold bind, emit, modify.
      edestruct IH as (st' & -> & Ho). eexists. split; [done|].
      eapply outside_only_trans; [|exact Ho]. by repeat split.
    + apply IH.
Qed.

(** The text is the assembled text, cut at [MAX_TEXT] when it is longer. *)
Lemma finish_text_spec m g (st : State P) :
  exists st',
    finish_text cfg w m g st
    = (Ok (if Py.len (assembled_text w m g) >? MAX_TEXT cfg
           then (Py.slice_to (MAX_TEXT cfg) (assembled_text w m g), true)
           else (assembled_text w m g, false)), st')
    /\ outside_only st st'.
Proof.
  unfold finish_text, bind.
  destruct (attachment_texts_spec (good_attachments text_type (attachments m)) st)
    as (st' & -> & Ho).
  exists st'. split; [|done]. unfold assembled_text. rewrite <- app_assoc.
  by destruct (_ >? _).
Qed.

Lemma content_text_make_content text images :
  content_text (make_content text images) = text.
Proof.
  unfold make_content, nonempty. destruct images as [|i images]; [done|].
  destruct (String.eqb_spec text ""); simpl; [|done].
  subst. by destruct i.
Qed.

End Normalize.

Section Fill.

Context {P : Type}.
Variable cfg : Config.
Variable w : World.
Variable hooks : PluginHooks P.

Lemma alter_lookup_insert (f : MsgNode -> MsgNode) (id : Z) (m : gmap Z MsgNode) node :
  m !! id = Some node -> alter f id m = <[id := f node]> m.
Proof.
  intros H. apply map_eq. intros j. destruct (decide (id = j)) as [<-|Hne].
  - by rewrite lookup_alter_eq, lookup_insert_eq, H.
  - by rewrite lookup_alter_ne, lookup_insert_ne.
Qed.

Lemma alter_insert_same (f : MsgNode -> MsgNode) (id : Z) (m : gmap Z MsgNode) node :
  alter f id (<[id := node]> m) = <[id := f node]> m.
Proof.
  rewrite (alter_lookup_insert f id _ node) by apply lookup_insert_eq.
  apply insert_insert_eq.
Qed.

Lemma fill_reference_node_spec ref_msg node (st : State P) :
  msg_nodes st !! msg_id ref_msg = Some node -> data node = None ->
  exists g st1 st',
    for_each (image_attachment cfg w hooks ref_msg)
      (Py.take (MAX_IMAGES cfg) (good_attachments image_type (attachments ref_msg)))
      (initial_parts (msg_content ref_msg)) st = (Ok g, st1)
    /\ fill_reference_node cfg w hooks ref_msg st = (Ok tt, st')
    /\ msg_nodes st'
       = <[msg_id ref_msg :=
             filled (snd (cut_text cfg w ref_msg g))
               (author_turn cfg w ref_msg
                  (make_content (fst (cut_text cfg w ref_msg g)) (image_parts g))) node]>
           (msg_nodes st)
    /\ sent st' = sent st /\ readings st' = readings st
    /\ last_task_time st' = last_task_time st.
Proof.
  intros Hnode Hdata. unfold fill_reference_node, bind, read_node.
  rewrite Hnode. simpl. rewrite Hdata.
  destruct (for_each_outside (image_attachment cfg w hooks ref_msg)
              (Py.take (MAX_IMAGES cfg) (good_attachments image_type (attachments ref_msg)))
              (initial_parts (msg_content ref_msg)) st
              ltac:(intros; apply image_attachment_outside))
    as (g & st1 & Hloop & Hn1 & Ht1 & _ & _ & Hr1 & Hs1).
  exists g, st1. rewrite Hloop.
  destruct (finish_text_spec cfg w ref_msg g st1) as (st2 & -> & Hn2 & Ht2 & _ & _ & Hr2 & Hs2).
  fold (cut_text cfg w ref_msg g). destruct (cut_text cfg w ref_msg g) as [text cut].
  destruct cut; (eexists; split; [reflexivity|]; split; [reflexivity|]);
    simpl; rewrite Hn2, Hn1.
  - rewrite (alter_lookup_insert (set_too_much_text true) _ _ _ Hnode).
    rewrite alter_insert_same. repeat split; congruence.
  - rewrite (alter_lookup_insert _ _ _ _ Hnode). repeat split; congruence.
Qed.

Lemma fill_history_node_spec prev_msg node (st : State P) :
  msg_nodes st !! msg_id prev_msg = Some node -> data node = None ->
  exists g st1 st',
    for_each (attachment_hooks_history cfg w (process_attachment hooks))
      (Py.take (MAX_IMAGES cfg) (good_attachments image_type (attachments prev_msg)))
      (initial_parts (msg_content prev_msg)) st = (Ok g, st1)
    /\ fill_history_node cfg w hooks prev_msg st = (Ok tt, st')
    /\ msg_nodes st'
       = <[msg_id prev_msg :=
             filled (snd (cut_text cfg w prev_msg g))
               (author_turn cfg w prev_msg
                  (make_content (fst (cut_text cfg w prev_msg g)) (image_parts g))) node]>
           (msg_nodes st)
    /\ sent st' = sent st /\ readings st' = readings st
    /\ last_task_time st' = last_task_time st.
Proof.
  intros Hnode Hdata. unfold fill_history_node, bind, read_node.
  rewrite Hnode. simpl. rewrite Hdata.
  destruct (for_each_outside
              (attachment_hooks_history cfg w (process_attachment hooks))
              (Py.take (MAX_IMAGES cfg) (good_attachments image_type (attachments prev_msg)))
              (initial_parts (msg_content prev_msg)) st
              ltac:(intros; apply attachment_hooks_history_outside))
    as (g & st1 & Hloop & Hn1 & Ht1 & _ & _ & Hr1 & Hs1).
  exists g, st1. rewrite Hloop.
  destruct (finish_text_spec cfg w prev_msg g st1) as (st2 & -> & Hn2 & Ht2 & _ & _ & Hr2 & Hs2).
  fold (cut_text cfg w prev_msg g). destruct (cut_text cfg w prev_msg g) as [text cut].
  destruct cut; (eexists; split; [reflexivity|]; split; [reflexivity|]);
    simpl; rewrite Hn2, Hn1.
  - rewrite (alter_lookup_insert (set_too_much_text true) _ _ _ Hnode).
    rewrite alter_insert_same. repeat split; congruence.
  - rewrite (alter_lookup_insert _ _ _ _ Hnode). repeat split; congruence.
Qed.

Lemma fill_current_node_spec new_msg effective_content uid node (st : State P) :
  msg_nodes st !! msg_id new_msg = Some node -> data node = None ->
  exists g st1 st',
    for_each (image_attachment cfg w hooks new_msg)
      (Py.take (MAX_IMAGES cfg) (good_attachments image_type (attachments new_msg)))
      (initial_parts effective_content) st = (Ok g, st1)
    /\ fill_current_node cfg w hooks new_msg effective_content uid st
       = (Ok {| warn_max_text := snd (cut_text cfg w new_msg g);
                warn_max_images := too_many cfg new_msg;
                warn_unsupported := unsupported new_msg |}, st')
    /\ msg_nodes st'
       = <[msg_id new_msg :=
             set_has_bad_attachments (unsupported new_msg)
               (set_too_many_images (too_many cfg new_msg)
                  (filled (snd (cut_text cfg w new_msg g))
                     {| content := make_content (fst (cut_text cfg w new_msg g)) (image_parts g);
                        role := user;
                        name := if LLM_ACCEPTS_NAMES cfg then Some uid else None |}
                     node))]>
           (msg_nodes st)
    /\ sent st' = sent st /\ readings st' = readings st
    /\ last_task_time st' = last_task_time st.
Proof.
  intros Hnode Hdata. unfold fill_current_node, bind, read_node.
  rewrite Hnode. simpl. rewrite Hdata.
  destruct (for_each_outside (image_attachment cfg w hooks new_msg)
              (Py.take (MAX_IMAGES cfg) (good_attachments image_type (attachments new_msg)))
              (initial_parts effective_content) st
              ltac:(intros; apply image_attachment_outside))
    as (g & st1 & Hloop & Hn1 & Ht1 & _ & _ & Hr1 & Hs1).
  exists g, st1. rewrite Hloop.
  destruct (finish_text_spec cfg w new_msg g st1) as (st2 & -> & Hn2 & Ht2 & _ & _ & Hr2 & Hs2).
  fold (cut_text cfg w new_msg g). destruct (cut_text cfg w new_msg g) as [text cut].
  destruct cut; (eexists; split; [reflexivity|]; split; [reflexivity|]);
    simpl; rewrite Hn2, Hn1.
  - rewrite (alter_lookup_insert (set_too_much_text true) _ _ _ Hnode).
    rewrite !alter_insert_same. repeat split; congruence.
  - rewrite (alter_lookup_insert _ _ _ _ Hnode).
    rewrite !alter_insert_same. repeat split; congruence.
Qed.

(** A text longer than [MAX_TEXT] is cut to exactly [MAX_TEXT]. *)
Lemma cut_text_long m g :
  0 <= MAX_TEXT cfg -> MAX_TEXT cfg < Py.len (assembled_text w m g) ->
  Py.len (fst (cut_text cfg w m g)) = MAX_TEXT cfg /\ snd (cut_text cfg w m g) = true.
Proof.
  intros H0 Hlong. unfold cut_text.
  destruct (Z.gtb_spec (Py.len (assembled_text w m g)) (MAX_TEXT cfg)); [|lia].
  simpl. split; [|done]. apply slice_to_len; lia.
Qed.

End Fill.

(** C8. Take a message whose node holds no turn yet and a limit
    [MAX_TEXT >= 0]. In each of the three places where a turn is computed
    (the reply walk, the scan of the channel, the current message), the
    loop over the image attachments ends with some parts [g], the
    computation ends normally and leaves a turn in the node; and when the
    text assembled from [g] is longer than [MAX_TEXT], the text of that
    turn has exactly [MAX_TEXT] characters and [too_much_text] is set on
    the node (for the current message the warning is raised too). *)
Theorem C8_long_text_is_cut {P : Type} (cfg : Config) (w : World) (hooks : PluginHooks P)
  (m : Message) (effective_content uid : string) (node : MsgNode) (st : State P) :
  0 <= MAX_TEXT cfg ->
  msg_nodes st !! msg_id m = Some node ->
  data node = None ->
  (exists g st1 st' node' d,
      for_each (image_attachment cfg w hooks m)
        (Py.take (MAX_IMAGES cfg) (good_attachments image_type (attachments m)))
        (initial_parts (msg_content m)) st = (Ok g, st1)
      /\ fill_reference_node cfg w hooks m st = (Ok tt, st')
      /\ msg_nodes st' !! msg_id m = Some node' /\ data node' = Some d
      /\ (MAX_TEXT cfg < Py.len (assembled_text w m g) ->
          Py.len (content_text (content d)) = MAX_TEXT cfg
          /\ too_much_text node' = true))
  /\ (exists g st1 st' node' d,
         for_each (attachment_hooks_history cfg w (process_attachment hooks))
           (Py.take (MAX_IMAGES cfg) (good_attachments image_type (attachments m)))
           (initial_parts (msg_content m)) st = (Ok g, st1)
         /\ fill_history_node cfg w hooks m st = (Ok tt, st')
         /\ msg_nodes st' !! msg_id m = Some node' /\ data node' = Some d
         /\ (MAX_TEXT cfg < Py.len (assembled_text w m g) ->
             Py.len (content_text (content d)) = MAX_TEXT cfg
             /\ too_much_text node' = true))
  /\ (exists g st1 st' node' d warnings,
         for_each (image_attachment cfg w hooks m)
           (Py.take (MAX_IMAGES cfg) (good_attachments image_type (attachments m)))
           (initial_parts effective_content) st = (Ok g, st1)
         /\ fill_current_node cfg w hooks m effective_content uid st = (Ok warnings, st')
         /\ msg_nodes st' !! msg_id m = Some node' /\ data node' = Some d
         /\ (MAX_TEXT cfg < Py.len (assembled_text w m g) ->
             Py.len (content_text (content d)) = MAX_TEXT cfg
             /\ too_much_text node' = true
             /\ warn_max_text warnings = true)).
Proof.
  intros H0 Hnode Hdata. repeat split.
  - destruct (fill_reference_node_spec cfg w hooks m node st Hnode Hdata)
      as (g & st1 & st' & Hloop & Hfill & Hnodes & _).
    exists g, st1, st'. do 2 eexists. split; [exact Hloop|]. split; [exact Hfill|].
    rewrite Hnodes, lookup_insert_eq. split; [reflexivity|]. split; [reflexivity|].
    intros Hlong. destruct (cut_text_long cfg w m g H0 Hlong) as [Hlen Hcut].
    simpl. rewrite content_text_make_content, Hcut. by split.
  - destruct (fill_history_node_spec cfg w hooks m node st Hnode Hdata)
      as (g & st1 & st' & Hloop & Hfill & Hnodes & _).
    exists g, st1, st'. do 2 eexists. split; [exact Hloop|]. split; [exact Hfill|].
    rewrite Hnodes, lookup_insert_eq. split; [reflexivity|]. split; [reflexivity|].
    intros Hlong. destruct (cut_text_long cfg w m g H0 Hlong) as [Hlen Hcut].
    simpl. rewrite content_text_make_content, Hcut. by split.
  - destruct (fill_current_node_spec cfg w hooks m effective_content uid node st Hnode Hdata)
      as (g & st1 & st' & Hloop & Hfill & Hnodes & _).
    exists g, st1, st'. do 3 eexists. split; [exact Hloop|]. split; [exact Hfill|].
    rewrite Hnodes, lookup_insert_eq. split; [reflexivity|]. split; [reflexivity|].
    intros Hlong. destruct (cut_text_long cfg w m g H0 Hlong) as [Hlen Hcut].
    simpl. rewrite content_text_make_content, Hcut. by repeat split.
Qed.

(** C8, witness: a text of sixteen characters under a limit of ten. *)
Lemma C8_long_text_is_cut_witness :
  let cfg := Demo.cfg true "openai/gpt-4o" 10 1 10 in
  let w := Demo.world [] Demo.hi_there in
  let m := Demo.message 20 Demo.alice "mom, what's new?" None 100 in
  let st := Demo.start {[ 20 := new_node ]} in
  0 <= MAX_TEXT cfg
  /\ MAX_TEXT cfg < Py.len (assembled_text w m (initial_parts "mom, what's new?"))
  /\ exists warnings st' node' d,
       fill_current_node cfg w Demo.no_hooks m "mom, what's new?" "2" st = (Ok warnings, st')
       /\ msg_nodes st' !! 20 = Some node' /\ data node' = Some d
       /\ content d = Text "mom, what'"
       /\ Py.len (content_text (content d)) = 10
       /\ too_much_text node' = true
       /\ warn_max_text warnings = true.
Proof.
  intros cfg w m st.
  split; [by vm_compute|]. split; [by vm_compute|].
  destruct (C8_long_text_is_cut cfg w Demo.no_hooks m "mom, what's new?" "2" new_node st
              ltac:(by vm_compute) eq_refl eq_refl)
    as (_ & _ & g & st1 & st' & node' & d & warnings & Hloop & Hfill & Hnode & Hd & Hlong).
  injection Hloop as <- _.
  destruct (Hlong ltac:(by vm_compute)) as (Hlen & Hflag & Hwarn).
  exists warnings, st', node', d. repeat split; try assumption.
  vm_compute in Hfill. injection Hfill as _ <-.
  vm_compute in Hnode. injection Hnode as <-. simpl in Hd. by injection Hd as <-.
Defined.

(** ** The segments of a streamed response *)

Lemma append_cons (c : ascii) (a b : string) : String c a +:+ b = String c (a +:+ b).
Proof. reflexivity. Qed.

Lemma append_empty_l (a : string) : "" +:+ a = a.
Proof. reflexivity. Qed.

Lemma string_length_append (a b : string) :
  String.length (a +:+ b) = (String.length a + String.length b)%nat.
Proof.
  induction a as [|c a IH]; [done|]. rewrite append_cons. simpl. by rewrite IH.
Qed.

Lemma len_append (a b : string) : Py.len (a +:+ b) = Py.len a + Py.len b.
Proof. unfold Py.len. rewrite string_length_append. lia. Qed.

Lemma len_nonneg (a : string) : 0 <= Py.len a.
Proof. unfold Py.len. lia. Qed.

Lemma len_zero (a : string) : Py.len a = 0 -> a = "".
Proof. unfold Py.len. destruct a; simpl; [done | lia]. Qed.

Lemma append_empty_r (a : string) : a +:+ "" = a.
Proof. induction a as [|c a IH]; [done|]. by rewrite append_cons, IH. Qed.

Lemma append_assoc (a b c : string) : (a +:+ b) +:+ c = a +:+ (b +:+ c).
Proof. induction a as [|x a IH]; [done|]. by rewrite !append_cons, IH. Qed.

Lemma concat_cons (p : string) (ps : list string) :
  Py.concat (p :: ps) = p +:+ Py.concat ps.
Proof.
  unfold Py.concat. destruct ps as [|q ps]; simpl; [symmetry; apply append_empty_r | done].
Qed.

Lemma concat_app (l1 l2 : list string) :
  Py.concat (l1 ++ l2) = Py.concat l1 +:+ Py.concat l2.
Proof.
  induction l1 as [|p l1 IH]; [done|].
  by rewrite <- app_comm_cons, !concat_cons, IH, append_assoc.
Qed.

Lemma append_to_last_snoc (s x : string) (l : list string) :
  append_to_last s (l ++ [x]) = (l ++ [x +:+ s])%list.
Proof.
  induction l as [|y l IH]; [done|]. simpl. rewrite IH.
  by destruct l.
Qed.

Lemma last_snoc (x d : string) (l : list string) : List.last (l ++ [x]) d = x.
Proof. apply last_last. Qed.

(** A token that fits goes into the open segment. *)
Lemma feed_fits limit l s token :
  Py.len (s +:+ token) <= limit ->
  feed limit (l ++ [s]) token = (l ++ [s +:+ token])%list.
Proof.
  intros H. unfold feed.
  replace (match (l ++ [s])%list with [] => [""] | _ => (l ++ [s])%list end)
    with (l ++ [s])%list by (by destruct l).
  rewrite last_snoc. destruct (Z.gtb_spec (Py.len (s +:+ token)) limit); [lia|].
  apply append_to_last_snoc.
Qed.

(** A token that does not fit opens a segment of its own. *)
Lemma feed_overflows limit l s token :
  limit < Py.len (s +:+ token) ->
  feed limit (l ++ [s]) token = (l ++ [s; token])%list.
Proof.
  intros H. unfold feed.
  replace (match (l ++ [s])%list with [] => [""] | _ => (l ++ [s])%list end)
    with (l ++ [s])%list by (by destruct l).
  rewrite last_snoc. destruct (Z.gtb_spec (Py.len (s +:+ token)) limit); [|lia].
  rewrite <- app_assoc. simpl.
  replace (l ++ [s; ""])%list with ((l ++ [s]) ++ [""])%list by (by rewrite <- app_assoc).
  rewrite append_to_last_snoc. by rewrite <- app_assoc.
Qed.

Lemma feed_first limit token : feed limit [] token = feed limit [""] token.
Proof. reflexivity. Qed.

(** Tokens that fit together into the open segment leave the number of
    segments as it is. *)
Lemma feed_all_fit limit toks l s :
  Py.len (s +:+ Py.concat toks) <= limit ->
  fold_left (feed limit) toks (l ++ [s])%list = (l ++ [s +:+ Py.concat toks])%list.
Proof.
  revert s. induction toks as [|t toks IH]; intros s H.
  - simpl. by rewrite append_empty_r.
  - simpl. rewrite concat_cons in H |- *.
    rewrite feed_fits.
    + rewrite IH; [by rewrite append_assoc | by rewrite append_assoc].
    + rewrite <- append_assoc, len_append in H. pose proof (len_nonneg (Py.concat toks)). lia.
Qed.

Lemma feed_fits_one limit s token :
  Py.len (s +:+ token) <= limit -> feed limit [s] token = [s +:+ token].
Proof. apply (feed_fits limit []). Qed.

Lemma feed_overflows_one limit s token :
  limit < Py.len (s +:+ token) -> feed limit [s] token = [s; token].
Proof. apply (feed_overflows limit []). Qed.

(** The segments of a stream that fills a first segment to the limit
    and then brings one more character. *)
Lemma feed_one_over limit pre post :
  1 <= limit ->
  Py.len (Py.concat pre) = limit ->
  Py.len (Py.concat post) = 1 ->
  fold_left (feed limit) (pre ++ post) [] = [Py.concat pre; Py.concat post].
Proof.
  intros Hlimit Hpre Hpost. rewrite fold_left_app.
  assert (Hfirst : fold_left (feed limit) pre [] = [Py.concat pre]).
  { destruct pre as [|t pre]; [vm_compute in Hpre; lia|].
    simpl. rewrite feed_first. rewrite concat_cons in Hpre |- *.
    rewrite feed_fits_one.
    - rewrite append_empty_l. apply (feed_all_fit limit pre [] t). lia.
    - rewrite append_empty_l. rewrite len_append in Hpre.
      pose proof (len_nonneg (Py.concat pre)). lia. }
  rewrite Hfirst. clear Hfirst.
  induction post as [|t post IH]; [vm_compute in Hpost; lia|].
  simpl. rewrite concat_cons in Hpost |- *. rewrite len_append in Hpost.
  pose proof (len_nonneg t). pose proof (len_nonneg (Py.concat post)).
  destruct (Z.eq_dec (Py.len t) 0) as [Ht|Ht].
  - rewrite (len_zero _ Ht). rewrite feed_fits_one.
    + rewrite append_empty_r, append_empty_l. apply IH. lia.
    + rewrite append_empty_r. lia.
  - rewrite feed_overflows_one.
    + apply (feed_all_fit limit post [Py.concat pre] t).
      rewrite len_append. lia.
    + rewrite len_append. lia.
Qed.

(** The segments put together are the tokens put together. *)
Lemma concat_feed limit l token :
  Py.concat (feed limit l token) = Py.concat l +:+ token.
Proof.
  unfold feed.
  assert (Hsnoc : forall l' s, Py.concat (append_to_last token (l' ++ [s]))
                               = Py.concat (l' ++ [s]) +:+ token).
  { intros l' s. rewrite append_to_last_snoc, !concat_app, !concat_cons.
    simpl. by rewrite !append_empty_r, append_assoc. }
  destruct l as [|x l0] using rev_ind; [|clear IHl0; rename l0 into l'; rename x into s].
  - simpl. destruct (_ >? _); simpl.
    + apply (Hsnoc [""] "").
    + apply (Hsnoc [] "").
  - replace (match (l' ++ [s])%list with [] => [""] | _ => (l' ++ [s])%list end)
      with (l' ++ [s])%list by (by destruct l').
    destruct (_ >? _).
    + rewrite Hsnoc, concat_app. simpl. rewrite concat_cons. simpl.
      by rewrite append_empty_r.
    + apply Hsnoc.
Qed.

(** ** The streaming renderer *)

Section Renderer.

Context {P : Type}.
Variable cfg : Config.
Variable w : World.

Lemma ids_sent_app from k1 k2 :
  ids_sent w from (k1 + k2) = (ids_sent w from k1 ++ ids_sent w (from + k1) k2)%list.
Proof. unfold ids_sent. by rewrite seq_app, map_app. Qed.

Lemma with_locked_nodes_app ids1 ids2 m :
  with_locked_nodes (ids1 ++ ids2) m = with_locked_nodes ids2 (with_locked_nodes ids1 m).
Proof. apply fold_left_app. Qed.

Lemma streams_refl (st : State P) r : streams w st r st r.
Proof.
  exists 0%nat, []. simpl. rewrite app_nil_r, !Nat.add_0_r. by repeat split.
Qed.

Lemma streams_trans (st1 st2 st3 : State P) r1 r2 r3 :
  streams w st1 r1 st2 r2 -> streams w st2 r2 st3 r3 -> streams w st1 r1 st3 r3.
Proof.
  intros (k1 & e1 & Hm1 & Hs1 & Hl1 & Hn1 & Hp1 & Hc1 & Hv1 & Ht1 & Hf1)
         (k2 & e2 & Hm2 & Hs2 & Hl2 & Hn2 & Hp2 & Hc2 & Hv2 & Ht2 & Hf2).
  exists (k1 + k2)%nat, (e2 ++ e1)%list. repeat split.
  - rewrite Hm2, Hm1, Hs1, ids_sent_app. by rewrite <- app_assoc.
  - lia.
  - lia.
  - rewrite Hn2, Hn1, Hs1, ids_sent_app. by rewrite with_locked_nodes_app.
  - congruence.
  - congruence.
  - congruence.
  - rewrite Ht2, Ht1. by rewrite <- app_assoc.
  - apply Forall_app. by split.
Qed.

(** A segment opened with its placeholder: one message more. *)
Lemma placeholder_streams new_msg fields l r (st : State P) :
  List.length l = S (List.length (response_contents r)) ->
  exists r' st',
    placeholder cfg w new_msg fields (with_contents l r) st = (Ok r', st')
    /\ response_contents r' = l
    /\ streams w st r st' r'.
Proof.
  intros Hl. unfold placeholder.
  destruct (negb (USE_PLAIN_RESPONSES cfg)); simpl.
  - do 2 eexists. split; [reflexivity|]. split; [reflexivity|].
    exists 1%nat. eexists [_]. simpl. repeat split; try done; try lia.
    by repeat constructor.
  - do 2 eexists. split; [reflexivity|]. split; [reflexivity|].
    exists 1%nat. eexists [_]. simpl. repeat split; try done; try lia.
    by repeat constructor.
Qed.

Lemma first_segment_streams new_msg user_warnings r (st : State P) :
  response_contents r = [] ->
  exists r' st',
    first_segment cfg w new_msg user_warnings r st = (Ok r', st')
    /\ response_contents r' = [""]
    /\ streams w st r st' r'.
Proof.
  intros Hr. unfold first_segment, bind.
  destruct (placeholder_streams new_msg user_warnings [""] r st) as (r' & st' & -> & Hc & Hs).
  { by rewrite Hr. }
  do 2 eexists. split; [reflexivity|]. split; [exact Hc|].
  eapply streams_trans; [exact Hs|].
  exists 0%nat, []. simpl. rewrite app_nil_r, !Nat.add_0_r. by repeat split.
Qed.

Lemma next_segment_streams new_msg r (st : State P) :
  exists r' st',
    next_segment cfg w new_msg r st = (Ok r', st')
    /\ response_contents r' = (response_contents r ++ [""])%list
    /\ streams w st r st' r'.
Proof.
  unfold next_segment. apply placeholder_streams.
  rewrite length_app. simpl. lia.
Qed.

Lemma should_update_streams finish r (st : State P) :
  exists b st', should_update w finish r st = (Ok b, st') /\ streams w st r st' r.
Proof.
  unfold should_update. destruct finish as [reason|].
  - exists true, st. split; [reflexivity | apply streams_refl].
  - unfold bind. destruct (edit_task r); simpl.
    + destruct (edit_done w (readings st)); simpl.
      * do 2 eexists. split; [reflexivity|].
        exists 0%nat, []. simpl. rewrite app_nil_r, !Nat.add_0_r. by repeat split.
      * do 2 eexists. split; [reflexivity|].
        exists 0%nat, []. simpl. rewrite app_nil_r, !Nat.add_0_r. by repeat split.
    + do 2 eexists. split; [reflexivity|].
      exists 0%nat, []. simpl. rewrite app_nil_r, !Nat.add_0_r. by repeat split.
Qed.

Lemma push_update_streams finish r (st : State P) :
  exists r' st',
    push_update cfg w finish r st = (Ok r', st')
    /\ response_contents r' = response_contents r
    /\ streams w st r st' r'.
Proof.
  unfold push_update. destruct (negb (USE_PLAIN_RESPONSES cfg)); simpl.
  - do 2 eexists. split; [reflexivity|]. split; [reflexivity|].
    exists 0%nat. eexists [_]. simpl. rewrite app_nil_r, !Nat.add_0_r.
    repeat split; try done. by repeat constructor.
  - do 2 eexists. split; [reflexivity|]. split; [reflexivity|].
    exists 0%nat. eexists [_]. simpl. rewrite app_nil_r, !Nat.add_0_r.
    repeat split; try done. by repeat constructor.
Qed.

Lemma append_to_last_length s l : List.length (append_to_last s l) = List.length l.
Proof.
  induction l as [|x l IH]; [done|]. simpl. destruct l; [done|]. simpl in *. by rewrite IH.
Qed.

Lemma with_contents_streams l r (st : State P) :
  List.length l = List.length (response_contents r) ->
  streams w st r st (with_contents l r).
Proof.
  intros Hl. exists 0%nat, []. simpl. rewrite app_nil_r, !Nat.add_0_r. by repeat split.
Qed.

(** One chunk: the segments move as [feed] says. *)
Lemma render_chunk_streams new_msg user_warnings c r (st : State P) :
  exists r' st',
    render_chunk cfg w new_msg user_warnings c r st = (Ok r', st')
    /\ response_contents r'
       = feed (MAX_MESSAGE_LENGTH cfg) (response_contents r) (default "" (delta_content c))
    /\ streams w st r st' r'.
Proof.
  unfold render_chunk, bind.
  assert (H1 : exists r1 st1,
             match response_contents r with
             | [] => first_segment cfg w new_msg user_warnings r
             | _ => ret r
             end st = (Ok r1, st1)
             /\ response_contents r1
                = match response_contents r with [] => [""] | _ => response_contents r end
             /\ streams w st r st1 r1).
  { destruct (response_contents r) as [|x l] eqn:Hr.
    - by apply first_segment_streams.
    - exists r, st. rewrite Hr. split; [done|]. split; [done | apply streams_refl]. }
  destruct H1 as (r1 & st1 & -> & Hc1 & Hs1).
  assert (H2 : exists r2 st2,
             (if Py.len (List.last (response_contents r1) "" +:+ default "" (delta_content c))
                 >? MAX_MESSAGE_LENGTH cfg
              then next_segment cfg w new_msg r1 else ret r1) st1 = (Ok r2, st2)
             /\ response_contents r2
                = (if Py.len (List.last (response_contents r1) "" +:+ default "" (delta_content c))
                      >? MAX_MESSAGE_LENGTH cfg
                   then (response_contents r1 ++ [""])%list else response_contents r1)
             /\ streams w st1 r1 st2 r2).
  { destruct (_ >? _).
    - apply next_segment_streams.
    - exists r1, st1. split; [done|]. split; [done | apply streams_refl]. }
  destruct H2 as (r2 & st2 & -> & Hc2 & Hs2).
  set (r3 := with_contents (append_to_last (default "" (delta_content c)) (response_contents r2)) r2).
  assert (Hs3 : streams w st r st2 r3).
  { eapply streams_trans; [exact Hs1|]. eapply streams_trans; [exact Hs2|].
    apply with_contents_streams. apply append_to_last_length. }
  assert (Hc3 : response_contents r3
                = feed (MAX_MESSAGE_LENGTH cfg) (response_contents r)
                    (default "" (delta_content c))).
  { unfold feed. simpl. by rewrite Hc2, Hc1. }
  destruct (should_update_streams (finish_reason c) r3 st2) as (b & st3 & -> & Hs4).
  destruct b.
  - destruct (push_update_streams (finish_reason c) r3 st3) as (r4 & st4 & -> & Hc4 & Hs5).
    exists r4, st4. split; [done|]. split; [congruence|].
    eapply streams_trans; [exact Hs3|]. eapply streams_trans; [exact Hs4 | exact Hs5].
  - exists r3, st3. split; [done|]. split; [done|].
    eapply streams_trans; [exact Hs3 | exact Hs4].
Qed.

(** All the chunks of a stream. *)
Lemma render_chunks_streams new_msg user_warnings cs r (st : State P) :
  exists r' st',
    render_chunks cfg w new_msg user_warnings cs r st = (Ok r', st')
    /\ response_contents r'
       = fold_left (feed (MAX_MESSAGE_LENGTH cfg)) (tokens cs) (response_contents r)
    /\ streams w st r st' r'.
Proof.
  revert r st. induction cs as [|c cs IH]; intros r st; simpl.
  - exists r, st. split; [done|]. split; [done | apply streams_refl].
  - unfold bind.
    destruct (render_chunk_streams new_msg user_warnings c r st) as (r1 & st1 & -> & Hc1 & Hs1).
    destruct (IH r1 st1) as (r' & st' & -> & Hc & Hs).
    exists r', st'. split; [done|]. split; [by rewrite Hc, Hc1|].
    by eapply streams_trans.
Qed.

End Renderer.
Lemma MAX_MESSAGE_LENGTH_positive (cfg : Config) : 1 <= MAX_MESSAGE_LENGTH cfg.
Proof. unfold MAX_MESSAGE_LENGTH. by destruct (USE_PLAIN_RESPONSES cfg). Qed.

Lemma collect_tokens (cs : list Chunk) : collect cs = Py.concat (tokens cs).
Proof. reflexivity. Qed.

(** ** Whole tokens, in the segments and in what goes out *)

Lemma whole_tokens_grow msgs groups id ev :
  whole_tokens msgs groups ev -> whole_tokens (msgs ++ [id])%list (groups ++ [[]])%list ev.
Proof.
  destruct ev; simpl; auto.
  intros (i & group & k & Hm & Hg & Hs). exists i, group, k.
  split; [by apply lookup_app_l_Some|]. split; [by apply lookup_app_l_Some | exact Hs].
Qed.

Lemma whole_tokens_feed msgs gs g tok ev :
  whole_tokens msgs (gs ++ [g])%list ev ->
  whole_tokens msgs (gs ++ [(g ++ [tok])%list])%list ev.
Proof.
  destruct ev; simpl; auto.
  intros (i & group & k & Hm & Hg & Hs).
  apply lookup_app_Some in Hg. destruct Hg as [Hg|[Hi Hg]].
  - exists i, group, k. split; [exact Hm|]. split; [by apply lookup_app_l_Some | exact Hs].
  - destruct (i - List.length gs)%nat as [|n] eqn:Hn; [|by destruct n].
    simpl in Hg. injection Hg as <-.
    exists i, (g ++ [tok])%list, (Nat.min k (List.length g)).
    split; [exact Hm|]. split.
    + apply lookup_app_Some. right. split; [exact Hi|]. by rewrite Hn.
    + replace (firstn (Nat.min k (List.length g)) (g ++ [tok])%list) with (firstn k g); [exact Hs|].
      rewrite firstn_app.
      replace (Nat.min k (List.length g) - List.length g)%nat with 0%nat by lia.
      simpl. rewrite app_nil_r.
      destruct (Nat.le_ge_cases k (List.length g)) as [Hle|Hge].
      * by rewrite Nat.min_l.
      * rewrite Nat.min_r by exact Hge. by rewrite firstn_all, firstn_all2.
Qed.

Lemma messages_sent_app evs1 evs2 :
  messages_sent (evs1 ++ evs2)%list = (messages_sent evs1 ++ messages_sent evs2)%list.
Proof. apply flat_map_app. Qed.

Section Tokens.

Context {P : Type}.
Variable cfg : Config.
Variable w : World.

Lemma ids_sent_length from k : List.length (ids_sent w from k) = k.
Proof. unfold ids_sent. by rewrite length_map, length_seq. Qed.

Lemma ids_sent_snoc from k : ids_sent w from (S k) = (ids_sent w from k ++ [sent_id w (from + k)])%list.
Proof. replace (S k) with (k + 1)%nat by lia. by rewrite ids_sent_app. Qed.

(** A placeholder: one message sent, which shows the indicator alone. *)
Lemma placeholder_out new_msg fields r (st : State P) :
  exists r' st' p,
    placeholder cfg w new_msg fields r st = (Ok r', st')
    /\ trace st' = EvSend (channel_id (channel new_msg)) p (sent_id w (sent st)) :: trace st
    /\ shown p = STREAMING_INDICATOR
    /\ response_msgs r' = (response_msgs r ++ [sent_id w (sent st)])%list
    /\ response_contents r' = response_contents r
    /\ sent st' = S (sent st).
Proof.
  unfold placeholder. destruct (negb (USE_PLAIN_RESPONSES cfg)); simpl;
    do 3 eexists; by repeat split.
Qed.

Lemma should_update_out finish r (st : State P) :
  exists b st',
    should_update w finish r st = (Ok b, st') /\ trace st' = trace st /\ sent st' = sent st.
Proof.
  unfold should_update. destruct finish as [reason|].
  - exists true, st. by repeat split.
  - unfold bind. destruct (edit_task r); simpl.
    + destruct (edit_done w (readings st)); simpl; do 2 eexists; by repeat split.
    + do 2 eexists. by repeat split.
Qed.

(** An edit: it goes to the last message and shows the last segment,
    with the indicator or without. *)
Lemma push_update_out finish r (st : State P) :
  exists r' st' p,
    push_update cfg w finish r st = (Ok r', st')
    /\ trace st' = EvEdit (List.last (response_msgs r) 0) p :: trace st
    /\ (shown p = List.last (response_contents r) "" +:+ STREAMING_INDICATOR
        \/ shown p = List.last (response_contents r) "")
    /\ response_msgs r' = response_msgs r
    /\ response_contents r' = response_contents r
    /\ sent st' = sent st.
Proof.
  unfold push_update.
  destruct (negb (USE_PLAIN_RESPONSES cfg)); simpl; do 3 eexists;
    (split; [reflexivity|]); (split; [reflexivity|]); simpl;
    (split; [|by repeat split]);
    (destruct (unfinished finish); [by left | right; apply append_empty_r]).
Qed.

(** A new segment is opened: its placeholder is sent, its group is
    empty. *)
Lemma renders_placeholder new_msg fields st0 toks r (st : State P) :
  renders_tokens w st0 toks r st ->
  exists r' st',
    placeholder cfg w new_msg fields (with_contents (response_contents r ++ [""])%list r) st
    = (Ok r', st')
    /\ renders_tokens w st0 toks r' st'
    /\ response_contents r' <> [].
Proof.
  intros (groups & evs & Hcat & Hc & Hm & Hs & Ht & Hsent & Hout).
  destruct (placeholder_out new_msg fields
              (with_contents (response_contents r ++ [""])%list r) st)
    as (r' & st' & p & Hrun & Ht' & Hp & Hm' & Hc' & Hs').
  simpl in Hm', Hc'. exists r', st'. split; [exact Hrun|]. split.
  - exists (groups ++ [[]])%list,
      (evs ++ [EvSend (channel_id (channel new_msg)) p (sent_id w (sent st))])%list.
    rewrite length_app. simpl. repeat split.
    + rewrite List.concat_app. simpl. by rewrite !app_nil_r.
    + rewrite Hc', Hc, map_app. reflexivity.
    + rewrite Hm', Hm, Hs. replace (List.length groups + 1)%nat with (S (List.length groups)) by lia.
      by rewrite ids_sent_snoc.
    + lia.
    + rewrite Ht', Ht, rev_app_distr. reflexivity.
    + rewrite messages_sent_app, Hsent, Hm'. reflexivity.
    + apply Forall_app. split.
      * rewrite Hm'. eapply Forall_impl; [exact Hout|].
        intros ev Hev. by apply whole_tokens_grow.
      * constructor; [|constructor]. simpl. by left.
  - rewrite Hc'. by destruct (response_contents r).
Qed.

Lemma renders_first_segment new_msg user_warnings st0 toks r (st : State P) :
  renders_tokens w st0 toks r st ->
  exists r1 st1,
    match response_contents r with
    | [] => first_segment cfg w new_msg user_warnings r
    | _ => ret r
    end st = (Ok r1, st1)
    /\ renders_tokens w st0 toks r1 st1
    /\ response_contents r1 <> [].
Proof.
  intros Hinv. destruct (response_contents r) as [|x l] eqn:Hr.
  - destruct (renders_placeholder new_msg user_warnings st0 toks r st Hinv)
      as (r1 & st1 & Hrun & Hinv1 & Hne).
    rewrite Hr in Hrun. simpl in Hrun.
    unfold first_segment, bind. rewrite Hrun. unfold now, modify. simpl.
    do 2 eexists. split; [reflexivity|]. split; [|exact Hne].
    destruct Hinv1 as (groups & evs & H). exists groups, evs. exact H.
  - exists r, st. split; [reflexivity|]. split; [exact Hinv|]. by rewrite Hr.
Qed.

Lemma renders_next_segment new_msg tok st0 toks r (st : State P) :
  renders_tokens w st0 toks r st ->
  response_contents r <> [] ->
  exists r2 st2,
    (if Py.len (List.last (response_contents r) "" +:+ tok) >? MAX_MESSAGE_LENGTH cfg
     then next_segment cfg w new_msg r else ret r) st = (Ok r2, st2)
    /\ renders_tokens w st0 toks r2 st2
    /\ response_contents r2 <> [].
Proof.
  intros Hinv Hne. destruct (_ >? _).
  - unfold next_segment. by apply renders_placeholder.
  - by exists r, st.
Qed.

(** The token goes to the end of the last segment. *)
Lemma renders_append tok st0 toks r (st : State P) :
  renders_tokens w st0 toks r st ->
  response_contents r <> [] ->
  renders_tokens w st0 (toks ++ [tok])
    (with_contents (append_to_last tok (response_contents r)) r) st.
Proof.
  intros (groups & evs & Hcat & Hc & Hm & Hs & Ht & Hsent & Hout) Hne.
  assert (Hg : groups <> []) by (intros ->; by rewrite Hc in Hne).
  destruct (exists_last Hg) as (gs & g & ->).
  exists (gs ++ [(g ++ [tok])%list])%list, evs. simpl.
  rewrite !length_app in *. simpl in *. repeat split; try assumption.
  - rewrite List.concat_app in *. simpl in *. rewrite !app_nil_r in *.
    by rewrite <- Hcat, app_assoc.
  - rewrite Hc, !map_app. simpl. by rewrite append_to_last_snoc, concat_app, concat_cons,
      append_empty_r.
  - eapply Forall_impl; [exact Hout|]. intros ev Hev. by apply whole_tokens_feed.
Qed.

(** The edit shows the last segment, which is made of whole tokens. *)
Lemma renders_push_update finish st0 toks r (st : State P) :
  renders_tokens w st0 toks r st ->
  response_contents r <> [] ->
  exists r' st',
    push_update cfg w finish r st = (Ok r', st') /\ renders_tokens w st0 toks r' st'.
Proof.
  intros (groups & evs & Hcat & Hc & Hm & Hs & Ht & Hsent & Hout) Hne.
  destruct (push_update_out finish r st) as (r' & st' & p & Hrun & Ht' & Hp & Hm' & Hc' & Hs').
  exists r', st'. split; [exact Hrun|].
  assert (Hg : groups <> []) by (intros ->; by rewrite Hc in Hne).
  destruct (exists_last Hg) as (gs & g & ->).
  exists (gs ++ [g])%list, (evs ++ [EvEdit (List.last (response_msgs r) 0) p])%list.
  rewrite Hm', Hc'. repeat split; try assumption.
  - lia.
  - rewrite Ht', Ht, rev_app_distr. reflexivity.
  - rewrite messages_sent_app, Hsent. simpl. by rewrite app_nil_r.
  - apply Forall_app. split; [exact Hout|]. constructor; [|constructor]. simpl.
    exists (List.length gs), g, (List.length g). split; [|split].
    + rewrite Hm, length_app. simpl.
      replace (List.length gs + 1)%nat with (S (List.length gs)) by lia.
      rewrite ids_sent_snoc, last_last.
      apply lookup_app_Some. right. rewrite ids_sent_length. split; [lia|].
      by rewrite Nat.sub_diag.
    + apply lookup_app_Some. right. split; [lia|]. by rewrite Nat.sub_diag.
    + rewrite Hc, map_app in Hp. simpl in Hp. rewrite last_last in Hp.
      by rewrite firstn_all.
Qed.

(** One chunk. *)
Lemma render_chunk_tokens new_msg user_warnings c st0 toks r (st : State P) :
  renders_tokens w st0 toks r st ->
  exists r' st',
    render_chunk cfg w new_msg user_warnings c r st = (Ok r', st')
    /\ renders_tokens w st0 (toks ++ [default "" (delta_content c)]) r' st'.
Proof.
  intros Hinv. unfold render_chunk, bind.
  destruct (renders_first_segment new_msg user_warnings st0 toks r st Hinv)
    as (r1 & st1 & -> & Hinv1 & Hne1).
  destruct (renders_next_segment new_msg (default "" (delta_content c)) st0 toks r1 st1
              Hinv1 Hne1) as (r2 & st2 & -> & Hinv2 & Hne2).
  pose proof (renders_append (default "" (delta_content c)) st0 toks r2 st2 Hinv2 Hne2)
    as Hinv3.
  set (r3 := with_contents
               (append_to_last (default "" (delta_content c)) (response_contents r2)) r2)
    in *.
  destruct (should_update_out (finish_reason c) r3 st2) as (b & st3 & -> & Htr & Hsn).
  assert (Hinv4 : renders_tokens w st0 (toks ++ [default "" (delta_content c)]) r3 st3).
  { destruct Hinv3 as (groups & evs & Hcat & Hc & Hm & Hs & Ht & Hsent & Hout).
    exists groups, evs. rewrite Htr, Hsn. by repeat split. }
  destruct b; [|by exists r3, st3].
  apply renders_push_update; [exact Hinv4|].
  unfold r3. simpl. destruct (response_contents r2) as [|x l]; [done|].
  simpl. by destruct l.
Qed.

Lemma render_chunks_tokens new_msg user_warnings cs :
  forall st0 toks r (st : State P),
    renders_tokens w st0 toks r st ->
    exists r' st',
      render_chunks cfg w new_msg user_warnings cs r st = (Ok r', st')
      /\ renders_tokens w st0 (toks ++ tokens cs) r' st'.
Proof.
  induction cs as [|c cs IH]; intros st0 toks r st Hinv; simpl.
  - exists r, st. by rewrite app_nil_r.
  - unfold bind.
    destruct (render_chunk_tokens new_msg user_warnings c st0 toks r st Hinv)
      as (r1 & st1 & -> & Hinv1).
    destruct (IH st0 _ r1 st1 Hinv1) as (r' & st' & -> & Hinv').
    exists r', st'. split; [reflexivity|]. by rewrite <- app_assoc in Hinv'.
Qed.

End Tokens.

(** C2, as amended. A segment is closed between two tokens, never inside
    one. Whatever the stream brings, the segments of the answer are runs
    of whole tokens ([groups], which together are the tokens of the
    stream in their order); one message is sent for each segment, when
    the segment is opened, and it shows the streaming indicator alone;
    besides these only the notice of a failure is sent; and every edit
    shows the first tokens of the segment of the message it edits,
    followed by the streaming indicator or by nothing. When the stream
    brings one character more than [MAX_MESSAGE_LENGTH] and the limit
    falls between two of its tokens (the chunks [pre] bring exactly
    [MAX_MESSAGE_LENGTH] characters, the chunks [post] the last one),
    there are exactly two segments and two messages: the first segment
    holds the [MAX_MESSAGE_LENGTH] characters of [pre], the second the
    remaining character. *)
Theorem C2_split_between_tokens {P : Type} (cfg : Config) (w : World) (new_msg : Message)
  (user_warnings : Warnings) (messages : list Turn) (st : State P) :
  exists r st' evs groups,
    generate cfg w new_msg user_warnings messages st = (Ok r, st')
    /\ trace st' = (rev evs ++ trace st)%list
    /\ List.concat groups = tokens (chunks (completions_create w messages))
    /\ response_contents r = map Py.concat groups
    /\ response_msgs r = ids_sent w (sent st) (List.length groups)
    /\ messages_sent evs
       = (response_msgs r
          ++ match failure (completions_create w messages) with
             | Some _ => [sent_id w (sent st + List.length groups)]
             | None => []
             end)%list
    /\ Forall (whole_tokens (response_msgs r) groups) evs
    /\ (forall pre post,
          chunks (completions_create w messages) = (pre ++ post)%list ->
          Py.len (collect pre) = MAX_MESSAGE_LENGTH cfg ->
          Py.len (collect post) = 1 ->
          response_contents r = [collect pre; collect post]
          /\ response_msgs r = [sent_id w (sent st); sent_id w (S (sent st))]).
Proof.
  unfold generate, bind, emit, modify. simpl.
  match goal with
  | |- context [render_chunks cfg w new_msg user_warnings _ no_response ?s] => set (st0 := s)
  end.
  assert (Hst0 : trace st0
                 = EvCompletion messages :: EvTyping (channel_id (channel new_msg)) :: trace st
                 /\ sent st0 = sent st) by (by split).
  destruct Hst0 as [Htr0 Hsn0].
  assert (Hstart : renders_tokens w st0 [] no_response st0).
  { exists [], []. repeat split; simpl; try done; lia. }
  destruct (render_chunks_tokens cfg w new_msg user_warnings
              (chunks (completions_create w messages)) st0 [] no_response st0 Hstart)
    as (r & st1 & Hrun & (groups & evs & Hcat & Hc & Hm & Hs & Ht & Hsent & Hout)).
  destruct (render_chunks_streams cfg w new_msg user_warnings
              (chunks (completions_create w messages)) no_response st0)
    as (r2 & st2 & Hrun2 & Hfeed & _).
  rewrite Hrun in Hrun2. injection Hrun2 as <- <-.
  rewrite Hrun. simpl in Hcat, Hfeed.
  assert (Htwo : forall pre post,
             chunks (completions_create w messages) = (pre ++ post)%list ->
             Py.len (collect pre) = MAX_MESSAGE_LENGTH cfg ->
             Py.len (collect post) = 1 ->
             response_contents r = [collect pre; collect post]
             /\ response_msgs r = [sent_id w (sent st); sent_id w (S (sent st))]).
  { intros pre post Hchunks Hpre Hpost.
    rewrite Hchunks in Hfeed. unfold tokens in Hfeed. rewrite map_app in Hfeed.
    rewrite (feed_one_over _ _ _ (MAX_MESSAGE_LENGTH_positive cfg) Hpre Hpost) in Hfeed.
    split; [exact Hfeed|].
    assert (Hk : List.length groups = 2%nat).
    { rewrite <- (length_map Py.concat), <- Hc, Hfeed. reflexivity. }
    rewrite Hm, Hk. reflexivity. }
  set (before := [EvTyping (channel_id (channel new_msg)); EvCompletion messages]).
  assert (Hbefore : Forall (whole_tokens (response_msgs r) groups) (before ++ evs)).
  { apply Forall_app. split; [by repeat constructor | exact Hout]. }
  destruct (failure (completions_create w messages)) as [e|].
  - unfold log_error, emit, modify, send, ret. simpl.
    do 2 eexists.
    exists (before ++ evs
            ++ [EvLogError ("Error while generating response: " +:+ e);
                EvSend (channel_id (channel new_msg)) (Plain failure_notice)
                  (sent_id w (sent st1))])%list, groups.
    split; [reflexivity|].
    split.
    { cbn [trace with_trace with_sent]. rewrite Ht, Htr0, !rev_app_distr. simpl.
      by rewrite <- !app_assoc. }
    split; [exact Hcat|]. split; [exact Hc|]. split; [exact Hm|].
    split.
    { rewrite !messages_sent_app. simpl. by rewrite Hsent, Hs. }
    split; [|exact Htwo].
    rewrite app_assoc. apply Forall_app. split; [exact Hbefore|].
    constructor; [exact I|]. constructor; [|constructor]. simpl. by right.
  - assert (Hplain :
              (if USE_PLAIN_RESPONSES cfg
                  && match response_msgs r with [] => true | _ => false end
               then plain_messages w new_msg (response_contents r) r
               else ret r) st1 = (Ok r, st1)).
    { destruct (USE_PLAIN_RESPONSES cfg); [|reflexivity]. simpl.
      destruct (response_msgs r) eqn:Hmsgs; [|reflexivity].
      assert (Hk : List.length groups = 0%nat).
      { rewrite <- (ids_sent_length w (sent st0) (List.length groups)), <- Hm. reflexivity. }
      destruct groups; [|discriminate]. by rewrite Hc. }
    rewrite Hplain. exists r, st1, (before ++ evs)%list, groups.
    split; [reflexivity|].
    split.
    { rewrite Ht, Htr0, rev_app_distr. simpl. by rewrite <- app_assoc. }
    split; [exact Hcat|]. split; [exact Hc|]. split; [exact Hm|].
    split.
    { rewrite messages_sent_app, app_nil_r. simpl. exact Hsent. }
    split; [exact Hbefore | exact Htwo].
Qed.

(** C2, witness: under the limit of 3000 characters of the plain
    responses, a first token of 2999 characters, a second of one, a third
    of one. Two messages are sent, each showing the indicator alone; the
    three edits show whole tokens. *)
Lemma C2_split_between_tokens_witness :
  let cfg := Demo.cfg true "openai/gpt-4o" 100 1 10 in
  let pre := [Demo.chunk (Demo.run_of "a" 2999); Demo.chunk "b"] in
  let post := [Demo.last_chunk "c"] in
  let w := Demo.world [] {| chunks := pre ++ post; failure := None |} in
  let m := Demo.message 20 Demo.alice "mom, tell me everything" None 100 in
  Py.len (collect pre) = MAX_MESSAGE_LENGTH cfg
  /\ Py.len (collect post) = 1
  /\ exists r st',
       generate cfg w m no_warnings [] (Demo.start ∅) = (Ok r, st')
       /\ map Py.len (response_contents r) = [3000; 1]
       /\ response_msgs r = [1000; 1001]
       /\ map (fun ev => match ev with
                         | EvSend _ p id => (id, Py.len (shown p))
                         | EvEdit id p => (id, Py.len (shown p))
                         | _ => (0, 0)
                         end) (rev (trace st'))
          = [(0, 0); (0, 0); (1000, 2); (1000, 3001); (1000, 3002); (1001, 2); (1001, 1)].
Proof.
  intros cfg pre post w m.
  split; [by vm_compute|]. split; [by vm_compute|].
  destruct (C2_split_between_tokens cfg w m no_warnings [] (Demo.start ∅))
    as (r & st' & evs & groups & Hrun & _ & _ & _ & _ & _ & _ & Htwo).
  destruct (Htwo pre post eq_refl ltac:(by vm_compute) ltac:(by vm_compute)) as (Hc & Hm).
  exists r, st'. split; [exact Hrun|]. split; [rewrite Hc; by vm_compute|].
  split; [rewrite Hm; by vm_compute|].
  vm_compute in Hrun. injection Hrun as _ <-. by vm_compute.
Defined.

(** C2, as stated, fails: under the same limit, a token of 2999
    characters followed by a token of two. The stream brings 3001
    characters and two segments are made, but the first holds 2999
    characters and the second two. *)
Lemma C2_counterexample :
  let cfg := Demo.cfg true "openai/gpt-4o" 100 1 10 in
  let answer := {| chunks := [Demo.chunk (Demo.run_of "a" 2999); Demo.last_chunk "bb"];
                   failure := None |} in
  let w := Demo.world [] answer in
  let m := Demo.message 20 Demo.alice "mom, tell me everything" None 100 in
  let run := generate cfg w m no_warnings [] (Demo.start ∅) in
  Py.len (collect (chunks answer)) = MAX_MESSAGE_LENGTH cfg + 1
  /\ (exists r, fst run = Ok r /\ map Py.len (response_contents r) = [2999; 2])
  /\ ~ (exists r first second,
           fst run = Ok r /\ response_contents r = [first; second]
           /\ Py.len first = MAX_MESSAGE_LENGTH cfg /\ Py.len second = 1).
Proof.
  intros cfg answer w m run.
  assert (Hrun : exists r, fst run = Ok r /\ map Py.len (response_contents r) = [2999; 2]).
  { eexists. split; by vm_compute. }
  split; [by vm_compute|]. split; [exact Hrun|].
  intros (r & first & second & Hr & Hc & Hfirst & _).
  destruct Hrun as (r' & Hr' & Hlens).
  rewrite Hr in Hr'. injection Hr' as <-. rewrite Hc in Hlens. simpl in Hlens.
  injection Hlens as Hlen _. rewrite Hlen in Hfirst. vm_compute in Hfirst. discriminate.
Qed.

Section Guards.

Context {P : Type}.
Variable cfg : Config.
Variable w : World.
Variable hooks : PluginHooks P.

Lemma with_locked_nodes_other ids m id :
  ~ In id ids -> with_locked_nodes ids m !! id = m !! id.
Proof.
  revert m. induction ids as [|a ids IH]; intros m Hnot; [done|].
  simpl in *. rewrite IH by tauto. apply lookup_insert_ne. tauto.
Qed.

Lemma with_locked_nodes_in ids m id :
  In id ids -> with_locked_nodes ids m !! id = Some (set_lock true new_node).
Proof.
  revert m. induction ids as [|a ids IH]; intros m Hin; [done|].
  simpl. destruct (in_dec Z.eq_dec id ids) as [Hi|Hi].
  - by apply IH.
  - destruct Hin as [->|]; [|done].
    rewrite with_locked_nodes_other by done. apply lookup_insert_eq.
Qed.

Lemma ids_sent_NoDup from k :
  (forall i j, sent_id w i = sent_id w j -> i = j) -> NoDup (ids_sent w from k).
Proof.
  intros Hinj. revert from. induction k as [|k IH]; intros from.
  - constructor.
  - unfold ids_sent in *. simpl. apply NoDup_cons. split; [|apply IH].
    rewrite list_elem_of_In, in_map_iff. intros (j & Hj & Hin).
    apply Hinj in Hj. apply in_seq in Hin. lia.
Qed.

Lemma concat_fold_feed limit toks l :
  Py.concat (fold_left (feed limit) toks l) = Py.concat l +:+ Py.concat toks.
Proof.
  revert l. induction toks as [|t toks IH]; intros l; simpl.
  - by rewrite append_empty_r.
  - by rewrite IH, concat_feed, concat_cons, append_assoc.
Qed.

(** The [try] block: the segments and the placeholders of the stream,
    then the notice when the stream failed. *)
Lemma generate_spec new_msg user_warnings messages (st : State P) :
  exists r st' streamed,
    generate cfg w new_msg user_warnings messages st = (Ok r, st')
    /\ Py.concat (response_contents r) = collect (chunks (completions_create w messages))
    /\ response_msgs r = ids_sent w (sent st) (List.length (response_msgs r))
    /\ msg_nodes st' = with_locked_nodes (response_msgs r) (msg_nodes st)
    /\ plugin_state st' = plugin_state st
    /\ trace st'
       = (closing w new_msg (completions_create w messages)
            (sent st + List.length (response_msgs r))
          ++ streamed
          ++ [EvCompletion messages; EvTyping (channel_id (channel new_msg))]
          ++ trace st)%list
    /\ Forall streamed_event streamed.
Proof.
  unfold generate, bind, emit, modify. simpl.
  match goal with
  | |- context [render_chunks cfg w new_msg user_warnings ?cs no_response ?s] =>
      destruct (render_chunks_streams cfg w new_msg user_warnings cs no_response s)
        as (r & st1 & -> & Hc & (k & evs & Hm & Hs & Hl & Hn & Hp & _ & _ & Ht & Hf))
  end.
  simpl in Hc, Hm, Hs, Hl, Hn, Hp, Ht.
  assert (Hk : List.length (response_msgs r) = k).
  { rewrite Hm. unfold ids_sent. by rewrite length_map, length_seq. }
  assert (Hfull : Py.concat (response_contents r)
                  = collect (chunks (completions_create w messages))).
  { rewrite Hc, concat_fold_feed. reflexivity. }
  unfold closing.
  destruct (failure (completions_create w messages)) as [e|].
  - exists r. eexists. exists evs. split; [reflexivity|]. simpl.
    rewrite Hk, Hs, Ht. repeat split; try done. by rewrite Hm.
  - assert (Hfallback :
      (if USE_PLAIN_RESPONSES cfg && match response_msgs r with [] => true | _ => false end
       then plain_messages w new_msg (response_contents r) r else ret r) st1 = (Ok r, st1)).
    { destruct (response_msgs r) as [|id ids] eqn:Hr.
      - simpl in Hk. subst k. destruct (response_contents r); [|discriminate].
        by destruct (USE_PLAIN_RESPONSES cfg).
      - by rewrite andb_false_r. }
    rewrite Hfallback. exists r, st1, evs. split; [reflexivity|]. simpl.
    rewrite Hk, Ht. repeat split; try done. by rewrite Hm.
Qed.

Lemma after_hooks_events hs m full (st : State P) :
  exists st' later,
    after_hooks hs m full st = (Ok tt, st')
    /\ outside_only st st'
    /\ trace st' = (later ++ trace st)%list
    /\ Forall after_event later.
Proof.
  revert st. induction hs as [|h rest IH]; intros st.
  - exists st, []. split; [done|]. split; [apply outside_only_refl | by split].
  - rewrite after_hooks_step.
    destruct (hook_run h (m, full) (plugin_state st)) as [p' [[]|e]].
    + destruct (IH (called "after_llm_response" (hook_name h) p' st))
        as (st' & later & -> & Ho & Ht & Hf).
      exists st', (later ++ [EvHook "after_llm_response" (hook_name h)])%list.
      split; [done|]. split; [|split].
      * eapply outside_only_trans; [apply outside_only_called | exact Ho].
      * rewrite Ht. simpl. by rewrite <- app_assoc.
      * apply Forall_app. split; [done | by repeat constructor].
    + destruct (IH (logged ("Error in after_llm_response hook: " +:+ exn_text e)
                      (called "after_llm_response" (hook_name h) p' st)))
        as (st' & later & -> & Ho & Ht & Hf).
      exists st', (later ++ [EvLogError ("Error in after_llm_response hook: " +:+ exn_text e);
                             EvHook "after_llm_response" (hook_name h)])%list.
      split; [done|]. split; [|split].
      * eapply outside_only_trans; [apply outside_only_called|].
        eapply outside_only_trans; [apply outside_only_logged | exact Ho].
      * rewrite Ht. simpl. by rewrite <- app_assoc.
      * apply Forall_app. split; [done | by repeat constructor].
Qed.

(** The turn is written and the lock released on each node in turn. *)
Lemma finish_nodes_spec ids d (st : State P) :
  NoDup ids ->
  (forall id, In id ids -> msg_nodes st !! id = Some (set_lock true new_node)) ->
  exists st',
    finish_nodes ids d st = (Ok tt, st')
    /\ (forall id, In id ids -> msg_nodes st' !! id = Some (set_data (Some d) new_node))
    /\ (forall id, ~ In id ids -> msg_nodes st' !! id = msg_nodes st !! id)
    /\ trace st' = trace st
    /\ plugin_state st' = plugin_state st.
Proof.
  revert st. induction ids as [|a ids IH]; intros st Hnd Hlocked.
  - exists st. by repeat split.
  - simpl. unfold bind, get_state. rewrite (Hlocked a (or_introl eq_refl)). simpl.
    apply NoDup_cons in Hnd as [Hnot Hnd]. rewrite list_elem_of_In in Hnot.
    match goal with
    | |- context [finish_nodes ids d ?s] => destruct (IH s Hnd) as (st' & -> & Hin & Hout & Ht & Hp)
    end.
    { intros id Hid. simpl. rewrite !lookup_alter_ne by (intros ->; done).
      apply Hlocked. by right. }
    exists st'. split; [done|]. repeat split.
    + intros id [<-|Hid]; [|by apply Hin].
      rewrite Hout by done. simpl.
      rewrite !lookup_alter_eq, (Hlocked a (or_introl eq_refl)). reflexivity.
    + intros id Hid. rewrite Hout by tauto. simpl.
      rewrite !lookup_alter_ne by (intros ->; tauto). done.
    + by rewrite Ht.
    + by rewrite Hp.
Qed.

Lemma no_notice_streamed evs : Forall streamed_event evs -> List.filter is_notice evs = [].
Proof.
  induction 1 as [|ev evs Hev _ IH]; [done|]. simpl. rewrite IH.
  destruct ev as [| | c [s|e] i | | | | | | | |]; simpl in *; try done.
  by rewrite Hev.
Qed.

Lemma no_notice_after evs : Forall after_event evs -> List.filter is_notice evs = [].
Proof.
  induction 1 as [|ev evs Hev _ IH]; [done|]. simpl. rewrite IH.
  by destruct ev.
Qed.

End Guards.

(** C6. Discord giving distinct identifiers to distinct messages, the
    renderer ends normally for every stream, failed or not, and returns
    the tokens of the stream put together, which is the segments put
    together. While the stream runs every response message has a fresh
    node whose lock is held. At the end each of these nodes holds the
    whole response as the turn of the assistant and its lock is released;
    no other node of the cache has changed, so that no lock taken by the
    renderer is left held. The calls made are, in order: the typing
    indicator and the model call; the placeholders and the edits of the
    stream; when the stream failed, one line in the log and one notice
    sent to the channel; then the fan-out on [after_llm_response]. No
    call after the failure touches what was pushed before it, and the
    notice is sent exactly once on a failure and never otherwise. *)
Theorem C6_renderer_releases_its_guards {P : Type} (cfg : Config) (w : World)
  (hooks : PluginHooks P) (new_msg : Message) (user_warnings : Warnings)
  (messages : list Turn) (st : State P) :
  (forall i j, sent_id w i = sent_id w j -> i = j) ->
  let stream := completions_create w messages in
  let full := collect (chunks stream) in
  exists r st_streamed st' streamed later,
    generate cfg w new_msg user_warnings messages st = (Ok r, st_streamed)
    /\ render cfg w hooks new_msg user_warnings messages st = (Ok full, st')
    /\ Py.concat (response_contents r) = full
    /\ (forall id, In id (response_msgs r) ->
                   msg_nodes st_streamed !! id = Some (set_lock true new_node))
    /\ (forall id, In id (response_msgs r) ->
                   msg_nodes st' !! id
                   = Some {| data := Some {| content := Text full; role := assistant;
                                              name := name (response_data cfg w full) |};
                             next_msg := None; too_much_text := false;
                             too_many_images := false; has_bad_attachments := false;
                             fetch_next_failed := false; lock := false |})
    /\ (forall id, ~ In id (response_msgs r) -> msg_nodes st' !! id = msg_nodes st !! id)
    /\ trace st'
       = (later
          ++ closing w new_msg stream (sent st + List.length (response_msgs r))
          ++ streamed
          ++ [EvCompletion messages; EvTyping (channel_id (channel new_msg))]
          ++ trace st)%list
    /\ Forall streamed_event streamed
    /\ Forall after_event later
    /\ List.length (List.filter is_notice
                      (later
                       ++ closing w new_msg stream (sent st + List.length (response_msgs r))
                       ++ streamed))
       = match failure stream with Some _ => 1%nat | None => 0%nat end.
Proof.
  intros Hinj stream full.
  destruct (generate_spec cfg w new_msg user_warnings messages st)
    as (r & st1 & streamed & Hgen & Hfull & Hmsgs & Hnodes & Hplug & Htrace & Hstreamed).
  destruct (after_hooks_events (after_llm_response hooks) new_msg
              (Py.concat (response_contents r)) st1)
    as (st2 & later & Hafter & (Hn2 & _) & Ht2 & Hlater).
  assert (Hlocked : forall id, In id (response_msgs r) ->
                               msg_nodes st1 !! id = Some (set_lock true new_node)).
  { intros id Hid. rewrite Hnodes. by apply with_locked_nodes_in. }
  destruct (finish_nodes_spec (response_msgs r)
              (response_data cfg w (Py.concat (response_contents r))) st2)
    as (st' & Hfinish & Hin & Hout & Ht3 & _).
  { rewrite Hmsgs. by apply ids_sent_NoDup. }
  { intros id Hid. rewrite Hn2. by apply Hlocked. }
  exists r, st1, st', streamed, later.
  split; [exact Hgen|]. split.
  { unfold render, bind. rewrite Hgen, Hafter, Hfinish. unfold ret. by rewrite Hfull. }
  split; [exact Hfull|]. split; [exact Hlocked|]. split.
  { intros id Hid. rewrite (Hin id Hid), Hfull. reflexivity. }
  split.
  { intros id Hid. rewrite (Hout id Hid), Hn2, Hnodes. by apply with_locked_nodes_other. }
  split.
  { rewrite Ht3, Ht2, Htrace. reflexivity. }
  split; [exact Hstreamed|]. split; [exact Hlater|].
  rewrite !List.filter_app, (no_notice_streamed _ Hstreamed), (no_notice_after _ Hlater).
  simpl. rewrite app_nil_r. unfold closing, stream.
  by destruct (failure (completions_create w messages)).
Qed.

(** C6, witness: the stream fails after two tokens; the placeholder
    and the two edits stay as they were pushed, the notice follows, and the node of the
    response holds the two tokens with its lock released. *)
Lemma C6_renderer_releases_its_guards_witness :
  let cfg := Demo.cfg true "local/llama3" 100 1 10 in
  let answer := {| chunks := [Demo.chunk "Hi"; Demo.chunk " there"];
                   failure := Some "connection lost" |} in
  let w := Demo.world [] answer in
  let m := Demo.message 20 Demo.alice "hello mom" None 100 in
  let hooks := Demo.no_hooks in
  (forall i j, sent_id w i = sent_id w j -> i = j)
  /\ exists st',
       render cfg w hooks m no_warnings [] (Demo.start ∅) = (Ok "Hi there", st')
       /\ msg_nodes st' !! 1000
          = Some {| data := Some {| content := Text "Hi there"; role := assistant;
                                     name := None |};
                    next_msg := None; too_much_text := false; too_many_images := false;
                    has_bad_attachments := false; fetch_next_failed := false;
                    lock := false |}
       /\ rev (trace st')
          = [EvTyping 7; EvCompletion [];
             EvSend 7 (Plain STREAMING_INDICATOR) 1000;
             EvEdit 1000 (Plain ("Hi" +:+ STREAMING_INDICATOR));
             EvEdit 1000 (Plain ("Hi there" +:+ STREAMING_INDICATOR));
             EvLogError "Error while generating response: connection lost";
             EvSend 7 (Plain failure_notice) 1001].
Proof.
  intros cfg answer w m hooks.
  assert (Hinj : forall i j, sent_id w i = sent_id w j -> i = j).
  { intros i j H. simpl in H. lia. }
  split; [exact Hinj|].
  destruct (C6_renderer_releases_its_guards cfg w hooks m no_warnings [] (Demo.start ∅) Hinj)
    as (r & st1 & st' & streamed & later & _ & Hrender & _).
  exists st'. split; [exact Hrender|].
  vm_compute in Hrender. injection Hrender as <-. by split.
Defined.

(** ** The sweep of the cache *)

Lemma StronglySorted_lt_le (l : list Z) : StronglySorted Z.lt l -> StronglySorted Z.le l.
Proof.
  induction 1 as [|x l _ IH Hx]; constructor; [done|].
  eapply Forall_impl; [exact Hx|]. simpl. lia.
Qed.

Lemma StronglySorted_lt_NoDup (l : list Z) : StronglySorted Z.lt l -> NoDup l.
Proof.
  induction 1 as [|x l _ IH Hx]; constructor; [|done].
  intros Hin. rewrite Forall_forall in Hx. specialize (Hx x Hin). lia.
Qed.

Lemma StronglySorted_skipn (n : nat) (l : list Z) :
  StronglySorted Z.lt l -> StronglySorted Z.lt (skipn n l).
Proof.
  intros H. revert n. induction H as [|x l Hl IH Hx]; intros [|n]; simpl;
    try constructor; auto.
Qed.

Lemma sorted_keys_holds m ids : holds_ids m ids -> sorted_keys m = ids.
Proof.
  intros [Hsorted Hkeys]. unfold sorted_keys.
  apply (StronglySorted_unique Z.le).
  - apply StronglySorted_merge_sort; apply _.
  - by apply StronglySorted_lt_le.
  - rewrite merge_sort_Permutation. apply NoDup_Permutation.
    + apply NoDup_elements.
    + by apply StronglySorted_lt_NoDup.
    + intros k. rewrite elem_of_elements, elem_of_dom, list_elem_of_In. by rewrite Hkeys.
Qed.

Lemma size_holds m ids : holds_ids m ids -> base.size m = List.length ids.
Proof.
  intros H. rewrite <- size_dom. unfold base.size, set_size. simpl.
  pose proof (sorted_keys_holds m ids H) as Hs. unfold sorted_keys in Hs.
  rewrite <- Hs at 1. by rewrite merge_sort_Permutation.
Qed.

Lemma lookup_drop_nodes victims m k :
  drop_nodes victims m !! k = if decide (k ∈ victims) then None else m !! k.
Proof.
  revert m. induction victims as [|v victims IH]; intros m.
  - case_decide as H; [by apply elem_of_nil in H | done].
  - change (drop_nodes (v :: victims) m) with (drop_nodes victims (delete v m)).
    rewrite IH. destruct (decide (k ∈ victims)) as [Hin|Hout].
    + rewrite decide_True; [done | by right].
    + destruct (decide (v = k)) as [->|Hne].
      * rewrite decide_True by left. apply lookup_delete_eq.
      * rewrite decide_False; [by apply lookup_delete_ne|].
        rewrite elem_of_cons. intros [->|]; done.
Qed.

Section Sweep.

Context {P : Type}.

Lemma evict_loop_free_step id rest node (st : State P) :
  msg_nodes st !! id = Some node -> lock node = false ->
  evict_loop (id :: rest) st = evict_loop rest (with_msg_nodes (delete id) st).
Proof.
  intros Hnode Hfree. simpl. unfold bind, setdefault, with_lock, del_node.
  rewrite Hnode. simpl. rewrite Hnode. simpl. rewrite Hfree.
  rewrite lookup_alter_eq, Hnode. simpl. f_equal.
  destruct st. unfold with_msg_nodes. simpl. f_equal.
  by rewrite delete_alter_eq, alter_delete_eq.
Qed.

Lemma evict_loop_held_step id rest node (st : State P) :
  msg_nodes st !! id = Some node -> lock node = true ->
  evict_loop (id :: rest) st = (Wait id, st).
Proof.
  intros Hnode Hheld. simpl. unfold bind, setdefault, with_lock.
  rewrite Hnode. simpl. rewrite Hnode. simpl. by rewrite Hheld.
Qed.

(** With no lock held among them, the victims are deleted one after the
    other and nothing else moves. *)
Lemma evict_loop_free victims (st : State P) :
  NoDup victims ->
  (forall k, In k victims -> is_Some (msg_nodes st !! k)) ->
  all_free (msg_nodes st) victims ->
  evict_loop victims st = (Ok tt, with_msg_nodes (drop_nodes victims) st).
Proof.
  revert st. induction victims as [|v victims IH]; intros st Hnd Hin Hfree.
  - by destruct st.
  - apply NoDup_cons in Hnd as [Hv Hnd]. rewrite list_elem_of_In in Hv.
    destruct (Hin v (or_introl eq_refl)) as [node Hnode].
    rewrite (evict_loop_free_step v victims node st Hnode
               (Hfree v node (or_introl eq_refl) Hnode)).
    rewrite IH; [by destruct st | done | |].
    + intros k Hk. simpl. rewrite lookup_delete_ne by (intros ->; done).
      apply Hin. by right.
    + intros k n Hk. simpl. rewrite lookup_delete_ne by (intros ->; done).
      apply Hfree. by right.
Qed.

(** With the lock of [h] held, the sweep deletes the victims before [h]
    and is suspended on [h]. *)
Lemma evict_loop_held before h after node (st : State P) :
  NoDup (before ++ h :: after) ->
  (forall k, In k before -> is_Some (msg_nodes st !! k)) ->
  all_free (msg_nodes st) before ->
  msg_nodes st !! h = Some node -> lock node = true ->
  evict_loop (before ++ h :: after) st = (Wait h, with_msg_nodes (drop_nodes before) st).
Proof.
  revert st. induction before as [|v before IH]; intros st Hnd Hin Hfree Hnode Hheld.
  - simpl app. rewrite (evict_loop_held_step h after node st Hnode Hheld). by destruct st.
  - rewrite <- app_comm_cons in *.
    apply NoDup_cons in Hnd as [Hv Hnd]. rewrite list_elem_of_In, in_app_iff in Hv.
    destruct (Hin v (or_introl eq_refl)) as [n Hn].
    rewrite (evict_loop_free_step v _ n st Hn (Hfree v n (or_introl eq_refl) Hn)).
    rewrite (IH _ Hnd); [by destruct st | | | | done].
    + intros k Hk. simpl. rewrite lookup_delete_ne by (intros ->; tauto).
      apply Hin. by right.
    + intros k n' Hk. simpl. rewrite lookup_delete_ne by (intros ->; tauto).
      apply Hfree. by right.
    + simpl. rewrite lookup_delete_ne; [done|]. intros ->. apply Hv. right. by left.
Qed.

(** The victims of the sweep are the [k] lowest identifiers, when the
    cache holds [k] nodes more than [MAX_MESSAGE_NODES]. *)
Lemma evict_victims ids k (st : State P) :
  holds_ids (msg_nodes st) ids ->
  List.length ids = (Z.to_nat MAX_MESSAGE_NODES + k)%nat ->
  evict st = evict_loop (firstn k ids) st.
Proof.
  intros Hids Hlen. unfold evict, bind, get_state.
  rewrite (size_holds _ _ Hids), (sorted_keys_holds _ _ Hids), Hlen.
  unfold MAX_MESSAGE_NODES in *.
  destruct (Z.gtb_spec (Z.of_nat (Z.to_nat 100 + k)) 100) as [Hgt|Hle].
  - unfold Py.take. destruct (Z.leb_spec 0 (Z.of_nat (Z.to_nat 100 + k) - 100)); [|lia].
    f_equal. f_equal. lia.
  - assert (k = 0%nat) as -> by lia. reflexivity.
Qed.

Lemma holds_ids_drop n ids m :
  holds_ids m ids -> holds_ids (drop_nodes (firstn n ids) m) (skipn n ids).
Proof.
  intros [Hsorted Hkeys]. split; [by apply StronglySorted_skipn|].
  intros k. rewrite lookup_drop_nodes.
  pose proof (StronglySorted_lt_NoDup ids Hsorted) as Hnd.
  rewrite <- (firstn_skipn n ids) in Hnd, Hkeys.
  apply NoDup_app in Hnd as (_ & Hdisj & _).
  specialize (Hkeys k). rewrite in_app_iff in Hkeys.
  destruct (decide (k ∈ firstn n ids)) as [Hin|Hout].
  - split; [|by intros []]. intros Hk. exfalso.
    apply (Hdisj k); [done | by rewrite list_elem_of_In].
  - rewrite list_elem_of_In in Hout. rewrite <- Hkeys. tauto.
Qed.

End Sweep.

Lemma firstn_split_at (ids before after : list Z) (h : Z) (n : nat) :
  (n <= List.length ids)%nat ->
  firstn n ids = (before ++ h :: after)%list ->
  firstn (List.length before) ids = before
  /\ skipn (List.length before) ids = (h :: after ++ skipn n ids)%list
  /\ firstn (n - List.length before) (skipn (List.length before) ids) = (h :: after)%list
  /\ skipn (n - List.length before) (skipn (List.length before) ids) = skipn n ids
  /\ (List.length before + S (List.length after) = n)%nat.
Proof.
  intros Hn Hsplit.
  assert (Hlen : (List.length before + S (List.length after) = n)%nat).
  { pose proof (length_take_le ids n Hn) as Hl. rewrite Hsplit, length_app in Hl. exact Hl. }
  assert (Hids : ids = (before ++ (h :: after) ++ skipn n ids)%list).
  { rewrite <- (firstn_skipn n ids) at 1. by rewrite Hsplit, <- app_assoc. }
  assert (Hskip : skipn (List.length before) ids = ((h :: after) ++ skipn n ids)%list).
  { rewrite Hids at 1. by rewrite drop_app_length. }
  repeat split.
  - rewrite Hids at 1. by rewrite take_app_length.
  - exact Hskip.
  - rewrite Hskip. replace (n - List.length before)%nat with (List.length (h :: after))
      by (simpl; lia).
    by rewrite take_app_length.
  - rewrite Hskip. replace (n - List.length before)%nat with (List.length (h :: after))
      by (simpl; lia).
    by rewrite drop_app_length.
  - exact Hlen.
Qed.

(** C5. Take a cache of [MAX_MESSAGE_NODES + 5] nodes whose identifiers,
    in increasing order, are [ids].
    - With no lock held on the five lowest, the sweep ends normally and
      deletes exactly those five: the cache is left with the identifiers
      after the fifth, nodes unchanged.
    - With the lock of [h], one of the five lowest, held by another task
      (and no other lock held among them), the sweep deletes the victims
      below [h] and is suspended on the lock of [h]: [h] is still in the
      cache with its node. Once that lock is released, a sweep ends
      normally, [h] is gone, and the cache is again left with exactly
      the identifiers after the fifth, nodes unchanged. *)
Theorem C5_sweep_deletes_five_lowest {P : Type} (ids : list Z) (st : State P) :
  holds_ids (msg_nodes st) ids ->
  List.length ids = (Z.to_nat MAX_MESSAGE_NODES + 5)%nat ->
  (all_free (msg_nodes st) (firstn 5 ids) ->
   evict st = (Ok tt, with_msg_nodes (drop_nodes (firstn 5 ids)) st)
   /\ holds_ids (drop_nodes (firstn 5 ids) (msg_nodes st)) (skipn 5 ids)
   /\ (forall k, In k (skipn 5 ids) ->
                 drop_nodes (firstn 5 ids) (msg_nodes st) !! k = msg_nodes st !! k))
  /\ (forall before h after node,
         firstn 5 ids = (before ++ h :: after)%list ->
         all_free (msg_nodes st) (before ++ after) ->
         msg_nodes st !! h = Some node ->
         lock node = true ->
         let suspended := with_msg_nodes (drop_nodes before) st in
         let released := with_msg_nodes (alter (set_lock false) h) suspended in
         evict st = (Wait h, suspended)
         /\ msg_nodes suspended !! h = Some node
         /\ exists st',
              evict released = (Ok tt, st')
              /\ msg_nodes st' !! h = None
              /\ holds_ids (msg_nodes st') (skipn 5 ids)
              /\ (forall k, In k (skipn 5 ids) -> msg_nodes st' !! k = msg_nodes st !! k)).
Proof.
  intros Hids Hlen.
  pose proof Hids as [Hsorted Hkeys].
  pose proof (StronglySorted_lt_NoDup ids Hsorted) as Hnd.
  assert (Hnd5 : NoDup (firstn 5 ids ++ skipn 5 ids)) by (by rewrite firstn_skipn).
  apply NoDup_app in Hnd5 as (Hnd_first & Hdisj & _).
  assert (Hpresent : forall k, In k (firstn 5 ids) -> is_Some (msg_nodes st !! k)).
  { intros k Hk. apply Hkeys. rewrite <- (firstn_skipn 5 ids), in_app_iff. by left. }
  assert (Hkept : forall k, In k (skipn 5 ids) ->
                            drop_nodes (firstn 5 ids) (msg_nodes st) !! k = msg_nodes st !! k).
  { intros k Hk. rewrite lookup_drop_nodes, decide_False; [done|].
    intros Hin. apply (Hdisj k Hin). by rewrite list_elem_of_In. }
  split.
  - intros Hfree. split; [|split; [by apply holds_ids_drop | exact Hkept]].
    rewrite (evict_victims ids 5 st Hids Hlen). by apply evict_loop_free.
  - intros before h after node Hsplit Hfree Hnode Hheld suspended released.
    destruct (firstn_split_at ids before after h 5 ltac:(lia) Hsplit)
      as (Hbefore & Hskip & Hvictims & Hrest & Hcount).
    rewrite Hsplit in Hnd_first, Hpresent, Hdisj.
    assert (Hh_before : ~ In h before).
    { apply NoDup_app in Hnd_first as (_ & Hd & _). intros Hin.
      apply (Hd h); [by rewrite list_elem_of_In | by left]. }
    assert (Hh_after : ~ In h after).
    { apply NoDup_app in Hnd_first as (_ & _ & Hd). apply NoDup_cons in Hd as [Hd _].
      by rewrite list_elem_of_In in Hd. }
    assert (Hafter_before : forall k, In k after -> ~ In k before).
    { apply NoDup_app in Hnd_first as (_ & Hd & _). intros k Hk Hin.
      apply (Hd k); [by rewrite list_elem_of_In | right; by rewrite list_elem_of_In]. }
    split; [|split].
    + rewrite (evict_victims ids 5 st Hids Hlen), Hsplit.
      apply (evict_loop_held before h after node st); try done.
      * intros k Hk. apply Hpresent. rewrite in_app_iff. by left.
      * intros k n Hk. apply Hfree. rewrite in_app_iff. by left.
    + unfold suspended. simpl. rewrite lookup_drop_nodes, decide_False; [done|].
      by rewrite list_elem_of_In.
    + assert (Hids' : holds_ids (msg_nodes released) (skipn (List.length before) ids)).
      { pose proof (holds_ids_drop (List.length before) ids (msg_nodes st) Hids) as [Hs Hk].
        rewrite Hbefore in Hk. split; [exact Hs|].
        intros k. unfold released, suspended. simpl. rewrite lookup_alter_is_Some. apply Hk. }
      assert (Hlen' : List.length (skipn (List.length before) ids)
                      = (Z.to_nat MAX_MESSAGE_NODES + (5 - List.length before))%nat).
      { rewrite length_skipn. lia. }
      assert (Hlookup : forall k, ~ In k before -> k <> h ->
                                  msg_nodes released !! k = msg_nodes st !! k).
      { intros k Hk Hne. unfold released, suspended. simpl.
        rewrite lookup_alter_ne by done.
        rewrite lookup_drop_nodes, decide_False; [done | by rewrite list_elem_of_In]. }
      eexists. split; [|split; [|split]].
      * rewrite (evict_victims _ _ released Hids' Hlen'), Hvictims.
        apply evict_loop_free.
        -- apply NoDup_app in Hnd_first as (_ & _ & Hd). exact Hd.
        -- intros k Hk. apply Hids'. rewrite Hskip. simpl. rewrite in_app_iff.
           destruct Hk; [by left | right; by left].
        -- intros k n [<-|Hk] Hn.
           ++ unfold released, suspended in Hn. simpl in Hn.
              rewrite lookup_alter_eq, lookup_drop_nodes, decide_False in Hn
                by (by rewrite list_elem_of_In).
              rewrite Hnode in Hn. by injection Hn as <-.
           ++ rewrite Hlookup in Hn; [|by apply Hafter_before | by intros ->].
              apply (Hfree k n); [|done]. rewrite in_app_iff. by right.
      * cbn [msg_nodes with_msg_nodes].
        rewrite lookup_drop_nodes, decide_True; [done | by left].
      * cbn [msg_nodes with_msg_nodes]. rewrite <- Hrest, <- Hvictims.
        by apply holds_ids_drop.
      * intros k Hk. cbn [msg_nodes with_msg_nodes].
        assert (Hk5 : ~ In k (before ++ h :: after)).
        { intros Hin. apply (Hdisj k); by rewrite list_elem_of_In. }
        rewrite in_app_iff in Hk5. simpl in Hk5.
        rewrite lookup_drop_nodes, decide_False.
        -- apply Hlookup; [tauto | intros ->; tauto].
        -- rewrite list_elem_of_In. simpl. tauto.
Qed.

Lemma cache_of_lookup ids held m k :
  Demo.cache_of ids held m !! k
  = if decide (k ∈ ids) then Some (set_lock (held k) new_node) else m !! k.
Proof.
  revert m. induction ids as [|a ids IH]; intros m.
  - case_decide as H; [by apply elem_of_nil in H | done].
  - change (Demo.cache_of (a :: ids) held m)
      with (Demo.cache_of ids held (<[a := set_lock (held a) new_node]> m)).
    rewrite IH. destruct (decide (k ∈ ids)) as [Hin|Hout].
    + rewrite decide_True; [done | by right].
    + destruct (decide (a = k)) as [->|Hne].
      * rewrite decide_True by left. apply lookup_insert_eq.
      * rewrite decide_False; [by apply lookup_insert_ne|].
        rewrite elem_of_cons. intros [->|]; done.
Qed.

Lemma ids_from_sorted from n : StronglySorted Z.lt (Demo.ids_from from n).
Proof.
  revert from. induction n as [|n IH]; intros from; [constructor|].
  unfold Demo.ids_from in *. simpl. constructor; [apply IH|].
  rewrite Forall_forall. intros x. rewrite list_elem_of_In, in_map_iff.
  intros (j & <- & Hj). apply in_seq in Hj. lia.
Qed.

Lemma cache_of_holds from n held :
  holds_ids (Demo.cache_of (Demo.ids_from from n) held ∅) (Demo.ids_from from n).
Proof.
  split; [apply ids_from_sorted|]. intros k. rewrite cache_of_lookup, <- list_elem_of_In.
  case_decide; [by split; [eauto | ] | ].
  rewrite lookup_empty. split; [done | by intros []].
Qed.

(** C5, witness: identifiers 1 to 105, the lock of node 3 held. The
    sweep deletes 1 and 2 and waits on 3; once the lock is released a
    sweep leaves the identifiers 6 to 105. *)
Lemma C5_sweep_deletes_five_lowest_witness :
  let ids := Demo.ids_from 1 105 in
  let st := Demo.start (Demo.cache_of ids (fun k => k =? 3) ∅) in
  let suspended := with_msg_nodes (drop_nodes [1; 2]) st in
  let released := with_msg_nodes (alter (set_lock false) 3) suspended in
  holds_ids (msg_nodes st) ids
  /\ List.length ids = (Z.to_nat MAX_MESSAGE_NODES + 5)%nat
  /\ evict st = (Wait 3, suspended)
  /\ msg_nodes suspended !! 1 = None
  /\ msg_nodes suspended !! 3 = Some (set_lock true new_node)
  /\ msg_nodes suspended !! 4 = Some new_node
  /\ exists st',
       evict released = (Ok tt, st')
       /\ msg_nodes st' !! 3 = None
       /\ holds_ids (msg_nodes st') (Demo.ids_from 6 100).
Proof.
  intros ids st suspended released.
  assert (Hids : holds_ids (msg_nodes st) ids) by apply cache_of_holds.
  split; [exact Hids|]. split; [reflexivity|].
  destruct (C5_sweep_deletes_five_lowest ids st Hids eq_refl) as [_ Hheld].
  destruct (Hheld [1; 2] 3 [4; 5] (set_lock true new_node) eq_refl)
    as (Hwait & Hthere & st' & Hsweep & Hgone & Hleft & _).
  - intros k node Hk. simpl in Hk.
    destruct Hk as [<-|[<-|[<-|[<-|[]]]]]; vm_compute; intros H; by injection H as <-.
  - by vm_compute.
  - reflexivity.
  - split; [exact Hwait|]. split; [by vm_compute|]. split; [exact Hthere|].
    split; [by vm_compute|]. exists st'.
    split; [exact Hsweep|]. split; [exact Hgone | exact Hleft].
Defined.

(** ** The context build *)

Section Visit.

Context {P : Type}.
Variable cfg : Config.
Variable w : World.
Variable hooks : PluginHooks P.

Lemma fill_reference_node_fills ref_msg :
  fills (fill_reference_node cfg w hooks ref_msg) (msg_id ref_msg).
Proof.
  intros st node Hnode. destruct (data node) as [d|] eqn:Hdata.
  - exists tt, st, node. unfold fill_reference_node, bind, read_node.
    rewrite Hnode. simpl. rewrite Hdata. split; [done|].
    rewrite insert_id by done. repeat split; eauto.
  - destruct (fill_reference_node_spec cfg w hooks ref_msg node st Hnode Hdata)
      as (g & st1 & st' & _ & Hfill & Hnodes & _).
    eexists tt, st', _. split; [exact Hfill|]. split; [exact Hnodes|].
    split; [|split; [|done]].
    + unfold filled. by destruct (snd _), node.
    + unfold filled. eexists. reflexivity.
Qed.

Lemma fill_history_node_fills prev_msg :
  fills (fill_history_node cfg w hooks prev_msg) (msg_id prev_msg).
Proof.
  intros st node Hnode. destruct (data node) as [d|] eqn:Hdata.
  - exists tt, st, node. unfold fill_history_node, bind, read_node.
    rewrite Hnode. simpl. rewrite Hdata. split; [done|].
    rewrite insert_id by done. repeat split; eauto.
  - destruct (fill_history_node_spec cfg w hooks prev_msg node st Hnode Hdata)
      as (g & st1 & st' & _ & Hfill & Hnodes & _).
    eexists tt, st', _. split; [exact Hfill|]. split; [exact Hnodes|].
    split; [|split; [|done]].
    + unfold filled. by destruct (snd _), node.
    + unfold filled. eexists. reflexivity.
Qed.

Lemma fill_current_node_fills new_msg effective_content uid :
  fills (fill_current_node cfg w hooks new_msg effective_content uid) (msg_id new_msg).
Proof.
  intros st node Hnode. destruct (data node) as [d|] eqn:Hdata.
  - exists no_warnings, st, node. unfold fill_current_node, bind, read_node.
    rewrite Hnode. simpl. rewrite Hdata. split; [done|].
    rewrite insert_id by done. repeat split; eauto.
  - destruct (fill_current_node_spec cfg w hooks new_msg effective_content uid node st
                Hnode Hdata)
      as (g & st1 & st' & _ & Hfill & Hnodes & _).
    eexists _, st', _. split; [exact Hfill|]. split; [exact Hnodes|].
    split; [|split; [|done]].
    + unfold filled. by destruct (snd _), node.
    + unfold filled. eexists. reflexivity.
Qed.

(** [setdefault], then the filling under the lock of the node, when that
    lock is not held: the node ends with a turn and its lock free. *)
Lemma locked_fill {A} (fill : M P A) id (st : State P) :
  fills fill id -> free (msg_nodes st) id ->
  exists a st' node',
    (do setdefault id ;; with_lock id fill) st = (Ok a, st')
    /\ msg_nodes st' = <[id := node']> (msg_nodes st)
    /\ lock node' = false
    /\ (exists d, data node' = Some d)
    /\ (forall d, turn_in (msg_nodes st) id = Some d -> data node' = Some d).
Proof.
  intros Hfills Hfree. unfold free in Hfree.
  set (n0 := default new_node (msg_nodes st !! id)) in *.
  set (st_a := with_msg_nodes (insert id n0) st).
  assert (Hset : setdefault id st = (Ok n0, st_a)).
  { unfold setdefault, st_a, n0. destruct (msg_nodes st !! id) as [n|] eqn:Hn; simpl.
    - f_equal. destruct st. unfold with_msg_nodes. simpl in *. f_equal.
      symmetry. by apply insert_id.
    - reflexivity. }
  unfold bind. rewrite Hset. unfold with_lock.
  assert (Ha : msg_nodes st_a !! id = Some n0) by apply lookup_insert_eq.
  rewrite Ha. simpl default. rewrite Hfree.
  destruct (Hfills (with_msg_nodes (alter (set_lock true) id) st_a) (set_lock true n0))
    as (a & st1 & node1 & -> & Hnodes1 & Hlock1 & Hdata1 & Hsame1).
  { simpl. by rewrite lookup_alter_eq, lookup_insert_eq. }
  exists a. eexists. exists (set_lock false node1). split; [reflexivity|].
  split; [|split; [done|split]].
  - simpl. rewrite Hnodes1. simpl.
    rewrite alter_insert_same, alter_insert_same, insert_insert_eq. reflexivity.
  - destruct Hdata1 as [d Hd]. exists d. by destruct node1.
  - intros d Hd. unfold turn_in in Hd.
    assert (Hn0 : data n0 = Some d).
    { unfold n0. by destruct (msg_nodes st !! id). }
    rewrite (Hsame1 d); [by destruct n0 | by destruct n0].
Qed.

Lemma append_turn_spec id history d node (st : State P) :
  msg_nodes st !! id = Some node -> data node = Some d ->
  append_turn id history st
  = (Ok (if content_truthy (content d) then (history ++ [d])%list else history), st).
Proof.
  intros Hnode Hdata. unfold append_turn, bind, read_node. rewrite Hnode. simpl.
  by rewrite Hdata.
Qed.

Lemma keeps_refl m : keeps m m.
Proof. by intros k d. Qed.

Lemma keeps_trans m1 m2 m3 : keeps m1 m2 -> keeps m2 m3 -> keeps m1 m3.
Proof. intros H1 H2 k d Hk. by apply H2, H1. Qed.

Lemma nonempty_turns_keeps m m' msgs :
  keeps m m' ->
  (forall c, In c msgs -> is_Some (turn_in m (msg_id c))) ->
  nonempty_turns m' msgs = nonempty_turns m msgs.
Proof.
  intros Hkeeps Hall. induction msgs as [|c msgs IH]; [done|].
  unfold nonempty_turns in *. simpl. rewrite IH by (intros; apply Hall; by right).
  destruct (Hall c (or_introl eq_refl)) as [d Hd]. by rewrite Hd, (Hkeeps _ _ Hd).
Qed.

(** One message visited: its node filled under its lock, its turn added
    to the history when it is not empty. *)
Lemma visit {A} (fill : M P A) id history (st : State P) :
  fills fill id -> free (msg_nodes st) id ->
  exists a st' d,
    (do setdefault id ;; with_lock id fill) st = (Ok a, st')
    /\ turn_in (msg_nodes st') id = Some d
    /\ append_turn id history st'
       = (Ok (if content_truthy (content d) then (history ++ [d])%list else history), st')
    /\ keeps (msg_nodes st) (msg_nodes st')
    /\ free (msg_nodes st') id
    /\ (forall k, k <> id -> msg_nodes st' !! k = msg_nodes st !! k).
Proof.
  intros Hfills Hfree.
  destruct (locked_fill fill id st Hfills Hfree)
    as (a & st' & node' & Hrun & Hnodes & Hlock & [d Hd] & Hsame).
  exists a, st', d. split; [exact Hrun|].
  assert (Hnode' : msg_nodes st' !! id = Some node') by (rewrite Hnodes; apply lookup_insert_eq).
  split; [by unfold turn_in; rewrite Hnode'|].
  split; [by apply append_turn_spec with node'|].
  split; [|split].
  - intros k d' Hk. destruct (decide (k = id)) as [->|Hne].
    + unfold turn_in. rewrite Hnode'. by apply Hsame.
    + unfold turn_in in *. rewrite Hnodes, lookup_insert_ne by done. exact Hk.
  - unfold free. by rewrite Hnode'.
  - intros k Hne. rewrite Hnodes. by apply lookup_insert_ne.
Qed.

End Visit.

Section Walk.

Context {P : Type}.
Variable cfg : Config.
Variable w : World.
Variable hooks : PluginHooks P.

(** Running two steps and then a third is running the first and then
    the two others. *)
Lemma bind_run {A B C} (c : M P A) (k : A -> M P B) (g : B -> M P C) (st st' : State P) b :
  bind c k st = (Ok b, st') ->
  bind c (fun x => bind (k x) g) st = g b st'.
Proof.
  unfold bind. destruct (c st) as [[a|e|i|] st1]; try discriminate.
  by intros ->.
Qed.

Lemma resolve_found ref_id m (st : State P) :
  resolved w ref_id = Some m ->
  exists st', resolve w ref_id st = (Ok m, st') /\ outside_only st st'.
Proof.
  unfold resolved, resolve. destruct (cached_message w ref_id) as [c|].
  - intros [= ->]. exists st. split; [done | apply outside_only_refl].
  - destruct (fetch_message w ref_id); try discriminate. intros [= ->].
    eexists. split; [reflexivity | by repeat split].
Qed.

Lemma resolve_missing ref_id (st : State P) :
  resolved w ref_id = None ->
  exists st' e,
    resolve w ref_id st = (Raise e, st') /\ (e = NotFound \/ e = HTTPException)
    /\ outside_only st st'.
Proof.
  unfold resolved, resolve, bind.
  destruct (cached_message w ref_id) as [c|]; [discriminate|].
  destruct (fetch_message w ref_id); try discriminate; intros _;
    (do 2 eexists; split; [reflexivity | split; [eauto | by repeat split]]).
Qed.

Lemma free_outside (st st' : State P) k :
  outside_only st st' -> free (msg_nodes st) k -> free (msg_nodes st') k.
Proof. intros (-> & _). done. Qed.

(** The reply walk follows every link of the chain, whatever its
    length: each message of the chain gets its turn, and the turns that
    are not empty are added to the history in the order of the walk. *)
Lemma reply_walk_spec m chain :
  reply_chain w m chain ->
  forall fuel history (st : State P),
    (List.length chain < fuel)%nat ->
    (forall c, In c chain -> free (msg_nodes st) (msg_id c)) ->
    exists st',
      reply_walk cfg w hooks fuel m history st
      = (Ok (history ++ nonempty_turns (msg_nodes st') chain)%list, st')
      /\ keeps (msg_nodes st) (msg_nodes st')
      /\ (forall c, In c chain -> is_Some (turn_in (msg_nodes st') (msg_id c)))
      /\ (forall k, free (msg_nodes st) k -> free (msg_nodes st') k)
      /\ (forall k, (forall c, In c chain -> msg_id c <> k) ->
                    msg_nodes st' !! k = msg_nodes st !! k).
Proof.
  induction 1 as [m Href | m ref_id Href Hres | m ref_id ref_msg rest Href Hres Hchain IH];
    intros fuel history st Hfuel Hfree.
  - exists st. destruct fuel; simpl; rewrite Href; rewrite app_nil_r;
      (split; [done|]; split; [apply keeps_refl|]; by repeat split).
  - destruct fuel as [|fuel]; [simpl in Hfuel; lia|]. simpl. rewrite Href.
    destruct (resolve_missing ref_id st Hres) as (st' & e & Hrun & He & (Hn & _ & _ & _ & _ & Hs)).
    exists st'. unfold bind at 1. unfold try_except_discord. unfold bind at 1.
    rewrite Hrun. rewrite app_nil_r.
    split; [by destruct He as [-> | ->]|].
    rewrite Hn. split; [apply keeps_refl|]. by repeat split.
  - destruct fuel as [|fuel]; [simpl in Hfuel; lia|]. simpl. rewrite Href.
    destruct (resolve_found ref_id ref_msg st Hres) as (st_r & Hrun & Hout).
    destruct (visit (fill_reference_node cfg w hooks ref_msg) (msg_id ref_msg) history st_r
                (fill_reference_node_fills cfg w hooks ref_msg))
      as (a & st1 & d & Hvisit & Hturn & Happend & Hkeeps & Hfree1 & Hother).
    { apply (free_outside st st_r _ Hout). apply Hfree. by left. }
    destruct (IH fuel
                (if content_truthy (content d) then (history ++ [d])%list else history) st1)
      as (st' & Hwalk & Hkeeps' & Hall & Hfree' & Hother').
    { simpl in Hfuel. lia. }
    { intros c Hc. destruct (decide (msg_id c = msg_id ref_msg)) as [->|Hne]; [done|].
      unfold free. rewrite Hother by done.
      apply (free_outside st st_r _ Hout). apply Hfree. by right. }
    exists st'. unfold bind at 1. unfold try_except_discord. unfold bind at 1.
    rewrite Hrun. rewrite (bind_run _ _ _ _ _ _ Hvisit). unfold bind at 1.
    rewrite Happend. unfold ret at 1. cbv beta iota. rewrite Hwalk.
    destruct Hout as (Hn & _ & _ & _ & _ & Hs).
    split; [|split; [|split; [|split]]].
    + f_equal. unfold nonempty_turns at 2. simpl. fold (nonempty_turns (msg_nodes st') rest).
      rewrite (Hkeeps' _ _ Hturn).
      destruct (content_truthy (content d)); [by rewrite <- app_assoc | done].
    + rewrite <- Hn. by eapply keeps_trans.
    + intros c [<-|Hc]; [|by apply Hall]. rewrite (Hkeeps' _ _ Hturn). eauto.
    + intros k Hk. apply Hfree'. destruct (decide (k = msg_id ref_msg)) as [->|Hne]; [done|].
      unfold free. rewrite Hother by done. by rewrite Hn.
    + intros k Hk. rewrite Hother'; [|intros c Hc; apply Hk; by right].
      rewrite Hother; [by rewrite Hn|]. intros ->. by apply (Hk ref_msg); [left|].
Qed.

End Walk.

Section Context.

Context {P : Type}.
Variable cfg : Config.
Variable w : World.
Variable hooks : PluginHooks P.

Lemma nonempty_turns_app m l1 l2 :
  nonempty_turns m (l1 ++ l2) = (nonempty_turns m l1 ++ nonempty_turns m l2)%list.
Proof. apply flat_map_app. Qed.

Lemma nonempty_turns_one m c :
  nonempty_turns m [c]
  = match turn_in m (msg_id c) with
    | Some d => if content_truthy (content d) then [d] else []
    | None => []
    end.
Proof. unfold nonempty_turns. simpl. apply app_nil_r. Qed.

Lemma nonempty_turns_rev m l : nonempty_turns m (rev l) = rev (nonempty_turns m l).
Proof.
  induction l as [|c l IH]; [done|].
  change (rev (c :: l)) with (rev l ++ [c])%list.
  rewrite nonempty_turns_app, IH, nonempty_turns_one.
  change (c :: l) with ([c] ++ l)%list.
  rewrite nonempty_turns_app, rev_app_distr, nonempty_turns_one.
  destruct (turn_in m (msg_id c)) as [d|]; [|done].
  by destruct (content_truthy (content d)).
Qed.

Lemma nonempty_turns_truthy m l : Forall (fun d => content_truthy (content d) = true)
                                    (nonempty_turns m l).
Proof.
  induction l as [|c l IH]; [constructor|].
  change (c :: l) with ([c] ++ l)%list.
  rewrite nonempty_turns_app, nonempty_turns_one. apply Forall_app. split; [|done].
  destruct (turn_in m (msg_id c)) as [d|]; [|constructor].
  destruct (content_truthy (content d)) eqn:E; by repeat constructor.
Qed.

(** The scan of the channel visits the messages of the list that are
    not passed over, up to the first that is too old. *)
Lemma history_scan_spec msgs new_msg :
  forall history (st : State P),
    let visits := take_while (recent new_msg)
                    (List.filter (fun m => negb (passed_over w m)) msgs) in
    (forall c, In c visits -> free (msg_nodes st) (msg_id c)) ->
    exists st',
      history_scan cfg w hooks msgs new_msg history st
      = (Ok (history ++ nonempty_turns (msg_nodes st') visits)%list, st')
      /\ keeps (msg_nodes st) (msg_nodes st')
      /\ (forall c, In c visits -> is_Some (turn_in (msg_nodes st') (msg_id c)))
      /\ (forall k, free (msg_nodes st) k -> free (msg_nodes st') k).
Proof.
  induction msgs as [|prev_msg rest IH]; intros history st visits Hfree.
  - exists st. simpl. rewrite app_nil_r.
    split; [done|]. split; [apply keeps_refl|]. by split.
  - simpl history_scan. unfold visits in *. simpl List.filter in *.
    fold (passed_over w prev_msg) in *.
    destruct (passed_over w prev_msg); simpl negb in *; cbv iota in *;
      [exact (IH history st Hfree)|].
    simpl take_while in *.
    destruct (recent new_msg prev_msg) eqn:Hrecent; unfold recent in Hrecent;
      destruct (created_at new_msg - created_at prev_msg >? recency_window);
      try discriminate; clear Hrecent; cbv zeta iota.
    + destruct (visit (fill_history_node cfg w hooks prev_msg) (msg_id prev_msg) history st
                  (fill_history_node_fills cfg w hooks prev_msg))
        as (a & st1 & d & Hvisit & Hturn & Happend & Hkeeps & Hfree1 & Hother).
      { apply Hfree. by left. }
      destruct (IH (if content_truthy (content d) then (history ++ [d])%list else history) st1)
        as (st' & Hscan & Hkeeps' & Hall & Hfree').
      { intros c Hc. destruct (decide (msg_id c = msg_id prev_msg)) as [->|Hne]; [done|].
        unfold free. rewrite Hother by done. apply Hfree. by right. }
      exists st'. rewrite (bind_run _ _ _ _ _ _ Hvisit). unfold bind at 1.
      rewrite Happend. rewrite Hscan.
      split; [|split; [|split]].
      * f_equal. f_equal.
        change (prev_msg :: ?l) with ([prev_msg] ++ l)%list.
        rewrite nonempty_turns_app, nonempty_turns_one, (Hkeeps' _ _ Hturn).
        destruct (content_truthy (content d)); [by rewrite <- app_assoc | done].
      * by eapply keeps_trans.
      * intros c [<-|Hc]; [|by apply Hall]. rewrite (Hkeeps' _ _ Hturn). eauto.
      * intros k Hk. apply Hfree'. destruct (decide (k = msg_id prev_msg)) as [->|Hne]; [done|].
        unfold free. by rewrite Hother.
    + exists st. rewrite app_nil_r.
      split; [done|]. split; [apply keeps_refl|]. split; [by intros c [] | done].
Qed.

(** The end of the context build (lines 406-474), from a history
    gathered nearest first: the current message is visited and the list
    of messages is cut. *)
Lemma build_context_end new_msg effective_content uid earlier (st : State P) :
  free (msg_nodes st) (msg_id new_msg) ->
  (forall c, In c earlier -> is_Some (turn_in (msg_nodes st) (msg_id c))) ->
  exists warnings st',
    (do setdefault (msg_id new_msg) ;;
     user_warnings <- with_lock (msg_id new_msg)
                        (fill_current_node cfg w hooks new_msg effective_content uid) ;;
     conversation_history' <- append_turn (msg_id new_msg)
                                (rev (nonempty_turns (msg_nodes st) earlier)) ;;
     ret (Py.take (MAX_MESSAGES cfg + 1) (get_system_prompt cfg w :: conversation_history'),
          user_warnings)) st
    = (Ok (context_of cfg w (msg_nodes st') earlier new_msg, warnings), st')
    /\ keeps (msg_nodes st) (msg_nodes st')
    /\ is_Some (turn_in (msg_nodes st') (msg_id new_msg)).
Proof.
  intros Hfree Hall.
  destruct (visit (fill_current_node cfg w hooks new_msg effective_content uid)
              (msg_id new_msg) (rev (nonempty_turns (msg_nodes st) earlier)) st
              (fill_current_node_fills cfg w hooks new_msg effective_content uid) Hfree)
    as (warnings & st' & d & Hvisit & Hturn & Happend & Hkeeps & _).
  exists warnings, st'. rewrite (bind_run _ _ _ _ _ _ Hvisit). unfold bind at 1.
  rewrite Happend. unfold ret. split; [|split; [done | eauto]].
  f_equal. f_equal. unfold context_of. f_equal. f_equal.
  rewrite nonempty_turns_app, nonempty_turns_rev, nonempty_turns_one, Hturn.
  rewrite (nonempty_turns_keeps _ _ _ Hkeeps Hall).
  by destruct (content_truthy (content d)); rewrite ?app_nil_r.
Qed.

(** When the turns are at least [MAX_MESSAGES], the list is the system
    prompt and the first [MAX_MESSAGES] of them. *)
Lemma context_of_full m earlier new_msg :
  0 <= MAX_MESSAGES cfg ->
  MAX_MESSAGES cfg
  <= Z.of_nat (List.length (nonempty_turns m (rev earlier ++ [new_msg]))) ->
  context_of cfg w m earlier new_msg
  = get_system_prompt cfg w
    :: firstn (Z.to_nat (MAX_MESSAGES cfg)) (nonempty_turns m (rev earlier ++ [new_msg]))
  /\ List.length (firstn (Z.to_nat (MAX_MESSAGES cfg))
                    (nonempty_turns m (rev earlier ++ [new_msg])))
     = Z.to_nat (MAX_MESSAGES cfg)
  /\ Forall (fun d => content_truthy (content d) = true)
       (firstn (Z.to_nat (MAX_MESSAGES cfg))
          (nonempty_turns m (rev earlier ++ [new_msg]))).
Proof.
  intros H0 Hmany. split; [|split].
  - unfold context_of, Py.take. destruct (Z.leb_spec 0 (MAX_MESSAGES cfg + 1)); [|lia].
    replace (Z.to_nat (MAX_MESSAGES cfg + 1)) with (S (Z.to_nat (MAX_MESSAGES cfg))) by lia.
    reflexivity.
  - apply length_take_le. lia.
  - apply Forall_take, nonempty_turns_truthy.
Qed.

End Context.

Lemma bind_ok {P A B} (c : M P A) (k : A -> M P B) (st st' : State P) a :
  c st = (Ok a, st') -> bind c k st = k a st'.
Proof. unfold bind. by intros ->. Qed.

(** The context a reply gets: for a reply whose chain of predecessors is
    [chain] (nearest first), with no lock held on the nodes concerned
    and enough fuel to reach the end of the chain, the build ends
    normally, every message of the chain has its turn in the cache, and
    the list of messages is the one the cache gives. *)
Lemma reply_context {P : Type} (cfg : Config) (w : World)
  (hooks : PluginHooks P) (fuel : nat) (new_msg : Message)
  (effective_content uid : string) (ref_id : Z) (chain : list Message) (st : State P) :
  reference new_msg = Some ref_id ->
  reply_chain w new_msg chain ->
  (List.length chain < fuel)%nat ->
  (forall c, In c chain -> free (msg_nodes st) (msg_id c)) ->
  free (msg_nodes st) (msg_id new_msg) ->
  exists warnings st',
    build_context cfg w hooks fuel new_msg false effective_content uid st
    = (Ok (context_of cfg w (msg_nodes st') chain new_msg, warnings), st')
    /\ (forall c, In c chain -> is_Some (turn_in (msg_nodes st') (msg_id c))).
Proof.
  intros Href Hchain Hfuel Hfree Hfree_new.
  destruct (reply_walk_spec cfg w hooks new_msg chain Hchain fuel [] st Hfuel Hfree)
    as (st1 & Hwalk & Hkeeps1 & Hall1 & Hfree1 & _).
  destruct (build_context_end cfg w hooks new_msg effective_content uid chain st1
              (Hfree1 _ Hfree_new) Hall1)
    as (warnings & st' & Hend & Hkeeps & _).
  exists warnings, st'. split.
  - unfold build_context. rewrite Href. simpl negb. cbv iota. simpl andb. cbv iota.
    assert (Hhead : (h <- reply_walk cfg w hooks fuel new_msg [] ;; ret (rev h)) st
                    = (Ok (rev (nonempty_turns (msg_nodes st1) chain)), st1))
      by (rewrite (bind_ok _ _ _ _ _ Hwalk); reflexivity).
    rewrite (bind_ok _ _ _ _ _ Hhead). exact Hend.
  - intros c Hc. destruct (Hall1 c Hc) as [d Hd]. rewrite (Hkeeps _ _ Hd). eauto.
Qed.

(** C1, as amended. The walk follows the reply links to the end of the
    chain, whatever its length: for a reply whose chain of predecessors
    is [chain] (nearest first; it ends on a message that is no reply or
    on a link that cannot be resolved), with no lock held on the nodes
    concerned and enough fuel to reach the end of the chain, the context
    build ends normally and every message of the chain has been visited
    and has its turn in the cache. The list of messages is the system
    prompt followed by turns taken, in their order, from the non-empty
    turns of the chain, oldest first, and of the current message: all of
    them when they number no more than [MAX_MESSAGES >= 0], and exactly
    [MAX_MESSAGES] of them otherwise. *)
Theorem C1_walk_follows_every_link {P : Type} (cfg : Config) (w : World)
  (hooks : PluginHooks P) (fuel : nat) (new_msg : Message)
  (effective_content uid : string) (ref_id : Z) (chain : list Message) (st : State P) :
  reference new_msg = Some ref_id ->
  reply_chain w new_msg chain ->
  (List.length chain < fuel)%nat ->
  (forall c, In c chain -> free (msg_nodes st) (msg_id c)) ->
  free (msg_nodes st) (msg_id new_msg) ->
  exists messages warnings st',
    build_context cfg w hooks fuel new_msg false effective_content uid st
    = (Ok (messages, warnings), st')
    /\ (forall c, In c chain -> is_Some (turn_in (msg_nodes st') (msg_id c)))
    /\ (0 <= MAX_MESSAGES cfg ->
        exists turns,
          messages = get_system_prompt cfg w :: turns
          /\ sublist turns (nonempty_turns (msg_nodes st') (rev chain ++ [new_msg]))
          /\ Forall (fun d => content_truthy (content d) = true) turns
          /\ Z.of_nat (List.length turns)
             = Z.min (MAX_MESSAGES cfg)
                 (Z.of_nat (List.length
                              (nonempty_turns (msg_nodes st') (rev chain ++ [new_msg]))))
          /\ (Z.of_nat (List.length
                          (nonempty_turns (msg_nodes st') (rev chain ++ [new_msg])))
              <= MAX_MESSAGES cfg ->
              turns = nonempty_turns (msg_nodes st') (rev chain ++ [new_msg]))).
Proof.
  intros Href Hchain Hfuel Hfree Hfree_new.
  destruct (reply_context cfg w hooks fuel new_msg effective_content uid ref_id chain st
              Href Hchain Hfuel Hfree Hfree_new) as (warnings & st' & Hrun & Hall).
  exists (context_of cfg w (msg_nodes st') chain new_msg), warnings, st'.
  split; [exact Hrun|]. split; [exact Hall|].
  intros H0.
  set (all := nonempty_turns (msg_nodes st') (rev chain ++ [new_msg])).
  exists (firstn (Z.to_nat (MAX_MESSAGES cfg)) all).
  split; [|split; [|split; [|split]]].
  - unfold context_of, Py.take. destruct (Z.leb_spec 0 (MAX_MESSAGES cfg + 1)); [|lia].
    replace (Z.to_nat (MAX_MESSAGES cfg + 1)) with (S (Z.to_nat (MAX_MESSAGES cfg))) by lia.
    reflexivity.
  - apply sublist_take.
  - apply Forall_take, nonempty_turns_truthy.
  - rewrite List.length_firstn. lia.
  - intros Hfew. apply firstn_all2. lia.
Qed.

(** C4, as amended. For a message that is no reply, the context build
    asks the channel for the [MAX_MESSAGES] messages before it, goes
    through them from the most recent, passes over the bot's own
    messages that have neither text nor embed, and stops at the first of
    the others that is more than 300 seconds older than the start
    message, or when the [MAX_MESSAGES] messages are exhausted. The
    author of a message plays no part: with no lock held on the nodes
    concerned, the build ends normally, every message gone through has
    its turn in the cache, and the list of messages is made of the
    non-empty turns of all of them, oldest first, and of the turn of the
    current message. *)
Theorem C4_scan_stops_on_age_or_count {P : Type} (cfg : Config) (w : World)
  (hooks : PluginHooks P) (fuel : nat) (new_msg : Message)
  (effective_content uid : string) (st : State P) :
  reference new_msg = None ->
  (forall c, In c (scanned cfg w new_msg) -> free (msg_nodes st) (msg_id c)) ->
  free (msg_nodes st) (msg_id new_msg) ->
  exists warnings st',
    build_context cfg w hooks fuel new_msg false effective_content uid st
    = (Ok (context_of cfg w (msg_nodes st') (scanned cfg w new_msg) new_msg, warnings), st')
    /\ (forall c, In c (scanned cfg w new_msg) ->
                  is_Some (turn_in (msg_nodes st') (msg_id c)))
    /\ scanned cfg w new_msg
       = take_while (recent new_msg)
           (List.filter (fun m => negb (passed_over w m))
              (firstn (Z.to_nat (MAX_MESSAGES cfg)) (channel_history w new_msg))).
Proof.
  intros Href Hfree Hfree_new.
  set (st0 := with_trace (EvHistory (msg_id new_msg) (MAX_MESSAGES cfg) :: trace st) st).
  destruct (history_scan_spec cfg w hooks
              (firstn (Z.to_nat (MAX_MESSAGES cfg)) (channel_history w new_msg))
              new_msg [] st0 Hfree)
    as (st1 & Hscan & Hkeeps1 & Hall1 & Hfree1).
  destruct (build_context_end cfg w hooks new_msg effective_content uid
              (scanned cfg w new_msg) st1 (Hfree1 _ Hfree_new) Hall1)
    as (warnings & st' & Hend & Hkeeps & _).
  exists warnings, st'. split; [|split; [|reflexivity]].
  - unfold build_context. rewrite Href. simpl negb. cbv iota. simpl andb. cbv iota.
    assert (Hhead : (msgs <- history cfg w new_msg ;;
                     h <- history_scan cfg w hooks msgs new_msg [] ;; ret (rev h)) st
                    = (Ok (rev (nonempty_turns (msg_nodes st1) (scanned cfg w new_msg))), st1)).
    { assert (Hhistory : history cfg w new_msg st
                         = (Ok (firstn (Z.to_nat (MAX_MESSAGES cfg))
                                  (channel_history w new_msg)), st0)) by reflexivity.
      rewrite (bind_ok _ _ _ _ _ Hhistory), (bind_ok _ _ _ _ _ Hscan). reflexivity. }
    rewrite (bind_ok _ _ _ _ _ Hhead). exact Hend.
  - intros c Hc. destruct (Hall1 c Hc) as [d Hd]. rewrite (Hkeeps _ _ Hd). eauto.
Qed.

Lemma free_empty (k : Z) : free ∅ k.
Proof. unfold free. by rewrite lookup_empty. Qed.

(** C1, witness: a reply to the last of three replies under
    [MAX_MESSAGES = 2]. The three links are followed, the three messages
    have their turn in the cache, and two turns follow the system
    prompt. *)
Lemma C1_walk_follows_every_link_witness :
  let cfg := Demo.cfg true "local/llama3" 100 1 2 in
  let w := Demo.world Demo.replies Demo.hi_there in
  let m := Demo.message 14 Demo.alice "mom hello" (Some 13) 40 in
  reply_chain w m Demo.replies
  /\ exists messages warnings st',
       build_context cfg w Demo.no_hooks 4 m false "mom hello" "2" (Demo.start ∅)
       = (Ok (messages, warnings), st')
       /\ List.hd_error messages = Some (get_system_prompt cfg w)
       /\ List.length messages = 3%nat
       /\ fetched (trace st') = [13; 12; 11]
       /\ (forall c, In c Demo.replies -> is_Some (turn_in (msg_nodes st') (msg_id c))).
Proof.
  intros cfg w m.
  assert (Hchain : reply_chain w m Demo.replies).
  { eapply chain_link; [reflexivity | reflexivity |].
    eapply chain_link; [reflexivity | reflexivity |].
    eapply chain_link; [reflexivity | reflexivity |].
    by apply chain_ends. }
  split; [exact Hchain|].
  destruct (C1_walk_follows_every_link cfg w Demo.no_hooks 4 m "mom hello" "2" 13
              Demo.replies (Demo.start ∅) eq_refl Hchain ltac:(simpl; lia)
              ltac:(intros; apply free_empty) (free_empty _))
    as (messages & warnings & st' & Hrun & Hall & Hfull).
  exists messages, warnings, st'.
  assert (Hst : st' = snd (build_context cfg w Demo.no_hooks 4 m false "mom hello" "2"
                             (Demo.start ∅))) by (by rewrite Hrun).
  destruct (Hfull ltac:(by vm_compute)) as (turns & -> & _ & _ & Hlen & _).
  split; [exact Hrun|]. split; [reflexivity|]. split; [|split; [|exact Hall]].
  - rewrite Hst in Hlen.
    match type of Hlen with
    | _ = ?n => assert (Hn : n = 2) by (by vm_compute); rewrite Hn in Hlen
    end.
    simpl. lia.
  - rewrite Hst. by vm_compute.
Defined.

(** C1, as stated, fails: under [MAX_MESSAGES = 3], a reply to a text
    that answers three pictures sent without a word, with a model that
    takes no image. The chain has four messages; the walk follows the
    four links, and two non-empty turns are returned, not three. *)
Lemma C1_counterexample :
  let cfg := Demo.cfg true "local/llama3" 100 1 3 in
  let w := Demo.world Demo.thread Demo.hi_there in
  let m := Demo.message 14 Demo.alice "mom hello" (Some 13) 40 in
  let run := build_context cfg w Demo.no_hooks 10 m false "mom hello" "2" (Demo.start ∅) in
  reply_chain w m Demo.thread
  /\ MAX_MESSAGES cfg < Z.of_nat (List.length Demo.thread)
  /\ fetched (trace (snd run)) = [13; 12; 11; 10]
  /\ (exists warnings,
         fst run = Ok ([get_system_prompt cfg w;
                        {| content := Text "three"; role := user; name := None |};
                        {| content := Text "mom hello"; role := user; name := None |}],
                       warnings))
  /\ ~ (Z.of_nat (List.length (fetched (trace (snd run)))) <= MAX_MESSAGES cfg)
  /\ ~ (exists messages warnings,
           fst run = Ok (messages, warnings)
           /\ Z.of_nat (List.length (List.tl messages)) = MAX_MESSAGES cfg).
Proof.
  intros cfg w m run.
  split.
  { eapply chain_link; [reflexivity | reflexivity |].
    eapply chain_link; [reflexivity | reflexivity |].
    eapply chain_link; [reflexivity | reflexivity |].
    eapply chain_link; [reflexivity | reflexivity |].
    by apply chain_ends. }
  split; [by vm_compute|]. split; [by vm_compute|].
  split; [eexists; by vm_compute|]. split.
  - vm_compute. intros H. by apply H.
  - intros (messages & warnings & Hrun & Hlen).
    vm_compute in Hrun. injection Hrun as <- _. vm_compute in Hlen. discriminate.
Qed.

(** C4, witness: bob spoke ten seconds before the message of alice, and
    alice ten seconds before bob; both turns are in the context. *)
Lemma C4_scan_stops_on_age_or_count_witness :
  let cfg := Demo.cfg true "local/llama3" 100 1 10 in
  let w := Demo.world Demo.chatter Demo.hi_there in
  let m := Demo.message 20 Demo.alice "mom hello" None 100 in
  reference m = None
  /\ scanned cfg w m = Demo.chatter
  /\ exists warnings st',
       build_context cfg w Demo.no_hooks 0 m false "mom hello" "2" (Demo.start ∅)
       = (Ok ([get_system_prompt cfg w;
               {| content := Text "earlier"; role := user; name := None |};
               {| content := Text "hi all"; role := user; name := None |};
               {| content := Text "mom hello"; role := user; name := None |}], warnings), st').
Proof.
  intros cfg w m. split; [reflexivity|]. split; [by vm_compute|].
  destruct (C4_scan_stops_on_age_or_count cfg w Demo.no_hooks 0 m "mom hello" "2"
              (Demo.start ∅) eq_refl ltac:(intros; apply free_empty) (free_empty _))
    as (warnings & st' & Hrun & _).
  exists warnings, st'. rewrite Hrun. f_equal. f_equal.
  assert (Hst : st' = snd (build_context cfg w Demo.no_hooks 0 m false "mom hello" "2"
                             (Demo.start ∅))) by (by rewrite Hrun).
  rewrite Hst. by vm_compute.
Defined.

(** C4, as stated, fails: in the same channel the message before the
    start message is from another author, so that the scan as the
    specification words it goes through no message at all; the handler
    goes through both messages and puts both turns in the context. *)
Lemma C4_counterexample :
  let cfg := Demo.cfg true "local/llama3" 100 1 10 in
  let w := Demo.world Demo.chatter Demo.hi_there in
  let m := Demo.message 20 Demo.alice "mom hello" None 100 in
  let run := build_context cfg w Demo.no_hooks 0 m false "mom hello" "2" (Demo.start ∅) in
  reference m = None
  /\ channel_history w m = Demo.chatter
  /\ scanned_as_stated cfg w m = []
  /\ (exists warnings,
         fst run = Ok ([get_system_prompt cfg w;
                        {| content := Text "earlier"; role := user; name := None |};
                        {| content := Text "hi all"; role := user; name := None |};
                        {| content := Text "mom hello"; role := user; name := None |}],
                       warnings))
  /\ ~ (exists warnings,
           fst run
           = Ok (context_of cfg w (msg_nodes (snd run)) (scanned_as_stated cfg w m) m,
                 warnings)).
Proof.
  intros cfg w m run.
  split; [reflexivity|]. split; [by vm_compute|]. split; [by vm_compute|].
  split; [eexists; by vm_compute|].
  intros (warnings & Hrun). vm_compute in Hrun. discriminate.
Qed.

(** ** The gate of [on_message] and the commands *)

Section Commands.

Context {P : Type}.
Variable cfg : Config.
Variable w : World.
Variable hooks : PluginHooks P.

(** The handler after the fan-out on [on_message_received]. *)
Lemma on_message_after_hooks fuel m stop (st st1 : State P) :
  user_id (author m) <> user_id (bot_user w) ->
  received_hooks (on_message_received hooks) m
    (with_MESSAGE_COUNT (MESSAGE_COUNT st + 1) st) = (Ok stop, st1) ->
  on_message cfg w hooks fuel m st
  = if stop then (Ok tt, st1)
    else if Py.startswith (msg_content m) "//" then (Ok tt, st1)
    else if Py.startswith (msg_content m) "!" then bang_command cfg w hooks m st1
    else respond cfg w hooks fuel m st1.
Proof.
  intros Hauthor Hrun. unfold on_message. apply Z.eqb_neq in Hauthor. rewrite Hauthor.
  unfold bind, modify. rewrite Hrun.
  destruct stop; [reflexivity|].
  destruct (Py.startswith (msg_content m) "//"); [reflexivity|].
  destruct (Py.startswith (msg_content m) "!"); reflexivity.
Qed.

Lemma received_hooks_outside hs m (st : State P) :
  exists stop st' evs,
    received_hooks hs m st = (Ok stop, st')
    /\ outside_only st st'
    /\ trace st' = (evs ++ trace st)%list
    /\ Forall fan_out_event evs.
Proof.
  revert st. induction hs as [|h rest IH]; intros st.
  - exists false, st, []. repeat split; auto.
  - rewrite received_hooks_step.
    destruct (hook_run h m (plugin_state st)) as [p' [r|e]].
    + destruct (is_False r).
      * exists true, (called "on_message_received" (hook_name h) p' st),
          [EvHook "on_message_received" (hook_name h)].
        split; [reflexivity|]. split; [apply outside_only_called|].
        split; [reflexivity|]. by repeat constructor.
      * destruct (IH (called "on_message_received" (hook_name h) p' st))
          as (stop & st' & evs & Hrun & Ho & Ht & Hf).
        exists stop, st', (evs ++ [EvHook "on_message_received" (hook_name h)])%list.
        split; [exact Hrun|].
        split; [eapply outside_only_trans; [apply outside_only_called | exact Ho]|].
        split; [rewrite Ht; simpl; by rewrite <- app_assoc|].
        apply Forall_app. split; [done | by repeat constructor].
    + destruct (IH (logged ("Error in on_message_received hook: " +:+ exn_text e)
                      (called "on_message_received" (hook_name h) p' st)))
        as (stop & st' & evs & Hrun & Ho & Ht & Hf).
      exists stop, st',
        (evs ++ [EvLogError ("Error in on_message_received hook: " +:+ exn_text e);
                 EvHook "on_message_received" (hook_name h)])%list.
      split; [exact Hrun|].
      split; [eapply outside_only_trans; [|exact Ho];
              eapply outside_only_trans; [apply outside_only_called | apply outside_only_logged]|].
      split; [rewrite Ht; simpl; by rewrite <- app_assoc|].
      apply Forall_app. split; [done | by repeat constructor].
Qed.

End Commands.

(** *** [str.split] on the text of a command *)

Lemma split_aux_blank (s : string) : blank s = true -> Py.split_aux s [] = [].
Proof.
  induction s as [|c s IH]; [reflexivity|]. simpl.
  intros [Hc Hs]%andb_prop. rewrite Hc. by apply IH.
Qed.

Lemma string_of_list_ascii_snoc (l : list ascii) (c : ascii) (t : string) :
  string_of_list_ascii (l ++ [c]) +:+ t = string_of_list_ascii l +:+ String c t.
Proof. induction l as [|a l IH]; simpl; [reflexivity|]. by rewrite !append_cons, IH. Qed.

(** The word being read when a character is met is the beginning of the
    first word returned. *)
Lemma split_aux_word (s : string) :
  forall word, word <> [] ->
    exists more rest,
      Py.split_aux s word = (string_of_list_ascii (List.rev word) +:+ more) :: rest.
Proof.
  induction s as [|c s IH]; intros word Hword.
  - exists "", []. simpl. destruct word; [done|]. by rewrite append_empty_r.
  - simpl. destruct (Py.is_space c).
    + exists "", (Py.split_aux s []). destruct word; [done|]. by rewrite append_empty_r.
    + destruct (IH (c :: word)) as (more & rest & ->); [done|].
      exists (String c more), rest. simpl List.rev. by rewrite string_of_list_ascii_snoc.
Qed.

Lemma startswith_bang_not_comment (rest : string) :
  Py.startswith (String "!" rest) "//" = false /\ Py.startswith (String "!" rest) "!" = true.
Proof. split; [reflexivity | by destruct rest]. Qed.

(** A message made of [!] alone, or of [!] and blanks, has no command
    word: [content[1:].split()[0]] raises [IndexError], which nothing in
    the handler catches. When no callable of [on_message_received] stops
    the message, the exception leaves [on_message], after the count of
    messages and the fan-out. *)
Theorem bare_bang_raises_IndexError {P : Type} (cfg : Config) (w : World)
  (hooks : PluginHooks P) (fuel : nat) (m : Message) (rest : string) (st : State P) :
  user_id (author m) <> user_id (bot_user w) ->
  msg_content m = String "!" rest ->
  blank rest = true ->
  exists stop st',
    received_hooks (on_message_received hooks) m
      (with_MESSAGE_COUNT (MESSAGE_COUNT st + 1) st) = (Ok stop, st')
    /\ on_message cfg w hooks fuel m st
       = ((if stop then Ok tt else Raise IndexError), st')
    /\ MESSAGE_COUNT st' = MESSAGE_COUNT st + 1.
Proof.
  intros Hauthor Hcontent Hblank.
  destruct (received_hooks_outside (on_message_received hooks) m
              (with_MESSAGE_COUNT (MESSAGE_COUNT st + 1) st))
    as (stop & st' & evs & Hrun & Ho & _).
  exists stop, st'. split; [exact Hrun|]. split.
  - rewrite (on_message_after_hooks cfg w hooks fuel m stop st st' Hauthor Hrun).
    destruct stop; [reflexivity|].
    rewrite Hcontent. destruct (startswith_bang_not_comment rest) as [-> ->].
    unfold bang_command. rewrite Hcontent.
    change (Py.slice_from 1 (String "!" rest)) with rest.
    unfold Py.split. by rewrite (split_aux_blank rest Hblank).
  - by destruct Ho as (_ & _ & _ & -> & _).
Qed.

Lemma bare_bang_raises_IndexError_witness :
  let m := Demo.message 20 Demo.alice "! " None 100 in
  on_message (Demo.cfg true "openai/gpt-4o" 100 1 10) (Demo.world [] Demo.hi_there)
    Demo.no_hooks 10 m (Demo.start ∅)
  = (Raise IndexError, with_MESSAGE_COUNT 1 (Demo.start ∅)).
Proof.
  intros m.
  destruct (bare_bang_raises_IndexError (Demo.cfg true "openai/gpt-4o" 100 1 10)
              (Demo.world [] Demo.hi_there) Demo.no_hooks 10 m " " (Demo.start ∅)
              ltac:(vm_compute; discriminate) eq_refl eq_refl)
    as (stop & st' & Hrun & Hm & _).
  vm_compute in Hrun. injection Hrun as <- <-. exact Hm.
Defined.

(** A message that starts with [!] and whose first word is neither a
    registered command, nor [plugins], nor [converse] is dropped: the
    handler returns after the fan-out, with nothing sent, nothing added
    to the cache and no call to the model. *)
Theorem unknown_command_is_dropped {P : Type} (cfg : Config) (w : World)
  (hooks : PluginHooks P) (fuel : nat) (m : Message) (rest word : string)
  (words : list string) (st : State P) :
  user_id (author m) <> user_id (bot_user w) ->
  msg_content m = String "!" rest ->
  Py.split rest = word :: words ->
  custom_commands hooks !! Py.lower word = None ->
  Py.lower word <> "plugins" ->
  Py.lower word <> "converse" ->
  exists st' evs,
    on_message cfg w hooks fuel m st = (Ok tt, st')
    /\ msg_nodes st' = msg_nodes st
    /\ sent st' = sent st
    /\ trace st' = (evs ++ trace st)%list
    /\ Forall fan_out_event evs.
Proof.
  intros Hauthor Hcontent Hsplit Hcustom Hplugins Hconverse.
  destruct (received_hooks_outside (on_message_received hooks) m
              (with_MESSAGE_COUNT (MESSAGE_COUNT st + 1) st))
    as (stop & st' & evs & Hrun & Ho & Ht & Hf).
  exists st', evs. split; [|destruct Ho as (Hn & _ & _ & _ & _ & Hs); by repeat split].
  rewrite (on_message_after_hooks cfg w hooks fuel m stop st st' Hauthor Hrun).
  destruct stop; [reflexivity|].
  rewrite Hcontent. destruct (startswith_bang_not_comment rest) as [-> ->].
  unfold bang_command. rewrite Hcontent.
  change (Py.slice_from 1 (String "!" rest)) with rest. rewrite Hsplit, Hcustom.
  apply String.eqb_neq in Hplugins, Hconverse. by rewrite Hplugins, Hconverse.
Qed.

Lemma unknown_command_is_dropped_witness :
  let m := Demo.message 20 Demo.alice "!Help mom" None 100 in
  on_message (Demo.cfg true "openai/gpt-4o" 100 1 10) (Demo.world [] Demo.hi_there)
    Demo.no_hooks 10 m (Demo.start ∅)
  = (Ok tt, with_MESSAGE_COUNT 1 (Demo.start ∅)).
Proof.
  intros m.
  destruct (unknown_command_is_dropped (Demo.cfg true "openai/gpt-4o" 100 1 10)
              (Demo.world [] Demo.hi_there) Demo.no_hooks 10 m "Help mom" "Help" ["mom"]
              (Demo.start ∅) ltac:(vm_compute; discriminate) eq_refl eq_refl eq_refl
              ltac:(vm_compute; discriminate) ltac:(vm_compute; discriminate))
    as (st' & evs & Hrun & _).
  rewrite Hrun. vm_compute in Hrun. by injection Hrun as <-.
Defined.

Lemma split_aux_letter (c : ascii) (s : string) (word : list ascii) :
  Py.is_space c = false -> Py.split_aux (String c s) word = Py.split_aux s (c :: word).
Proof. intros H. simpl. by rewrite H. Qed.

Lemma startswith_new (s : string) :
  Py.startswith s "!new" = true -> exists rest, s = String "!" ("new" +:+ rest).
Proof.
  unfold Py.startswith. intros H%String.prefix_correct.
  destruct s as [|c1 [|c2 [|c3 [|c4 rest]]]]; try discriminate H.
  simpl in H. injection H as -> -> -> ->. by exists rest.
Qed.

(** The handler has a branch for messages that start with [!new] (the
    conversation is to restart from the message alone), but no run gets
    there: such a message starts with [!] and is taken by the branch of
    the commands, which returns. Whatever is registered, the run ends
    normally without a fetch, a read of the channel or a call to the
    model, and the cache is left as it was. *)
Theorem new_command_is_never_answered {P : Type} (cfg : Config) (w : World)
  (hooks : PluginHooks P) (fuel : nat) (m : Message) (st : State P) :
  Py.startswith (msg_content m) "!new" = true ->
  exists st' evs,
    on_message cfg w hooks fuel m st = (Ok tt, st')
    /\ msg_nodes st' = msg_nodes st
    /\ trace st' = (evs ++ trace st)%list
    /\ Forall command_event evs.
Proof.
  intros Hnew. destruct (startswith_new _ Hnew) as (rest & Hcontent).
  destruct (Z.eqb_spec (user_id (author m)) (user_id (bot_user w))) as [Hbot|Hauthor].
  { exists st, []. unfold on_message. apply Z.eqb_eq in Hbot. rewrite Hbot. by repeat split. }
  destruct (received_hooks_outside (on_message_received hooks) m
              (with_MESSAGE_COUNT (MESSAGE_COUNT st + 1) st))
    as (stop & st1 & evs & Hrun & Ho & Ht & Hf).
  assert (Hevs : Forall command_event evs).
  { eapply Forall_impl; [exact Hf|]. intros ev He. destruct ev; simpl in *; auto; done. }
  rewrite (on_message_after_hooks cfg w hooks fuel m stop st st1 Hauthor Hrun).
  destruct Ho as (Hn & _ & _ & _ & _ & _).
  destruct stop; [by exists st1, evs|].
  rewrite Hcontent. destruct (startswith_bang_not_comment ("new" +:+ rest)) as [-> ->].
  unfold bang_command. rewrite Hcontent.
  change (Py.slice_from 1 (String "!" ("new" +:+ rest)))
    with (String "n" (String "e" (String "w" rest))).
  unfold Py.split.
  rewrite !split_aux_letter by reflexivity.
  destruct (split_aux_word rest ["w"; "e"; "n"]%char) as (more & words & ->); [done|].
  simpl string_of_list_ascii.
  change ("new" +:+ more) with (String "n" (String "e" (String "w" more))).
  simpl Py.lower.
  destruct (custom_commands hooks !! _) as [handler|].
  - unfold try_except.
    destruct (call_cases "custom_commands" handler (m, Py.str (user_id (author m))) st1)
      as (p' & [([] & _ & ->) | (e & _ & ->)]).
    + eexists _, (EvHook "custom_commands" (hook_name handler) :: evs).
      split; [reflexivity|]. split; [exact Hn|]. split; [simpl; by rewrite Ht|].
      constructor; [by right | exact Hevs].
    + eexists _, (_ :: _ :: EvHook "custom_commands" (hook_name handler) :: evs).
      split; [reflexivity|]. split; [exact Hn|]. split; [simpl; by rewrite Ht|].
      constructor; [reflexivity|]. constructor; [exact I|].
      constructor; [by right | exact Hevs].
  - exists st1, evs. by repeat split.
Qed.

Lemma new_command_is_never_answered_witness :
  let m := Demo.message 20 Demo.alice "!new mom, tell me a story" None 100 in
  on_message (Demo.cfg true "openai/gpt-4o" 100 1 10) (Demo.world [] Demo.hi_there)
    Demo.no_hooks 10 m (Demo.start ∅)
  = (Ok tt, with_MESSAGE_COUNT 1 (Demo.start ∅)).
Proof.
  intros m.
  destruct (new_command_is_never_answered (Demo.cfg true "openai/gpt-4o" 100 1 10)
              (Demo.world [] Demo.hi_there) Demo.no_hooks 10 m (Demo.start ∅) eq_refl)
    as (st' & evs & Hrun & _).
  rewrite Hrun. vm_compute in Hrun. by injection Hrun as <-.
Defined.

(** A command registered by a plug-in handles the message in place of
    the handler, also under the names [plugins] and [converse]. When it
    returns, nothing else is done; when it raises, the error is logged,
    one apology is sent to the channel and the handler returns normally. *)
Theorem registered_command_handles_the_message {P : Type} (cfg : Config) (w : World)
  (hooks : PluginHooks P) (fuel : nat) (m : Message) (rest word : string)
  (words : list string) (handler : Hook P (Message * string) unit) (st st1 : State P) :
  user_id (author m) <> user_id (bot_user w) ->
  msg_content m = String "!" rest ->
  Py.split rest = word :: words ->
  custom_commands hooks !! Py.lower word = Some handler ->
  received_hooks (on_message_received hooks) m
    (with_MESSAGE_COUNT (MESSAGE_COUNT st + 1) st) = (Ok false, st1) ->
  (forall p' r,
      hook_run handler (m, Py.str (user_id (author m))) (plugin_state st1) = (p', Returns r) ->
      on_message cfg w hooks fuel m st
      = (Ok tt, called "custom_commands" (hook_name handler) p' st1))
  /\ (forall p' e,
         hook_run handler (m, Py.str (user_id (author m))) (plugin_state st1) = (p', Raises e) ->
         exists st',
           on_message cfg w hooks fuel m st = (Ok tt, st')
           /\ trace st'
              = EvSend (channel_id (channel m))
                  (Plain "Oops, something went wrong with that command, sweetie!")
                  (sent_id w (sent st1))
                :: EvLogError ("Error in custom command " +:+ Py.lower word +:+ ": "
                               +:+ exn_text e)
                :: EvHook "custom_commands" (hook_name handler) :: trace st1
           /\ plugin_state st' = p'
           /\ msg_nodes st' = msg_nodes st1
           /\ sent st' = S (sent st1)).
Proof.
  intros Hauthor Hcontent Hsplit Hcustom Hrun.
  assert (Hm : on_message cfg w hooks fuel m st
               = try_except
                   (call "custom_commands" handler (m, Py.str (user_id (author m))))
                   (fun e =>
                      do log_error ("Error in custom command " +:+ Py.lower word +:+ ": "
                                    +:+ exn_text e) ;;
                      do send w (channel m)
                           (Plain "Oops, something went wrong with that command, sweetie!") ;;
                      ret tt) st1).
  { rewrite (on_message_after_hooks cfg w hooks fuel m false st st1 Hauthor Hrun).
    rewrite Hcontent. destruct (startswith_bang_not_comment rest) as [-> ->].
    unfold bang_command. rewrite Hcontent.
    change (Py.slice_from 1 (String "!" rest)) with rest. by rewrite Hsplit, Hcustom. }
  split.
  - intros p' [] Hr. rewrite Hm. unfold try_except. by rewrite (call_returns _ _ _ _ _ _ Hr).
  - intros p' e He. rewrite Hm. unfold try_except. rewrite (call_raises _ _ _ _ _ _ He).
    eexists. split; [reflexivity|]. by repeat split.
Qed.

Lemma registered_command_handles_the_message_witness :
  let hooks := Cases.with_command "plugins" (Demo.raising "lister") in
  let m := Demo.message 20 Demo.alice "!Plugins please" None 100 in
  exists st',
    on_message (Demo.cfg true "openai/gpt-4o" 100 1 10) (Demo.world [] Demo.hi_there)
      hooks 10 m (Demo.start ∅) = (Ok tt, st')
    /\ trace st'
       = [EvSend 7 (Plain "Oops, something went wrong with that command, sweetie!") 1000;
          EvLogError "Error in custom command plugins: boom";
          EvHook "custom_commands" "lister"]
    /\ plugin_state st' = ["lister"].
Proof.
  intros hooks m.
  destruct (registered_command_handles_the_message
              (Demo.cfg true "openai/gpt-4o" 100 1 10) (Demo.world [] Demo.hi_there)
              hooks 10 m "Plugins please" "Plugins" ["please"] (Demo.raising "lister")
              (Demo.start ∅) (with_MESSAGE_COUNT 1 (Demo.start ∅))
              ltac:(vm_compute; discriminate) eq_refl eq_refl ltac:(by vm_compute) eq_refl)
    as [_ Hraises].
  destruct (Hraises ["lister"] (Exception "boom") eq_refl)
    as (st' & Hrun & Ht & Hp & _).
  exists st'. split; [exact Hrun|]. split; [exact Ht | exact Hp].
Defined.

(** *** [handle_bot_conversation] *)

Section Conversation.

Context {P : Type}.
Variable cfg : Config.
Variable w : World.

(** The loop with enough fuel for the exchanges left ends normally, with
    at most one message sent for each of them. *)
Lemma conversation_loop_ends n :
  forall ch last (st : State P),
    (Z.to_nat (exchanges_left (converse_state st)) <= n)%nat ->
    exists st',
      conversation_loop cfg w n ch last st = (Ok tt, st')
      /\ (sent st <= sent st')%nat
      /\ (sent st' <= sent st + Z.to_nat (exchanges_left (converse_state st)))%nat
      /\ plugin_state st' = plugin_state st
      /\ MESSAGE_COUNT st' = MESSAGE_COUNT st.
Proof.
  induction n as [|n IH]; intros ch last st Hfuel.
  - simpl. unfold bind, get_state.
    destruct (exchanges_left (converse_state st) >? 0) eqn:He; simpl.
    + apply Z.gtb_lt in He. lia.
    + exists st. repeat split; lia.
  - simpl. unfold bind at 1. unfold get_state.
    destruct ((exchanges_left (converse_state st) >? 0) && active (converse_state st))
      eqn:Hcond; [|exists st; repeat split; lia].
    apply andb_prop in Hcond as [He%Z.gtb_lt _].
    unfold bind, emit, modify, send, log_error, emit, modify, ret. simpl.
    destruct (failure (completions_create w _)) as [e|].
    + eexists. split; [reflexivity|]. simpl. repeat split; lia.
    + match goal with
      | |- context [conversation_loop cfg w n ch ?id ?s] =>
          destruct (IH ch id s) as (st' & Hrun & Hlo & Hhi & Hp & Hc)
      end.
      { simpl. lia. }
      exists st'. split; [exact Hrun|]. simpl in *. repeat split; try lia; auto.
Qed.

End Conversation.

(** A conversation between bots always comes to its end: whatever the
    model answers, [handle_bot_conversation] returns normally, leaves
    [converse_state] inactive with no exchange left and no channel, and
    has sent at most one message for each exchange asked for, the
    apology for a failure of the model included. *)
Theorem bot_conversation_ends_idle {P : Type} (cfg : Config) (w : World) (ch : Channel)
  (exchanges : Z) (initial_message : Message) (st : State P) :
  exists st',
    handle_bot_conversation cfg w ch exchanges initial_message st = (Ok tt, st')
    /\ converse_state st' = idle
    /\ (sent st <= sent st')%nat
    /\ (sent st' <= sent st + Z.to_nat exchanges)%nat.
Proof.
  unfold handle_bot_conversation, bind, modify.
  match goal with
  | |- context [conversation_loop cfg w ?n ch ?id ?s] =>
      destruct (conversation_loop_ends cfg w n ch id s) as (st' & Hrun & Hlo & Hhi & _)
  end.
  { simpl. lia. }
  rewrite Hrun. eexists. split; [reflexivity|]. simpl in *. by repeat split.
Qed.

Section Exchanges.

Context {P : Type}.
Variable cfg : Config.
Variable w : World.

(** With a model that does not fail, the loop makes the exchanges left
    one after the other. *)
Lemma conversation_loop_healthy n :
  (forall messages, failure (completions_create w messages) = None) ->
  forall ch last (st : State P),
    active (converse_state st) = true ->
    exchanges_left (converse_state st) = Z.of_nat n ->
    exists st',
      conversation_loop cfg w n ch last st = (Ok tt, st')
      /\ trace st'
         = (rev (exchange_events cfg w ch n (last_turn (msg_nodes st) last) (sent st))
            ++ trace st)%list
      /\ sent st' = (sent st + n)%nat
      /\ plugin_state st' = plugin_state st.
Proof.
  intros healthy. induction n as [|n IH]; intros ch last st Hactive Hleft.
  - simpl. unfold bind, get_state. rewrite Hleft. simpl. exists st.
    repeat split. lia.
  - simpl conversation_loop. unfold bind at 1. unfold get_state.
    rewrite Hleft, Hactive.
    replace (Z.of_nat (S n) >? 0) with true by (symmetry; apply Z.gtb_lt; lia).
    simpl andb. cbv iota.
    unfold bind, emit, modify, send, ret. simpl.
    fold (last_turn (msg_nodes st) last).
    rewrite healthy.
    match goal with
    | |- context [conversation_loop cfg w n ch ?id ?s] =>
        destruct (IH ch id s) as (st' & Hrun & Ht & Hs & Hp)
    end.
    { simpl. exact Hactive. }
    { simpl. rewrite Hleft. lia. }
    exists st'. split; [exact Hrun|]. simpl in Ht, Hs, Hp.
    unfold last_turn in Ht at 1. rewrite lookup_insert_eq in Ht. simpl in Ht.
    split; [|split; [lia | exact Hp]].
    rewrite Ht. simpl. rewrite <- !app_assoc. reflexivity.
Qed.

End Exchanges.

(** [!converse n] with [n] from 1 to 10, sent to a model that does not
    fail: the handler announces the conversation, makes exactly [n]
    exchanges (each asks the model with the system prompt and the turn
    of the message sent just before, and sends the answer as it is),
    and returns with [converse_state] inactive. The lists of allowed
    channels and roles play no part: a command is handled before the
    permissions are looked at. *)
Theorem converse_command_runs_the_exchanges {P : Type} (cfg : Config) (w : World)
  (hooks : PluginHooks P) (fuel : nat) (m : Message) (rest word arg : string)
  (words : list string) (n : Z) (st st1 : State P) :
  (forall messages, failure (completions_create w messages) = None) ->
  user_id (author m) <> user_id (bot_user w) ->
  msg_content m = String "!" rest ->
  Py.split rest = word :: words ->
  Py.lower word = "converse" ->
  custom_commands hooks !! "converse" = None ->
  List.tl (Py.split (msg_content m)) = [arg] ->
  py_int w arg = Some n ->
  1 <= n <= 10 ->
  received_hooks (on_message_received hooks) m
    (with_MESSAGE_COUNT (MESSAGE_COUNT st + 1) st) = (Ok false, st1) ->
  exists st',
    on_message cfg w hooks fuel m st = (Ok tt, st')
    /\ trace st'
       = (rev (exchange_events cfg w (channel m) (Z.to_nat n)
                 (last_turn (msg_nodes st1) (msg_id m)) (S (sent st1)))
          ++ EvSend (channel_id (channel m))
               (Plain ("Starting conversation between bots for " +:+ Py.str n
                       +:+ " exchanges!"))
               (sent_id w (sent st1))
          :: trace st1)%list
    /\ sent st' = (sent st1 + 1 + Z.to_nat n)%nat
    /\ converse_state st' = idle.
Proof.
  intros Hhealthy Hauthor Hcontent Hsplit Hword Hcustom Hargs Hint Hrange Hrun.
  rewrite (on_message_after_hooks cfg w hooks fuel m false st st1 Hauthor Hrun).
  rewrite Hcontent. destruct (startswith_bang_not_comment rest) as [-> ->].
  unfold bang_command. rewrite Hcontent.
  change (Py.slice_from 1 (String "!" rest)) with rest.
  rewrite Hsplit, Hword, Hcustom.
  change ("converse" =? "plugins")%string with false.
  change ("converse" =? "converse")%string with true. cbv iota.
  unfold converse_command. rewrite Hcontent in Hargs. rewrite Hcontent, Hargs, Hint.
  replace ((1 <=? n) && (n <=? 10)) with true
    by (symmetry; apply andb_true_intro; split; apply Z.leb_le; lia).
  unfold handle_bot_conversation, bind, modify, send.
  match goal with
  | |- context [conversation_loop cfg w (Z.to_nat n) ?ch ?id ?s] =>
      destruct (conversation_loop_healthy cfg w (Z.to_nat n) Hhealthy ch id s)
        as (st' & Hloop & Ht & Hs & _)
  end.
  { reflexivity. }
  { simpl. lia. }
  rewrite Hloop. eexists. split; [reflexivity|]. simpl in *.
  split; [exact Ht|]. split; [lia | reflexivity].
Qed.

Lemma converse_command_runs_the_exchanges_witness :
  let cfg := Cases.elsewhere_only in
  let w := Cases.counting [] Demo.hi_there in
  let m := Demo.message 20 Demo.alice "!converse 2" None 100 in
  exists st',
    on_message cfg w Demo.no_hooks 0 m (Demo.start ∅) = (Ok tt, st')
    /\ rev (trace st')
       = [EvSend 7 (Plain "Starting conversation between bots for 2 exchanges!") 1000;
          EvTyping 7; EvCompletion [get_system_prompt cfg w];
          EvSend 7 (Plain "Hi there!") 1001; EvSleep 1;
          EvTyping 7;
          EvCompletion [get_system_prompt cfg w;
                        {| content := Text "Hi there!"; role := assistant; name := None |}];
          EvSend 7 (Plain "Hi there!") 1002; EvSleep 1]
    /\ sent st' = 3%nat
    /\ converse_state st' = idle.
Proof.
  intros cfg w m.
  destruct (converse_command_runs_the_exchanges cfg w Demo.no_hooks 0 m
              "converse 2" "converse" "2" ["2"] 2 (Demo.start ∅)
              (with_MESSAGE_COUNT 1 (Demo.start ∅))
              ltac:(reflexivity) ltac:(vm_compute; discriminate) eq_refl eq_refl eq_refl
              eq_refl eq_refl eq_refl ltac:(lia) eq_refl)
    as (st' & Hrun & Ht & Hs & Hc).
  exists st'. split; [exact Hrun|]. split; [|split; [exact Hs | exact Hc]].
  rewrite Ht. by vm_compute.
Defined.

(** ** The triggers and the permissions *)

Section Gate.

Context {P : Type}.
Variable cfg : Config.
Variable w : World.
Variable hooks : PluginHooks P.

(** Lines 261-268: the message replied to is looked up, and only the
    trace moves. *)
Lemma reply_check m (st : State P) :
  exists st' evs,
    match reference m with
    | Some ref_id =>
        try_except_discord
          (referenced_msg <- resolve w ref_id ;;
           ret (same_user (author referenced_msg) (bot_user w)))
          (do log_error "Error fetching referenced message" ;; ret false)
    | None => ret false
    end st = (Ok (replies_to_bot w m), st')
    /\ outside_only st st'
    /\ plugin_state st' = plugin_state st
    /\ trace st' = (evs ++ trace st)%list
    /\ Forall gate_event evs.
Proof.
  unfold replies_to_bot, resolved. destruct (reference m) as [ref_id|].
  - unfold try_except_discord, resolve, bind, same_user.
    destruct (cached_message w ref_id) as [c|].
    + exists st, []. by repeat split.
    + unfold emit, modify, ret, raise, log_error, emit, modify.
      destruct (fetch_message w ref_id).
      * eexists _, [EvFetch ref_id]. split; [reflexivity|].
        split; [by repeat split|]. split; [reflexivity|]. split; [reflexivity|].
        by repeat constructor.
      * eexists _, [_; EvFetch ref_id]. split; [reflexivity|].
        split; [by repeat split|]. split; [reflexivity|]. split; [reflexivity|].
        by repeat constructor.
      * eexists _, [_; EvFetch ref_id]. split; [reflexivity|].
        split; [by repeat split|]. split; [reflexivity|]. split; [reflexivity|].
        by repeat constructor.
  - exists st, []. by repeat split.
Qed.

End Gate.

Lemma not_bang_not_new (s : string) :
  Py.startswith s "!" = false -> Py.startswith s "!new" = false.
Proof.
  intros Hbang. destruct (Py.startswith s "!new") eqn:Hnew; [|reflexivity].
  destruct (startswith_new _ Hnew) as (rest & ->).
  destruct (startswith_bang_not_comment ("new" +:+ rest)) as [_ H]. congruence.
Qed.

(** A message that is no command and that nothing addresses to the bot
    (no mention, neither the name of the bot nor the word [mom] in its
    text, no reply to a message of the bot, no conversation between bots
    under way, and a count of messages that is no multiple of 50) gets no
    answer: the handler returns after the fan-out and the look at the
    message replied to, with nothing sent, nothing added to the cache and
    no call to the model. *)
Theorem unaddressed_message_gets_no_reply {P : Type} (cfg : Config) (w : World)
  (hooks : PluginHooks P) (fuel : nat) (m : Message) (st : State P) :
  user_id (author m) <> user_id (bot_user w) ->
  Py.startswith (msg_content m) "!" = false ->
  Z_in (user_id (bot_user w)) (mentions m) = false ->
  re_search_word w (user_name (bot_user w)) (msg_content m) = false ->
  re_search_word w "mom" (msg_content m) = false ->
  replies_to_bot w m = false ->
  active (converse_state st) = false ->
  (MESSAGE_COUNT st + 1) mod SPEAK_EVERY_TURNS <> 0 ->
  exists st' evs,
    on_message cfg w hooks fuel m st = (Ok tt, st')
    /\ msg_nodes st' = msg_nodes st
    /\ sent st' = sent st
    /\ trace st' = (evs ++ trace st)%list
    /\ Forall gate_event evs.
Proof.
  intros Hauthor Hbang Hmention Hname Hmom Hreply Hactive Hcount.
  destruct (received_hooks_outside (on_message_received hooks) m
              (with_MESSAGE_COUNT (MESSAGE_COUNT st + 1) st))
    as (stop & st1 & evs1 & Hrun & Ho1 & Ht1 & Hf1).
  assert (Hg1 : Forall gate_event evs1).
  { eapply Forall_impl; [exact Hf1|]. intros ev He. destruct ev; simpl in *; auto; done. }
  rewrite (on_message_after_hooks cfg w hooks fuel m stop st st1 Hauthor Hrun).
  destruct Ho1 as (Hn1 & _ & Hc1 & Hm1 & _ & Hs1). simpl in Hn1, Hc1, Hm1, Hs1, Ht1.
  destruct stop; [by exists st1, evs1|].
  destruct (Py.startswith (msg_content m) "//"); [by exists st1, evs1|].
  rewrite Hbang.
  destruct (reply_check w m st1) as (st2 & evs2 & Hcheck & Ho2 & _ & Ht2 & Hg2).
  destruct Ho2 as (Hn2 & _ & Hc2 & Hm2 & _ & Hs2).
  exists st2, (evs2 ++ evs1)%list.
  split; [|split; [congruence|]; split; [congruence|]; split;
           [by rewrite Ht2, Ht1, app_assoc | by apply Forall_app]].
  unfold respond. unfold bind at 1. rewrite Hcheck.
  unfold bind at 1. unfold get_state.
  rewrite Hmention, Hname, Hmom, Hreply, (not_bang_not_new _ Hbang), Hc2, Hc1, Hactive, Hm2, Hm1.
  rewrite !andb_false_r. simpl orb.
  apply Z.eqb_neq in Hcount. by rewrite Hcount.
Qed.

Lemma unaddressed_message_gets_no_reply_witness :
  let w := Demo.world Demo.chatter Demo.hi_there in
  let m := Demo.message 20 Demo.alice "hello everyone" (Some 19) 100 in
  exists st',
    on_message (Demo.cfg true "openai/gpt-4o" 100 1 10) w Demo.no_hooks 10 m (Demo.start ∅)
    = (Ok tt, st')
    /\ msg_nodes st' = ∅
    /\ sent st' = 0%nat
    /\ trace st' = [EvFetch 19].
Proof.
  intros w m.
  destruct (unaddressed_message_gets_no_reply (Demo.cfg true "openai/gpt-4o" 100 1 10) w
              Demo.no_hooks 10 m (Demo.start ∅)
              ltac:(vm_compute; discriminate) eq_refl eq_refl eq_refl eq_refl eq_refl
              eq_refl ltac:(vm_compute; discriminate))
    as (st' & evs & Hrun & Hn & Hs & _).
  exists st'. split; [exact Hrun|]. split; [exact Hn|]. split; [exact Hs|].
  vm_compute in Hrun. by injection Hrun as <-.
Defined.

(** The permissions apply to every message that is no command: when the
    list of allowed channels is not empty and does not hold the channel,
    or the list of allowed roles is not empty and the author is a member
    with none of them, or the channel is of a type the bot does not
    serve, the message gets no answer, however it addresses the bot:
    nothing is sent, nothing is added to the cache, the model is not
    called. *)
Theorem message_outside_the_permissions_gets_no_reply {P : Type} (cfg : Config)
  (w : World) (hooks : PluginHooks P) (fuel : nat) (m : Message) (st : State P) :
  user_id (author m) <> user_id (bot_user w) ->
  Py.startswith (msg_content m) "!" = false ->
  (ALLOWED_CHANNEL_IDS cfg <> []
   /\ string_in (Py.str (channel_id (channel m))) (ALLOWED_CHANNEL_IDS cfg) = false)
  \/ (ALLOWED_ROLE_IDS cfg <> []
      /\ exists rs, roles (author m) = Some rs
                    /\ existsb (fun r => Z_in r (ALLOWED_ROLE_IDS cfg)) rs = false)
  \/ existsb (channel_type_eqb (channel_type (channel m))) ALLOWED_CHANNEL_TYPES = false ->
  exists st' evs,
    on_message cfg w hooks fuel m st = (Ok tt, st')
    /\ msg_nodes st' = msg_nodes st
    /\ sent st' = sent st
    /\ trace st' = (evs ++ trace st)%list
    /\ Forall gate_event evs.
Proof.
  intros Hauthor Hbang Hclosed.
  destruct (received_hooks_outside (on_message_received hooks) m
              (with_MESSAGE_COUNT (MESSAGE_COUNT st + 1) st))
    as (stop & st1 & evs1 & Hrun & Ho1 & Ht1 & Hf1).
  assert (Hg1 : Forall gate_event evs1).
  { eapply Forall_impl; [exact Hf1|]. intros ev He. destruct ev; simpl in *; auto; done. }
  rewrite (on_message_after_hooks cfg w hooks fuel m stop st st1 Hauthor Hrun).
  destruct Ho1 as (Hn1 & _ & Hc1 & Hm1 & _ & Hs1). simpl in Hn1, Hc1, Hm1, Hs1, Ht1.
  destruct stop; [by exists st1, evs1|].
  destruct (Py.startswith (msg_content m) "//"); [by exists st1, evs1|].
  rewrite Hbang.
  destruct (reply_check w m st1) as (st2 & evs2 & Hcheck & Ho2 & _ & Ht2 & Hg2).
  destruct Ho2 as (Hn2 & _ & Hc2 & Hm2 & _ & Hs2).
  exists st2, (evs2 ++ evs1)%list.
  split; [|split; [congruence|]; split; [congruence|]; split;
           [by rewrite Ht2, Ht1, app_assoc | by apply Forall_app]].
  unfold respond. unfold bind at 1. rewrite Hcheck.
  unfold bind at 1. unfold get_state.
  match goal with
  | |- (if ?c then _ else _) _ = _ => destruct c eqn:Htrigger; [reflexivity|]
  end.
  match goal with
  | |- (if ?c then _ else _) _ = _ => destruct c eqn:Hchannel; [reflexivity|]
  end.
  match goal with
  | |- (if ?c then _ else _) _ = _ => destruct c eqn:Hrole; [reflexivity|]
  end.
  match goal with
  | |- (if ?c then _ else _) _ = _ => destruct c eqn:Htype; [reflexivity|]
  end.
  exfalso. destruct Hclosed as [[Hlist Hch] | [[Hlist (rs & Hrs & Hnone)] | Hty]].
  - rewrite Hch in Hchannel. destruct (ALLOWED_CHANNEL_IDS cfg); [done | discriminate].
  - rewrite Hrs, Hnone in Hrole. destruct (ALLOWED_ROLE_IDS cfg); [done | discriminate].
  - rewrite Hty in Htype. discriminate.
Qed.

Lemma message_outside_the_permissions_gets_no_reply_witness :
  let w := Demo.world [] Demo.hi_there in
  let m := Demo.message 20 Demo.alice "mom, are you there?" None 100 in
  on_message Cases.elsewhere_only w Demo.no_hooks 10 m (Demo.start ∅)
  = (Ok tt, with_MESSAGE_COUNT 1 (Demo.start ∅)).
Proof.
  intros w m.
  destruct (message_outside_the_permissions_gets_no_reply Cases.elsewhere_only w
              Demo.no_hooks 10 m (Demo.start ∅)
              ltac:(vm_compute; discriminate) eq_refl
              ltac:(left; split; [discriminate | reflexivity]))
    as (st' & evs & Hrun & _).
  rewrite Hrun. vm_compute in Hrun. by injection Hrun as <-.
Defined.

(** ** The segments of an answer *)

Lemma gtb_false_le (a b : Z) : (a >? b) = false -> a <= b.
Proof. rewrite Z.gtb_ltb. apply Z.ltb_ge. Qed.

Lemma feed_snoc limit l s token :
  feed limit (l ++ [s]) token
  = if Py.len (s +:+ token) >? limit then (l ++ [s; token])%list
    else (l ++ [s +:+ token])%list.
Proof.
  destruct (Py.len (s +:+ token) >? limit) eqn:H.
  - apply feed_overflows. by apply Z.gtb_lt in H.
  - apply feed_fits. by apply gtb_false_le.
Qed.

(** Every list of segments is empty or ends with a segment. *)
Lemma segments_cases (l : list string) : l = [] \/ exists l' s, l = (l' ++ [s])%list.
Proof.
  destruct l as [|x l]; [by left | right].
  destruct (exists_last (l := x :: l)) as (l' & s & ->); [done | eauto].
Qed.

Lemma feed_nonempty limit l token : feed limit l token <> [].
Proof.
  destruct (segments_cases l) as [-> | (l' & s & ->)].
  - rewrite feed_first. change [""] with ([] ++ [""])%list. rewrite feed_snoc.
    by destruct (_ >? _).
  - rewrite feed_snoc. destruct (_ >? _); by destruct l'.
Qed.

Lemma fold_feed_nonempty limit toks l :
  l <> [] -> fold_left (feed limit) toks l <> [].
Proof.
  revert l. induction toks as [|t toks IH]; intros l Hl; [done|].
  simpl. apply IH, feed_nonempty.
Qed.

(** A token is never cut: the segments are all within the limit exactly
    when the segments before and the token are. *)
Lemma feed_within limit l token :
  0 <= limit ->
  Forall (fun s => Py.len s <= limit) (feed limit l token)
  <-> Forall (fun s => Py.len s <= limit) l /\ Py.len token <= limit.
Proof.
  intros Hlimit. destruct (segments_cases l) as [-> | (l' & s & ->)].
  - rewrite feed_first. change [""] with ([] ++ [""])%list. rewrite feed_snoc.
    rewrite append_empty_l. simpl. destruct (Py.len token >? limit) eqn:H.
    + apply Z.gtb_lt in H. split.
      * intros Hall. inversion Hall as [|? ? _ Hrest]. inversion Hrest. lia.
      * intros [_ ?]. lia.
    + apply gtb_false_le in H. split.
      * by intros _.
      * intros _. by repeat constructor.
  - rewrite feed_snoc. destruct (Py.len (s +:+ token) >? limit) eqn:H.
    + rewrite !Forall_app. split.
      * intros [Hl' Hst]. inversion Hst as [|? ? Hs Ht]. inversion Ht as [|? ? Htok _].
        split; [|exact Htok]. split; [exact Hl' | by repeat constructor].
      * intros [[Hl' Hs] Htok]. split; [exact Hl'|]. inversion Hs. by repeat constructor.
    + apply gtb_false_le in H. rewrite len_append in H.
      pose proof (len_nonneg s). pose proof (len_nonneg token).
      rewrite !Forall_app. split.
      * intros [Hl' _]. split; [|lia]. split; [exact Hl'|]. constructor; [lia | constructor].
      * intros [[Hl' _] _]. split; [exact Hl'|].
        constructor; [rewrite len_append; lia | constructor].
Qed.

Lemma fold_feed_within limit toks :
  0 <= limit ->
  forall l,
    Forall (fun s => Py.len s <= limit) (fold_left (feed limit) toks l)
    <-> Forall (fun s => Py.len s <= limit) l /\ Forall (fun t => Py.len t <= limit) toks.
Proof.
  intros Hlimit. induction toks as [|t toks IH]; intros l; simpl.
  - split; [by intros H | by intros [H _]].
  - rewrite IH, (feed_within limit l t Hlimit), Forall_cons. tauto.
Qed.

Section Segments.

Context {P : Type}.
Variable cfg : Config.
Variable w : World.

Lemma length_ids_sent from k : List.length (ids_sent w from k) = k.
Proof. unfold ids_sent. by rewrite length_map, length_seq. Qed.

(** The segments and the messages of the answer. *)
Lemma generate_segments new_msg user_warnings messages (st : State P) :
  exists r st',
    generate cfg w new_msg user_warnings messages st = (Ok r, st')
    /\ response_contents r
       = fold_left (feed (MAX_MESSAGE_LENGTH cfg))
           (tokens (chunks (completions_create w messages))) []
    /\ List.length (response_msgs r) = List.length (response_contents r)
    /\ response_msgs r = ids_sent w (sent st) (List.length (response_msgs r))
    /\ sent st'
       = (sent st + List.length (response_msgs r)
          + match failure (completions_create w messages) with Some _ => 1 | None => 0 end)%nat.
Proof.
  unfold generate, bind, emit, modify. simpl.
  match goal with
  | |- context [render_chunks cfg w new_msg user_warnings ?cs no_response ?s] =>
      destruct (render_chunks_streams cfg w new_msg user_warnings cs no_response s)
        as (r & st1 & -> & Hc & (k & evs & Hm & Hsent & Hl & _))
  end.
  simpl in Hc, Hm, Hsent, Hl.
  assert (Hk : List.length (response_msgs r) = k) by (by rewrite Hm, length_ids_sent).
  destruct (failure (completions_create w messages)).
  - do 2 eexists. split; [reflexivity|]. split; [exact Hc|]. split; [lia|].
    split; [by rewrite Hk|]. simpl. lia.
  - destruct (response_msgs r) as [|id ids] eqn:Hmsgs.
    + simpl in Hk. subst k. destruct (response_contents r) as [|c cs] eqn:Hcs; [|discriminate].
      rewrite andb_comm. simpl.
      destruct (USE_PLAIN_RESPONSES cfg); simpl; rewrite ?Hcs; simpl;
        (do 2 eexists; split; [reflexivity|]; rewrite Hmsgs, Hcs;
         split; [exact Hc|]; split; [reflexivity|]; split; [reflexivity|]; simpl; lia).
    + rewrite andb_false_r.
      do 2 eexists. split; [reflexivity|]. rewrite Hmsgs. split; [exact Hc|].
      split; [lia|]. split; [by rewrite Hk|]. simpl in *. lia.
Qed.

End Segments.

(** No segment of an answer is longer than [MAX_MESSAGE_LENGTH] exactly
    when no token of the stream is: the renderer opens a new segment
    before a token that would not fit, and never cuts a token. *)
Theorem segments_fit_the_limit_iff_tokens_do {P : Type} (cfg : Config) (w : World)
  (new_msg : Message) (user_warnings : Warnings) (messages : list Turn) (st : State P) :
  exists r st',
    generate cfg w new_msg user_warnings messages st = (Ok r, st')
    /\ (Forall (fun s => Py.len s <= MAX_MESSAGE_LENGTH cfg) (response_contents r)
        <-> Forall (fun t => Py.len t <= MAX_MESSAGE_LENGTH cfg)
              (tokens (chunks (completions_create w messages)))).
Proof.
  destruct (generate_segments cfg w new_msg user_warnings messages st)
    as (r & st' & Hrun & Hc & _).
  exists r, st'. split; [exact Hrun|]. rewrite Hc.
  pose proof (MAX_MESSAGE_LENGTH_positive cfg).
  rewrite fold_feed_within by lia. split; [by intros [_ Ht] | by intros Ht].
Qed.

(** Each segment of an answer has its message, sent when the segment is
    opened, in the two modes of display: the messages are as many as the
    segments, they are the next messages the bot sends, and there is none
    exactly when the stream brings no chunk. Besides them only the notice
    of a failure is sent. *)
Theorem one_message_for_each_segment {P : Type} (cfg : Config) (w : World)
  (new_msg : Message) (user_warnings : Warnings) (messages : list Turn) (st : State P) :
  exists r st',
    generate cfg w new_msg user_warnings messages st = (Ok r, st')
    /\ List.length (response_msgs r) = List.length (response_contents r)
    /\ response_msgs r = ids_sent w (sent st) (List.length (response_contents r))
    /\ (response_msgs r = [] <-> chunks (completions_create w messages) = [])
    /\ sent st'
       = (sent st + List.length (response_contents r)
          + match failure (completions_create w messages) with Some _ => 1 | None => 0 end)%nat.
Proof.
  destruct (generate_segments cfg w new_msg user_warnings messages st)
    as (r & st' & Hrun & Hc & Hl & Hm & Hs).
  exists r, st'. split; [exact Hrun|]. split; [exact Hl|].
  split; [by rewrite <- Hl|]. split; [|by rewrite <- Hl].
  split.
  - intros Hnone. rewrite Hnone in Hl. simpl in Hl.
    destruct (chunks (completions_create w messages)) as [|c cs]; [reflexivity|].
    exfalso. simpl in Hc.
    apply (fold_feed_nonempty (MAX_MESSAGE_LENGTH cfg) (tokens cs)
             (feed (MAX_MESSAGE_LENGTH cfg) [] (default "" (delta_content c)))
             (feed_nonempty _ _ _)).
    rewrite <- Hc. by destruct (response_contents r).
  - intros Hnone. rewrite Hnone in Hc. simpl in Hc. rewrite Hc in Hl.
    by destruct (response_msgs r).
Qed.

(** ** The edits of an answer *)

Lemma edits_newest_app newest evs1 evs2 :
  edits_newest newest (evs1 ++ evs2)
  <-> edits_newest newest evs1 /\ edits_newest (newest_after newest evs1) evs2.
Proof.
  revert newest. induction evs1 as [|ev evs1 IH]; intros newest; simpl; [tauto|].
  destruct ev; rewrite ?IH; tauto.
Qed.

Lemma newest_after_app newest evs1 evs2 :
  newest_after newest (evs1 ++ evs2) = newest_after (newest_after newest evs1) evs2.
Proof.
  revert newest. induction evs1 as [|ev evs1 IH]; intros newest; simpl; [done|].
  destruct ev; by rewrite ?IH.
Qed.

Lemma last_map_snoc (l : list Z) (id : Z) : List.last (map Some (l ++ [id])) None = Some id.
Proof. rewrite map_app. simpl. by rewrite last_last. Qed.

Lemma last_msg_target (l : list Z) :
  l <> [] -> List.last (map Some l) None = Some (List.last l 0).
Proof.
  intros Hl. destruct (exists_last Hl) as (l' & id & ->).
  by rewrite last_map_snoc, last_last.
Qed.

Section Edits.

Context {P : Type}.
Variable cfg : Config.
Variable w : World.

Lemma edits_track_refl (st : State P) r : edits_track st r st r.
Proof. by exists []. Qed.

Lemma edits_track_trans (st1 st2 st3 : State P) r1 r2 r3 :
  edits_track st1 r1 st2 r2 -> edits_track st2 r2 st3 r3 -> edits_track st1 r1 st3 r3.
Proof.
  intros (evs1 & Ht1 & He1 & Hl1) (evs2 & Ht2 & He2 & Hl2).
  exists (evs1 ++ evs2)%list. split; [|split].
  - by rewrite Ht2, Ht1, rev_app_distr, app_assoc.
  - apply edits_newest_app. split; [exact He1 | by rewrite <- Hl1].
  - by rewrite newest_after_app, <- Hl1.
Qed.

(** A change of the local variables that keeps the messages. *)
Lemma edits_track_same (st : State P) r r' :
  response_msgs r' = response_msgs r -> edits_track st r st r'.
Proof. intros H. exists []. unfold last_msg. by rewrite H. Qed.

Lemma placeholder_track new_msg fields r (st : State P) :
  exists r' st',
    placeholder cfg w new_msg fields r st = (Ok r', st')
    /\ edits_track st r st' r'
    /\ response_msgs r' <> []
    /\ response_contents r' = response_contents r.
Proof.
  unfold placeholder.
  destruct (negb (USE_PLAIN_RESPONSES cfg)); simpl.
  - do 2 eexists. split; [reflexivity|]. split; [|split; [by destruct (response_msgs r) | done]].
    eexists [_]. split; [reflexivity|]. split; [done|].
    unfold last_msg. simpl. by rewrite last_map_snoc.
  - do 2 eexists. split; [reflexivity|]. split; [|split; [by destruct (response_msgs r) | done]].
    eexists [_]. split; [reflexivity|]. split; [done|].
    unfold last_msg. simpl. by rewrite last_map_snoc.
Qed.

Lemma should_update_track finish r (st : State P) :
  exists b st',
    should_update w finish r st = (Ok b, st') /\ trace st' = trace st
    /\ (forall reason, finish = Some reason -> b = true).
Proof.
  unfold should_update. destruct finish as [reason|].
  - exists true, st. by repeat split.
  - unfold bind. destruct (edit_task r); simpl.
    + destruct (edit_done w (readings st)); simpl; do 2 eexists; by repeat split.
    + do 2 eexists. by repeat split.
Qed.

(** An edit goes to the last message of the answer, and shows its
    segment, with the indicator as long as the stream is not finished. *)
Lemma push_update_track finish r (st : State P) :
  response_msgs r <> [] ->
  exists r' st' p,
    push_update cfg w finish r st = (Ok r', st')
    /\ trace st' = EvEdit (List.last (response_msgs r) 0) p :: trace st
    /\ shown p = List.last (response_contents r) ""
                 +:+ (if unfinished finish then STREAMING_INDICATOR else "")
    /\ match p with
       | Rich e =>
           embed_color e
           = match finish with
             | Some reason => if String.eqb reason "stop"
                              then EMBED_COLOR_COMPLETE else EMBED_COLOR_INCOMPLETE
             | None => EMBED_COLOR_INCOMPLETE
             end
       | Plain _ => True
       end
    /\ response_msgs r' = response_msgs r
    /\ response_contents r' = response_contents r
    /\ edits_track st r st' r'.
Proof.
  intros Hmsgs. unfold push_update.
  destruct (negb (USE_PLAIN_RESPONSES cfg)); simpl.
  - do 3 eexists. split; [reflexivity|]. split; [reflexivity|]. split; [reflexivity|].
    split; [reflexivity|]. split; [reflexivity|]. split; [reflexivity|].
    eexists [_]. split; [reflexivity|]. simpl. split; [|done].
    split; [by apply last_msg_target | done].
  - do 3 eexists. split; [reflexivity|]. split; [reflexivity|]. split; [reflexivity|].
    split; [exact I|]. split; [reflexivity|]. split; [reflexivity|].
    eexists [_]. split; [reflexivity|]. simpl. split; [|done].
    split; [by apply last_msg_target | done].
Qed.

(** One chunk: its edit, if any, goes to the message created last; when
    the chunk closes the stream, the edit is made and shows the last
    segment as it is. *)
Lemma render_chunk_track new_msg user_warnings c r (st : State P) :
  List.length (response_msgs r) = List.length (response_contents r) ->
  exists r' st',
    render_chunk cfg w new_msg user_warnings c r st = (Ok r', st')
    /\ edits_track st r st' r'
    /\ List.length (response_msgs r') = List.length (response_contents r')
    /\ (forall reason,
           finish_reason c = Some reason ->
           exists p rest,
             trace st' = EvEdit (List.last (response_msgs r') 0) p :: rest
             /\ shown p = List.last (response_contents r') ""
                          +:+ (if nonempty reason then "" else STREAMING_INDICATOR)
             /\ match p with
                | Rich e => embed_color e
                            = if String.eqb reason "stop"
                              then EMBED_COLOR_COMPLETE else EMBED_COLOR_INCOMPLETE
                | Plain _ => True
                end).
Proof.
  intros Hlen.
  destruct (render_chunk_streams cfg w new_msg user_warnings c r st)
    as (rf & stf & Hrun & _ & (k & _ & Hmf & _ & Hlf & _)).
  assert (Hlenf : List.length (response_msgs rf) = List.length (response_contents rf)).
  { rewrite Hmf, Hlf, length_app, length_ids_sent. lia. }
  exists rf, stf. split; [exact Hrun|].
  revert Hrun. unfold render_chunk, bind.
  assert (H1 : exists r1 st1,
             match response_contents r with
             | [] => first_segment cfg w new_msg user_warnings r
             | _ => ret r
             end st = (Ok r1, st1)
             /\ edits_track st r st1 r1 /\ response_msgs r1 <> []).
  { destruct (response_contents r) as [|x l] eqn:Hr.
    - unfold first_segment, bind.
      destruct (placeholder_track new_msg user_warnings (with_contents [""] r) st)
        as (r1 & st1 & -> & Ht & Hne & _).
      do 2 eexists. split; [reflexivity|]. split; [|exact Hne].
      destruct Ht as (evs & Ht & He & Hl). exists evs. by repeat split.
    - exists r, st. split; [done|]. split; [apply edits_track_refl|].
      by destruct (response_msgs r). }
  destruct H1 as (r1 & st1 & -> & Ht1 & Hne1).
  assert (H2 : exists r2 st2,
             (if Py.len (List.last (response_contents r1) "" +:+ default "" (delta_content c))
                 >? MAX_MESSAGE_LENGTH cfg
              then next_segment cfg w new_msg r1 else ret r1) st1 = (Ok r2, st2)
             /\ edits_track st1 r1 st2 r2 /\ response_msgs r2 <> []).
  { destruct (_ >? _).
    - unfold next_segment.
      destruct (placeholder_track new_msg no_warnings
                  (with_contents (response_contents r1 ++ [""])%list r1) st1)
        as (r2 & st2 & -> & Ht & Hne & _).
      do 2 eexists. split; [reflexivity|]. split; [|exact Hne].
      destruct Ht as (evs & Ht & He & Hl). exists evs. by repeat split.
    - exists r1, st1. split; [done|]. split; [apply edits_track_refl | exact Hne1]. }
  destruct H2 as (r2 & st2 & -> & Ht2 & Hne2).
  set (r3 := with_contents (append_to_last (default "" (delta_content c)) (response_contents r2)) r2).
  assert (Ht3 : edits_track st r st2 r3).
  { eapply edits_track_trans; [exact Ht1|]. eapply edits_track_trans; [exact Ht2|].
    by apply edits_track_same. }
  destruct (should_update_track (finish_reason c) r3 st2) as (b & st3 & -> & Htr & Hfin).
  assert (Ht4 : edits_track st r st3 r3).
  { destruct Ht3 as (evs & Ht & He & Hl). exists evs. by rewrite Htr. }
  destruct b.
  - destruct (push_update_track (finish_reason c) r3 st3 Hne2)
      as (r4 & st4 & p & -> & Htrace & Hshown & Hcolor & Hm4 & Hc4 & Ht5).
    intros [= <- <-]. split; [by eapply edits_track_trans|]. split; [exact Hlenf|].
    intros reason Hreason. exists p, (trace st3). rewrite Hm4, Hc4.
    split; [exact Htrace|]. rewrite Hreason in Hshown, Hcolor. simpl in Hshown.
    split; [|exact Hcolor]. rewrite Hshown. by destruct (nonempty reason).
  - intros [= <- <-]. split; [exact Ht4|]. split; [exact Hlenf|].
    intros reason Hreason. by specialize (Hfin reason Hreason).
Qed.

Lemma render_chunks_track new_msg user_warnings cs :
  forall r (st : State P),
    List.length (response_msgs r) = List.length (response_contents r) ->
    exists r' st',
      render_chunks cfg w new_msg user_warnings cs r st = (Ok r', st')
      /\ edits_track st r st' r'
      /\ List.length (response_msgs r') = List.length (response_contents r').
Proof.
  induction cs as [|c cs IH]; intros r st Hlen; simpl.
  - exists r, st. split; [done|]. split; [apply edits_track_refl | exact Hlen].
  - unfold bind.
    destruct (render_chunk_track new_msg user_warnings c r st Hlen)
      as (r1 & st1 & -> & Ht1 & Hlen1 & _).
    destruct (IH r1 st1 Hlen1) as (r' & st' & -> & Ht & Hlen').
    exists r', st'. split; [done|]. split; [by eapply edits_track_trans | exact Hlen'].
Qed.

Lemma render_chunks_snoc new_msg user_warnings cs c r (st : State P) :
  render_chunks cfg w new_msg user_warnings (cs ++ [c]) r st
  = (r' <- render_chunks cfg w new_msg user_warnings cs r ;;
     render_chunk cfg w new_msg user_warnings c r') st.
Proof.
  revert r st. induction cs as [|x cs IH]; intros r st; simpl.
  - unfold bind, ret. by destruct (render_chunk cfg w new_msg user_warnings c r st) as [[] ?].
  - unfold bind in *. destruct (render_chunk cfg w new_msg user_warnings x r st) as [[r1| | |] st1];
      [apply IH | done..].
Qed.

End Edits.

Lemma snoc_not_nil {A} (l : list A) (x : A) : (l ++ [x])%list <> [].
Proof. by destruct l. Qed.

Section Marks.

Context {P : Type}.
Variable cfg : Config.
Variable w : World.

Lemma placeholder_marks new_msg fields r (st : State P) :
  exists r' st' p id,
    placeholder cfg w new_msg fields r st = (Ok r', st')
    /\ trace st' = EvSend (channel_id (channel new_msg)) p id :: trace st
    /\ marked p
    /\ response_msgs r' = (response_msgs r ++ [id])%list.
Proof.
  unfold placeholder.
  destruct (negb (USE_PLAIN_RESPONSES cfg)); simpl.
  - do 4 eexists. split; [reflexivity|]. split; [reflexivity|]. split; [by exists ""|done].
  - do 4 eexists. split; [reflexivity|]. split; [reflexivity|]. split; [by exists ""|done].
Qed.

(** One chunk: what it sends bears the indicator; its edit goes to the
    last message and bears the indicator unless the chunk closes the
    stream. *)
Lemma render_chunk_marks new_msg user_warnings c r (st : State P) :
  List.length (response_msgs r) = List.length (response_contents r) ->
  exists r' st' evs,
    render_chunk cfg w new_msg user_warnings c r st = (Ok r', st')
    /\ trace st' = (rev evs ++ trace st)%list
    /\ Forall (leaves_mark (List.last (response_msgs r') 0)) evs
    /\ (finish_reason c = None -> Forall keeps_mark evs).
Proof.
  intros Hlen. unfold render_chunk, bind.
  assert (H1 : exists r1 st1 evs1,
             match response_contents r with
             | [] => first_segment cfg w new_msg user_warnings r
             | _ => ret r
             end st = (Ok r1, st1)
             /\ trace st1 = (rev evs1 ++ trace st)%list
             /\ Forall keeps_mark evs1 /\ response_msgs r1 <> []).
  { destruct (response_contents r) as [|x l] eqn:Hr.
    - unfold first_segment, bind.
      destruct (placeholder_marks new_msg user_warnings (with_contents [""] r) st)
        as (r1 & st1 & p & id & -> & Ht & Hp & Hm).
      do 2 eexists. eexists [_]. split; [reflexivity|]. simpl.
      split; [exact Ht|]. split; [by repeat constructor|].
      rewrite Hm. apply snoc_not_nil.
    - exists r, st, []. split; [done|]. split; [done|]. split; [constructor|].
      by destruct (response_msgs r). }
  destruct H1 as (r1 & st1 & evs1 & -> & Ht1 & Hk1 & Hne1).
  assert (H2 : exists r2 st2 evs2,
             (if Py.len (List.last (response_contents r1) "" +:+ default "" (delta_content c))
                 >? MAX_MESSAGE_LENGTH cfg
              then next_segment cfg w new_msg r1 else ret r1) st1 = (Ok r2, st2)
             /\ trace st2 = (rev evs2 ++ trace st1)%list
             /\ Forall keeps_mark evs2 /\ response_msgs r2 <> []).
  { destruct (_ >? _).
    - unfold next_segment.
      destruct (placeholder_marks new_msg no_warnings
                  (with_contents (response_contents r1 ++ [""])%list r1) st1)
        as (r2 & st2 & p & id & -> & Ht & Hp & Hm).
      do 2 eexists. eexists [_]. split; [reflexivity|]. simpl.
      split; [exact Ht|]. split; [by repeat constructor|].
      rewrite Hm. apply snoc_not_nil.
    - exists r1, st1, []. split; [done|]. split; [done|]. split; [constructor | exact Hne1]. }
  destruct H2 as (r2 & st2 & evs2 & -> & Ht2 & Hk2 & Hne2).
  set (r3 := with_contents (append_to_last (default "" (delta_content c)) (response_contents r2)) r2).
  assert (Hk12 : Forall keeps_mark (evs1 ++ evs2)) by (by apply Forall_app).
  assert (Hl12 : forall last, Forall (leaves_mark last) (evs1 ++ evs2)).
  { intros last. eapply Forall_impl; [exact Hk12|].
    intros ev He. destruct ev; simpl in *; auto. }
  destruct (should_update_track w (finish_reason c) r3 st2) as (b & st3 & -> & Htr & _).
  destruct b.
  - destruct (push_update_track cfg w (finish_reason c) r3 st3 Hne2)
      as (r4 & st4 & p & -> & Htrace & Hshown & _ & Hm4 & _ & _).
    exists r4, st4, (evs1 ++ evs2 ++ [EvEdit (List.last (response_msgs r3) 0) p])%list.
    split; [done|]. split; [|split].
    + rewrite Htrace, Htr, Ht2, Ht1, !rev_app_distr. simpl. by rewrite <- !app_assoc.
    + rewrite app_assoc. apply Forall_app. split; [apply Hl12|].
      constructor; [|constructor]. right. by rewrite Hm4.
    + intros Hnone. rewrite app_assoc. apply Forall_app. split; [exact Hk12|].
      constructor; [|constructor]. rewrite Hnone in Hshown. simpl in Hshown. by eexists.
  - exists r3, st3, (evs1 ++ evs2)%list. split; [done|]. split; [|split].
    + by rewrite Htr, Ht2, Ht1, rev_app_distr, app_assoc.
    + apply Hl12.
    + by intros _.
Qed.

(** Chunks that do not close the stream. *)
Lemma render_chunks_marks new_msg user_warnings cs :
  Forall (fun c => finish_reason c = None) cs ->
  forall r (st : State P),
    List.length (response_msgs r) = List.length (response_contents r) ->
    exists r' st' evs,
      render_chunks cfg w new_msg user_warnings cs r st = (Ok r', st')
      /\ trace st' = (rev evs ++ trace st)%list
      /\ Forall keeps_mark evs
      /\ List.length (response_msgs r') = List.length (response_contents r').
Proof.
  induction 1 as [|c cs Hc _ IH]; intros r st Hlen; simpl.
  - exists r, st, []. by repeat split.
  - unfold bind.
    destruct (render_chunk_marks new_msg user_warnings c r st Hlen)
      as (r1 & st1 & evs1 & Hrun & Ht1 & _ & Hk1).
    destruct (render_chunk_track cfg w new_msg user_warnings c r st Hlen)
      as (r1' & st1' & Hrun' & _ & Hlen1 & _).
    rewrite Hrun in Hrun'. injection Hrun' as <- <-. rewrite Hrun.
    destruct (IH r1 st1 Hlen1) as (r' & st' & evs & -> & Ht & Hk & Hlen').
    exists r', st', (evs1 ++ evs)%list. split; [done|]. split; [|split; [|exact Hlen']].
    + by rewrite Ht, Ht1, rev_app_distr, app_assoc.
    + apply Forall_app. split; [by apply Hk1 | exact Hk].
Qed.

End Marks.

(** During the streaming every edit goes to the message of the answer
    created last: once a segment is closed and the next message is sent,
    the message of the closed segment is not edited again. *)
Theorem edits_go_to_the_newest_message {P : Type} (cfg : Config) (w : World)
  (new_msg : Message) (user_warnings : Warnings) (messages : list Turn) (st : State P) :
  exists r st' evs,
    generate cfg w new_msg user_warnings messages st = (Ok r, st')
    /\ trace st' = (rev evs ++ trace st)%list
    /\ edits_newest None evs.
Proof.
  destruct (generate_segments cfg w new_msg user_warnings messages st)
    as (r0 & st0 & Hrun & _).
  revert Hrun. unfold generate, bind, emit, modify. simpl.
  match goal with
  | |- context [render_chunks cfg w new_msg user_warnings ?cs no_response ?s] =>
      destruct (render_chunks_track cfg w new_msg user_warnings cs no_response s eq_refl)
        as (r & st1 & -> & (evs & Ht & He & _) & Hlen)
  end.
  simpl in Ht.
  destruct (failure (completions_create w messages)) as [e|].
  - intros _. do 2 eexists.
    exists ([EvTyping (channel_id (channel new_msg)); EvCompletion messages] ++ evs
            ++ [EvLogError ("Error while generating response: " +:+ e);
                EvSend (channel_id (channel new_msg)) (Plain failure_notice)
                  (sent_id w (sent st1))])%list.
    split; [reflexivity|]. split.
    + simpl. rewrite Ht, rev_app_distr. simpl. by rewrite <- !app_assoc.
    + simpl. apply edits_newest_app. split; [exact He | done].
  - destruct (response_msgs r) as [|id ids] eqn:Hmsgs.
    + destruct (response_contents r) as [|c cs] eqn:Hcs; [|discriminate].
      rewrite andb_comm. simpl.
      destruct (USE_PLAIN_RESPONSES cfg); simpl; intros _;
        (exists r, st1, ([EvTyping (channel_id (channel new_msg)); EvCompletion messages]
                         ++ evs)%list;
         split; [reflexivity|]; split;
         [simpl; rewrite Ht; simpl; by rewrite <- !app_assoc | exact He]).
    + rewrite andb_false_r. intros _.
      exists r, st1, ([EvTyping (channel_id (channel new_msg)); EvCompletion messages]
                      ++ evs)%list.
      split; [reflexivity|]. split; [|exact He].
      simpl. rewrite Ht. simpl. by rewrite <- !app_assoc.
Qed.

(** A closed segment keeps the streaming indicator. When no chunk but
    the last closes the stream, every message sent by the renderer (the
    notice of a failure apart) bears the indicator, and so does every
    edit, except an edit of the last message of the answer: the messages
    of the segments closed before are left showing the indicator, with
    the text of the last edit they got, if they got one. *)
Theorem closed_segments_keep_the_indicator {P : Type} (cfg : Config) (w : World)
  (new_msg : Message) (user_warnings : Warnings) (messages : list Turn)
  (cs : list Chunk) (c : Chunk) (st : State P) :
  chunks (completions_create w messages) = (cs ++ [c])%list ->
  Forall (fun c => finish_reason c = None) cs ->
  exists r st' evs,
    generate cfg w new_msg user_warnings messages st = (Ok r, st')
    /\ trace st' = (rev evs ++ trace st)%list
    /\ Forall (leaves_mark (List.last (response_msgs r) 0)) evs.
Proof.
  intros Hchunks Hcs. unfold generate, bind, emit, modify. simpl. rewrite Hchunks.
  match goal with
  | |- context [render_chunks cfg w new_msg user_warnings (cs ++ [c])%list no_response ?s] =>
      rewrite (render_chunks_snoc cfg w new_msg user_warnings cs c no_response s);
      unfold bind;
      destruct (render_chunks_marks cfg w new_msg user_warnings cs Hcs no_response s eq_refl)
        as (r1 & st1 & evs1 & -> & Ht1 & Hk1 & Hlen1)
  end.
  simpl in Ht1.
  destruct (render_chunk_marks cfg w new_msg user_warnings c r1 st1 Hlen1)
    as (r & st2 & evs2 & Hrun & Ht2 & Hl2 & _).
  destruct (render_chunk_track cfg w new_msg user_warnings c r1 st1 Hlen1)
    as (r' & st2' & Hrun' & _ & Hlen & _).
  rewrite Hrun in Hrun'. injection Hrun' as <- <-. rewrite Hrun.
  assert (Hall : Forall (leaves_mark (List.last (response_msgs r) 0))
                   ([EvTyping (channel_id (channel new_msg)); EvCompletion messages]
                    ++ evs1 ++ evs2)).
  { constructor; [exact I|]. constructor; [exact I|]. apply Forall_app. split; [|exact Hl2].
    eapply Forall_impl; [exact Hk1|]. intros ev He. destruct ev; simpl in *; auto. }
  assert (Htrace : trace st2
                   = (rev ([EvTyping (channel_id (channel new_msg)); EvCompletion messages]
                           ++ evs1 ++ evs2) ++ trace st)%list).
  { rewrite Ht2, Ht1. simpl. rewrite rev_app_distr, <- !app_assoc. reflexivity. }
  destruct (failure (completions_create w messages)) as [e|].
  - do 2 eexists.
    exists (([EvTyping (channel_id (channel new_msg)); EvCompletion messages]
             ++ evs1 ++ evs2)
            ++ [EvLogError ("Error while generating response: " +:+ e);
                EvSend (channel_id (channel new_msg)) (Plain failure_notice)
                  (sent_id w (sent st2))])%list.
    split; [reflexivity|]. split.
    + rewrite rev_app_distr. simpl in *. by rewrite Htrace.
    + apply Forall_app. split; [exact Hall|].
      constructor; [exact I|]. constructor; [by right | constructor].
  - destruct (response_msgs r) as [|id ids] eqn:Hmsgs.
    + destruct (response_contents r) as [|x xs] eqn:Hxs; [|discriminate].
      rewrite andb_comm. simpl.
      destruct (USE_PLAIN_RESPONSES cfg); simpl; rewrite ?Hxs; simpl;
        (exists r, st2, ([EvTyping (channel_id (channel new_msg)); EvCompletion messages]
                         ++ evs1 ++ evs2)%list;
         split; [reflexivity|]; split; [exact Htrace|]; by rewrite Hmsgs).
    + rewrite andb_false_r.
      exists r, st2, ([EvTyping (channel_id (channel new_msg)); EvCompletion messages]
                      ++ evs1 ++ evs2)%list.
      split; [reflexivity|]. split; [exact Htrace|]. by rewrite Hmsgs.
Qed.

Lemma closed_segments_keep_the_indicator_witness :
  let cfg := Demo.cfg true "local/llama3" 100 1 10 in
  let w := Cases.frozen [] Cases.long_answer in
  let m := Demo.message 20 Demo.alice "mom, tell me everything" None 100 in
  exists r st',
    generate cfg w m no_warnings [] (Demo.start ∅) = (Ok r, st')
    /\ map Py.len (response_contents r) = [2999; 2]
    /\ rev (trace st')
       = [EvTyping 7; EvCompletion [];
          EvSend 7 (Plain STREAMING_INDICATOR) 1000;
          EvSend 7 (Plain STREAMING_INDICATOR) 1001;
          EvEdit 1001 (Plain "bb")].
Proof.
  intros cfg w m.
  destruct (closed_segments_keep_the_indicator cfg w m no_warnings []
              [Demo.chunk (Demo.run_of "a" 2999)] (Demo.last_chunk "bb") (Demo.start ∅)
              eq_refl ltac:(by repeat constructor))
    as (r & st' & evs & Hrun & _).
  exists r, st'. split; [exact Hrun|].
  vm_compute in Hrun. injection Hrun as <- <-. split; by vm_compute.
Defined.

(** When the last chunk of a stream that does not fail bears a finish
    reason, the last thing the renderer does is to edit the last message
    of the answer so that it shows the last segment as it is, without
    the indicator, in the colour of a complete answer when the reason is
    [stop]. *)
Theorem final_edit_shows_the_last_segment {P : Type} (cfg : Config) (w : World)
  (new_msg : Message) (user_warnings : Warnings) (messages : list Turn)
  (cs : list Chunk) (c : Chunk) (reason : string) (st : State P) :
  chunks (completions_create w messages) = (cs ++ [c])%list ->
  failure (completions_create w messages) = None ->
  finish_reason c = Some reason ->
  reason <> "" ->
  exists r st' p rest,
    generate cfg w new_msg user_warnings messages st = (Ok r, st')
    /\ trace st' = EvEdit (List.last (response_msgs r) 0) p :: rest
    /\ shown p = List.last (response_contents r) ""
    /\ match p with
       | Rich e => embed_color e = if String.eqb reason "stop"
                                   then EMBED_COLOR_COMPLETE else EMBED_COLOR_INCOMPLETE
       | Plain _ => True
       end.
Proof.
  intros Hchunks Hfail Hfinish Hreason.
  unfold generate, bind, emit, modify. simpl. rewrite Hchunks, Hfail.
  match goal with
  | |- context [render_chunks cfg w new_msg user_warnings (cs ++ [c])%list no_response ?s] =>
      rewrite (render_chunks_snoc cfg w new_msg user_warnings cs c no_response s);
      unfold bind;
      destruct (render_chunks_track cfg w new_msg user_warnings cs no_response s eq_refl)
        as (r1 & st1 & -> & _ & Hlen1)
  end.
  destruct (render_chunk_track cfg w new_msg user_warnings c r1 st1 Hlen1)
    as (r & st2 & -> & _ & Hlen & Hlast).
  destruct (Hlast reason Hfinish) as (p & rest & Htrace & Hshown & Hcolor).
  assert (Hne : nonempty reason = true).
  { unfold nonempty. apply String.eqb_neq in Hreason. by rewrite Hreason. }
  rewrite Hne, append_empty_r in Hshown.
  destruct (response_msgs r) as [|id ids] eqn:Hmsgs.
  - destruct (response_contents r) as [|x xs] eqn:Hxs; [|discriminate].
    rewrite andb_comm. simpl.
    destruct (USE_PLAIN_RESPONSES cfg); simpl; rewrite ?Hxs; simpl;
      (exists r, st2, p, rest; rewrite Hmsgs, Hxs; by repeat split).
  - rewrite andb_false_r. exists r, st2, p, rest. rewrite Hmsgs. by repeat split.
Qed.

Lemma final_edit_shows_the_last_segment_witness :
  let cfg := Demo.cfg false "local/llama3" 100 1 10 in
  let w := Demo.world [] Demo.hi_there in
  let m := Demo.message 20 Demo.alice "hello mom" None 100 in
  exists r st' rest,
    generate cfg w m no_warnings [] (Demo.start ∅) = (Ok r, st')
    /\ trace st'
       = EvEdit 1000 (Rich {| embed_description := "Hi there!";
                              embed_color := dark_green;
                              embed_fields := no_warnings |}) :: rest.
Proof.
  intros cfg w m.
  destruct (final_edit_shows_the_last_segment cfg w m no_warnings []
              [Demo.chunk "Hi"; Demo.chunk " there"] (Demo.last_chunk "!") "stop"
              (Demo.start ∅) eq_refl eq_refl eq_refl ltac:(discriminate))
    as (r & st' & p & rest & Hrun & Ht & _).
  exists r, st', rest. split; [exact Hrun|].
  rewrite Ht. vm_compute in Hrun. injection Hrun as <- <-.
  vm_compute in Ht. by injection Ht as <- <-.
Defined.

(** ** The size of the cache *)

Lemma StronglySorted_le_lt (l : list Z) :
  StronglySorted Z.le l -> NoDup l -> StronglySorted Z.lt l.
Proof.
  induction 1 as [|x l _ IH Hx]; intros Hnd; constructor.
  - apply IH. by apply NoDup_cons in Hnd as [_ ?].
  - apply NoDup_cons in Hnd as [Hx' _]. rewrite Forall_forall in *.
    intros y Hy. specialize (Hx y Hy). assert (x <> y) by (by intros ->). lia.
Qed.

(** The keys of a cache, sorted, are its identifiers. *)
Lemma holds_sorted_keys (m : gmap Z MsgNode) : holds_ids m (sorted_keys m).
Proof.
  unfold sorted_keys. split.
  - apply StronglySorted_le_lt.
    + apply StronglySorted_merge_sort; apply _.
    + rewrite merge_sort_Permutation. apply NoDup_elements.
  - intros k. rewrite <- list_elem_of_In, merge_sort_Permutation.
    by rewrite elem_of_elements, elem_of_dom.
Qed.

Lemma in_skipn_in {A} (n : nat) (l : list A) (x : A) : In x (skipn n l) -> In x l.
Proof. intros H. rewrite <- (firstn_skipn n l). apply in_or_app. by right. Qed.

Lemma in_firstn_in {A} (n : nat) (l : list A) (x : A) : In x (firstn n l) -> In x l.
Proof. intros H. rewrite <- (firstn_skipn n l). apply in_or_app. by left. Qed.

Lemma StronglySorted_split (n : nat) (l : list Z) :
  StronglySorted Z.lt l ->
  forall a b, In a (firstn n l) -> In b (skipn n l) -> a < b.
Proof.
  intros H. revert n. induction H as [|x l Hl IH Hx]; intros n a b Ha Hb.
  - by destruct n.
  - destruct n as [|n]; [done|]. simpl in Ha, Hb. destruct Ha as [<-|Ha].
    + rewrite Forall_forall in Hx. apply Hx. apply list_elem_of_In.
      by apply (in_skipn_in n).
    + by apply (IH n).
Qed.

(** The sweep of a cache where no lock is held. *)
Lemma evict_unlocked {P : Type} (st : State P) :
  (forall k node, msg_nodes st !! k = Some node -> lock node = false) ->
  exists st',
    evict st = (Ok tt, st')
    /\ Z.of_nat (base.size (msg_nodes st'))
       = Z.min (Z.of_nat (base.size (msg_nodes st))) MAX_MESSAGE_NODES
    /\ (forall k node, msg_nodes st' !! k = Some node -> msg_nodes st !! k = Some node)
    /\ (forall k k', is_Some (msg_nodes st !! k) -> msg_nodes st' !! k = None ->
                     is_Some (msg_nodes st' !! k') -> k < k')
    /\ trace st' = trace st /\ sent st' = sent st /\ plugin_state st' = plugin_state st.
Proof.
  intros Hfree.
  pose proof (holds_sorted_keys (msg_nodes st)) as Hids.
  set (ids := sorted_keys (msg_nodes st)) in *.
  pose proof (size_holds _ _ Hids) as Hsize.
  destruct (le_lt_dec (List.length ids) (Z.to_nat MAX_MESSAGE_NODES)) as [Hsmall|Hbig].
  - exists st. unfold MAX_MESSAGE_NODES in *. split; [|split; [lia|]].
    + unfold evict, bind, get_state. rewrite Hsize.
      destruct (Z.gtb_spec (Z.of_nat (List.length ids)) MAX_MESSAGE_NODES) as [Hgt|Hle];
        [unfold MAX_MESSAGE_NODES in Hgt; lia | reflexivity].
    + split; [done|]. split; [|done]. intros k k' [n Hn] Hnone _. congruence.
  - set (k := (List.length ids - Z.to_nat MAX_MESSAGE_NODES)%nat).
    assert (Hlen : List.length ids = (Z.to_nat MAX_MESSAGE_NODES + k)%nat) by (unfold k; lia).
    destruct Hids as [Hsorted Hkeys].
    assert (Hvictims : forall v, In v (firstn k ids) -> is_Some (msg_nodes st !! v)).
    { intros v Hv. apply Hkeys. by apply (in_firstn_in k). }
    exists (with_msg_nodes (drop_nodes (firstn k ids)) st). split; [|split; [|split; [|split]]].
    + rewrite (evict_victims ids k st (conj Hsorted Hkeys) Hlen).
      apply evict_loop_free; [|exact Hvictims|].
      * apply StronglySorted_lt_NoDup in Hsorted.
        rewrite <- (firstn_skipn k ids) in Hsorted. by apply NoDup_app in Hsorted as (? & _).
      * intros v node _ Hnode. by apply (Hfree v).
    + simpl. rewrite (size_holds _ _ (holds_ids_drop k ids _ (conj Hsorted Hkeys))).
      rewrite length_skipn, Hsize. unfold MAX_MESSAGE_NODES in *. lia.
    + simpl. intros v node. rewrite lookup_drop_nodes. by case_decide.
    + simpl. intros a b Ha Hnone Hb. rewrite lookup_drop_nodes in Hnone, Hb.
      apply (StronglySorted_split k ids Hsorted).
      * destruct (decide (a ∈ firstn k ids)) as [Hin|_]; [by apply list_elem_of_In|].
        destruct Ha as [n Hn]. congruence.
      * destruct (decide (b ∈ firstn k ids)) as [|Hout]; [by destruct Hb|].
        apply Hkeys in Hb. rewrite <- (firstn_skipn k ids), in_app_iff in Hb.
        destruct Hb as [Hb|Hb]; [|exact Hb]. by apply list_elem_of_In in Hb.
    + by repeat split.
Qed.

(** After a sweep the cache holds at most [MAX_MESSAGE_NODES] nodes.
    With no lock held in the cache, the sweep ends normally; it leaves
    the cache as it is when it holds no more than 100 nodes, and else
    leaves exactly 100 of them, those of the highest identifiers, each
    as it was. *)
Theorem sweep_bounds_the_cache {P : Type} (st : State P) :
  (forall k node, msg_nodes st !! k = Some node -> lock node = false) ->
  exists st',
    evict st = (Ok tt, st')
    /\ Z.of_nat (base.size (msg_nodes st'))
       = Z.min (Z.of_nat (base.size (msg_nodes st))) MAX_MESSAGE_NODES
    /\ (forall k node, msg_nodes st' !! k = Some node -> msg_nodes st !! k = Some node)
    /\ (forall k k', is_Some (msg_nodes st !! k) -> msg_nodes st' !! k = None ->
                     is_Some (msg_nodes st' !! k') -> k < k')
    /\ trace st' = trace st /\ sent st' = sent st /\ plugin_state st' = plugin_state st.
Proof.
  intros Hfree.
  destruct (evict_unlocked st Hfree) as (st' & Hrun & Hsize & Hkept & Hlow & Hrest).
  exists st'. split; [exact Hrun|]. split; [exact Hsize|]. split; [exact Hkept|].
  split; [exact Hlow | exact Hrest].
Qed.

Lemma sweep_bounds_the_cache_witness :
  let st := Demo.start (Demo.cache_of (Demo.ids_from 1 103) (fun _ => false) ∅) in
  exists st',
    evict st = (Ok tt, st')
    /\ base.size (msg_nodes st') = 100%nat
    /\ msg_nodes st' !! 3 = None
    /\ msg_nodes st' !! 4 = Some new_node.
Proof.
  intros st.
  destruct (sweep_bounds_the_cache st) as (st' & Hrun & _).
  { intros k node.
    change (msg_nodes st) with (Demo.cache_of (Demo.ids_from 1 103) (fun _ => false) ∅).
    rewrite cache_of_lookup. case_decide; [by intros [= <-]|].
    rewrite lookup_empty. discriminate. }
  exists st'. split; [exact Hrun|].
  assert (Hst : st' = snd (evict st)) by (by rewrite Hrun).
  rewrite Hst. split; [by vm_compute|]. split; by vm_compute.
Defined.

(** ** The images of a turn *)

Lemma images_of_make_content text images : images_of (make_content text images) = images.
Proof.
  unfold make_content. destruct images as [|u us]; [reflexivity|].
  unfold images_of. rewrite flat_map_app.
  replace (flat_map _ (if nonempty text then [TextPart text] else [])) with (@nil string)
    by (by destruct (nonempty text)).
  simpl. f_equal. induction us as [|x us IH]; [reflexivity|]. simpl. by rewrite IH.
Qed.

Section Images.

Context {P : Type}.
Variable cfg : Config.
Variable w : World.
Variable hooks : PluginHooks P.

(** What a claimed attachment adds: at most one image, and none for a
    model that takes no image. *)
Lemma take_result_images att d g :
  exists added,
    image_parts (take_result cfg att d g) = (image_parts g ++ added)%list
    /\ (List.length added <= 1)%nat
    /\ (LLM_ACCEPTS_IMAGES cfg = false -> added = []).
Proof.
  unfold take_result.
  destruct (dict_get "image_data" d) as [v|].
  - destruct (LLM_ACCEPTS_IMAGES cfg).
    + eexists [_]. split; [|split; [simpl; lia | done]].
      destruct (dict_get "caption" d) as [c|]; [destruct (truthy c)|]; reflexivity.
    + exists []. rewrite app_nil_r. split; [|split; [simpl; lia | done]].
      destruct (dict_get "caption" d) as [c|]; [destruct (truthy c)|]; reflexivity.
  - exists []. rewrite app_nil_r. split; [|split; [simpl; lia | done]].
    destruct (dict_get "caption" d) as [c|]; [destruct (truthy c)|]; reflexivity.
Qed.

Lemma attachment_hooks_result hs att message g (st : State P) :
  exists processed g1 st1,
    attachment_hooks cfg hs att message g st = (Ok (processed, g1), st1)
    /\ (processed = false -> g1 = g)
    /\ (processed = true -> exists d, g1 = take_result cfg att d g).
Proof.
  revert st. induction hs as [|h rest IH]; intros st.
  - exists false, g, st. by repeat split.
  - rewrite attachment_hooks_step.
    destruct (hook_run h (att, LLM_ACCEPTS_IMAGES cfg, message) (plugin_state st))
      as [p' [r|e]]; [|apply IH].
    destruct (claimed r) as [d|]; [|apply IH].
    do 3 eexists. split; [reflexivity|]. split; [done|]. intros _. by exists d.
Qed.

(** One image attachment of a reply or of the current message adds at
    most one image. *)
Lemma image_attachment_images m att g (st : State P) :
  exists g' st' added,
    image_attachment cfg w hooks m att g st = (Ok g', st')
    /\ image_parts g' = (image_parts g ++ added)%list
    /\ (List.length added <= 1)%nat
    /\ (LLM_ACCEPTS_IMAGES cfg = false -> added = []).
Proof.
  unfold image_attachment, bind.
  destruct (attachment_hooks_result (process_attachment hooks) att (Some m) g st)
    as (processed & g1 & st1 & -> & Hno & Hyes).
  destruct processed; simpl.
  - destruct (Hyes eq_refl) as (d & ->).
    destruct (take_result_images att d g) as (added & Hadd & Hlen & Hnone).
    by exists (take_result cfg att d g), st1, added.
  - rewrite (Hno eq_refl). destruct (LLM_ACCEPTS_IMAGES cfg).
    + unfold default_image, bind, emit, modify, ret. do 2 eexists. eexists [_].
      split; [reflexivity|]. split; [reflexivity|]. split; [simpl; lia | done].
    + exists g, st1, []. rewrite app_nil_r. split; [done|]. split; [done|].
      split; [simpl; lia | done].
Qed.

Lemma for_each_image_attachment m atts :
  forall g (st : State P),
    exists g' st' added,
      for_each (image_attachment cfg w hooks m) atts g st = (Ok g', st')
      /\ image_parts g' = (image_parts g ++ added)%list
      /\ (List.length added <= List.length atts)%nat
      /\ (LLM_ACCEPTS_IMAGES cfg = false -> added = []).
Proof.
  induction atts as [|att atts IH]; intros g st; simpl.
  - exists g, st, []. rewrite app_nil_r. by repeat split.
  - unfold bind.
    destruct (image_attachment_images m att g st) as (g1 & st1 & a1 & -> & H1 & Hl1 & Hn1).
    destruct (IH g1 st1) as (g' & st' & a2 & -> & H2 & Hl2 & Hn2).
    exists g', st', (a1 ++ a2)%list. split; [done|]. split; [|split].
    + by rewrite H2, H1, app_assoc.
    + rewrite length_app. lia.
    + intros Hno. by rewrite (Hn1 Hno), (Hn2 Hno).
Qed.

(** The scan of the channel: a callable that claims nothing is followed
    by the handler's own encoding of the image, inside the loop. *)
Lemma attachment_hooks_history_unclaimed hs att :
  Forall claims_nothing hs ->
  forall g (st : State P),
    exists g' st',
      attachment_hooks_history cfg w hs att g st = (Ok g', st')
      /\ text_parts g' = text_parts g
      /\ image_parts g'
         = (image_parts g
            ++ if LLM_ACCEPTS_IMAGES cfg
               then repeat (image_url_part att (http_base64 w (url att))) (List.length hs)
               else [])%list.
Proof.
  induction 1 as [|h rest Hh _ IH]; intros g st.
  - exists g, st. split; [done|]. split; [done|].
    destruct (LLM_ACCEPTS_IMAGES cfg); simpl; by rewrite app_nil_r.
  - simpl attachment_hooks_history. unfold bind at 1. unfold try_except, bind, call.
    specialize (Hh (att, LLM_ACCEPTS_IMAGES cfg, None) (plugin_state st)).
    destruct (hook_run h (att, LLM_ACCEPTS_IMAGES cfg, None) (plugin_state st))
      as [p' [r|e]]; simpl.
    + rewrite Hh. simpl. unfold bind.
      destruct (LLM_ACCEPTS_IMAGES cfg) eqn:Hacc.
      * unfold default_image, bind, emit, modify, ret.
        match goal with
        | |- context [attachment_hooks_history cfg w rest att ?g1 ?s1] =>
            destruct (IH g1 s1) as (g' & st' & -> & Ht & Hi)
        end.
        exists g', st'. split; [done|]. split; [exact Ht|].
        rewrite Hi. simpl. by rewrite <- app_assoc.
      * unfold ret.
        match goal with
        | |- context [attachment_hooks_history cfg w rest att ?g1 ?s1] =>
            destruct (IH g1 s1) as (g' & st' & -> & Ht & Hi)
        end.
        exists g', st'. by repeat split.
    + unfold log_error, emit, modify, ret, bind.
      destruct (LLM_ACCEPTS_IMAGES cfg) eqn:Hacc.
      * unfold default_image, bind, emit, modify, ret.
        match goal with
        | |- context [attachment_hooks_history cfg w rest att ?g1 ?s1] =>
            destruct (IH g1 s1) as (g' & st' & -> & Ht & Hi)
        end.
        exists g', st'. split; [done|]. split; [exact Ht|].
        rewrite Hi. simpl. by rewrite <- app_assoc.
      * match goal with
        | |- context [attachment_hooks_history cfg w rest att ?g1 ?s1] =>
            destruct (IH g1 s1) as (g' & st' & -> & Ht & Hi)
        end.
        exists g', st'. by repeat split.
Qed.

End Images.

Section ImagesOfTurns.

Context {P : Type}.
Variable cfg : Config.
Variable w : World.
Variable hooks : PluginHooks P.

Lemma attachment_hooks_history_no_images hs att :
  LLM_ACCEPTS_IMAGES cfg = false ->
  forall g (st : State P),
    exists g' st',
      attachment_hooks_history cfg w hs att g st = (Ok g', st')
      /\ image_parts g' = image_parts g.
Proof.
  intros Hno. induction hs as [|h rest IH]; intros g st.
  - by exists g, st.
  - simpl attachment_hooks_history. unfold bind at 1. unfold try_except, bind, call.
    destruct (hook_run h (att, LLM_ACCEPTS_IMAGES cfg, None) (plugin_state st))
      as [p' [r|e]]; simpl.
    + destruct (claimed r) as [d|]; simpl.
      * do 2 eexists. split; [reflexivity|].
        destruct (take_result_images cfg att d g) as (added & -> & _ & Hnone).
        by rewrite (Hnone Hno), app_nil_r.
      * unfold bind. rewrite Hno. unfold ret.
        match goal with
        | |- context [attachment_hooks_history cfg w rest att ?g1 ?s1] =>
            destruct (IH g1 s1) as (g' & st' & -> & Hi)
        end.
        by exists g', st'.
    + unfold log_error, emit, modify, ret, bind. rewrite Hno.
      match goal with
      | |- context [attachment_hooks_history cfg w rest att ?g1 ?s1] =>
          destruct (IH g1 s1) as (g' & st' & -> & Hi)
      end.
      by exists g', st'.
Qed.

Lemma for_each_history_no_images atts :
  LLM_ACCEPTS_IMAGES cfg = false ->
  forall g (st : State P),
    exists g' st',
      for_each (attachment_hooks_history cfg w (process_attachment hooks)) atts g st
      = (Ok g', st')
      /\ image_parts g' = image_parts g.
Proof.
  intros Hno. induction atts as [|att atts IH]; intros g st; simpl.
  - by exists g, st.
  - unfold bind.
    destruct (attachment_hooks_history_no_images (process_attachment hooks) att Hno g st)
      as (g1 & st1 & -> & H1).
    destruct (IH g1 st1) as (g' & st' & -> & H2).
    exists g', st'. split; [done | congruence].
Qed.

Lemma attachment_hooks_all_unclaimed hs att message :
  Forall claims_nothing hs ->
  forall g (st : State P),
    exists st1, attachment_hooks cfg hs att message g st = (Ok (false, g), st1).
Proof.
  induction 1 as [|h rest Hh _ IH]; intros g st.
  - by exists st.
  - rewrite attachment_hooks_step.
    specialize (Hh (att, LLM_ACCEPTS_IMAGES cfg, message) (plugin_state st)).
    destruct (hook_run h (att, LLM_ACCEPTS_IMAGES cfg, message) (plugin_state st))
      as [p' [r|e]]; [rewrite Hh|]; apply IH.
Qed.

Lemma length_take {A} (n : Z) (l : list A) :
  0 <= n -> (List.length (Py.take n l) <= Z.to_nat n)%nat.
Proof.
  intros Hn. unfold Py.take. destruct (Z.leb_spec 0 n); [|lia].
  rewrite length_firstn. lia.
Qed.

End ImagesOfTurns.

(** A model that takes no image is sent none: when the name of the
    model is none of those known to accept images, the turn computed for
    a message (a message replied to, a message of the channel, or the
    current one) has a plain text for content, whatever is attached to
    the message and whatever the plug-ins return. *)
Theorem text_only_model_gets_no_image {P : Type} (cfg : Config) (w : World)
  (hooks : PluginHooks P) (m : Message) (effective_content uid : string)
  (node : MsgNode) (st : State P) :
  LLM_ACCEPTS_IMAGES cfg = false ->
  msg_nodes st !! msg_id m = Some node ->
  data node = None ->
  (exists st' node' d s,
      fill_reference_node cfg w hooks m st = (Ok tt, st')
      /\ msg_nodes st' !! msg_id m = Some node' /\ data node' = Some d
      /\ content d = Text s)
  /\ (exists st' node' d s,
         fill_history_node cfg w hooks m st = (Ok tt, st')
         /\ msg_nodes st' !! msg_id m = Some node' /\ data node' = Some d
         /\ content d = Text s)
  /\ (exists warnings st' node' d s,
         fill_current_node cfg w hooks m effective_content uid st = (Ok warnings, st')
         /\ msg_nodes st' !! msg_id m = Some node' /\ data node' = Some d
         /\ content d = Text s).
Proof.
  intros Hno Hnode Hdata. split; [|split].
  - destruct (fill_reference_node_spec cfg w hooks m node st Hnode Hdata)
      as (g & st1 & st' & Hg & Hrun & Hm & _).
    destruct (for_each_image_attachment cfg w hooks m
                (Py.take (MAX_IMAGES cfg) (good_attachments image_type (attachments m)))
                (initial_parts (msg_content m)) st)
      as (g' & st1' & added & Hg' & Hi & _ & Hnone).
    rewrite Hg in Hg'. injection Hg' as <- <-.
    rewrite (Hnone Hno) in Hi. simpl in Hi.
    do 4 eexists. split; [exact Hrun|]. rewrite Hm, lookup_insert_eq.
    split; [reflexivity|]. split; [reflexivity|]. simpl. by rewrite Hi.
  - destruct (fill_history_node_spec cfg w hooks m node st Hnode Hdata)
      as (g & st1 & st' & Hg & Hrun & Hm & _).
    destruct (for_each_history_no_images cfg w hooks
                (Py.take (MAX_IMAGES cfg) (good_attachments image_type (attachments m)))
                Hno (initial_parts (msg_content m)) st)
      as (g' & st1' & Hg' & Hi).
    rewrite Hg in Hg'. injection Hg' as <- <-. simpl in Hi.
    do 4 eexists. split; [exact Hrun|]. rewrite Hm, lookup_insert_eq.
    split; [reflexivity|]. split; [reflexivity|]. simpl. by rewrite Hi.
  - destruct (fill_current_node_spec cfg w hooks m effective_content uid node st Hnode Hdata)
      as (g & st1 & st' & Hg & Hrun & Hm & _).
    destruct (for_each_image_attachment cfg w hooks m
                (Py.take (MAX_IMAGES cfg) (good_attachments image_type (attachments m)))
                (initial_parts effective_content) st)
      as (g' & st1' & added & Hg' & Hi & _ & Hnone).
    rewrite Hg in Hg'. injection Hg' as <- <-.
    rewrite (Hnone Hno) in Hi. simpl in Hi.
    do 5 eexists. split; [exact Hrun|]. rewrite Hm, lookup_insert_eq.
    split; [reflexivity|]. split; [reflexivity|]. simpl. by rewrite Hi.
Qed.

Lemma text_only_model_gets_no_image_witness :
  let cfg := Demo.cfg true "local/llama3" 100 1 10 in
  let w := Demo.world [] Demo.hi_there in
  let m := Demo.with_picture (Demo.message 20 Demo.alice "mom look" None 100) in
  let st := Demo.start {[ 20 := new_node ]} in
  exists warnings st' node',
    fill_current_node cfg w Demo.no_hooks m "mom look" "2" st = (Ok warnings, st')
    /\ msg_nodes st' !! 20 = Some node'
    /\ data node' = Some {| content := Text "mom look"; role := user; name := None |}.
Proof.
  intros cfg w m st.
  destruct (text_only_model_gets_no_image cfg w Demo.no_hooks m "mom look" "2" new_node st
              eq_refl eq_refl eq_refl)
    as (_ & _ & warnings & st' & node' & d & s & Hrun & Hnode & Hdata & _).
  exists warnings, st', node'. split; [exact Hrun|]. split; [exact Hnode|].
  vm_compute in Hrun. injection Hrun as <- <-.
  vm_compute in Hnode. by injection Hnode as <-.
Defined.

(** At most [MAX_IMAGES] images go into the turn of a message replied to
    and into the turn of the current message, when [MAX_IMAGES] is not
    negative: each of the first [MAX_IMAGES] supported image attachments
    gives at most one image, whatever the plug-ins return. *)
Theorem images_are_capped {P : Type} (cfg : Config) (w : World)
  (hooks : PluginHooks P) (m : Message) (effective_content uid : string)
  (node : MsgNode) (st : State P) :
  0 <= MAX_IMAGES cfg ->
  msg_nodes st !! msg_id m = Some node ->
  data node = None ->
  (exists st' node' d,
      fill_reference_node cfg w hooks m st = (Ok tt, st')
      /\ msg_nodes st' !! msg_id m = Some node' /\ data node' = Some d
      /\ Z.of_nat (List.length (images_of (content d))) <= MAX_IMAGES cfg)
  /\ (exists warnings st' node' d,
         fill_current_node cfg w hooks m effective_content uid st = (Ok warnings, st')
         /\ msg_nodes st' !! msg_id m = Some node' /\ data node' = Some d
         /\ Z.of_nat (List.length (images_of (content d))) <= MAX_IMAGES cfg).
Proof.
  intros Hmax Hnode Hdata.
  pose proof (length_take (MAX_IMAGES cfg)
                (good_attachments image_type (attachments m)) Hmax) as Htake.
  split.
  - destruct (fill_reference_node_spec cfg w hooks m node st Hnode Hdata)
      as (g & st1 & st' & Hg & Hrun & Hm & _).
    destruct (for_each_image_attachment cfg w hooks m
                (Py.take (MAX_IMAGES cfg) (good_attachments image_type (attachments m)))
                (initial_parts (msg_content m)) st)
      as (g' & st1' & added & Hg' & Hi & Hlen & _).
    rewrite Hg in Hg'. injection Hg' as <- <-. simpl in Hi.
    do 3 eexists. split; [exact Hrun|]. rewrite Hm, lookup_insert_eq.
    split; [reflexivity|]. split; [reflexivity|].
    simpl. rewrite images_of_make_content, Hi. lia.
  - destruct (fill_current_node_spec cfg w hooks m effective_content uid node st Hnode Hdata)
      as (g & st1 & st' & Hg & Hrun & Hm & _).
    destruct (for_each_image_attachment cfg w hooks m
                (Py.take (MAX_IMAGES cfg) (good_attachments image_type (attachments m)))
                (initial_parts effective_content) st)
      as (g' & st1' & added & Hg' & Hi & Hlen & _).
    rewrite Hg in Hg'. injection Hg' as <- <-. simpl in Hi.
    do 4 eexists. split; [exact Hrun|]. rewrite Hm, lookup_insert_eq.
    split; [reflexivity|]. split; [reflexivity|].
    simpl. rewrite images_of_make_content, Hi. lia.
Qed.

Lemma images_are_capped_witness :
  let cfg := Demo.cfg true "openai/gpt-4o" 100 1 10 in
  let w := Demo.world [] Demo.hi_there in
  let m := Cases.with_pictures 2 (Demo.message 20 Demo.alice "mom look" None 100) in
  let st := Demo.start {[ 20 := new_node ]} in
  exists warnings st' node' d,
    fill_current_node cfg w Demo.no_hooks m "mom look" "2" st = (Ok warnings, st')
    /\ msg_nodes st' !! 20 = Some node' /\ data node' = Some d
    /\ images_of (content d)
       = ["data:image/png;base64,base64 of https://cdn.example/car.png"]
    /\ warn_max_images warnings = true.
Proof.
  intros cfg w m st.
  destruct (images_are_capped cfg w Demo.no_hooks m "mom look" "2" new_node st
              ltac:(by vm_compute) eq_refl eq_refl)
    as (_ & warnings & st' & node' & d & Hrun & Hnode & Hdata & _).
  exists warnings, st', node', d. split; [exact Hrun|]. split; [exact Hnode|].
  split; [exact Hdata|].
  vm_compute in Hrun. injection Hrun as <- <-.
  vm_compute in Hnode. injection Hnode as <-.
  vm_compute in Hdata. injection Hdata as <-. by split.
Defined.

(** The scan of the channel encodes an image once for each callable that
    does not claim it, and not at all when no callable is registered:
    in that copy of the code the handler's own encoding sits inside the
    loop over the callables. With callables that claim nothing and a
    model that takes images, an image attachment of a message of the
    channel gives as many copies of the image as there are callables,
    where the same attachment on the current message, or on a message
    replied to, gives one. *)
Theorem scan_encodes_an_image_once_per_callable {P : Type} (cfg : Config) (w : World)
  (hooks : PluginHooks P) (m : Message) (att : Attachment) (g : Gathered) (st : State P) :
  LLM_ACCEPTS_IMAGES cfg = true ->
  Forall claims_nothing (process_attachment hooks) ->
  let image := image_url_part att (http_base64 w (url att)) in
  (exists g' st',
      attachment_hooks_history cfg w (process_attachment hooks) att g st = (Ok g', st')
      /\ text_parts g' = text_parts g
      /\ image_parts g'
         = (image_parts g ++ repeat image (List.length (process_attachment hooks)))%list)
  /\ (exists g' st',
         image_attachment cfg w hooks m att g st = (Ok g', st')
         /\ text_parts g' = text_parts g
         /\ image_parts g' = (image_parts g ++ [image])%list).
Proof.
  intros Hacc Hnone image. split.
  - destruct (attachment_hooks_history_unclaimed cfg w (process_attachment hooks) att
                Hnone g st) as (g' & st' & Hrun & Ht & Hi).
    exists g', st'. rewrite Hacc in Hi. by repeat split.
  - unfold image_attachment, bind.
    destruct (attachment_hooks_all_unclaimed cfg (process_attachment hooks) att (Some m)
                Hnone g st) as (st1 & ->).
    rewrite Hacc. simpl. unfold default_image, bind, emit, modify, ret.
    do 2 eexists. by repeat split.
Qed.

Lemma scan_encodes_an_image_once_per_callable_witness :
  let cfg := Demo.cfg true "openai/gpt-4o" 100 1 10 in
  let w := Demo.world [] Demo.hi_there in
  let image := "data:image/png;base64,base64 of https://cdn.example/car.png" in
  let m := Demo.message 20 Demo.alice "mom look" None 100 in
  let two := Demo.with_attachment [Demo.returning "tagger" None; Demo.raising "faulty"] in
  (exists st', attachment_hooks_history cfg w (process_attachment two) Demo.picture
                 (initial_parts "look") (Demo.start ∅)
               = (Ok {| text_parts := ["look"]; image_parts := [image; image] |}, st'))
  /\ (exists st', attachment_hooks_history cfg w (process_attachment Demo.no_hooks)
                    Demo.picture (initial_parts "look") (Demo.start ∅)
                  = (Ok {| text_parts := ["look"]; image_parts := [] |}, st'))
  /\ (exists st', image_attachment cfg w two m Demo.picture
                    (initial_parts "look") (Demo.start ∅)
                  = (Ok {| text_parts := ["look"]; image_parts := [image] |}, st')).
Proof.
  intros cfg w image m two.
  destruct (scan_encodes_an_image_once_per_callable cfg w two m Demo.picture
              (initial_parts "look") (Demo.start ∅) eq_refl)
    as ((g2 & st2 & Hrun2 & Ht2 & Hi2) & (g1 & st1 & Hrun1 & Ht1 & Hi1)).
  { repeat constructor; intros a p; reflexivity. }
  destruct (scan_encodes_an_image_once_per_callable cfg w Demo.no_hooks m Demo.picture
              (initial_parts "look") (Demo.start ∅) eq_refl ltac:(constructor))
    as ((g0 & st0 & Hrun0 & Ht0 & Hi0) & _).
  split; [|split].
  - exists st2. rewrite Hrun2. f_equal. f_equal. destruct g2. simpl in *. by rewrite Ht2, Hi2.
  - exists st0. rewrite Hrun0. f_equal. f_equal. destruct g0. simpl in *. by rewrite Ht0, Hi0.
  - exists st1. rewrite Hrun1. f_equal. f_equal. destruct g1. simpl in *. by rewrite Ht1, Hi1.
Defined.

(** ** The context built from a warm cache *)

Lemma unlock_lock (node : MsgNode) :
  lock node = false -> set_lock false (set_lock true node) = node.
Proof. destruct node. simpl. by intros ->. Qed.

Lemma with_trace_same {P : Type} (st : State P) : with_trace (trace st) st = st.
Proof. by destruct st. Qed.

Lemma with_trace_twice {P : Type} evs1 evs2 (st : State P) :
  with_trace (evs2 ++ trace (with_trace (evs1 ++ trace st) st))
    (with_trace (evs1 ++ trace st) st)
  = with_trace ((evs2 ++ evs1) ++ trace st) st.
Proof. destruct st. unfold with_trace. simpl. by rewrite app_assoc. Qed.

Section Warm.

Context {P : Type}.
Variable cfg : Config.
Variable w : World.
Variable hooks : PluginHooks P.

(** Taking and releasing the lock of a node that is free leaves the
    state as it was, when the body does. *)
Lemma with_lock_idle {A} id (body : M P A) a node (st : State P) :
  msg_nodes st !! id = Some node -> lock node = false ->
  body (with_msg_nodes (alter (set_lock true) id) st)
  = (Ok a, with_msg_nodes (alter (set_lock true) id) st) ->
  (do setdefault id ;; with_lock id body) st = (Ok a, st).
Proof.
  intros Hnode Hfree Hbody. unfold bind, setdefault, with_lock. rewrite Hnode.
  simpl. rewrite Hnode. simpl. rewrite Hfree, Hbody. f_equal.
  destruct st as [m ? ? ? ? ? ? ?]. unfold with_msg_nodes. simpl in *. f_equal.
  apply map_eq. intros k. destruct (decide (k = id)) as [->|Hne].
  - rewrite !lookup_alter_eq, Hnode. simpl. by rewrite unlock_lock.
  - by rewrite !lookup_alter_ne.
Qed.

(** A message whose turn is in the cache is not computed again. *)
Lemma revisit_reference ref_msg (st : State P) :
  warm (msg_nodes st) (msg_id ref_msg) ->
  (do setdefault (msg_id ref_msg) ;;
   with_lock (msg_id ref_msg) (fill_reference_node cfg w hooks ref_msg)) st = (Ok tt, st).
Proof.
  intros (node & d & Hnode & Hdata & Hfree).
  apply (with_lock_idle _ _ _ node); [done | done |].
  unfold fill_reference_node, bind, read_node. simpl.
  rewrite lookup_alter_eq, Hnode. simpl. by rewrite Hdata.
Qed.

Lemma revisit_history prev_msg (st : State P) :
  warm (msg_nodes st) (msg_id prev_msg) ->
  (do setdefault (msg_id prev_msg) ;;
   with_lock (msg_id prev_msg) (fill_history_node cfg w hooks prev_msg)) st = (Ok tt, st).
Proof.
  intros (node & d & Hnode & Hdata & Hfree).
  apply (with_lock_idle _ _ _ node); [done | done |].
  unfold fill_history_node, bind, read_node. simpl.
  rewrite lookup_alter_eq, Hnode. simpl. by rewrite Hdata.
Qed.

Lemma revisit_current new_msg effective_content uid (st : State P) :
  warm (msg_nodes st) (msg_id new_msg) ->
  (do setdefault (msg_id new_msg) ;;
   with_lock (msg_id new_msg)
     (fill_current_node cfg w hooks new_msg effective_content uid)) st
  = (Ok no_warnings, st).
Proof.
  intros (node & d & Hnode & Hdata & Hfree).
  apply (with_lock_idle _ _ _ node); [done | done |].
  unfold fill_current_node, bind, read_node. simpl.
  rewrite lookup_alter_eq, Hnode. simpl. by rewrite Hdata.
Qed.

Lemma append_turn_warm id history (st : State P) :
  warm (msg_nodes st) id ->
  append_turn id history st
  = (Ok (history ++ match turn_in (msg_nodes st) id with
                    | Some d => if content_truthy (content d) then [d] else []
                    | None => []
                    end)%list, st).
Proof.
  intros (node & d & Hnode & Hdata & _).
  rewrite (append_turn_spec id history d node st Hnode Hdata).
  unfold turn_in. rewrite Hnode, Hdata.
  destruct (content_truthy (content d)); by rewrite ?app_nil_r.
Qed.

Lemma resolve_trace ref_id (st : State P) :
  exists evs,
    Forall is_read evs
    /\ resolve w ref_id st
       = (match resolved w ref_id with
          | Some m => Ok m
          | None => match fetch_message w ref_id with
                    | FetchHTTPException => Raise HTTPException
                    | _ => Raise NotFound
                    end
          end, with_trace (evs ++ trace st) st).
Proof.
  unfold resolve, resolved. destruct (cached_message w ref_id) as [m|].
  - exists []. split; [constructor|]. unfold ret. simpl app. by rewrite with_trace_same.
  - exists [EvFetch ref_id]. split; [by repeat constructor|].
    unfold bind, emit, modify, ret, raise. by destruct (fetch_message w ref_id).
Qed.

(** The reply walk through messages whose turns are in the cache: only
    the fetches are made. *)
Lemma reply_walk_warm m chain :
  reply_chain w m chain ->
  forall fuel history (st : State P),
    (List.length chain < fuel)%nat ->
    (forall c, In c chain -> warm (msg_nodes st) (msg_id c)) ->
    exists evs,
      Forall is_read evs
      /\ reply_walk cfg w hooks fuel m history st
         = (Ok (history ++ nonempty_turns (msg_nodes st) chain)%list,
            with_trace (evs ++ trace st) st).
Proof.
  induction 1 as [m Href | m ref_id Href Hnone | m ref_id ref_msg rest Href Hsome _ IH];
    intros fuel history st Hfuel Hwarm.
  - exists []. split; [constructor|].
    destruct fuel; simpl; rewrite Href; unfold ret; by rewrite app_nil_r, with_trace_same.
  - destruct fuel as [|fuel]; [simpl in Hfuel; lia|].
    destruct (resolve_trace ref_id st) as (evs & Hevs & Hres). rewrite Hnone in Hres.
    exists evs. split; [exact Hevs|].
    simpl. rewrite Href. unfold bind at 1. unfold try_except_discord. unfold bind at 1.
    rewrite Hres. simpl. rewrite app_nil_r.
    by destruct (fetch_message w ref_id).
  - destruct fuel as [|fuel]; [simpl in Hfuel; lia|].
    destruct (resolve_trace ref_id st) as (evs & Hevs & Hres). rewrite Hsome in Hres.
    assert (Hwarm1 : warm (msg_nodes (with_trace (evs ++ trace st) st)) (msg_id ref_msg)).
    { apply Hwarm. by left. }
    destruct (IH fuel
                (history ++ match turn_in (msg_nodes st) (msg_id ref_msg) with
                            | Some d => if content_truthy (content d) then [d] else []
                            | None => []
                            end)%list
                (with_trace (evs ++ trace st) st))
      as (evs' & Hevs' & Hwalk).
    { simpl in Hfuel. lia. }
    { intros c Hc. apply Hwarm. by right. }
    exists (evs' ++ evs)%list. split; [by apply Forall_app|].
    simpl reply_walk. rewrite Href. unfold bind at 1. unfold try_except_discord.
    unfold bind at 1. rewrite Hres.
    pose proof (revisit_reference ref_msg _ Hwarm1) as Hvisit.
    unfold bind at 1 in Hvisit. unfold bind at 1.
    destruct (setdefault (msg_id ref_msg) (with_trace (evs ++ trace st) st))
      as [[n0| | |] s0]; try discriminate Hvisit.
    unfold bind at 1. rewrite Hvisit.
    unfold bind at 1. rewrite (append_turn_warm _ _ _ Hwarm1). simpl.
    rewrite Hwalk. rewrite with_trace_twice. simpl. by rewrite <- app_assoc.
Qed.

(** The scan of the channel through messages whose turns are in the
    cache: nothing moves. *)
Lemma history_scan_warm msgs new_msg :
  forall history (st : State P),
    let visits := take_while (recent new_msg)
                    (List.filter (fun m => negb (passed_over w m)) msgs) in
    (forall c, In c visits -> warm (msg_nodes st) (msg_id c)) ->
    history_scan cfg w hooks msgs new_msg history st
    = (Ok (history ++ nonempty_turns (msg_nodes st) visits)%list, st).
Proof.
  induction msgs as [|prev_msg rest IH]; intros history st visits Hwarm.
  - simpl. unfold ret. by rewrite app_nil_r.
  - simpl history_scan. unfold visits in *. simpl List.filter in *.
    fold (passed_over w prev_msg) in *.
    destruct (passed_over w prev_msg); simpl negb in *; cbv iota in *.
    + by apply IH.
    + simpl take_while in *. destruct (recent new_msg prev_msg) eqn:Hrecent.
      * unfold recent in Hrecent.
        destruct (created_at new_msg - created_at prev_msg >? recency_window);
          [discriminate|].
        assert (Hwarm1 : warm (msg_nodes st) (msg_id prev_msg)) by (apply Hwarm; by left).
        pose proof (revisit_history prev_msg st Hwarm1) as Hvisit.
        unfold bind at 1 in Hvisit. unfold bind at 1.
        destruct (setdefault (msg_id prev_msg) st) as [[n0| | |] s0];
          try discriminate Hvisit.
        unfold bind at 1. rewrite Hvisit.
        unfold bind at 1. rewrite (append_turn_warm _ _ _ Hwarm1).
        rewrite IH by (intros c Hc; apply Hwarm; by right).
        simpl. by rewrite <- app_assoc.
      * unfold recent in Hrecent.
        destruct (created_at new_msg - created_at prev_msg >? recency_window);
          [|discriminate].
        unfold ret. by rewrite app_nil_r.
Qed.

End Warm.

(** A context built from a warm cache costs nothing but the reads of
    Discord. When the cache holds the turns of the current message and of
    the earlier messages the build goes through (the chain of replies
    for a reply, the messages scanned in the channel otherwise), and no
    lock is held on them, the build returns the same list of messages as
    the cache gives, with no warning, and leaves the state as it was but
    for the fetches added to the trace: no plug-in is called, no
    attachment is downloaded, no node is touched. *)
Theorem warm_cache_is_reused {P : Type} (cfg : Config) (w : World)
  (hooks : PluginHooks P) (fuel : nat) (new_msg : Message)
  (effective_content uid : string) (earlier : list Message) (st : State P) :
  match reference new_msg with
  | Some _ => reply_chain w new_msg earlier /\ (List.length earlier < fuel)%nat
  | None => earlier = scanned cfg w new_msg
  end ->
  (forall c, In c earlier -> warm (msg_nodes st) (msg_id c)) ->
  warm (msg_nodes st) (msg_id new_msg) ->
  exists evs,
    Forall is_read evs
    /\ build_context cfg w hooks fuel new_msg false effective_content uid st
       = (Ok (context_of cfg w (msg_nodes st) earlier new_msg, no_warnings),
          with_trace (evs ++ trace st) st).
Proof.
  intros Hearlier Hwarm Hnew.
  assert (Hhead : exists evs,
             Forall is_read evs
             /\ (if negb false && match reference new_msg with Some _ => true | None => false end
                 then h <- reply_walk cfg w hooks fuel new_msg [] ;; ret (rev h)
                 else if negb false
                 then msgs <- history cfg w new_msg ;;
                      h <- history_scan cfg w hooks msgs new_msg [] ;; ret (rev h)
                 else ret []) st
                = (Ok (rev (nonempty_turns (msg_nodes st) earlier)),
                   with_trace (evs ++ trace st) st)).
  { destruct (reference new_msg) as [ref_id|]; simpl.
    - destruct Hearlier as [Hchain Hfuel].
      destruct (reply_walk_warm cfg w hooks new_msg earlier Hchain fuel [] st Hfuel Hwarm)
        as (evs & Hevs & Hwalk).
      exists evs. split; [exact Hevs|]. unfold bind. by rewrite Hwalk.
    - subst earlier. exists [EvHistory (msg_id new_msg) (MAX_MESSAGES cfg)].
      split; [by repeat constructor|].
      unfold bind at 1. unfold history, bind, emit, modify, ret.
      match goal with
      | |- context [history_scan cfg w hooks ?msgs new_msg [] ?s] =>
          rewrite (history_scan_warm cfg w hooks msgs new_msg [] s Hwarm)
      end.
      reflexivity. }
  destruct Hhead as (evs & Hevs & Hhead). exists evs. split; [exact Hevs|].
  unfold build_context. unfold bind at 1. rewrite Hhead.
  assert (Hnew' : warm (msg_nodes (with_trace (evs ++ trace st) st)) (msg_id new_msg))
    by exact Hnew.
  pose proof (revisit_current cfg w hooks new_msg effective_content uid _ Hnew') as Hvisit.
  unfold bind at 1 in Hvisit. unfold bind at 1.
  destruct (setdefault (msg_id new_msg) (with_trace (evs ++ trace st) st))
    as [[n0| | |] s0]; try discriminate Hvisit.
  unfold bind at 1. rewrite Hvisit.
  unfold bind at 1. rewrite (append_turn_warm _ _ _ Hnew'). unfold ret.
  f_equal. f_equal. unfold context_of. f_equal. f_equal.
  by rewrite nonempty_turns_app, nonempty_turns_rev, nonempty_turns_one.
Qed.

Lemma warm_cache_is_reused_witness :
  let cfg := Demo.cfg true "local/llama3" 100 1 10 in
  let w := Demo.world Demo.replies Demo.hi_there in
  let m := Cases.with_pictures 1 (Demo.message 14 Demo.alice "mom hello" (Some 13) 40) in
  let hooks := Demo.with_attachment [Demo.returning "tagger" None] in
  let st := Demo.start Cases.warm_cache in
  build_context cfg w hooks 4 m false "mom hello" "2" st
  = (Ok ([get_system_prompt cfg w;
          {| content := Text "one"; role := user; name := None |};
          {| content := Text "two"; role := user; name := None |};
          {| content := Text "three"; role := user; name := None |};
          {| content := Text "mom hello"; role := user; name := None |}], no_warnings),
     with_trace [EvFetch 11; EvFetch 12; EvFetch 13] st).
Proof.
  intros cfg w m hooks st.
  destruct (warm_cache_is_reused cfg w hooks 4 m "mom hello" "2" Demo.replies st)
    as (evs & _ & Hrun).
  - split; [|simpl; lia].
    eapply chain_link; [reflexivity | reflexivity |].
    eapply chain_link; [reflexivity | reflexivity |].
    eapply chain_link; [reflexivity | reflexivity |].
    by apply chain_ends.
  - intros c [<-|[<-|[<-|[]]]].
    + exists (Cases.said "three"), {| content := Text "three"; role := user; name := None |}.
      by repeat split.
    + exists (Cases.said "two"), {| content := Text "two"; role := user; name := None |}.
      by repeat split.
    + exists (Cases.said "one"), {| content := Text "one"; role := user; name := None |}.
      by repeat split.
  - exists (Cases.said "mom hello"),
      {| content := Text "mom hello"; role := user; name := None |}.
    by repeat split.
  - rewrite Hrun. vm_compute in Hrun. by vm_compute.
Defined.

(** ** What a computation adds to the trace *)

Section Adds.

Context {P : Type}.
Variable ok : Event -> Prop.

Lemma adds_ret {A} (a : A) : adds (P := P) ok (ret a).
Proof. intros st. by exists []. Qed.

Lemma adds_raise {A} e : adds (P := P) (A := A) ok (raise e).
Proof. intros st. by exists []. Qed.

Lemma adds_out_of_fuel {A} : adds (P := P) (A := A) ok out_of_fuel.
Proof. intros st. by exists []. Qed.

Lemma adds_get_state : adds (P := P) ok get_state.
Proof. intros st. by exists []. Qed.

Lemma adds_bind {A B} (c : M P A) (k : A -> M P B) :
  adds ok c -> (forall a, adds ok (k a)) -> adds ok (bind c k).
Proof.
  intros Hc Hk st. unfold bind. destruct (Hc st) as (evs1 & Ht1 & Hf1).
  destruct (c st) as [[a|e|id|] st1]; simpl in *; try (by exists evs1).
  destruct (Hk a st1) as (evs2 & Ht2 & Hf2).
  exists (evs2 ++ evs1)%list. rewrite Ht2, Ht1, app_assoc. split; [done|].
  by apply Forall_app.
Qed.

Lemma adds_modify (f : State P -> State P) :
  (forall st, trace (f st) = trace st) -> adds ok (modify f).
Proof. intros Hf st. exists []. simpl. by rewrite Hf. Qed.

Lemma adds_emit ev : ok ev -> adds (P := P) ok (emit ev).
Proof. intros Hev st. exists [ev]. split; [done | by repeat constructor]. Qed.

Lemma adds_try_except {A} (body : M P A) (handler : Exn -> M P A) :
  adds ok body -> (forall e, adds ok (handler e)) -> adds ok (try_except body handler).
Proof.
  intros Hb Hh st. unfold try_except. destruct (Hb st) as (evs1 & Ht1 & Hf1).
  destruct (body st) as [[a|e|id|] st1]; simpl in *; try (by exists evs1).
  destruct (Hh e st1) as (evs2 & Ht2 & Hf2).
  exists (evs2 ++ evs1)%list. rewrite Ht2, Ht1, app_assoc. split; [done|].
  by apply Forall_app.
Qed.

Lemma adds_try_except_discord {A} (body : M P A) (handler : M P A) :
  adds ok body -> adds ok handler -> adds ok (try_except_discord body handler).
Proof.
  intros Hb Hh st. unfold try_except_discord. destruct (Hb st) as (evs1 & Ht1 & Hf1).
  destruct (body st) as [[a|e|id|] st1]; simpl in *; try (by exists evs1).
  destruct (Hh st1) as (evs2 & Ht2 & Hf2).
  destruct e; simpl; try (by exists evs1);
    (exists (evs2 ++ evs1)%list; rewrite Ht2, Ht1, app_assoc; split; [done|];
     by apply Forall_app).
Qed.

Lemma adds_setdefault id : adds (P := P) ok (setdefault id).
Proof. intros st. exists []. unfold setdefault. by destruct (msg_nodes st !! id). Qed.

Lemma adds_read_node id : adds (P := P) ok (read_node id).
Proof. intros st. by exists []. Qed.

Lemma adds_update_node id f : adds (P := P) ok (update_node id f).
Proof. by apply adds_modify. Qed.

Lemma adds_with_lock {A} id (body : M P A) : adds ok body -> adds ok (with_lock id body).
Proof.
  intros Hb st. unfold with_lock.
  destruct (lock (default new_node (msg_nodes st !! id))); [by exists []|].
  destruct (Hb (with_msg_nodes (alter (set_lock true) id) st)) as (evs & Ht & Hf).
  exists evs. split; [|done].
  by destruct (body _) as [[a|e|k|] st1].
Qed.

Lemma adds_call {A R} point (h : Hook P A R) a :
  ok (EvHook point (hook_name h)) -> adds ok (call point h a).
Proof.
  intros Hev st. exists [EvHook point (hook_name h)]. unfold call.
  destruct (hook_run h a (plugin_state st)) as [p' [r|e]];
    (split; [done | by repeat constructor]).
Qed.

Lemma adds_log_error text : ok (EvLogError text) -> adds (P := P) ok (log_error text).
Proof. apply adds_emit. Qed.

Lemma adds_for_each {A} (body : A -> Gathered -> M P Gathered) l :
  (forall x g, adds ok (body x g)) -> forall g, adds ok (for_each body l g).
Proof.
  intros Hb. induction l as [|x l IH]; intros g; simpl.
  - apply adds_ret.
  - apply adds_bind; [apply Hb | apply IH].
Qed.

(** A weaker description of the events is a description too. *)
Lemma adds_weaken {A} (ok' : Event -> Prop) (c : M P A) :
  (forall ev, ok' ev -> ok ev) -> adds ok' c -> adds ok c.
Proof.
  intros Himpl Hc st. destruct (Hc st) as (evs & Ht & Hf). exists evs. split; [done|].
  eapply Forall_impl; [exact Hf | exact Himpl].
Qed.

End Adds.

Create HintDb adds.

#[local] Hint Resolve adds_ret adds_raise adds_out_of_fuel adds_get_state adds_setdefault
  adds_read_node adds_update_node : adds.

(** One step through the structure of a computation. *)
Ltac adds_step :=
  match goal with
  | |- adds _ (bind _ _) => apply adds_bind; [|intros ?]
  | |- adds _ (try_except _ _) => apply adds_try_except; [|intros ?]
  | |- adds _ (try_except_discord _ _) => apply adds_try_except_discord
  | |- adds _ (with_lock _ _) => apply adds_with_lock
  | |- adds _ (log_error _) => apply adds_log_error; exact I
  | |- adds _ (emit _) => apply adds_emit; exact I
  | |- adds _ (call _ _ _) => apply adds_call; reflexivity
  | |- adds _ (if ?b then _ else _) => destruct b
  | |- adds _ (match ?x with _ => _ end) => destruct x
  | |- adds _ _ => solve [auto with adds]
  end.

Section ContextReads.

Context {P : Type}.
Variable cfg : Config.
Variable w : World.
Variable hooks : PluginHooks P.

Lemma adds_resolve ref_id : adds (P := P) context_event (resolve w ref_id).
Proof. unfold resolve. repeat adds_step. Qed.

Lemma adds_default_image att g : adds (P := P) context_event (default_image w att g).
Proof. unfold default_image. repeat adds_step. Qed.

Lemma adds_attachment_hooks hs att message g :
  adds (P := P) context_event (attachment_hooks cfg hs att message g).
Proof. induction hs as [|h rest IH]; simpl; repeat adds_step; apply IH. Qed.

Lemma adds_image_attachment m att g :
  adds context_event (image_attachment cfg w hooks m att g).
Proof.
  unfold image_attachment. apply adds_bind; [apply adds_attachment_hooks|].
  intros [processed g']. destruct (negb processed && LLM_ACCEPTS_IMAGES cfg);
    [apply adds_default_image | apply adds_ret].
Qed.

Lemma adds_attachment_hooks_history hs att :
  forall g, adds (P := P) context_event (attachment_hooks_history cfg w hs att g).
Proof.
  induction hs as [|h rest IH]; intros g; simpl; [apply adds_ret|].
  apply adds_bind; [repeat adds_step|].
  intros [g'|]; [apply adds_ret|].
  apply adds_bind; [|intros ?; apply IH].
  destruct (LLM_ACCEPTS_IMAGES cfg); [apply adds_default_image | apply adds_ret].
Qed.

Lemma adds_attachment_texts atts : adds (P := P) context_event (attachment_texts w atts).
Proof.
  induction atts as [|att atts IH]; simpl; [apply adds_ret|].
  destruct (size att <=? 10000000); [|exact IH].
  apply adds_bind; [apply adds_emit; exact I|]. intros _.
  apply adds_bind; [exact IH | intros ?; apply adds_ret].
Qed.

Lemma adds_finish_text m g : adds (P := P) context_event (finish_text cfg w m g).
Proof.
  unfold finish_text. apply adds_bind; [apply adds_attachment_texts|].
  intros texts. destruct (_ >? _); apply adds_ret.
Qed.

Lemma adds_fill_reference_node ref_msg :
  adds context_event (fill_reference_node cfg w hooks ref_msg).
Proof.
  unfold fill_reference_node. apply adds_bind; [apply adds_read_node|].
  intros node. destruct (data node); [apply adds_ret|].
  apply adds_bind; [apply adds_for_each; intros; apply adds_image_attachment|].
  intros g. apply adds_bind; [apply adds_finish_text|].
  intros [text cut]. repeat adds_step.
Qed.

Lemma adds_fill_history_node prev_msg :
  adds context_event (fill_history_node cfg w hooks prev_msg).
Proof.
  unfold fill_history_node. apply adds_bind; [apply adds_read_node|].
  intros node. destruct (data node); [apply adds_ret|].
  apply adds_bind; [apply adds_for_each; intros; apply adds_attachment_hooks_history|].
  intros g. apply adds_bind; [apply adds_finish_text|].
  intros [text cut]. repeat adds_step.
Qed.

Lemma adds_fill_current_node new_msg effective_content uid :
  adds context_event (fill_current_node cfg w hooks new_msg effective_content uid).
Proof.
  unfold fill_current_node. apply adds_bind; [apply adds_read_node|].
  intros node. destruct (data node); [apply adds_ret|].
  apply adds_bind; [apply adds_for_each; intros; apply adds_image_attachment|].
  intros g. apply adds_bind; [apply adds_finish_text|].
  intros [text cut]. repeat adds_step.
Qed.

Lemma adds_append_turn id history : adds (P := P) context_event (append_turn id history).
Proof. unfold append_turn. repeat adds_step. Qed.

Lemma adds_reply_walk fuel :
  forall current_msg history,
    adds context_event (reply_walk cfg w hooks fuel current_msg history).
Proof.
  induction fuel as [|fuel IH]; intros current_msg history; simpl.
  - destruct (reference current_msg); auto with adds.
  - destruct (reference current_msg) as [ref_id|]; [|apply adds_ret].
    apply adds_bind.
    + apply adds_try_except_discord; [|apply adds_ret].
      apply adds_bind; [apply adds_resolve|]. intros ref_msg.
      apply adds_bind; [apply adds_setdefault|]. intros _.
      apply adds_bind; [apply adds_with_lock, adds_fill_reference_node|]. intros _.
      apply adds_bind; [apply adds_append_turn | intros ?; apply adds_ret].
    + intros [[ref_msg history']|]; [apply IH | apply adds_ret].
Qed.

Lemma adds_history_scan msgs new_msg :
  forall history, adds context_event (history_scan cfg w hooks msgs new_msg history).
Proof.
  induction msgs as [|prev_msg rest IH]; intros history; simpl; [apply adds_ret|].
  destruct (_ && _); [apply IH|].
  destruct (_ >? _); [apply adds_ret|].
  apply adds_bind; [apply adds_setdefault|]. intros _.
  apply adds_bind; [apply adds_with_lock, adds_fill_history_node|]. intros _.
  apply adds_bind; [apply adds_append_turn | intros ?; apply IH].
Qed.

Lemma adds_build_context fuel new_msg ignore_history effective_content uid :
  adds context_event
    (build_context cfg w hooks fuel new_msg ignore_history effective_content uid).
Proof.
  unfold build_context. apply adds_bind.
  - destruct (_ && _).
    + apply adds_bind; [apply adds_reply_walk | intros ?; apply adds_ret].
    + destruct (negb ignore_history); [|apply adds_ret].
      apply adds_bind.
      * unfold history. apply adds_bind; [apply adds_emit; exact I | intros ?; apply adds_ret].
      * intros msgs. apply adds_bind; [apply adds_history_scan | intros ?; apply adds_ret].
  - intros history. apply adds_bind; [apply adds_setdefault|]. intros _.
    apply adds_bind; [apply adds_with_lock, adds_fill_current_node|]. intros warnings.
    apply adds_bind; [apply adds_append_turn | intros ?; apply adds_ret].
Qed.

End ContextReads.

(** The context build sends nothing and does not call the model. In
    every run, whatever the cache holds, whatever the plug-ins do and
    however the run ends (normally, on an exception, suspended on a
    lock), what the build adds to the trace are calls of
    [process_attachment], lines of the log, reads of Discord and
    downloads of attachments. *)
Theorem context_build_only_reads {P : Type} (cfg : Config) (w : World)
  (hooks : PluginHooks P) (fuel : nat) (new_msg : Message) (ignore_history : bool)
  (effective_content uid : string) (st : State P) :
  exists evs,
    trace (snd (build_context cfg w hooks fuel new_msg ignore_history
                  effective_content uid st))
    = (evs ++ trace st)%list
    /\ Forall context_event evs.
Proof.
  destruct (adds_build_context cfg w hooks fuel new_msg ignore_history effective_content
              uid st) as (evs & Htrace & Hevs).
  exists evs. split; [exact Htrace | exact Hevs].
Qed.

(** ** From a message to its answer *)

Lemma unlocked_free (m : gmap Z MsgNode) : unlocked m <-> forall k, free m k.
Proof.
  unfold unlocked, free. split.
  - intros H k. destruct (m !! k) as [node|] eqn:Hk; simpl; [by apply (H k) | done].
  - intros H k node Hk. specialize (H k). by rewrite Hk in H.
Qed.

Lemma completions_app evs t :
  Forall not_completion evs -> completions (evs ++ t) = completions t.
Proof.
  intros H. unfold completions. rewrite rev_app_distr, flat_map_app.
  replace (flat_map _ (rev evs)) with (@nil (list Turn)); [by rewrite app_nil_r|].
  symmetry. apply Forall_rev in H. induction H as [|ev l Hev _ IH]; [done|].
  simpl. rewrite IH. by destruct ev.
Qed.

Lemma completions_cons messages t :
  completions (EvCompletion messages :: t) = (completions t ++ [messages])%list.
Proof. unfold completions. simpl. by rewrite flat_map_app. Qed.

Section Answer.

Context {P : Type}.
Variable cfg : Config.
Variable w : World.
Variable hooks : PluginHooks P.

(** The context build from a cache where no lock is held. *)
Lemma build_context_unlocked fuel new_msg effective_content uid earlier (st : State P) :
  match reference new_msg with
  | Some _ => reply_chain w new_msg earlier /\ (List.length earlier < fuel)%nat
  | None => earlier = scanned cfg w new_msg
  end ->
  unlocked (msg_nodes st) ->
  exists warnings st',
    build_context cfg w hooks fuel new_msg false effective_content uid st
    = (Ok (context_of cfg w (msg_nodes st') earlier new_msg, warnings), st')
    /\ unlocked (msg_nodes st')
    /\ (forall c, In c (earlier ++ [new_msg]) ->
                  is_Some (turn_in (msg_nodes st') (msg_id c))).
Proof.
  intros Hearlier Hfree. rewrite unlocked_free in Hfree.
  assert (Hhead : exists st1,
             (if negb false && match reference new_msg with Some _ => true | None => false end
              then h <- reply_walk cfg w hooks fuel new_msg [] ;; ret (rev h)
              else if negb false
              then msgs <- history cfg w new_msg ;;
                   h <- history_scan cfg w hooks msgs new_msg [] ;; ret (rev h)
              else ret []) st
             = (Ok (rev (nonempty_turns (msg_nodes st1) earlier)), st1)
             /\ (forall c, In c earlier -> is_Some (turn_in (msg_nodes st1) (msg_id c)))
             /\ (forall k, free (msg_nodes st1) k)).
  { destruct (reference new_msg) as [ref_id|]; simpl.
    - destruct Hearlier as [Hchain Hfuel].
      destruct (reply_walk_spec cfg w hooks new_msg earlier Hchain fuel [] st Hfuel
                  (fun c _ => Hfree (msg_id c)))
        as (st1 & Hwalk & _ & Hall & Hfree1 & _).
      exists st1. split; [|split; [exact Hall | intros k; apply Hfree1, Hfree]].
      unfold bind. by rewrite Hwalk.
    - subst earlier.
      set (st0 := with_trace (EvHistory (msg_id new_msg) (MAX_MESSAGES cfg) :: trace st) st).
      destruct (history_scan_spec cfg w hooks
                  (firstn (Z.to_nat (MAX_MESSAGES cfg)) (channel_history w new_msg))
                  new_msg [] st0 (fun c _ => Hfree (msg_id c)))
        as (st1 & Hscan & _ & Hall & Hfree1).
      exists st1. split; [|split; [exact Hall | intros k; apply Hfree1, Hfree]].
      assert (Hhistory : history cfg w new_msg st
                         = (Ok (firstn (Z.to_nat (MAX_MESSAGES cfg))
                                  (channel_history w new_msg)), st0)) by reflexivity.
      rewrite (bind_ok _ _ _ _ _ Hhistory), (bind_ok _ _ _ _ _ Hscan). reflexivity. }
  destruct Hhead as (st1 & Hhead & Hall1 & Hfree1).
  destruct (visit (fill_current_node cfg w hooks new_msg effective_content uid)
              (msg_id new_msg) (rev (nonempty_turns (msg_nodes st1) earlier)) st1
              (fill_current_node_fills cfg w hooks new_msg effective_content uid)
              (Hfree1 _))
    as (warnings & st' & d & Hvisit & Hturn & Happend & Hkeeps & Hfree_new & Hother).
  exists warnings, st'. split; [|split].
  - unfold build_context. rewrite (bind_ok _ _ _ _ _ Hhead).
    rewrite (bind_run _ _ _ _ _ _ Hvisit). unfold bind at 1. rewrite Happend. unfold ret.
    f_equal. f_equal. unfold context_of. f_equal. f_equal.
    rewrite nonempty_turns_app, nonempty_turns_rev, nonempty_turns_one, Hturn.
    rewrite (nonempty_turns_keeps _ _ _ Hkeeps Hall1).
    by destruct (content_truthy (content d)); rewrite ?app_nil_r.
  - apply unlocked_free. intros k. destruct (decide (k = msg_id new_msg)) as [->|Hne].
    + exact Hfree_new.
    + unfold free. rewrite (Hother k Hne). apply Hfree1.
  - intros c [Hc|[<-|[]]]%in_app_or.
    + destruct (Hall1 c Hc) as [d' Hd']. rewrite (Hkeeps _ _ Hd'). eauto.
    + rewrite Hturn. eauto.
Qed.

(** The callables of [before_llm_call] leave the cache as it is and do
    not call the model. *)
Lemma before_hooks_outside hs messages m (st : State P) :
  exists messages' st' evs,
    before_hooks hs messages m st = (Ok messages', st')
    /\ outside_only st st'
    /\ trace st' = (evs ++ trace st)%list
    /\ Forall not_completion evs.
Proof.
  revert messages st. induction hs as [|h rest IH]; intros messages st.
  - exists messages, st, []. repeat split; auto.
  - rewrite before_hooks_step.
    destruct (before_run h messages m (plugin_state st)) as [[p' in_place] [[[|t ts]|]|e]].
    + destruct (IH in_place (called "before_llm_call" (before_name h) p' st))
        as (ms & st' & evs & Hrun & Ho & Ht & Hf).
      exists ms, st', (evs ++ [EvHook "before_llm_call" (before_name h)])%list.
      split; [exact Hrun|].
      split; [eapply outside_only_trans; [apply outside_only_called | exact Ho]|].
      split; [rewrite Ht; simpl; by rewrite <- app_assoc|].
      apply Forall_app. split; [done | by repeat constructor].
    + destruct (IH (t :: ts) (called "before_llm_call" (before_name h) p' st))
        as (ms & st' & evs & Hrun & Ho & Ht & Hf).
      exists ms, st', (evs ++ [EvHook "before_llm_call" (before_name h)])%list.
      split; [exact Hrun|].
      split; [eapply outside_only_trans; [apply outside_only_called | exact Ho]|].
      split; [rewrite Ht; simpl; by rewrite <- app_assoc|].
      apply Forall_app. split; [done | by repeat constructor].
    + destruct (IH in_place (called "before_llm_call" (before_name h) p' st))
        as (ms & st' & evs & Hrun & Ho & Ht & Hf).
      exists ms, st', (evs ++ [EvHook "before_llm_call" (before_name h)])%list.
      split; [exact Hrun|].
      split; [eapply outside_only_trans; [apply outside_only_called | exact Ho]|].
      split; [rewrite Ht; simpl; by rewrite <- app_assoc|].
      apply Forall_app. split; [done | by repeat constructor].
    + destruct (IH in_place
                  (logged ("Error in before_llm_call hook: " +:+ exn_text e)
                     (called "before_llm_call" (before_name h) p' st)))
        as (ms & st' & evs & Hrun & Ho & Ht & Hf).
      exists ms, st',
        (evs ++ [EvLogError ("Error in before_llm_call hook: " +:+ exn_text e);
                 EvHook "before_llm_call" (before_name h)])%list.
      split; [exact Hrun|].
      split; [eapply outside_only_trans; [|exact Ho];
              eapply outside_only_trans; [apply outside_only_called | apply outside_only_logged]|].
      split; [rewrite Ht; simpl; by rewrite <- app_assoc|].
      apply Forall_app. split; [done | by repeat constructor].
Qed.

(** The renderer from a cache where no lock is held: it calls the model
    once and leaves no lock held. *)
Lemma render_unlocked new_msg user_warnings messages (st : State P) :
  (forall i j, sent_id w i = sent_id w j -> i = j) ->
  unlocked (msg_nodes st) ->
  exists full st' evs,
    render cfg w hooks new_msg user_warnings messages st = (Ok full, st')
    /\ unlocked (msg_nodes st')
    /\ trace st' = (evs ++ EvCompletion messages
                        :: EvTyping (channel_id (channel new_msg)) :: trace st)%list
    /\ Forall not_completion evs.
Proof.
  intros Hinj Hfree.
  destruct (generate_spec cfg w new_msg user_warnings messages st)
    as (r & st1 & streamed & Hgen & Hfull & Hmsgs & Hnodes & Hplug & Htrace & Hstreamed).
  destruct (after_hooks_events (after_llm_response hooks) new_msg
              (Py.concat (response_contents r)) st1)
    as (st2 & later & Hafter & (Hn2 & _) & Ht2 & Hlater).
  destruct (finish_nodes_spec (response_msgs r)
              (response_data cfg w (Py.concat (response_contents r))) st2)
    as (st' & Hfinish & Hin & Hout & Ht3 & _).
  { rewrite Hmsgs. by apply ids_sent_NoDup. }
  { intros id Hid. rewrite Hn2, Hnodes. by apply with_locked_nodes_in. }
  exists (Py.concat (response_contents r)), st',
    (later ++ closing w new_msg (completions_create w messages)
                (sent st + List.length (response_msgs r)) ++ streamed)%list.
  split; [|split; [|split]].
  - unfold render, bind. by rewrite Hgen, Hafter, Hfinish.
  - intros k node Hk. destruct (in_dec Z.eq_dec k (response_msgs r)) as [Hr|Hr].
    + rewrite (Hin k Hr) in Hk. by injection Hk as <-.
    + rewrite (Hout k Hr), Hn2, Hnodes, (with_locked_nodes_other _ _ _ Hr) in Hk.
      by apply (Hfree k).
  - rewrite Ht3, Ht2, Htrace. simpl. by rewrite <- !app_assoc.
  - apply Forall_app. split.
    + eapply Forall_impl; [exact Hlater|]. intros ev He. by destruct ev.
    + apply Forall_app. split.
      * unfold closing. destruct (failure (completions_create w messages));
          by repeat constructor.
      * eapply Forall_impl; [exact Hstreamed|]. intros ev He. by destruct ev.
Qed.

End Answer.

(** A message addressed to the bot gets its answer. Take a message of
    another user that is no command and no comment, that no callable of
    [on_message_received] stops, that addresses the bot (by a mention, by
    the name of the bot or the word [mom], by a reply to the bot, or by
    being the fiftieth message counted) and that passes the permissions.
    With no lock held in the cache, enough fuel for its chain of replies
    and distinct identifiers for the messages the bot sends, the handler
    returns normally; it has called the model exactly once, with the
    list the context build made ([earlier] being the chain of replies,
    or the messages scanned in the channel) as the callables of
    [before_llm_call] left it; at the end no lock is held and the cache
    holds at most [MAX_MESSAGE_NODES] nodes. *)
Theorem addressed_message_is_answered {P : Type} (cfg : Config) (w : World)
  (hooks : PluginHooks P) (fuel : nat) (m : Message) (earlier : list Message)
  (st st1 : State P) :
  user_id (author m) <> user_id (bot_user w) ->
  Py.startswith (msg_content m) "//" = false ->
  Py.startswith (msg_content m) "!" = false ->
  received_hooks (on_message_received hooks) m
    (with_MESSAGE_COUNT (MESSAGE_COUNT st + 1) st) = (Ok false, st1) ->
  Z_in (user_id (bot_user w)) (mentions m) = true
  \/ re_search_word w (user_name (bot_user w)) (msg_content m) = true
  \/ re_search_word w "mom" (msg_content m) = true
  \/ replies_to_bot w m = true
  \/ (MESSAGE_COUNT st + 1) mod SPEAK_EVERY_TURNS = 0 ->
  ALLOWED_CHANNEL_IDS cfg = []
  \/ string_in (Py.str (channel_id (channel m))) (ALLOWED_CHANNEL_IDS cfg) = true ->
  ALLOWED_ROLE_IDS cfg = [] \/ roles (author m) = None
  \/ (exists rs, roles (author m) = Some rs
                 /\ existsb (fun r => Z_in r (ALLOWED_ROLE_IDS cfg)) rs = true) ->
  existsb (channel_type_eqb (channel_type (channel m))) ALLOWED_CHANNEL_TYPES = true ->
  match reference m with
  | Some _ => reply_chain w m earlier /\ (List.length earlier < fuel)%nat
  | None => earlier = scanned cfg w m
  end ->
  unlocked (msg_nodes st) ->
  (forall i j, sent_id w i = sent_id w j -> i = j) ->
  exists st2 messages st3 st',
    (forall c, In c (earlier ++ [m]) -> is_Some (turn_in (msg_nodes st2) (msg_id c)))
    /\ before_hooks (before_llm_call hooks) (context_of cfg w (msg_nodes st2) earlier m) m st2
       = (Ok messages, st3)
    /\ on_message cfg w hooks fuel m st = (Ok tt, st')
    /\ completions (trace st') = (completions (trace st) ++ [messages])%list
    /\ unlocked (msg_nodes st')
    /\ Z.of_nat (base.size (msg_nodes st')) <= MAX_MESSAGE_NODES.
Proof.
  intros Hauthor Hcomment Hbang Hrun Haddressed Hchannel Hrole Htype Hearlier Hfree Hinj.
  destruct (received_hooks_outside (on_message_received hooks) m
              (with_MESSAGE_COUNT (MESSAGE_COUNT st + 1) st))
    as (stop & st1' & evs1 & Hrun' & Ho1 & Ht1 & Hf1).
  rewrite Hrun in Hrun'. injection Hrun' as <- <-.
  destruct Ho1 as (Hn1 & _ & _ & Hm1 & _). simpl in Hn1, Hm1, Ht1.
  destruct (reply_check w m st1) as (st1b & evs2 & Hcheck & Ho2 & _ & Ht2 & Hg2).
  destruct Ho2 as (Hn2 & _ & _ & Hm2 & _).
  assert (Hfree2 : unlocked (msg_nodes st1b)) by (by rewrite Hn2, Hn1).
  destruct (build_context_unlocked cfg w hooks fuel m (msg_content m)
              (Py.str (user_id (author m))) earlier st1b Hearlier Hfree2)
    as (warnings & st2 & Hbuild & Hfree3 & Hturns).
  destruct (adds_build_context cfg w hooks fuel m false (msg_content m)
              (Py.str (user_id (author m))) st1b) as (evs3 & Ht3 & Hf3).
  rewrite Hbuild in Ht3. simpl in Ht3.
  destruct (before_hooks_outside (before_llm_call hooks)
              (context_of cfg w (msg_nodes st2) earlier m) m st2)
    as (messages & st3 & evs4 & Hbefore & Ho4 & Ht4 & Hf4).
  destruct Ho4 as (Hn4 & _).
  assert (Hfree4 : unlocked (msg_nodes st3)) by (by rewrite Hn4).
  destruct (render_unlocked cfg w hooks m warnings messages st3 Hinj Hfree4)
    as (full & st4 & evs5 & Hrender & Hfree5 & Ht5 & Hf5).
  destruct (evict_unlocked st4 Hfree5)
    as (st' & Hevict & Hsize & Hkept & _ & Ht6 & _).
  exists st2, messages, st3, st'.
  split; [exact Hturns|]. split; [exact Hbefore|]. split; [|split; [|split]].
  - rewrite (on_message_after_hooks cfg w hooks fuel m false st st1 Hauthor Hrun).
    rewrite Hcomment, Hbang.
    unfold respond. unfold bind at 1. rewrite Hcheck.
    unfold bind at 1. unfold get_state.
    rewrite (not_bang_not_new _ Hbang).
    assert (Htrigger :
              Z_in (user_id (bot_user w)) (mentions m)
              || re_search_word w (user_name (bot_user w)) (msg_content m)
              || re_search_word w "mom" (msg_content m)
              || replies_to_bot w m
              || (MESSAGE_COUNT st1b mod SPEAK_EVERY_TURNS =? 0) = true).
    { rewrite Hm2, Hm1.
      destruct Haddressed as [->|[->|[->|[->|Hfifty]]]];
        rewrite ?orb_true_r; try reflexivity.
      apply Z.eqb_eq in Hfifty. rewrite Hfifty. by rewrite orb_true_r. }
    match goal with
    | |- (if negb ?c then _ else _) _ = _ =>
        assert (Hc : c = true);
        [|rewrite Hc; cbn [negb]]
    end.
    { apply orb_true_iff in Htrigger as [Hfour|Hfifty];
        [rewrite orb_false_r, Hfour | rewrite Hfifty, orb_true_r]; reflexivity. }
    match goal with
    | |- (if ?c then _ else _) _ = _ =>
        assert (Hc1 : c = false); [|rewrite Hc1]
    end.
    { destruct Hchannel as [->| ->]; [reflexivity | by rewrite andb_false_r]. }
    match goal with
    | |- (if ?c then _ else _) _ = _ =>
        assert (Hc2 : c = false); [|rewrite Hc2]
    end.
    { destruct Hrole as [->|[->|(rs & -> & ->)]]; [reflexivity | | ];
        by destruct (ALLOWED_ROLE_IDS cfg). }
    rewrite Htype. cbn [negb].
    unfold bind at 1. rewrite Hbuild.
    unfold bind at 1. rewrite Hbefore.
    unfold bind at 1. rewrite Hrender. exact Hevict.
  - rewrite Ht6, Ht5.
    rewrite (completions_app _ _ Hf5), completions_cons. f_equal.
    change (EvTyping (channel_id (channel m)) :: trace st3)
      with ([EvTyping (channel_id (channel m))] ++ trace st3)%list.
    rewrite completions_app by (by repeat constructor).
    rewrite Ht4, (completions_app _ _ Hf4), Ht3.
    rewrite completions_app by (eapply Forall_impl; [exact Hf3|]; intros ev He; by destruct ev).
    rewrite Ht2.
    rewrite completions_app by (eapply Forall_impl; [exact Hg2|]; intros ev He; by destruct ev).
    rewrite Ht1.
    rewrite completions_app by (eapply Forall_impl; [exact Hf1|]; intros ev He; by destruct ev).
    reflexivity.
  - intros k node Hk. by apply (Hfree5 k), Hkept.
  - rewrite Hsize. lia.
Qed.

Lemma addressed_message_is_answered_witness :
  let cfg := Demo.cfg true "local/llama3" 100 1 10 in
  let w := Demo.world Demo.chatter Demo.hi_there in
  let m := Demo.message 20 Demo.alice "mom hello" None 100 in
  exists st',
    on_message cfg w Demo.no_hooks 0 m (Demo.start ∅) = (Ok tt, st')
    /\ completions (trace st')
       = [[get_system_prompt cfg w;
           {| content := Text "earlier"; role := user; name := None |};
           {| content := Text "hi all"; role := user; name := None |};
           {| content := Text "mom hello"; role := user; name := None |}]]
    /\ msg_nodes st' !! 1000
       = Some (set_data (Some {| content := Text "Hi there!"; role := assistant;
                                 name := None |}) new_node).
Proof.
  intros cfg w m.
  destruct (addressed_message_is_answered cfg w Demo.no_hooks 0 m (scanned cfg w m)
              (Demo.start ∅) (with_MESSAGE_COUNT 1 (Demo.start ∅)))
    as (st2 & messages & st3 & st' & _ & _ & Hrun & _).
  - vm_compute. discriminate.
  - reflexivity.
  - reflexivity.
  - reflexivity.
  - right. right. left. reflexivity.
  - by left.
  - by left.
  - reflexivity.
  - reflexivity.
  - intros k node. simpl. rewrite lookup_empty. discriminate.
  - intros i j Hij. simpl in Hij. lia.
  - exists st'. split; [exact Hrun|].
    vm_compute in Hrun. injection Hrun as <-. split; by vm_compute.
Defined.

(** ** The loops over the callables that have no [break] *)

Section EveryCallable.

Context {P : Type}.
Variable w : World.

Lemma ready_hooks_calls_all hs (st : State P) :
  exists st',
    ready_hooks w hs st = (Ok tt, st')
    /\ calls_of "on_bot_ready" (trace st')
       = (calls_of "on_bot_ready" (trace st) ++ map hook_name hs)%list.
Proof.
  revert st. induction hs as [|h rest IH]; intros st.
  - exists st. split; [done|]. by rewrite app_nil_r.
  - rewrite ready_hooks_step.
    destruct (hook_run h (bot_user w) (plugin_state st)) as [p' [r|e]].
    + destruct (IH (called "on_bot_ready" (hook_name h) p' st)) as (st' & -> & Hc).
      exists st'. split; [done|]. rewrite Hc. unfold called. simpl.
      by rewrite calls_of_hook, <- app_assoc.
    + destruct (IH (logged ("Error in on_bot_ready hook: " +:+ exn_text e)
                      (called "on_bot_ready" (hook_name h) p' st))) as (st' & -> & Hc).
      exists st'. split; [done|]. rewrite Hc. unfold logged, called. simpl.
      by rewrite calls_of_log, calls_of_hook, <- app_assoc.
Qed.

Lemma before_hooks_calls_all hs messages m (st : State P) :
  exists messages' st',
    before_hooks hs messages m st = (Ok messages', st')
    /\ calls_of "before_llm_call" (trace st')
       = (calls_of "before_llm_call" (trace st) ++ map before_name hs)%list.
Proof.
  revert messages st. induction hs as [|h rest IH]; intros messages st.
  - exists messages, st. split; [done|]. by rewrite app_nil_r.
  - rewrite before_hooks_step.
    destruct (before_run h messages m (plugin_state st)) as [[p' in_place] [[[|t ts]|]|e]].
    + destruct (IH in_place (called "before_llm_call" (before_name h) p' st))
        as (ms & st' & -> & Hc).
      exists ms, st'. split; [done|]. rewrite Hc. unfold called. simpl.
      by rewrite calls_of_hook, <- app_assoc.
    + destruct (IH (t :: ts) (called "before_llm_call" (before_name h) p' st))
        as (ms & st' & -> & Hc).
      exists ms, st'. split; [done|]. rewrite Hc. unfold called. simpl.
      by rewrite calls_of_hook, <- app_assoc.
    + destruct (IH in_place (called "before_llm_call" (before_name h) p' st))
        as (ms & st' & -> & Hc).
      exists ms, st'. split; [done|]. rewrite Hc. unfold called. simpl.
      by rewrite calls_of_hook, <- app_assoc.
    + destruct (IH in_place
                  (logged ("Error in before_llm_call hook: " +:+ exn_text e)
                     (called "before_llm_call" (before_name h) p' st)))
        as (ms & st' & -> & Hc).
      exists ms, st'. split; [done|]. rewrite Hc. unfold logged, called. simpl.
      by rewrite calls_of_log, calls_of_hook, <- app_assoc.
Qed.

Lemma after_hooks_calls_all hs m full (st : State P) :
  exists st',
    after_hooks hs m full st = (Ok tt, st')
    /\ calls_of "after_llm_response" (trace st')
       = (calls_of "after_llm_response" (trace st) ++ map hook_name hs)%list.
Proof.
  revert st. induction hs as [|h rest IH]; intros st.
  - exists st. split; [done|]. by rewrite app_nil_r.
  - rewrite after_hooks_step.
    destruct (hook_run h (m, full) (plugin_state st)) as [p' [r|e]].
    + destruct (IH (called "after_llm_response" (hook_name h) p' st)) as (st' & -> & Hc).
      exists st'. split; [done|]. rewrite Hc. unfold called. simpl.
      by rewrite calls_of_hook, <- app_assoc.
    + destruct (IH (logged ("Error in after_llm_response hook: " +:+ exn_text e)
                      (called "after_llm_response" (hook_name h) p' st)))
        as (st' & -> & Hc).
      exists st'. split; [done|]. rewrite Hc. unfold logged, called. simpl.
      by rewrite calls_of_log, calls_of_hook, <- app_assoc.
Qed.

End EveryCallable.

(** On [on_bot_ready], [before_llm_call] and [after_llm_response] every
    registered callable is called, once, in the order of registration,
    whatever the callables before it returned or raised: these loops
    have no [break]. After the callables of [on_bot_ready], [on_ready]
    starts the birthday task. *)
Theorem loops_without_break_call_every_callable {P : Type} (w : World)
  (hooks : PluginHooks P) (st : State P) :
  (exists st' rest,
      on_ready w hooks st = (Ok tt, st')
      /\ calls_of "on_bot_ready" (trace st')
         = (calls_of "on_bot_ready" (trace st) ++ map hook_name (on_bot_ready hooks))%list
      /\ trace st' = EvCreateTask "birthday_checker" :: rest)
  /\ (forall messages m,
         exists messages' st',
           before_hooks (before_llm_call hooks) messages m st = (Ok messages', st')
           /\ calls_of "before_llm_call" (trace st')
              = (calls_of "before_llm_call" (trace st)
                 ++ map before_name (before_llm_call hooks))%list)
  /\ (forall m full,
         exists st',
           after_hooks (after_llm_response hooks) m full st = (Ok tt, st')
           /\ calls_of "after_llm_response" (trace st')
              = (calls_of "after_llm_response" (trace st)
                 ++ map hook_name (after_llm_response hooks))%list).
Proof.
  split; [|split].
  - destruct (ready_hooks_calls_all w (on_bot_ready hooks) st) as (st1 & Hrun & Hc).
    unfold on_ready, bind. rewrite Hrun.
    do 2 eexists. split; [reflexivity|]. split; [|reflexivity].
    simpl. unfold calls_of in *. simpl. rewrite flat_map_app. simpl.
    rewrite app_nil_r. exact Hc.
  - intros messages m. apply before_hooks_calls_all.
  - intros m full. apply after_hooks_calls_all.
Qed.

(** ** The attachments that are downloaded *)

Lemma good_attachments_supported t atts att :
  In att (good_attachments t atts) -> In att atts /\ supported att.
Proof.
  unfold good_attachments. rewrite filter_In. intros [Hin Hgood]. split; [exact Hin|].
  destruct (content_type att) as [ct|] eqn:Hct; [|discriminate].
  apply andb_prop in Hgood as [[_ Hkind]%andb_prop Hsize]. apply Z.leb_le in Hsize.
  exists ct. split; [done|]. split; [|exact Hsize].
  destruct t; [by left | by right].
Qed.

Lemma in_take {A} (n : Z) (l : list A) (x : A) : In x (Py.take n l) -> In x l.
Proof. unfold Py.take. destruct (0 <=? n); apply in_firstn_in. Qed.

Section Downloads.

Context {P : Type}.
Variable cfg : Config.
Variable w : World.
Variable hooks : PluginHooks P.
Variable m : Message.

Lemma adds_for_each_in {A} (ok : Event -> Prop) (body : A -> Gathered -> M P Gathered) l :
  (forall x g, In x l -> adds ok (body x g)) -> forall g, adds ok (for_each body l g).
Proof.
  induction l as [|x l IH]; intros Hb g; simpl.
  - apply adds_ret.
  - apply adds_bind; [apply Hb; by left|]. intros g'. apply IH. intros y g'' Hy.
    apply Hb. by right.
Qed.

Lemma downloads_default_image att g :
  In att (attachments m) -> supported att ->
  adds (P := P) (downloads_from m) (default_image w att g).
Proof.
  intros Hin Hs. unfold default_image.
  apply adds_bind; [|intros ?; apply adds_ret]. apply adds_emit. simpl. by exists att.
Qed.

Lemma downloads_attachment_hooks hs att message g :
  adds (P := P) (downloads_from m) (attachment_hooks cfg hs att message g).
Proof.
  induction hs as [|h rest IH]; simpl; [apply adds_ret|].
  apply adds_bind.
  - apply adds_try_except.
    + apply adds_bind; [by apply adds_call|]. intros r. destruct (claimed r); apply adds_ret.
    + intros e. apply adds_bind; [by apply adds_log_error | intros ?; apply adds_ret].
  - intros [g'|]; [apply adds_ret | exact IH].
Qed.

Lemma downloads_image_attachment message att g :
  In att (attachments m) -> supported att ->
  adds (downloads_from m) (image_attachment cfg w hooks message att g).
Proof.
  intros Hin Hs. unfold image_attachment.
  apply adds_bind; [apply downloads_attachment_hooks|].
  intros [processed g']. destruct (negb processed && LLM_ACCEPTS_IMAGES cfg);
    [by apply downloads_default_image | apply adds_ret].
Qed.

Lemma downloads_attachment_hooks_history hs att :
  In att (attachments m) -> supported att ->
  forall g, adds (P := P) (downloads_from m) (attachment_hooks_history cfg w hs att g).
Proof.
  intros Hin Hs. induction hs as [|h rest IH]; intros g; simpl; [apply adds_ret|].
  apply adds_bind.
  - apply adds_try_except.
    + apply adds_bind; [by apply adds_call|]. intros r. destruct (claimed r); apply adds_ret.
    + intros e. apply adds_bind; [by apply adds_log_error | intros ?; apply adds_ret].
  - intros [g'|]; [apply adds_ret|].
    apply adds_bind; [|intros ?; apply IH].
    destruct (LLM_ACCEPTS_IMAGES cfg); [by apply downloads_default_image | apply adds_ret].
Qed.

Lemma downloads_attachment_texts atts :
  (forall att, In att atts -> In att (attachments m) /\ supported att) ->
  adds (P := P) (downloads_from m) (attachment_texts w atts).
Proof.
  induction atts as [|att atts IH]; intros Hall; simpl; [apply adds_ret|].
  assert (Hrest : adds (P := P) (downloads_from m) (attachment_texts w atts)).
  { apply IH. intros a Ha. apply Hall. by right. }
  destruct (size att <=? 10000000); [|exact Hrest].
  apply adds_bind.
  - apply adds_emit. simpl. exists att. destruct (Hall att (or_introl eq_refl)). by repeat split.
  - intros _. apply adds_bind; [exact Hrest | intros ?; apply adds_ret].
Qed.

Lemma downloads_finish_text g : adds (P := P) (downloads_from m) (finish_text cfg w m g).
Proof.
  unfold finish_text. apply adds_bind.
  - apply downloads_attachment_texts. intros att. apply good_attachments_supported.
  - intros texts. destruct (_ >? _); apply adds_ret.
Qed.

Lemma downloads_images (body : Attachment -> Gathered -> M P Gathered) g :
  (forall att g, In att (attachments m) -> supported att ->
                 adds (downloads_from m) (body att g)) ->
  adds (downloads_from m)
    (for_each body (Py.take (MAX_IMAGES cfg) (good_attachments image_type (attachments m))) g).
Proof.
  intros Hbody. apply adds_for_each_in. intros att g' Hatt.
  apply in_take, good_attachments_supported in Hatt as [Hin Hs]. by apply Hbody.
Qed.

End Downloads.

(** The handler downloads supported attachments only. Whatever the
    plug-ins do and however the run ends, every download made while the
    turn of a message is computed (for a message replied to, a message
    of the channel or the current one) is the download of an attachment
    of that message that has a content type naming an image or a text
    and is no larger than 10 MB; and nothing is sent and the model is
    not called meanwhile. *)
Theorem only_supported_attachments_are_downloaded {P : Type} (cfg : Config) (w : World)
  (hooks : PluginHooks P) (m : Message) (effective_content uid : string) (st : State P) :
  (exists evs,
      trace (snd (fill_reference_node cfg w hooks m st)) = (evs ++ trace st)%list
      /\ Forall (downloads_from m) evs)
  /\ (exists evs,
         trace (snd (fill_history_node cfg w hooks m st)) = (evs ++ trace st)%list
         /\ Forall (downloads_from m) evs)
  /\ (exists evs,
         trace (snd (fill_current_node cfg w hooks m effective_content uid st))
         = (evs ++ trace st)%list
         /\ Forall (downloads_from m) evs).
Proof.
  split; [|split].
  - revert st. change (adds (downloads_from m) (fill_reference_node cfg w hooks m)).
    unfold fill_reference_node. apply adds_bind; [apply adds_read_node|].
    intros node. destruct (data node); [apply adds_ret|].
    apply adds_bind.
    { apply downloads_images. intros att g Hin Hs. by apply downloads_image_attachment. }
    intros g. apply adds_bind; [apply downloads_finish_text|].
    intros [text cut]. apply adds_bind; [|intros ?; apply adds_update_node].
    destruct cut; [apply adds_update_node | apply adds_ret].
  - revert st. change (adds (downloads_from m) (fill_history_node cfg w hooks m)).
    unfold fill_history_node. apply adds_bind; [apply adds_read_node|].
    intros node. destruct (data node); [apply adds_ret|].
    apply adds_bind.
    { apply downloads_images. intros att g Hin Hs. by apply downloads_attachment_hooks_history. }
    intros g. apply adds_bind; [apply downloads_finish_text|].
    intros [text cut]. apply adds_bind; [|intros ?; apply adds_update_node].
    destruct cut; [apply adds_update_node | apply adds_ret].
  - revert st.
    change (adds (downloads_from m) (fill_current_node cfg w hooks m effective_content uid)).
    unfold fill_current_node. apply adds_bind; [apply adds_read_node|].
    intros node. destruct (data node); [apply adds_ret|].
    apply adds_bind.
    { apply downloads_images. intros att g Hin Hs. by apply downloads_image_attachment. }
    intros g. apply adds_bind; [apply downloads_finish_text|].
    intros [text cut]. apply adds_bind.
    { destruct cut; [apply adds_update_node | apply adds_ret]. }
    intros _. apply adds_bind; [apply adds_update_node|]. intros _.
    apply adds_bind; [apply adds_update_node|]. intros _.
    apply adds_bind; [apply adds_update_node | intros ?; apply adds_ret].
Qed.

(** ** The warnings shown to the user *)

Section WarningsShown.

Context {P : Type}.
Variable cfg : Config.
Variable w : World.

Hypothesis plain : USE_PLAIN_RESPONSES cfg = true.

Lemma placeholder_plain new_msg fields r :
  placeholder (P := P) cfg w new_msg fields r = placeholder cfg w new_msg no_warnings r.
Proof using plain. unfold placeholder. by rewrite plain. Qed.

Lemma render_chunk_plain new_msg user_warnings c r :
  render_chunk (P := P) cfg w new_msg user_warnings c r
  = render_chunk cfg w new_msg no_warnings c r.
Proof using plain.
  unfold render_chunk. destruct (response_contents r); [|reflexivity].
  unfold first_segment. by rewrite placeholder_plain.
Qed.

Lemma render_chunks_plain new_msg user_warnings cs :
  forall r (st : State P),
    render_chunks cfg w new_msg user_warnings cs r st
    = render_chunks cfg w new_msg no_warnings cs r st.
Proof using plain.
  induction cs as [|c cs IH]; intros r st; [reflexivity|].
  simpl. unfold bind. rewrite render_chunk_plain.
  destruct (render_chunk cfg w new_msg no_warnings c r st) as [[r'| | |] st']; auto.
Qed.

End WarningsShown.

Lemma bind_assoc {P A B C} (c : M P A) (k : A -> M P B) (g : B -> M P C) (st : State P) :
  bind (bind c k) g st = bind c (fun a => bind (k a) g) st.
Proof. unfold bind. by destruct (c st) as [[a| | |] st1]. Qed.

Section AnyEvent.

Context {P : Type}.
Variable cfg : Config.
Variable w : World.

Lemma adds_send ch p : adds (P := P) any_event (send w ch p).
Proof. intros st. eexists [_]. split; [reflexivity | by repeat constructor]. Qed.

Lemma adds_now : adds (P := P) any_event (now w).
Proof. intros st. by exists []. Qed.

Lemma adds_task_done : adds (P := P) any_event (task_done w).
Proof. intros st. by exists []. Qed.

Lemma adds_placeholder new_msg fields r :
  adds (P := P) any_event (placeholder cfg w new_msg fields r).
Proof.
  unfold placeholder, new_locked_node.
  destruct (negb (USE_PLAIN_RESPONSES cfg));
    (apply adds_bind; [apply adds_send|]; intros id;
     apply adds_bind; [by apply adds_modify | intros ?; apply adds_ret]).
Qed.

Lemma adds_should_update finish r : adds (P := P) any_event (should_update w finish r).
Proof.
  unfold should_update. destruct finish; [apply adds_ret|].
  apply adds_bind; [destruct (edit_task r); [apply adds_task_done | apply adds_ret]|].
  intros [|]; [|apply adds_ret].
  apply adds_bind; [apply adds_now|]. intros t.
  apply adds_bind; [apply adds_get_state | intros ?; apply adds_ret].
Qed.

Lemma adds_push_update finish r : adds (P := P) any_event (push_update cfg w finish r).
Proof.
  unfold push_update.
  destruct (negb (USE_PLAIN_RESPONSES cfg));
    (apply adds_bind; [by apply adds_emit|]; intros _;
     apply adds_bind; [apply adds_now|]; intros t;
     apply adds_bind; [by apply adds_modify | intros ?; apply adds_ret]).
Qed.

(** The body of the loop once the first segment is there. *)
Lemma adds_render_rest new_msg c r1 :
  adds (P := P) any_event
    (r2 <- (if Py.len (List.last (response_contents r1) "" +:+ default "" (delta_content c))
               >? MAX_MESSAGE_LENGTH cfg
            then next_segment cfg w new_msg r1 else ret r1) ;;
     let r3 := with_contents (append_to_last (default "" (delta_content c))
                                (response_contents r2)) r2 in
     update <- should_update w (finish_reason c) r3 ;;
     if update : bool then push_update cfg w (finish_reason c) r3 else ret r3).
Proof.
  apply adds_bind.
  - destruct (_ >? _); [apply adds_placeholder | apply adds_ret].
  - intros r2. apply adds_bind; [apply adds_should_update|].
    intros [|]; [apply adds_push_update | apply adds_ret].
Qed.

Lemma adds_render_chunk new_msg user_warnings c r :
  adds (P := P) any_event (render_chunk cfg w new_msg user_warnings c r).
Proof.
  unfold render_chunk. apply adds_bind.
  - destruct (response_contents r); [|apply adds_ret].
    unfold first_segment. apply adds_bind; [apply adds_placeholder|]. intros r'.
    apply adds_bind; [apply adds_now|]. intros t.
    apply adds_bind; [by apply adds_modify | intros ?; apply adds_ret].
  - intros r1. apply adds_render_rest.
Qed.

Lemma adds_render_chunks new_msg user_warnings cs :
  forall r, adds (P := P) any_event (render_chunks cfg w new_msg user_warnings cs r).
Proof.
  induction cs as [|c cs IH]; intros r; simpl; [apply adds_ret|].
  apply adds_bind; [apply adds_render_chunk | exact IH].
Qed.

Lemma adds_plain_messages new_msg contents :
  forall r, adds (P := P) any_event (plain_messages w new_msg contents r).
Proof.
  induction contents as [|c cs IH]; intros r; simpl; [apply adds_ret|].
  apply adds_bind; [apply adds_send|]. intros id.
  apply adds_bind; [by apply adds_modify | intros ?; apply IH].
Qed.

End AnyEvent.

(** With plain responses the warnings are never shown: the renderer
    does the same, to the last event, whatever warnings the context
    build raised (text cut, too many images, unsupported attachments).
    With embeds they are the fields of the first message of the answer,
    as it is first sent, which is the first thing the renderer does
    after the call to the model when the stream brings a chunk. *)
Theorem plain_responses_drop_the_warnings {P : Type} (cfg : Config) (w : World)
  (new_msg : Message) (user_warnings : Warnings) (messages : list Turn) (st : State P) :
  (USE_PLAIN_RESPONSES cfg = true ->
   generate cfg w new_msg user_warnings messages st
   = generate cfg w new_msg no_warnings messages st)
  /\ (USE_PLAIN_RESPONSES cfg = false ->
      chunks (completions_create w messages) <> [] ->
      exists later,
        trace (snd (generate cfg w new_msg user_warnings messages st))
        = (later
           ++ EvSend (channel_id (channel new_msg))
                (Rich {| embed_description := STREAMING_INDICATOR;
                         embed_color := EMBED_COLOR_INCOMPLETE;
                         embed_fields := user_warnings |})
                (sent_id w (sent st))
           :: EvCompletion messages :: EvTyping (channel_id (channel new_msg))
           :: trace st)%list).
Proof.
  split.
  - intros Hplain. unfold generate, bind, emit, modify. simpl.
    by rewrite (render_chunks_plain cfg w Hplain new_msg user_warnings).
  - intros Hrich Hchunks.
    destruct (chunks (completions_create w messages)) as [|c cs] eqn:Hcs; [done|].
    set (stT := with_trace (EvTyping (channel_id (channel new_msg)) :: trace st) st).
    set (st0 := with_trace (EvCompletion messages :: trace stT) stT).
    assert (Hfirst : exists r1 st1,
               first_segment cfg w new_msg user_warnings no_response st0 = (Ok r1, st1)
               /\ trace st1
                  = EvSend (channel_id (channel new_msg))
                      (Rich {| embed_description := STREAMING_INDICATOR;
                               embed_color := EMBED_COLOR_INCOMPLETE;
                               embed_fields := user_warnings |})
                      (sent_id w (sent st))
                    :: EvCompletion messages :: EvTyping (channel_id (channel new_msg))
                    :: trace st).
    { unfold first_segment, placeholder. rewrite Hrich. cbn [negb].
      unfold bind, emit, modify, send, new_locked_node, now, modify, ret.
      do 2 eexists. split; reflexivity. }
    destruct Hfirst as (r1 & st1 & Hfirst & Ht1).
    unfold generate. rewrite Hcs.
    rewrite (bind_ok (emit (EvTyping (channel_id (channel new_msg)))) _ st stT tt eq_refl).
    rewrite (bind_ok (emit (EvCompletion messages)) _ stT st0 tt eq_refl).
    simpl render_chunks. unfold render_chunk at 1. simpl response_contents. cbv iota.
    rewrite !bind_assoc. rewrite (bind_ok _ _ _ _ _ Hfirst).
    match goal with
    | |- context [trace (snd (?c st1))] =>
        assert (Hc : adds any_event c); [|destruct (Hc st1) as (later & Hlater & _)]
    end.
    { apply adds_bind; [apply adds_render_rest|].
      intros r'. apply adds_bind; [apply adds_render_chunks|]. intros r.
      destruct (failure _).
      - apply adds_bind; [by apply adds_log_error|]. intros _.
        apply adds_bind; [apply adds_send | intros ?; apply adds_ret].
      - destruct (_ && _); [apply adds_plain_messages | apply adds_ret]. }
    exists later. by rewrite Hlater, Ht1.
Qed.

Lemma plain_responses_drop_the_warnings_witness :
  let w := Demo.world [] Demo.hi_there in
  let m := Demo.message 20 Demo.alice "hello mom" None 100 in
  let warnings := {| warn_max_text := true; warn_max_images := false;
                     warn_unsupported := true |} in
  generate (Demo.cfg true "local/llama3" 100 1 10) w m warnings [] (Demo.start ∅)
  = generate (Demo.cfg true "local/llama3" 100 1 10) w m no_warnings [] (Demo.start ∅)
  /\ exists later,
       trace (snd (generate (Demo.cfg false "local/llama3" 100 1 10) w m warnings []
                     (Demo.start ∅)))
       = (later
          ++ [EvSend 7 (Rich {| embed_description := STREAMING_INDICATOR;
                                embed_color := EMBED_COLOR_INCOMPLETE;
                                embed_fields := warnings |}) 1000;
              EvCompletion []; EvTyping 7])%list.
Proof.
  intros w m warnings. split.
  - destruct (plain_responses_drop_the_warnings (Demo.cfg true "local/llama3" 100 1 10)
                w m warnings [] (Demo.start ∅)) as [Hplain _].
    by apply Hplain.
  - destruct (plain_responses_drop_the_warnings (Demo.cfg false "local/llama3" 100 1 10)
                w m warnings [] (Demo.start ∅)) as [_ Hrich].
    destruct (Hrich eq_refl ltac:(discriminate)) as (later & Hlater).
    exists later. exact Hlater.
Defined.

(** ** The loader *)

Section LoaderFacts.
Context {P : Type}.
Implicit Types (reg : PluginHooks P) (files : list (ModFile P)).

Lemma append_hook_app {H} (l : list H) (a : option H) :
  append_hook l a = (l ++ match a with Some h => [h] | None => [] end)%list.
Proof. destruct a; simpl; [reflexivity | by rewrite app_nil_r]. Qed.

Lemma register_commands_app (a b : list (string * Hook P (Message * string) unit)) cmds :
  register_commands (a ++ b) cmds = register_commands b (register_commands a cmds).
Proof.
  revert cmds. induction a as [|[k h] a IH]; intros cmds; simpl; [reflexivity | apply IH].
Qed.

Lemma register_commands_other (items : list (string * Hook P (Message * string) unit)) cmds name :
  ~ In name (map fst items) -> register_commands items cmds !! name = cmds !! name.
Proof.
  revert cmds. induction items as [|[k h] items IH]; intros cmds Hn; simpl; [reflexivity|].
  simpl in Hn. rewrite IH; [|tauto].
  rewrite lookup_insert_ne; [reflexivity | intros ->; tauto].
Qed.

Lemma register_commands_last (before after : list (string * Hook P (Message * string) unit))
    name h cmds :
  ~ In name (map fst after) ->
  register_commands (before ++ (name, h) :: after) cmds !! name = Some h.
Proof.
  intros Hn. rewrite register_commands_app. simpl.
  rewrite register_commands_other; [|exact Hn]. apply lookup_insert_eq.
Qed.

(** What one file adds to the registry. *)
Lemma load_file_adds reg mod_file :
  let reg' := fst (load_file reg mod_file) in
  on_bot_ready reg' = append_hook (on_bot_ready reg) (loaded_module mod_file ≫= mod_on_bot_ready)
  /\ on_message_received reg'
     = append_hook (on_message_received reg) (loaded_module mod_file ≫= mod_on_message_received)
  /\ process_attachment reg'
     = append_hook (process_attachment reg) (loaded_module mod_file ≫= mod_process_attachment)
  /\ before_llm_call reg'
     = append_hook (before_llm_call reg) (loaded_module mod_file ≫= mod_before_llm_call)
  /\ after_llm_response reg'
     = append_hook (after_llm_response reg) (loaded_module mod_file ≫= mod_after_llm_response)
  /\ custom_commands reg'
     = register_commands
         (match loaded_module mod_file ≫= commands with Some items => items | None => [] end)
         (custom_commands reg).
Proof.
  unfold load_file, loaded_module.
  destruct (Py.startswith (file_name mod_file) "_"); [by simpl|].
  destruct (exec_module mod_file) as [module|e]; [|by simpl].
  destruct (setup module) as [[info|e]|]; try by simpl.
  simpl. repeat split; try reflexivity.
  by destruct (commands module).
Qed.

Lemma load_files_adds reg files :
  let reg' := fst (load_files reg files) in
  on_bot_ready reg' = (on_bot_ready reg ++ hooks_of mod_on_bot_ready files)%list
  /\ on_message_received reg'
     = (on_message_received reg ++ hooks_of mod_on_message_received files)%list
  /\ process_attachment reg'
     = (process_attachment reg ++ hooks_of mod_process_attachment files)%list
  /\ before_llm_call reg' = (before_llm_call reg ++ hooks_of mod_before_llm_call files)%list
  /\ after_llm_response reg'
     = (after_llm_response reg ++ hooks_of mod_after_llm_response files)%list
  /\ custom_commands reg' = register_commands (commands_of files) (custom_commands reg).
Proof.
  revert reg. induction files as [|mod_file files IH]; intros reg.
  - simpl. unfold hooks_of. simpl. by rewrite !app_nil_r.
  - simpl. pose proof (load_file_adds reg mod_file) as Hone.
    destruct (load_file reg mod_file) as [reg1 line]. simpl in Hone.
    specialize (IH reg1). destruct (load_files reg1 files) as [reg2 lines]. simpl in IH |- *.
    destruct Hone as (H1 & H2 & H3 & H4 & H5 & H6).
    destruct IH as (I1 & I2 & I3 & I4 & I5 & I6).
    rewrite I1, I2, I3, I4, I5, I6, H1, H2, H3, H4, H5, H6.
    rewrite !append_hook_app, <- !app_assoc, register_commands_app.
    unfold hooks_of. simpl.
    repeat split; try reflexivity;
      match goal with
      | |- context [loaded_module mod_file ≫= ?f] => by destruct (loaded_module mod_file ≫= f)
      end.
Qed.

End LoaderFacts.

(** X: [load_plugins] registers, at each hook point, the callables of
    the files it loads, in the order of the folder listing and at most
    one per file. A file whose name starts with an underscore, a file
    whose execution raises, a module without [setup] and a module whose
    [setup] raises contribute none, and none of them stops the loading
    of the files listed after it. *)
Theorem hooks_are_registered_in_listing_order {P} (files : list (ModFile P)) :
  let reg := fst (load_plugins (Some files)) in
  on_bot_ready reg = hooks_of mod_on_bot_ready files
  /\ on_message_received reg = hooks_of mod_on_message_received files
  /\ process_attachment reg = hooks_of mod_process_attachment files
  /\ before_llm_call reg = hooks_of mod_before_llm_call files
  /\ after_llm_response reg = hooks_of mod_after_llm_response files.
Proof.
  simpl. destruct (load_files_adds no_plugins files) as (H1 & H2 & H3 & H4 & H5 & _).
  simpl in *. by rewrite H1, H2, H3, H4, H5.
Qed.

(** X: a command name is bound to the callable registered last under
    it: when several loaded plug-ins (or several entries of one) define
    the same command, the one that comes last in the folder listing
    replaces the others without notice; a name no loaded plug-in defines
    is not a command. *)
Theorem last_registered_command_wins {P} (files : list (ModFile P)) (name : string) :
  let reg := fst (load_plugins (Some files)) in
  (~ In name (map fst (commands_of files)) -> custom_commands reg !! name = None)
  /\ (forall before h after,
        commands_of files = (before ++ (name, h) :: after)%list ->
        ~ In name (map fst after) ->
        custom_commands reg !! name = Some h).
Proof.
  simpl. destruct (load_files_adds no_plugins files) as (_ & _ & _ & _ & _ & H6).
  simpl in H6. rewrite H6. split.
  - intros Hn. rewrite register_commands_other; [apply lookup_empty | exact Hn].
  - intros before h after Heq Hn. rewrite Heq. by apply register_commands_last.
Qed.

Lemma last_registered_command_wins_witness :
  custom_commands (fst (load_plugins (Some Mods.folder))) !! "hug"
    = Some (Mods.command "vision.hug")
  /\ custom_commands (fst (load_plugins (Some Mods.folder))) !! "notes" = None.
Proof.
  split.
  - apply (proj2 (last_registered_command_wins Mods.folder "hug")
             [("hug", Mods.command "memory.hug"); ("recall", Mods.command "memory.recall");
              ("see", Mods.command "vision.see")]
             (Mods.command "vision.hug") []).
    + reflexivity.
    + simpl. tauto.
  - apply (proj1 (last_registered_command_wins Mods.folder "notes")).
    vm_compute. intros H. repeat destruct H as [H|H]; try discriminate H; exact H.
Defined.

(** ** The birthday task *)

Section BirthdayFacts.
Variable almanac : Almanac.

Lemma birthday_pass_app today (a b : list (string * PyDict)) :
  birthday_pass almanac today (a ++ b)
  = match birthday_pass almanac today a with
    | (evs, Some e) => (evs, Some e)
    | (evs, None) =>
        let '(evs', r) := birthday_pass almanac today b in ((evs ++ evs')%list, r)
    end.
Proof.
  induction a as [|[user_id data] a IH]; simpl.
  - by destruct (birthday_pass almanac today b).
  - destruct (dict_get "birthday" data) as [v|]; [|exact IH].
    destruct (birthday_of almanac v) as [e|birthday]; [reflexivity|].
    destruct (String.eqb birthday today); [|exact IH].
    destruct (greet almanac user_id) as [evs [e|]]; [reflexivity|].
    rewrite IH. destruct (birthday_pass almanac today a) as [evs1 [e|]]; [reflexivity|].
    destruct (birthday_pass almanac today b) as [evs2 r]. by rewrite app_assoc.
Qed.

(** The greeting goes to the user the key names, when the user is found. *)
Lemma greet_sends user_id evs r id text :
  greet almanac user_id = (evs, r) ->
  In (BdSend id text) evs <->
  text = BIRTHDAY_GREETING /\ int_of almanac user_id = Some id /\ fetch_user almanac id = None.
Proof.
  unfold greet. intros Hg.
  destruct (int_of almanac user_id) as [id'|] eqn:Hid.
  2:{ injection Hg as <- <-. simpl. split; [tauto | intros (_ & ? & _); discriminate]. }
  assert (Hsame : forall j, Some id' = Some j <-> id' = j)
    by (intros j; split; [by injection 1 | by intros ->]).
  destruct (fetch_user almanac id') as [e|] eqn:Hf.
  - assert (Hno : ~ In (BdSend id text) evs).
    { destruct (caught e); injection Hg as <- <-; simpl; unfold could_not_send;
        intuition discriminate. }
    split; [tauto|]. intros (_ & Hj & Hn). apply Hsame in Hj. subst id'. congruence.
  - assert (Hiff : In (BdSend id text) evs <-> id' = id /\ BIRTHDAY_GREETING = text).
    { assert (Hone : BdSend id' BIRTHDAY_GREETING = BdSend id text
                     <-> id' = id /\ BIRTHDAY_GREETING = text)
        by (split; [by injection 1 | by intros [-> ->]]).
      destruct (user_send almanac id') as [e|]; [destruct (caught e)|];
        injection Hg as <- <-; simpl; unfold could_not_send; rewrite Hone;
        intuition discriminate. }
    rewrite Hiff. split.
    + intros [-> <-]. by rewrite Hf.
    + intros (-> & Hj & _). apply Hsame in Hj. by subst.
Qed.

Lemma greet_treatable user_id data v :
  dict_get "birthday" data = Some v ->
  treatable almanac (user_id, data) ->
  exists evs, greet almanac user_id = (evs, None).
Proof.
  unfold treatable. simpl. intros -> (_ & id & Hid & Hf & Hs).
  unfold greet. rewrite Hid.
  destruct (fetch_user almanac id) as [e|].
  - rewrite (Hf e eq_refl). eauto.
  - destruct (user_send almanac id) as [e|]; [rewrite (Hs e eq_refl)|]; eauto.
Qed.

(** One pass over treatable records: it ends normally and greets the
    users born on the day. *)
Lemma birthday_pass_treatable today (items : list (string * PyDict)) :
  Forall (treatable almanac) items ->
  exists evs,
    birthday_pass almanac today items = (evs, None)
    /\ ~ In BdSleep evs
    /\ forall id text,
         In (BdSend id text) evs <->
         text = BIRTHDAY_GREETING
         /\ exists user_id data,
              In (user_id, data) items /\ born_on almanac data today
              /\ int_of almanac user_id = Some id /\ fetch_user almanac id = None.
Proof.
  induction 1 as [|[user_id data] items Hx _ IH].
  - exists []. simpl. split; [reflexivity|]. split; [tauto|].
    intros id text. split; [tauto|]. by intros (_ & ? & ? & [] & _).
  - destruct IH as (evs & Hp & Hsl & Hsend). simpl.
    assert (Hskip : ~ born_on almanac data today ->
              forall id text,
                In (BdSend id text) evs <->
                text = BIRTHDAY_GREETING
                /\ exists u d, In (u, d) ((user_id, data) :: items) /\ born_on almanac d today
                     /\ int_of almanac u = Some id /\ fetch_user almanac id = None).
    { intros Hnb id text. rewrite Hsend. split.
      - intros (Ht & u & d & Hin & Hb & Hi & Hf). split; [exact Ht|].
        exists u, d. repeat split; try assumption. by right.
      - intros (Ht & u & d & [Heq|Hin] & Hb & Hi & Hf); split; try exact Ht.
        + injection Heq as <- <-. contradiction.
        + exists u, d. by repeat split. }
    destruct (dict_get "birthday" data) as [v|] eqn:Hget.
    2:{ exists evs. split; [exact Hp|]. split; [exact Hsl|]. apply Hskip.
        intros (s & Hs & _). congruence. }
    pose proof Hx as Hx'. unfold treatable in Hx'. simpl in Hx'. rewrite Hget in Hx'.
    destruct Hx' as ((md & Hmd) & _). rewrite Hmd.
    assert (Hborn : born_on almanac data today <-> md = today).
    { unfold born_on. rewrite Hget. unfold birthday_of in Hmd. split.
      - intros (s & Hs & Hm). injection Hs as ->. rewrite Hm in Hmd. congruence.
      - intros <-. destruct v as [| |s]; try discriminate Hmd.
        exists s. split; [reflexivity|].
        destruct (month_day almanac s); [congruence | discriminate]. }
    destruct (String.eqb md today) eqn:Heqb.
    2:{ exists evs. split; [exact Hp|]. split; [exact Hsl|]. apply Hskip.
        rewrite Hborn. intros ->. by rewrite String.eqb_refl in Heqb. }
    apply String.eqb_eq in Heqb.
    destruct (greet_treatable user_id data v Hget Hx) as (evs0 & Hg). rewrite Hg, Hp.
    exists (evs0 ++ evs)%list. split; [reflexivity|]. split.
    + rewrite in_app_iff. intros [Hin|Hin]; [|by apply Hsl].
      unfold greet in Hg. destruct (int_of almanac user_id); [|by injection Hg as <-].
      destruct (fetch_user almanac z) as [e|];
        [destruct (caught e)
        |destruct (user_send almanac z) as [e|]; [destruct (caught e)|]];
        try discriminate Hg; injection Hg as <-; simpl in Hin; unfold could_not_send in Hin;
        intuition discriminate.
    + intros id text. rewrite in_app_iff, (greet_sends _ _ _ id text Hg), Hsend. split.
      * intros [(Ht & Hi & Hf)|(Ht & u & d & Hin & Hb & Hi & Hf)]; split; try exact Ht.
        -- exists user_id, data. repeat split; try assumption; [by left | by apply Hborn].
        -- exists u, d. repeat split; try assumption. by right.
      * intros (Ht & u & d & [Heq|Hin] & Hb & Hi & Hf).
        -- injection Heq as <- <-. left. by repeat split.
        -- right. split; [exact Ht|]. exists u, d. by repeat split.
Qed.

End BirthdayFacts.

(** X: one record with a birthday that does not parse ends the birthday
    task for good. Whatever the day, the first pass stops at the record
    with the exception of [strptime], which nothing catches: the task has
    done what a pass over the records before it does and no more, it
    never sleeps and never wakes again, so the users listed after the
    record are never greeted. *)
Theorem malformed_birthday_ends_the_task almanac before user_id data after v e today later :
  dict_get "birthday" data = Some v ->
  birthday_of almanac v = inl e ->
  exists e',
    birthday_checker almanac (before ++ (user_id, data) :: after) (today :: later)
    = (fst (birthday_pass almanac today before), Some e').
Proof.
  intros Hget Hbad. simpl. rewrite birthday_pass_app.
  destruct (birthday_pass almanac today before) as [evs [e0|]]; simpl.
  - by exists e0.
  - rewrite Hget, Hbad. rewrite app_nil_r. by exists e.
Qed.

Lemma malformed_birthday_ends_the_task_witness :
  exists e',
    birthday_checker Birthdays.almanac
      (Birthdays.family ++ Birthdays.mistyped :: [("6", [("birthday", PyStr "2010-03-15")])])
      ["03-14"; "03-15"]
    = ([BdFetchUser 1; BdSend 1 BIRTHDAY_GREETING; BdFetchUser 2;
        BdWarning "Could not send birthday message to user 2"], Some e').
Proof.
  exact (malformed_birthday_ends_the_task Birthdays.almanac Birthdays.family "4"
           (snd Birthdays.mistyped) [("6", [("birthday", PyStr "2010-03-15")])]
           (PyStr "march 14") _ "03-14" ["03-15"] eq_refl eq_refl).
Defined.

(** X: with records the task can treat (each birthday parses, each key
    of a record with a birthday reads as a number, Discord raises nothing
    but [NotFound] and [HTTPException]) the task survives every day, and
    over the days listed it sends the greeting, and nothing else, to
    exactly the users that Discord finds and whose birthday falls on one
    of those days. *)
Theorem birthday_task_greets_those_born_today almanac user_data days :
  Forall (treatable almanac) user_data ->
  exists evs,
    birthday_checker almanac user_data days = (evs, None)
    /\ sleeps evs
       = length days
    /\ forall id text,
         In (BdSend id text) evs <->
         text = BIRTHDAY_GREETING
         /\ exists user_id data md,
              In (user_id, data) user_data /\ born_on almanac data md /\ In md days
              /\ int_of almanac user_id = Some id /\ fetch_user almanac id = None.
Proof.
  intros Hok. induction days as [|today later IH].
  - exists []. simpl. split; [reflexivity|]. split; [reflexivity|].
    intros id text. split; [tauto|]. by intros (_ & ? & ? & ? & _ & _ & [] & _).
  - destruct IH as (evs' & Hrest & Hsl' & Hsend').
    destruct (birthday_pass_treatable almanac today user_data Hok) as (evs & Hp & Hsl & Hsend).
    simpl. rewrite Hp, Hrest. exists (evs ++ BdSleep :: evs')%list.
    split; [reflexivity|]. split.
    + unfold sleeps in *. rewrite List.filter_app. simpl. rewrite length_app. simpl.
      rewrite Hsl'.
      assert (Hnone : forall l : list BirthdayEvent, ~ In BdSleep l ->
                List.filter is_sleep l = []).
      { induction l as [|ev l IHl]; [reflexivity|]. simpl. intros Hn.
        destruct ev; try (apply IHl; tauto). tauto. }
      by rewrite (Hnone evs Hsl).
    + intros id text. rewrite in_app_iff. simpl. rewrite Hsend, Hsend'. split.
      * intros [(Ht & u & d & Hin & Hb & Hi & Hf)|[Hd|(Ht & u & d & md & Hin & Hb & Hmd & Hi & Hf)]].
        -- split; [exact Ht|]. exists u, d, today. repeat split; try assumption. by left.
        -- discriminate Hd.
        -- split; [exact Ht|]. exists u, d, md. repeat split; try assumption. by right.
      * intros (Ht & u & d & md & Hin & Hb & [<-|Hmd] & Hi & Hf).
        -- left. split; [exact Ht|]. exists u, d. by repeat split.
        -- right. right. split; [exact Ht|]. exists u, d, md. by repeat split.
Qed.

Lemma birthday_task_greets_those_born_today_witness :
  exists evs,
    birthday_checker Birthdays.almanac Birthdays.family ["03-13"; "03-14"] = (evs, None)
    /\ sleeps evs = 2%nat
    /\ forall id text,
         In (BdSend id text) evs <->
         text = BIRTHDAY_GREETING
         /\ exists user_id data md,
              In (user_id, data) Birthdays.family /\ born_on Birthdays.almanac data md
              /\ In md ["03-13"; "03-14"]
              /\ int_of Birthdays.almanac user_id = Some id
              /\ fetch_user Birthdays.almanac id = None.
Proof.
  apply (birthday_task_greets_those_born_today Birthdays.almanac Birthdays.family
           ["03-13"; "03-14"]).
  unfold Birthdays.family. repeat constructor; simpl;
    try (eexists; reflexivity);
    try (eexists; split; [reflexivity|]; split; intros e He; vm_compute in He;
         try discriminate He; by injection He as <-).
Defined.
